(* ===== verification/_CoqProject ===== *)
-Q . S2P
Prelude.v
GoStrings.v
GoScan.v
GoFloat.v
Json.v
JsonFacts.v
Tables.v
Sql.v
SqlFacts.v
Servers.v
Db.v
PgFacts.v
TxFacts.v
Logging.v
RedisClient.v
Consumer.v
Transfer.v
TransferFacts.v
RedisFacts.v
ReadFacts.v
Auth.v
AuthFacts.v
Account.v
AccountFacts.v
Notification.v
NotificationFacts.v
WebSocket.v
Events.v
Health.v
Producer.v
ProducerFacts.v
Metrics.v
Services.v
Ledger.v
SystemFacts.v
Api.v
Claims.v
Interleave.v
Pool.v
Concurrent.v
RefServers.v
Demo.v
TransferCorrect.v
AuthCorrect.v
AccountCorrect.v
NotificationCorrect.v
WebSocketCorrect.v
EventsCorrect.v
SystemCorrect.v
MetricsCorrect.v
ConcurrentCorrect.v
Web.v
WebCorrect.v
Lifecycle.v
LifecycleCorrect.v
Migrations.v
MigrationsCorrect.v
Startup.v
StartupCorrect.v
