(* ===== verification/Prelude.v ===== *)
(** * Banking demo: a verification of its Go services

    The program is a small bank. A browser talks HTTP to the gateway
    (src/producer), which turns each route into a NATS request; four services
    (src/services/auth-, account-, transfer- and notification-service) answer
    them. Their shared code is under src/internal: nats (session guards,
    dispatch, durable events), redis (sessions, user cache, presence, balance
    read model), db (row types, error classes, serializable retries), health,
    logging, metrics, service (process lifecycle). State lives in three places:
    PostgreSQL (users, transfers, notifications), Redis, and a JetStream
    stream of transfer events.

    ** Shape of the model

    Go code is embedded as programs of the state monad [M] over a [World]:
    the three servers and the process environment. What is not in the
    repository (PostgreSQL behind bob, Redis behind go-redis, JetStream,
    bcrypt, NATS, errgroup) is a class of operations with a class of laws
    (Servers, Producer.Nats, Services.NatsLaws, Lifecycle.Errgroup): every call may
    fail before or after it took effect, and the laws say what the observable
    state can then be. A handler is a Go function
    [ctx -> action -> payload -> headers -> M (result any error)]; a 500 is an
    [Err]. Theorems that hold for a server are proved from its laws only;
    RefServers and Demo give executable servers that satisfy the laws, and
    carry the witnesses and the runs of [stale_balance] and
    [torn_statistics].

    ** Files

    - Prelude: results, Go errors ([errors.Is], [errors.As]), the monad, its
      weakest preconditions [wp] and the [keeps] calculus, int64, list lemmas,
      tactics. GoStrings, GoScan, GoFloat: the parts of the standard library the
      code leans on (UTF-8 iteration, TrimSpace, Itoa/ParseInt, fmt.Sscan,
      float64 parsing and printing). Json, JsonFacts: encoding/json, with
      [Unmarshal (Marshal v) = Some (clean v)]: what is no UTF-8 in a string
      arrives as U+FFFD, the rest as it was.
    - Tables, Sql, SqlFacts: the row types and constraints of db.go and
      migrations/, the statements the services send and what they do to the
      tables (three-valued logic, CASE, BIGINT range, constraint errors).
      Migrations, MigrationsCorrect: the files of migrations/ and the init
      scripts of the chart, executed on a catalog with rows.
    - Servers: the interfaces and [World]. Db: internal/db/db.go. PgFacts,
      TxFacts, ReadFacts: what calls, transactions, retries and pure reads
      can do. RedisClient, RedisFacts: internal/redis/redis.go. Consumer:
      internal/nats/consumer.go. Events: internal/nats/jetstream.go and the
      projection of account-service/main.go. Logging, Health: the packages of
      the same name.
    - Transfer, Auth, Account, Notification: the handlers of the services,
      with their specifications in ...Facts and their theorems in ...Correct.
      WebSocket, WebSocketCorrect: ws.go and redis.Subscribe, an open
      connection as the step relation of its three goroutines.
    - Producer, ProducerFacts: handlers.go, rpc.go and the routes of main.go.
      Services: the consumers that the services' main.go build, and the bus.
      Api: the type of every reply. Metrics, MetricsCorrect: internal/metrics,
      producer/metrics.go, and the gateway and the dispatcher with every
      operation on an instrument.
    - Ledger, SystemFacts, SystemCorrect: the abstract bank, what one request
      does to it, and the theorems on the whole system.
    - Interleave, Pool, Claims, Concurrent, ConcurrentCorrect: requests as
      trees of server calls, any number of them at once, what they may do to
      the tables between two calls of another ([grown]), and every endpoint as
      such a tree with the number of its calls ([call_budget]), the claim of
      its successful replies and the one effect that it has on the tables. Web, WebCorrect: HTTP requests at the same
      time, each with the gateway, a bus that may lose messages in either
      direction, and the tree of its service.
    - Lifecycle, LifecycleCorrect: service.Runner.Run and the goroutines of the
      producer's main. Startup, StartupCorrect: the run and main functions,
      InitDeps, tracing.Init, NewClient, Connect and Consumer.Run as traces of
      the resources they open and release, with Go's deferred calls.

    ** What the theorems show

    - The bank: any HTTP request performs at most one step of an abstract
      ledger (open an account, move money the payer has), so after any
      sequence of requests and faults no balance is negative and every
      balance is explained by the transfers. A transfer is atomic, decided
      by the data when no fault occurs, and reported truthfully. The books
      also balance in every interleaving of the calls of any number of
      concurrent requests, requests that die half-way included; every
      request comes to an end within a number of calls that its endpoint
      fixes, retries included ([requests_end]); and a successful reply to a transfer, a
      registration or an acknowledgement is true of the tables when it is
      given and ever after ([replies_truthful]). What all the requests have
      done together is what some of them do one after the other, each at
      most once: those answered with success among them, those answered with
      a refusal not; the money goes from the user for whom Redis vouched
      ([writes_once]). For a browser this means: 200 or 201 is done once,
      4xx or 503 is not done, and after 500, 502 or 504 it cannot know
      ([http_writes_once]).
    - Sessions and secrets: the guards let exactly the holder of a live
      session through; without one no endpoint but register, login and health
      does anything; login needs a password that verifies.
    - Schema: the migrations and the chart leave the same catalog, whose valid
      rows are those of [schema_ok]; upgrades and downgrades keep every row
      or fail.
    - Read side: balances, listings, lookups, profiles and statistics return
      what the tables hold; statistics that overlap with transfers mix up to
      three states, one per query, because their transaction is READ COMMITTED,
      and would not if it were SERIALIZABLE ([torn_statistics]); the read model follows the committed balances of
      requests that run one after the other, and may stay behind when they
      overlap ([stale_balance]); a transfer that succeeds publishes its event
      with the committed balances ([transfer_event_projects]), the stream
      carries each transfer once and its replay rebuilds the read model.
    - Gateway: which handler runs, what it is given and what comes back,
      whatever bytes it holds, including what the detour of numbers through float64 does. Every reply
      has a status and a body of the type that [api] lists ([replies_typed]).
      The instruments change no reply and count what happened, except that a
      path that is not UTF-8 makes them panic ([gateway_metrics]).
    - WebSocket: published messages arrive in order, each once, through a
      channel of 16; an open connection drains, a cancelled one ends with all
      its goroutines.
    - Processes: a service releases what it opened in the reverse order on
      every path, ends after a signal, and its exit code says why; the
      producer does not end after a signal, and never flushes its traces.

    ** Bounds and fuel

    The recursion of the JSON parser is bounded by the number of tokens plus
    one, which JsonFacts proves enough for every printed value. The retry
    loops run over the lists the code runs over (5 attempts of a serializable
    transaction, 20 account numbers). Numbers are Z with the range of the Go or
    SQL type written out ([wrap64], [in_int64], [sql_arith]). The fault budget
    [h] of TxFacts and RedisFacts is [None] for arbitrary faults and [Some n]
    when the next n operations meet none; totality results use the latter.

    ** Not modelled

    Spans and the lines that are logged: no reply depends on them; of the
    durations that histograms observe only the number is kept. What happens
    inside connections and reconnects (nats.go, pgxpool, go-redis, the WebSocket
    upgrade and its frames) and the parsing of the environment into a config
    are third-party code. A WebSocket is cancelled by its client or by the end
    of its handler: a shutdown of the HTTP server leaves it alone. Texts of library errors are only
    approximated; the only place that shows one is the detail of a 502. The
    bytes of a [json.RawMessage] are represented by their tree. The options of
    a transaction decide how [RunInTx] runs its callback: a SERIALIZABLE
    transaction sees one state of the tables and is one call of the
    interleavings, a READ COMMITTED one is as many calls as it has statements.
    That a read-only transaction rejects writes is not modelled; the one there
    is has none. Of the migrations, locks and the statistics settings
    of the chart are left out. The lines of the Go files that the map does not
    cover are imports, comments, log lines and the configuration of the other
    three services, which has the shape of that of account-service. The functional
    theorems on single handlers describe a request that is not interrupted
    by others; what holds between the calls of concurrent requests is
    stated in ConcurrentCorrect. *)

From stdpp Require Export base tactics list gmap strings numbers sorting.
From Stdlib Require Export ZArith Lia.

#[global] Open Scope Z_scope.

(** ** Results of fallible calls *)

(** A Go call that returns [(T, error)] either yields a value or an error. *)
Inductive result (A E : Type) : Type :=
| Ok (a : A)
| Err (e : E).
Arguments Ok {A E} a.
Arguments Err {A E} e.

Definition rmap {A B E} (f : A -> B) (r : result A E) : result B E :=
  match r with Ok a => Ok (f a) | Err e => Err e end.

Definition rbind {A B E} (r : result A E) (f : A -> result B E) : result B E :=
  match r with Ok a => f a | Err e => Err e end.

Definition is_ok {A E} (r : result A E) : bool :=
  match r with Ok _ => true | Err _ => false end.

(** ** Go error values

    [EApp] is a sentinel of this repository ([errors.New] bound to a package
    variable), [ELib] a sentinel of the standard library or of a driver,
    [EPg] a [*pgconn.PgError], [EOther] any other leaf, [EWrap] what
    [fmt.Errorf("...: %w", err)] builds and [EJoin] what [errors.Join]
    builds. *)
Inductive goerr : Type :=
| EApp (name : string)
| ELib (name : string)
| EPg (code msg : string)
| EOther (msg : string)
| EWrap (prefix : string) (e : goerr)
| EJoin (e1 e2 : goerr).

#[global] Instance goerr_eq_dec : EqDecision goerr.
Proof. solve_decision. Defined.

(** [errors.Is(err, target)] for a sentinel [target]. *)
Fixpoint errors_Is (e target : goerr) : bool :=
  bool_decide (e = target) ||
  match e with
  | EWrap _ e' => errors_Is e' target
  | EJoin e1 e2 => errors_Is e1 target || errors_Is e2 target
  | _ => false
  end.

(** [errors.As(err, &pgErr)]: the code of the first [*pgconn.PgError] of the
    chain, in depth-first order. *)
Fixpoint errors_As_pg (e : goerr) : option string :=
  match e with
  | EPg c _ => Some c
  | EWrap _ e' => errors_As_pg e'
  | EJoin e1 e2 =>
      match errors_As_pg e1 with Some c => Some c | None => errors_As_pg e2 end
  | _ => None
  end.

(** [err.Error()]. *)
Fixpoint err_text (e : goerr) : string :=
  match e with
  | EApp s | ELib s | EOther s => s
  | EPg c m => "ERROR: " +:+ m +:+ " (SQLSTATE " +:+ c +:+ ")"
  | EWrap p e' => p +:+ ": " +:+ err_text e'
  | EJoin e1 e2 => err_text e1 +:+ String (Ascii.ascii_of_nat 10) (err_text e2)
  end.

(** An error that carries no sentinel of this repository: all that drivers
    and servers can return, since the sentinels are package variables. *)
Fixpoint foreign (e : goerr) : bool :=
  match e with
  | EApp _ => false
  | ELib _ | EPg _ _ | EOther _ => true
  | EWrap _ e' => foreign e'
  | EJoin e1 e2 => foreign e1 && foreign e2
  end.

Lemma foreign_not_app e s : foreign e = true -> errors_Is e (EApp s) = false.
Proof.
  induction e; simpl; intros Hf; try done.
  - by rewrite IHe.
  - apply andb_true_iff in Hf as [H1 H2]. by rewrite IHe1, IHe2.
Qed.

(** ** The state monad of the services *)

Definition M (W A : Type) : Type := W -> A * W.

Definition ret {W A} (a : A) : M W A := fun w => (a, w).

Definition bind {W A B} (m : M W A) (k : A -> M W B) : M W B :=
  fun w => let '(a, w') := m w in k a w'.

Declare Scope go_scope.
Delimit Scope go_scope with go.
Notation "'let*' x ':=' m 'in' k" := (bind m (fun x => k))
  (at level 10, x pattern, m at level 100, k at level 200,
   format "'[v' 'let*'  x  ':='  m  'in' '/' k ']'") : go_scope.
Notation "m1 ;;; m2" := (bind m1 (fun _ => m2))
  (at level 100, right associativity) : go_scope.
#[global] Open Scope go_scope.

(** [wp m Q w]: the run of [m] from [w] ends in a value and a state that
    satisfy [Q]. *)
Definition wp {W A} (m : M W A) (Q : A -> W -> Prop) (w : W) : Prop :=
  let '(a, w') := m w in Q a w'.

Lemma wp_ret {W A} (a : A) (Q : A -> W -> Prop) w : Q a w -> wp (ret a) Q w.
Proof. done. Qed.

Lemma wp_bind {W A B} (m : M W A) (k : A -> M W B) Q w :
  wp m (fun a w' => wp (k a) Q w') w -> wp (bind m k) Q w.
Proof. unfold wp, bind. by destruct (m w). Qed.

Lemma wp_bind_inv {W A B} (m : M W A) (k : A -> M W B) Q w :
  wp (bind m k) Q w -> wp m (fun a w' => wp (k a) Q w') w.
Proof. unfold wp, bind. by destruct (m w). Qed.

Lemma wp_mono {W A} (m : M W A) (Q Q' : A -> W -> Prop) w :
  wp m Q w -> (forall a w', Q a w' -> Q' a w') -> wp m Q' w.
Proof. unfold wp. destruct (m w). eauto. Qed.

Lemma wp_and {W A} (m : M W A) (Q Q' : A -> W -> Prop) w :
  wp m Q w -> wp m Q' w -> wp m (fun a w' => Q a w' /\ Q' a w') w.
Proof. unfold wp. destruct (m w). eauto. Qed.

(** [keeps R m]: every run of [m] relates its first and last state by [R]. *)
Definition keeps {W A} (R : W -> W -> Prop) (m : M W A) : Prop := forall w, R w (m w).2.

Lemma keeps_ret {W A} (R : W -> W -> Prop) `{!Reflexive R} (a : A) : keeps R (ret a).
Proof. intros w. done. Qed.

Lemma keeps_bind {W A B} (R : W -> W -> Prop) `{!Transitive R} (m : M W A) (k : A -> M W B) :
  keeps R m -> (forall a, keeps R (k a)) -> keeps R (bind m k).
Proof.
  intros Hm Hk w. unfold bind. specialize (Hm w). destruct (m w) as [a w'].
  etransitivity; [exact Hm|]. apply Hk.
Qed.

Lemma keeps_wp {W A} (R : W -> W -> Prop) (m : M W A) w :
  keeps R m -> wp m (fun _ w' => R w w') w.
Proof. intros H. specialize (H w). unfold wp. by destruct (m w). Qed.

Lemma wp_keeps {W A} (R : W -> W -> Prop) (m : M W A) :
  (forall w, wp m (fun _ w' => R w w') w) -> keeps R m.
Proof. intros H w. specialize (H w). unfold wp in H. by destruct (m w). Qed.

(** ** Machine integers *)

Definition int64_min : Z := - 2 ^ 63.
Definition int64_max : Z := 2 ^ 63 - 1.

(** The range of Go's [int64], of [int] on the 64-bit targets the services
    are built for, and of PostgreSQL's [BIGINT]. *)
Definition in_int64 (z : Z) : Prop := int64_min <= z <= int64_max.

#[global] Instance in_int64_dec z : Decision (in_int64 z).
Proof. unfold in_int64. apply _. Defined.

(** Two's-complement truncation to [w] bits. *)
Definition wrap (w z : Z) : Z := (z + 2 ^ (w - 1)) mod 2 ^ w - 2 ^ (w - 1).

Definition wrap64 : Z -> Z := wrap 64.
Definition wrap32 : Z -> Z := wrap 32.

Lemma wrap64_id z : in_int64 z -> wrap64 z = z.
Proof.
  unfold in_int64, int64_min, int64_max, wrap64, wrap. intros H.
  change (64 - 1) with 63. rewrite Z.mod_small; lia.
Qed.

Lemma wrap64_range z : in_int64 (wrap64 z).
Proof.
  unfold in_int64, int64_min, int64_max, wrap64, wrap. change (64 - 1) with 63.
  pose proof (Z.mod_pos_bound (z + 2 ^ 63) (2 ^ 64) ltac:(lia)). lia.
Qed.

Lemma Z_eqb_bool_decide x y : (x =? y) = bool_decide (x = y).
Proof. destruct (Z.eqb_spec x y); symmetry; by case_bool_decide. Qed.

(** ** Lists *)

Definition sumZ (l : list Z) : Z := foldr Z.add 0 l.

Lemma sumZ_app l1 l2 : sumZ (l1 ++ l2) = sumZ l1 + sumZ l2.
Proof. induction l1 as [|x l IH]; simpl; [done|]. unfold sumZ in *. simpl. lia. Qed.

#[global] Instance sumZ_perm : Proper ((≡ₚ) ==> (=)) sumZ.
Proof. unfold sumZ. induction 1; simpl; lia. Qed.

Lemma sumZ_nonneg l : Forall (fun z => 0 <= z) l -> 0 <= sumZ l.
Proof. induction 1; unfold sumZ in *; simpl; lia. Qed.

Lemma sumZ_map_add {A} (f g : A -> Z) l :
  sumZ (map (fun x => f x + g x) l) = sumZ (map f l) + sumZ (map g l).
Proof. unfold sumZ. induction l; simpl; lia. Qed.

Lemma sumZ_map_ext {A} (f g : A -> Z) l :
  (forall x, x ∈ l -> f x = g x) -> sumZ (map f l) = sumZ (map g l).
Proof.
  unfold sumZ. induction l as [|x l IH]; simpl; intros H; [done|].
  rewrite IH, (H x) by set_solver. done.
Qed.

Lemma NoDup_map_filter {A B} (f : A -> B) (g : A -> bool) l :
  NoDup (map f l) -> NoDup (map f (List.filter g l)).
Proof.
  induction l as [|x l IH]; [done|]. simpl. intros [Hx Hn]%NoDup_cons.
  destruct (g x); simpl; [|by apply IH]. apply NoDup_cons. split; [|by apply IH].
  intros (y & Ey & Hy)%list_elem_of_fmap. apply Hx.
  rewrite list_elem_of_In, filter_In, <- list_elem_of_In in Hy.
  rewrite Ey. by apply list_elem_of_fmap_2, Hy.
Qed.

Lemma elem_of_filter_bool {A} (g : A -> bool) x l :
  x ∈ List.filter g l <-> x ∈ l /\ g x = true.
Proof. by rewrite !list_elem_of_In, filter_In. Qed.

Lemma filter_true {A} (l : list A) : List.filter (fun _ => true) l = l.
Proof. induction l as [|x l IH]; simpl; [done|]. by rewrite IH. Qed.

Lemma filter_perm {A} (f : A -> bool) l1 l2 : l1 ≡ₚ l2 -> List.filter f l1 ≡ₚ List.filter f l2.
Proof. induction 1; simpl; repeat case_match; eauto using Permutation; by constructor. Qed.

(** ** Proof automation *)

Create HintDb bank discriminated.

(** Runs one step of a [wp] goal: a [ret] closes, a [bind] sequences. *)
Ltac wp_step :=
  lazymatch goal with
  | |- wp (ret _) _ _ => apply wp_ret
  | |- wp (bind _ _) _ _ => apply wp_bind
  end.

(** Case analysis on the scrutinee of a [match] or [if] in the goal. *)
Ltac case_goal :=
  match goal with
  | |- context [match ?x with _ => _ end] =>
      lazymatch x with context [match _ with _ => _ end] => fail | _ => idtac end;
      let E := fresh "E" in destruct x eqn:E
  end.

(** Breaks pairs, conjunctions and existentials in the context. *)
Ltac split_hyps :=
  repeat match goal with
  | H : _ /\ _ |- _ => destruct H
  | H : exists _, _ |- _ => destruct H
  | H : (_, _) = (_, _) |- _ => injection H as H; subst
  | H : Ok _ = Ok _ |- _ => injection H as H; subst
  | H : Err _ = Err _ |- _ => injection H as H; subst
  | H : Ok _ = Err _ |- _ => discriminate H
  | H : Err _ = Ok _ |- _ => discriminate H
  end.

(** Proves [keeps R m] along the structure of [m]: sequencing, branching, and
    the hints of [bank] for the operations. *)
Ltac keep :=
  repeat first
    [ progress intros
    | apply keeps_ret; apply _
    | assumption
    | solve [eauto 3 with bank]
    | apply keeps_bind; [apply _| |]
    | case_goal ].

(** Turns boolean hypotheses into propositions. *)
Ltac bool_hyps :=
  repeat match goal with
  | H : (_ && _) = true |- _ => apply andb_true_iff in H as [? ?]
  | H : (_ || _) = false |- _ => apply orb_false_iff in H as [? ?]
  | H : negb _ = true |- _ => apply negb_true_iff in H
  | H : negb _ = false |- _ => apply negb_false_iff in H
  | H : bool_decide _ = true |- _ => apply bool_decide_eq_true in H
  | H : bool_decide _ = false |- _ => apply bool_decide_eq_false in H
  end.
