(* ===== verification/GoStrings.v ===== *)
(** * Go strings, as the services use them

    Strings are byte strings. [runes] is the iteration of [for _, r := range
    s] (package unicode/utf8): every element pairs the rune with the bytes it
    was decoded from, an invalid byte giving U+FFFD with that single byte.
    On top of it: [strings.TrimSpace], [strings.Repeat], [strconv.Itoa],
    [strconv.ParseInt]/[strconv.Atoi] and the case folding of
    encoding/json. *)

From S2P Require Import Prelude.
From Stdlib Require Import Ascii DecimalString DecimalPos DecimalZ DecimalFacts.
From Stdlib Require String.

Definition byte_val (c : ascii) : Z := Z.of_N (N_of_ascii c).
Definition byte_chr (z : Z) : ascii := ascii_of_N (Z.to_N z).

(** [len(s)]: the number of bytes. *)
Definition go_len (s : string) : Z := Z.of_nat (String.length s).

(** ** Decoding UTF-8 *)

Definition rune_error : Z := 65533.

Definition in_range (lo hi : Z) (c : ascii) : bool :=
  (lo <=? byte_val c) && (byte_val c <=? hi).

Definition cont (c : ascii) : bool := in_range 128 191 c.
Definition low6 (c : ascii) : Z := Z.land (byte_val c) 63.

(** The accepted range of the second byte depends on the first (the table
    [acceptRanges] of unicode/utf8). *)
Definition second3 (b0 : Z) (c : ascii) : bool :=
  if b0 =? 224 then in_range 160 191 c
  else if b0 =? 237 then in_range 128 159 c else cont c.
Definition second4 (b0 : Z) (c : ascii) : bool :=
  if b0 =? 240 then in_range 144 191 c
  else if b0 =? 244 then in_range 128 143 c else cont c.

Abbreviation str1 c := (String c EmptyString).

Fixpoint runes (s : string) : list (Z * string) :=
  match s with
  | EmptyString => []
  | String c0 t0 =>
      let b0 := byte_val c0 in
      if b0 <? 128 then (b0, str1 c0) :: runes t0
      else if (194 <=? b0) && (b0 <=? 223) then
        match t0 with
        | String c1 t1 =>
            if cont c1
            then (Z.lor (Z.shiftl (Z.land b0 31) 6) (low6 c1),
                  String c0 (str1 c1)) :: runes t1
            else (rune_error, str1 c0) :: runes t0
        | _ => (rune_error, str1 c0) :: runes t0
        end
      else if (224 <=? b0) && (b0 <=? 239) then
        match t0 with
        | String c1 (String c2 t2) =>
            if second3 b0 c1 && cont c2
            then (Z.lor (Z.shiftl (Z.land b0 15) 12)
                    (Z.lor (Z.shiftl (low6 c1) 6) (low6 c2)),
                  String c0 (String c1 (str1 c2))) :: runes t2
            else (rune_error, str1 c0) :: runes t0
        | _ => (rune_error, str1 c0) :: runes t0
        end
      else if (240 <=? b0) && (b0 <=? 244) then
        match t0 with
        | String c1 (String c2 (String c3 t3)) =>
            if second4 b0 c1 && cont c2 && cont c3
            then (Z.lor (Z.shiftl (Z.land b0 7) 18)
                    (Z.lor (Z.shiftl (low6 c1) 12)
                       (Z.lor (Z.shiftl (low6 c2) 6) (low6 c3))),
                  String c0 (String c1 (String c2 (str1 c3)))) :: runes t3
            else (rune_error, str1 c0) :: runes t0
        | _ => (rune_error, str1 c0) :: runes t0
        end
      else (rune_error, str1 c0) :: runes t0
  end.

(** A decoded element that stands for an invalid byte. *)
Definition is_bad (p : Z * string) : bool :=
  (p.1 =? rune_error) && (go_len p.2 =? 1).

Definition utf8_valid (s : string) : bool := forallb (fun p => negb (is_bad p)) (runes s).

Definition concat_str (l : list string) : string := foldr String.app "" l.

Definition unrunes (l : list (Z * string)) : string := concat_str (map snd l).

(** The number of characters, as PostgreSQL's [VARCHAR(n)] counts them. *)
Definition char_len (s : string) : Z := Z.of_nat (length (runes s)).

(** ** strings.TrimSpace *)

(** [unicode.IsSpace]. *)
Definition is_space (r : Z) : bool :=
  bool_decide (r ∈ [9; 10; 11; 12; 13; 32; 133; 160; 5760; 8232; 8233; 8239;
                    8287; 12288]) ||
  ((8192 <=? r) && (r <=? 8202)).

Fixpoint drop_spaces (l : list (Z * string)) : list (Z * string) :=
  match l with
  | [] => []
  | p :: l' => if is_space p.1 then drop_spaces l' else l
  end.

Definition TrimSpace (s : string) : string :=
  unrunes (reverse (drop_spaces (reverse (drop_spaces (runes s))))).

(** ** strings.Repeat, slices *)

Fixpoint repeat_str (s : string) (n : nat) : string :=
  match n with O => "" | S n' => s +:+ repeat_str s n' end.

(** [strings.Repeat(s, n)] panics for a negative count: [None]. *)
Definition Repeat (s : string) (n : Z) : option string :=
  if n <? 0 then None else Some (repeat_str s (Z.to_nat n)).

(** [s[:n]] and [s[n:]], for [0 <= n <= len(s)]; out of range they panic. *)
Definition slice_to (s : string) (n : Z) : option string :=
  if (0 <=? n) && (n <=? go_len s)
  then Some (String.substring 0 (Z.to_nat n) s) else None.
Definition slice_from (s : string) (n : Z) : option string :=
  if (0 <=? n) && (n <=? go_len s)
  then Some (String.substring (Z.to_nat n) (String.length s - Z.to_nat n) s)
  else None.

(** ** strconv *)

(** [strconv.Itoa], and the [%d] of fmt. *)
Definition Itoa (z : Z) : string := NilZero.string_of_int (Z.to_int z).

Definition err_syntax : goerr := ELib "invalid syntax".
Definition err_range : goerr := ELib "value out of range".

(** An unsigned decimal: one digit at least, digits only. *)
Definition parse_digits (s : string) : option Z :=
  match NilZero.uint_of_string s with
  | Some d => Some (Z.of_uint d)
  | None => None
  end.

Definition check_int64 (z : Z) : result Z goerr :=
  if decide (in_int64 z) then Ok z else Err err_range.

(** [strconv.ParseInt(s, 10, 64)]; [strconv.Atoi] agrees with it where [int]
    has 64 bits. *)
Definition ParseInt (s : string) : result Z goerr :=
  let '(neg, digits) :=
    match s with
    | String c t =>
        if (byte_val c =? 43) then (false, t)
        else if (byte_val c =? 45) then (true, t) else (false, s)
    | EmptyString => (false, s)
    end in
  match parse_digits digits with
  | None => Err err_syntax
  | Some n => check_int64 (if neg then - n else n)
  end.

Definition Atoi : string -> result Z goerr := ParseInt.

(** ** The key folding of encoding/json (foldName) *)

(** Upper-cases ASCII; the two non-ASCII characters that fold to ASCII are
    U+017F (to S) and U+212A (to K). *)
Definition fold_rune (r : Z) : Z :=
  if (97 <=? r) && (r <=? 122) then r - 32
  else if r =? 383 then 83 else if r =? 8490 then 75 else r.

Definition fold_name (s : string) : list Z := map (fun p => fold_rune p.1) (runes s).

Definition fold_eq (s t : string) : bool := bool_decide (fold_name s = fold_name t).

(** ** Lemmas *)

Lemma str_app_cons c s t : String c s +:+ t = String c (s +:+ t).
Proof. done. Qed.

Lemma str_app_nil s : "" +:+ s = s.
Proof. done. Qed.

Lemma str_app_nil_r s : s +:+ "" = s.
Proof. induction s as [|c s IH]; [done|]. rewrite str_app_cons. by rewrite IH. Qed.

Lemma str_app_assoc s t u : (s +:+ t) +:+ u = s +:+ (t +:+ u).
Proof. induction s as [|c s IH]; [done|]. rewrite !str_app_cons. by rewrite IH. Qed.

Lemma str_app_length s t :
  String.length (s +:+ t) = (String.length s + String.length t)%nat.
Proof. induction s as [|c s IH]; [done|]. rewrite str_app_cons. simpl. by rewrite IH. Qed.

Lemma concat_str_app l1 l2 : concat_str (l1 ++ l2) = concat_str l1 +:+ concat_str l2.
Proof.
  induction l1 as [|s l IH]; [done|]. unfold concat_str in *. simpl.
  by rewrite IH, str_app_assoc.
Qed.

(** Strong induction on the length of a string. *)
Lemma string_len_ind (P : string -> Prop) :
  (forall s, (forall t, (String.length t < String.length s)%nat -> P t) -> P s) ->
  forall s, P s.
Proof.
  intros H s. remember (String.length s) as n eqn:Hn. revert s Hn.
  induction (lt_wf n) as [n _ IH]. intros s ->. apply H. intros t Ht.
  by eapply IH.
Qed.

(** One decoding step: the first element of [runes], and what is left. *)
Lemma runes_cons c t :
  exists r b u, runes (String c t) = (r, b) :: runes u /\
    String c t = b +:+ u /\ (0 < String.length b)%nat.
Proof.
  cbn [runes]. repeat case_goal;
    match goal with
    | |- exists _ _ _, (?r, ?b) :: runes ?u = _ /\ _ => exists r, b, u
    end; (split; [done|split; [done|simpl; lia]]).
Qed.

Lemma unrunes_runes s : unrunes (runes s) = s.
Proof.
  induction s as [s IH] using string_len_ind. destruct s as [|c t]; [done|].
  destruct (runes_cons c t) as (r & b & u & -> & Hs & Hb).
  rewrite Hs. unfold unrunes, concat_str in *. simpl. rewrite IH; [done|].
  rewrite Hs, str_app_length. lia.
Qed.

Definition is_ascii (c : ascii) : bool := byte_val c <? 128.

Lemma runes_ascii_cons c t :
  is_ascii c = true -> runes (String c t) = (byte_val c, str1 c) :: runes t.
Proof. unfold is_ascii. intros H. cbn [runes]. by rewrite H. Qed.

Fixpoint all_bytes (p : ascii -> bool) (s : string) : bool :=
  match s with EmptyString => true | String c t => p c && all_bytes p t end.

Lemma all_bytes_app p s t : all_bytes p (s +:+ t) = all_bytes p s && all_bytes p t.
Proof.
  induction s as [|c s IH]; [done|]. rewrite str_app_cons. simpl.
  by rewrite IH, andb_assoc.
Qed.

Lemma all_bytes_impl (p q : ascii -> bool) s :
  (forall c, p c = true -> q c = true) -> all_bytes p s = true -> all_bytes q s = true.
Proof.
  intros H. induction s as [|c s IH]; simpl; [done|].
  intros [H1 H2]%andb_true_iff. by rewrite (H c H1), IH.
Qed.

(** Decimal digits. *)
Definition is_digit (c : ascii) : bool := in_range 48 57 c.

Lemma digit_ascii c : is_digit c = true -> is_ascii c = true.
Proof. unfold is_digit, in_range, is_ascii. lia. Qed.

Lemma string_of_uint_digits d : all_bytes is_digit (NilEmpty.string_of_uint d) = true.
Proof. induction d; simpl; try rewrite IHd; done. Qed.

Lemma string_of_uint_NilZero d :
  d <> Decimal.Nil -> NilZero.string_of_uint d = NilEmpty.string_of_uint d.
Proof. by destruct d. Qed.

Lemma Itoa_pos z : 0 <= z -> exists d, d <> Decimal.Nil /\
  Itoa z = NilEmpty.string_of_uint d /\ Z.of_uint d = z.
Proof.
  intros Hz. unfold Itoa. pose proof (DecimalZ.of_to z) as Ho.
  destruct (Z.to_int z) as [d|d] eqn:E.
  - assert (d <> Decimal.Nil) as Hd by (destruct z; simpl in E; try discriminate; injection E as <-;
      [done|apply DecimalPos.Unsigned.to_uint_nonnil]).
    exists d. split; [done|]. split; [|done].
    simpl. by rewrite string_of_uint_NilZero.
  - destruct z; simpl in E; try discriminate. lia.
Qed.

Lemma Itoa_neg z : z < 0 -> exists d, d <> Decimal.Nil /\
  Itoa z = String "-" (NilEmpty.string_of_uint d) /\ Z.of_uint d = - z.
Proof.
  intros Hz. unfold Itoa. destruct z as [|p|p]; [lia|lia|].
  exists (Pos.to_uint p). split; [apply DecimalPos.Unsigned.to_uint_nonnil|].
  split.
  - simpl. rewrite string_of_uint_NilZero; [done|].
    apply DecimalPos.Unsigned.to_uint_nonnil.
  - pose proof (DecimalZ.of_to (Z.neg p)) as Ho. simpl in Ho.
    unfold Z.of_int in Ho. lia.
Qed.

Lemma parse_digits_of_uint d :
  d <> Decimal.Nil -> parse_digits (NilEmpty.string_of_uint d) = Some (Z.of_uint d).
Proof.
  intros Hd. unfold parse_digits.
  rewrite <- string_of_uint_NilZero by done. by rewrite NilZero.usu.
Qed.

Lemma head_digit d c t :
  NilEmpty.string_of_uint d = String c t -> is_digit c = true.
Proof.
  intros H. pose proof (string_of_uint_digits d) as Hd. rewrite H in Hd.
  simpl in Hd. by apply andb_true_iff in Hd as [Hd _].
Qed.

(** The decimal text of an [int64] parses back to it. *)
Lemma ParseInt_Itoa z : in_int64 z -> ParseInt (Itoa z) = Ok z.
Proof.
  intros Hz. assert (check_int64 z = Ok z) as Hc
    by (unfold check_int64; by rewrite decide_True).
  destruct (Z.lt_ge_cases z 0) as [Hn|Hn].
  - destruct (Itoa_neg z Hn) as (d & Hd & -> & Hv). unfold ParseInt.
    change (byte_val "-" =? 43) with false. change (byte_val "-" =? 45) with true.
    cbv iota beta. rewrite parse_digits_of_uint by done. rewrite Hv, Z.opp_involutive. done.
  - destruct (Itoa_pos z Hn) as (d & Hd & -> & Hv). unfold ParseInt.
    destruct (NilEmpty.string_of_uint d) as [|c t] eqn:E; [by destruct d|].
    pose proof (head_digit _ _ _ E) as Hdig. unfold is_digit, in_range in Hdig.
    replace (byte_val c =? 43) with false by lia.
    replace (byte_val c =? 45) with false by lia.
    rewrite <- E, parse_digits_of_uint by done. by rewrite Hv.
Qed.

Lemma Itoa_inj z1 z2 : Itoa z1 = Itoa z2 -> z1 = z2.
Proof.
  unfold Itoa. intros H.
  assert (Z.to_int z1 = Z.to_int z2) as E.
  { assert (forall z, NilZero.int_of_string (NilZero.string_of_int (Z.to_int z)) = Some (Z.to_int z)) as Hs.
    { intros z. apply NilZero.isi; destruct z; simpl; try done;
        intros [= E]; by apply DecimalPos.Unsigned.to_uint_nonnil in E. }
    pose proof (Hs z1) as H1. rewrite H, Hs in H1. by injection H1. }
  rewrite <- (DecimalZ.of_to z1), <- (DecimalZ.of_to z2). by rewrite E.
Qed.

Lemma Itoa_ascii z : all_bytes is_ascii (Itoa z) = true.
Proof.
  destruct (Z.lt_ge_cases z 0) as [Hn|Hn].
  - destruct (Itoa_neg z Hn) as (d & _ & -> & _). simpl.
    eapply all_bytes_impl; [apply digit_ascii|apply string_of_uint_digits].
  - destruct (Itoa_pos z Hn) as (d & _ & -> & _).
    eapply all_bytes_impl; [apply digit_ascii|apply string_of_uint_digits].
Qed.

(** ** Prefixing keys *)

Lemma app_inj_l p s t : p +:+ s = p +:+ t -> s = t.
Proof. induction p as [|c p IH]; [done|]. rewrite !str_app_cons. intros [= H]. eauto. Qed.

(** ** Lengths of decimals *)

Lemma length_string_of_uint d :
  String.length (NilEmpty.string_of_uint d) = Decimal.nb_digits d.
Proof. induction d; simpl; [done|..]; by rewrite IHd. Qed.

Lemma nb_digits_revapp d e :
  Decimal.nb_digits (Decimal.revapp d e) = (Decimal.nb_digits d + Decimal.nb_digits e)%nat.
Proof. revert e. induction d; intros e; simpl; [done|..]; rewrite IHd; simpl; lia. Qed.

Lemma nb_digits_double d :
  (Decimal.nb_digits (Decimal.Little.double d) <= 1 + Decimal.nb_digits d)%nat /\
  (Decimal.nb_digits (Decimal.Little.succ_double d) <= 1 + Decimal.nb_digits d)%nat.
Proof. induction d; simpl; lia. Qed.

Lemma nb_digits_little p :
  (Decimal.nb_digits (Pos.to_little_uint p) <= Pos.size_nat p)%nat.
Proof.
  induction p as [p IH|p IH|]; simpl; [| |lia];
    pose proof (nb_digits_double (Pos.to_little_uint p)); lia.
Qed.

Lemma size_nat_bound p n : Z.pos p < 2 ^ Z.of_nat n -> (Pos.size_nat p <= n)%nat.
Proof.
  revert n. induction p as [p IH|p IH|]; intros [|n] H; simpl; try lia;
    try (change (2 ^ Z.of_nat 0) with 1 in H; lia);
    rewrite Nat2Z.inj_succ, Z.pow_succ_r in H by lia;
    specialize (IH n ltac:(lia)); lia.
Qed.

Lemma uint_length_bound p n :
  Z.pos p < 2 ^ Z.of_nat n ->
  (String.length (NilEmpty.string_of_uint (Pos.to_uint p)) <= n)%nat.
Proof.
  intros Hp. rewrite length_string_of_uint. unfold Pos.to_uint, Decimal.rev.
  rewrite nb_digits_revapp. simpl.
  pose proof (nb_digits_little p). pose proof (size_nat_bound p n Hp). lia.
Qed.

(** Generous bounds on the digits of a machine integer. *)
Lemma Itoa_length z : 0 <= z <= int64_max -> (String.length (Itoa z) <= 63)%nat.
Proof.
  unfold int64_max. intros Hz. destruct z as [|p|p]; [vm_compute; lia| |lia].
  unfold Itoa. simpl. pose proof (uint_length_bound p 63 ltac:(lia)).
  destruct (Pos.to_uint p); simpl in *; lia.
Qed.

Lemma Itoa_length_any z : in_int64 z -> (String.length (Itoa z) <= 65)%nat.
Proof.
  unfold in_int64, int64_max, int64_min. intros Hz.
  destruct z as [|p|p]; [vm_compute; lia|..]; unfold Itoa; simpl;
    pose proof (uint_length_bound p 64 ltac:(lia)); destruct (Pos.to_uint p); simpl in *; lia.
Qed.

Lemma runes_length_ascii s t :
  all_bytes is_ascii s = true -> length (runes (s +:+ t)) = (String.length s + length (runes t))%nat.
Proof.
  induction s as [|c s IH]; [done|]. cbn [all_bytes]. intros [Hc Hs]%andb_true_iff.
  rewrite str_app_cons, runes_ascii_cons by done. cbn [length String.length].
  by rewrite IH.
Qed.

(** Digits are no space. *)
Lemma TrimSpace_digits s : all_bytes is_digit s = true -> TrimSpace s = s.
Proof.
  intros Hd. assert (forall l, Forall (fun p => is_space p.1 = false) l -> drop_spaces l = l) as Hdrop.
  { intros l Hl. destruct Hl as [|p l Hp _]; [done|]. simpl. by rewrite Hp. }
  assert (Forall (fun p => is_space p.1 = false) (runes s)) as Hs.
  { induction s as [|c s IH]; [constructor|]. simpl in Hd. apply andb_true_iff in Hd as [Hc Hd].
    rewrite runes_ascii_cons by by apply digit_ascii. constructor; [|by apply IH].
    simpl. unfold is_digit, in_range in Hc. unfold is_space. apply orb_false_iff. split; [|lia].
    apply bool_decide_eq_false. rewrite !elem_of_cons, elem_of_nil. lia. }
  unfold TrimSpace. rewrite (Hdrop (runes s)) by done.
  rewrite Hdrop by by apply Forall_reverse. by rewrite reverse_involutive, unrunes_runes.
Qed.

Lemma Itoa_digits z : 0 <= z -> all_bytes is_digit (Itoa z) = true.
Proof. intros Hz. destruct (Itoa_pos z Hz) as (d & _ & -> & _). apply string_of_uint_digits. Qed.

Lemma Itoa_nonempty z : Itoa z <> "".
Proof.
  intros E. destruct (Z.lt_ge_cases z 0) as [Hz|Hz].
  - destruct (Itoa_neg z Hz) as (d & _ & E' & _). by rewrite E' in E.
  - destruct (Itoa_pos z Hz) as (d & Hd & E' & _). rewrite E' in E. by destruct d.
Qed.
