(* ===== verification/GoScan.v ===== *)
(** * fmt.Sscan into an int

    [fmt.Sscan(s, &n)] on a text without surrounding space: an optional sign,
    an optional base prefix, the digits of that base and underscores; what
    follows is not read. The token goes to [strconv.ParseInt] with base 0. *)

From S2P Require Import Prelude GoStrings.
From Stdlib Require Import Ascii DecimalString DecimalZ.
From Stdlib Require String.

(** The value of a digit in bases up to 16. *)
Definition digit_val (c : ascii) : option Z :=
  let b := byte_val c in
  if (48 <=? b) && (b <=? 57) then Some (b - 48)
  else if (97 <=? b) && (b <=? 102) then Some (b - 87)
  else if (65 <=? b) && (b <=? 70) then Some (b - 55)
  else None.

Definition is_underscore (c : ascii) : bool := byte_val c =? 95.

Definition base_char (base : Z) (c : ascii) : bool :=
  is_underscore c ||
  match digit_val c with Some d => d <? base | None => false end.

(** The longest prefix of accepted characters. *)
Fixpoint span_base (base : Z) (s : string) : string :=
  match s with
  | String c t => if base_char base c then String c (span_base base t) else ""
  | EmptyString => ""
  end.

(** Underscores must stand between digits, the base prefix counting as one:
    [prev] says whether a digit came just before. *)
Fixpoint underscores_ok (prev : bool) (s : string) : bool :=
  match s with
  | EmptyString => true
  | String c t =>
      if is_underscore c then prev && negb (bool_decide (t = "")) && underscores_ok false t
      else underscores_ok true t
  end.

Fixpoint digits_value (base acc : Z) (s : string) : Z :=
  match s with
  | EmptyString => acc
  | String c t =>
      match digit_val c with
      | Some d => digits_value base (acc * base + d) t
      | None => digits_value base acc t
      end
  end.

(** The scanned digits: base, whether a digit (a prefix or a zero) was
    already consumed, whether more are required, and the text. *)
Record scan_token := { st_base : Z; st_prev : bool; st_digits : string }.

Definition scan_base (s : string) : option scan_token :=
  match s with
  | String c t =>
      if byte_val c =? 48 then
        match t with
        | String x t' =>
            let b := byte_val x in
            if (b =? 98) || (b =? 66) then Some {| st_base := 2; st_prev := true; st_digits := span_base 2 t' |}
            else if (b =? 111) || (b =? 79) then Some {| st_base := 8; st_prev := true; st_digits := span_base 8 t' |}
            else if (b =? 120) || (b =? 88) then Some {| st_base := 16; st_prev := true; st_digits := span_base 16 t' |}
            else Some {| st_base := 8; st_prev := true; st_digits := span_base 8 t |}
        | EmptyString => Some {| st_base := 8; st_prev := true; st_digits := "" |}
        end
      else if base_char 10 c
      then Some {| st_base := 10; st_prev := false; st_digits := span_base 10 s |}
      else None
  | EmptyString => None
  end.

(** A prefix without digits ("0x") is no number; a zero alone is. *)
Definition bare_prefix (s : string) : bool :=
  match s with
  | String c (String x t) =>
      (byte_val c =? 48) &&
      existsb (fun b => byte_val x =? b) [98; 66; 111; 79; 120; 88] &&
      match scan_base s with Some tok => bool_decide (st_digits tok = "") | None => false end
  | _ => false
  end.

Definition err_expected_integer : goerr := ELib "expected integer".

Definition Sscan_int (s : string) : result Z goerr :=
  let '(neg, rest) :=
    match s with
    | String c t =>
        if byte_val c =? 43 then (false, t)
        else if byte_val c =? 45 then (true, t) else (false, s)
    | EmptyString => (false, s)
    end in
  match scan_base rest with
  | None => Err err_expected_integer
  | Some tok =>
      if bare_prefix rest || negb (underscores_ok (st_prev tok) (st_digits tok))
      then Err err_syntax
      else
        let v := digits_value (st_base tok) 0 (st_digits tok) in
        check_int64 (if neg then - v else v)
  end.

(** Tests. *)
Example Sscan_tests :
  map Sscan_int ["42"; "-7"; "+7"; "12abc"; "010"; "0x1F"; "1_000"; "1__0"; "0"; "0x"; "abc"; "089"; ""; "9223372036854775808"]
  = [Ok 42; Ok (-7); Ok 7; Ok 12; Ok 8; Ok 31; Ok 1000; Err err_syntax; Ok 0; Err err_syntax;
     Err err_expected_integer; Ok 0; Err err_expected_integer; Err err_range].
Proof. vm_compute. reflexivity. Qed.

(** ** Decimal texts *)

Lemma digit_val_digit c : is_digit c = true -> digit_val c = Some (byte_val c - 48).
Proof.
  unfold is_digit, in_range, digit_val. intros Hd.
  by replace ((48 <=? byte_val c) && (byte_val c <=? 57)) with true by lia.
Qed.

Lemma span_digits10 s : all_bytes is_digit s = true -> span_base 10 s = s.
Proof.
  induction s as [|c s IH]; simpl; [done|]. intros [Hc Hs]%andb_true_iff.
  unfold base_char. rewrite digit_val_digit by done. rewrite IH by done.
  unfold is_digit, in_range in Hc. replace (byte_val c - 48 <? 10) with true by lia.
  by rewrite orb_true_r.
Qed.

Lemma underscores_digits prev s : all_bytes is_digit s = true -> underscores_ok prev s = true.
Proof.
  revert prev. induction s as [|c s IH]; intros prev; simpl; [done|].
  intros [Hc Hs]%andb_true_iff. unfold is_digit, in_range in Hc. unfold is_underscore.
  replace (byte_val c =? 95) with false by lia. by apply IH.
Qed.

Lemma digits_value_acc d p :
  digits_value 10 (Z.pos p) (NilEmpty.string_of_uint d) = Z.pos (Pos.of_uint_acc d p).
Proof.
  revert p. induction d; intros p; simpl; [done|..]; rewrite <- IHd;
    match goal with |- context [byte_val ?c] =>
      let v := eval vm_compute in (byte_val c) in change (byte_val c) with v end; f_equal; lia.
Qed.

Lemma digits_value_uint d :
  digits_value 10 0 (NilEmpty.string_of_uint d) = Z.of_uint d.
Proof.
  unfold Z.of_uint. induction d; simpl; [done|exact IHd|..]; apply digits_value_acc.
Qed.

Lemma unorm_head d x : Decimal.unorm d = Decimal.D0 x -> x = Decimal.Nil.
Proof.
  unfold Decimal.unorm. assert (forall e, Decimal.nzhead e <> Decimal.D0 x) as Hn
    by (induction e; simpl; congruence).
  destruct (Decimal.nzhead d) eqn:E; congruence.
Qed.

(** A positive integer is scanned as itself. *)
Lemma Sscan_Itoa z : 0 < z <= int64_max -> Sscan_int (Itoa z) = Ok z.
Proof.
  intros Hz. destruct z as [|p|p]; [lia| |lia]. unfold Itoa. cbn [Z.to_int NilZero.string_of_int].
  pose proof (DecimalZ.of_to (Z.pos p)) as Hv. cbn [Z.to_int Z.of_int] in Hv.
  pose proof (DecimalZ.to_of (Decimal.Pos (Pos.to_uint p))) as Hn. cbn [Z.of_int] in Hn.
  rewrite Hv in Hn. cbn [Z.to_int Decimal.norm] in Hn. injection Hn as Hn.
  assert (Pos.to_uint p <> Decimal.Nil) as Hne by apply DecimalPos.Unsigned.to_uint_nonnil.
  rewrite string_of_uint_NilZero by done. revert Hv Hn Hne.
  generalize (Pos.to_uint p) as d. intros d Hv Hn Hne.
  pose proof (string_of_uint_digits d) as Hdig. pose proof (digits_value_uint d) as Hval.
  destruct (NilEmpty.string_of_uint d) as [|c t] eqn:Es; [by destruct d|].
  pose proof Hdig as [Hc Ht]%andb_true_iff.
  pose proof Hc as Hc'. unfold is_digit, in_range in Hc'. unfold Sscan_int.
  replace (byte_val c =? 43) with false by lia. replace (byte_val c =? 45) with false by lia.
  assert (byte_val c <> 48) as H0.
  { intros E0. destruct d as [|d|d|d|d|d|d|d|d|d|d]; try (simpl in Es; injection Es as <- <-; vm_compute in E0; discriminate E0); [done|].
    symmetry in Hn. apply unorm_head in Hn. subst d. vm_compute in Hv. discriminate Hv. }
  unfold scan_base. replace (byte_val c =? 48) with false by lia.
  unfold base_char. rewrite digit_val_digit by done.
  replace (byte_val c - 48 <? 10) with true by lia. rewrite orb_true_r.
  cbn [st_base st_prev st_digits]. rewrite span_digits10 by done.
  rewrite underscores_digits by done.
  assert (bare_prefix (String c t) = false) as ->.
  { unfold bare_prefix. destruct t; [done|]. by replace (byte_val c =? 48) with false by lia. }
  simpl negb. cbn [orb]. rewrite Hval, Hv. unfold check_int64.
  rewrite decide_True; [done|]. unfold in_int64, int64_min. lia.
Qed.
