(* ===== verification/GoFloat.v ===== *)
(** * float64: strconv.ParseFloat and the number texts of encoding/json

    A finite float64 is a sign, a natural mantissa [m] and an exponent [e],
    for [m * 2^e]. [round_rat] rounds a quotient to the nearest float64, ties
    to even; [float_text] is the shortest decimal that reads back as the same
    float64, laid out as json.Marshal does. *)

From S2P Require Import Prelude GoStrings GoScan.
From Stdlib Require Import Ascii DecimalString.
From Stdlib Require String.

Inductive float64 : Type :=
| FFin (neg : bool) (m e : Z)
| FInf (neg : bool)
| FNaN.

(** ** Rounding *)

(** Quotient rounded to nearest, ties to even. *)
Definition div_even (num den : Z) : Z :=
  let q := num / den in
  match 2 * (num - q * den) ?= den with
  | Lt => q
  | Gt => q + 1
  | Eq => if Z.even q then q else q + 1
  end.

(** [num / (den * 2^e)] as a quotient. *)
Definition scale2 (num den e : Z) : Z * Z :=
  if 0 <=? e then (num, den * 2 ^ e) else (num * 2 ^ (- e), den).

Definition scale10 (num den k : Z) : Z * Z :=
  if 0 <=? k then (num * 10 ^ k, den) else (num, den * 10 ^ (- k)).

(** The float64 nearest to [num / den], for [0 <= num] and [0 < den]; [None]
    beyond the largest one. Integers up to 2^53 are exact. *)
Definition round_rat (num den : Z) : option (Z * Z) :=
  if (num mod den =? 0) && (num / den <=? 2 ^ 53) then Some (num / den, 0)
  else
    let e0 := Z.log2 num - Z.log2 den - 53 in
    let '(n0, d0) := scale2 num den e0 in
    let e := Z.max (-1074) (if 2 ^ 53 <=? n0 / d0 then e0 + 1 else e0) in
    let '(n, d) := scale2 num den e in
    let m := div_even n d in
    if (971 <? e) || ((e =? 971) && (m =? 2 ^ 53)) then None else Some (m, e).

Definition same_value (x y : Z * Z) : bool :=
  let e := Z.min x.2 y.2 in
  (x.1 * 2 ^ (x.2 - e) =? y.1 * 2 ^ (y.2 - e)).

(** ** Parsing *)

Definition lower (c : ascii) : ascii :=
  if (65 <=? byte_val c) && (byte_val c <=? 90) then byte_chr (byte_val c + 32) else c.

Fixpoint lower_str (s : string) : string :=
  match s with EmptyString => "" | String c t => String (lower c) (lower_str t) end.

(** Mantissa: digits of the base, at most one point, underscores. The state
    is the value so far, the number of digits after the point ([None]: no
    point yet), and whether a digit was seen. *)
Fixpoint read_mant (base : Z) (s : string) (acc : Z) (frac : option Z) (saw : bool)
    : Z * option Z * bool * string :=
  match s with
  | EmptyString => (acc, frac, saw, "")
  | String c t =>
      if is_underscore c then read_mant base t acc frac saw
      else if byte_val c =? 46 then
        match frac with
        | None => read_mant base t acc (Some 0) saw
        | Some _ => (acc, frac, saw, s)
        end
      else
        match digit_val c with
        | Some d =>
            if d <? base
            then read_mant base t (acc * base + d)
                   (match frac with Some k => Some (k + 1) | None => None end) true
            else (acc, frac, saw, s)
        | None => (acc, frac, saw, s)
        end
  end.

(** Exponent digits; the value is not accumulated beyond 10000. *)
Fixpoint read_exp (s : string) (acc : Z) (saw : bool) : Z * bool * string :=
  match s with
  | EmptyString => (acc, saw, "")
  | String c t =>
      if is_underscore c then read_exp t acc saw
      else if is_digit c then
        read_exp t (if acc <? 10000 then acc * 10 + (byte_val c - 48) else acc) true
      else (acc, saw, s)
  end.

(** The optional exponent after the letter [mark]: [None] for a letter
    without digits. *)
Definition read_exponent (mark : Z) (s : string) : option (option Z * string) :=
  match s with
  | String c t =>
      if byte_val (lower c) =? mark then
        let '(sg, t1) :=
          match t with
          | String g t' =>
              if byte_val g =? 43 then (1, t') else if byte_val g =? 45 then (-1, t') else (1, t)
          | EmptyString => (1, t)
          end in
        let '(e, saw, rest) := read_exp t1 0 false in
        if saw then Some (Some (sg * e), rest) else None
      else Some (None, s)
  | EmptyString => Some (None, "")
  end.

(** Underscores stand between digits, a base prefix counting as one. *)
Fixpoint under_ok (prev : ascii) (hex : bool) (s : string) : bool :=
  match s with
  | EmptyString => negb (is_underscore prev)
  | String c t =>
      let digit := is_digit c ||
        (hex && (97 <=? byte_val (lower c)) && (byte_val (lower c) <=? 102)) in
      if digit then under_ok "0" hex t
      else if is_underscore c then
        if bool_decide (prev = "0"%char) then under_ok c hex t else false
      else if is_underscore prev then false else under_ok "!" hex t
  end.

Fixpoint has_underscore (s : string) : bool :=
  match s with EmptyString => false | String c t => is_underscore c || has_underscore t end.

Definition underscore_ok (s : string) (hex : bool) : bool :=
  if has_underscore s then under_ok (if hex then "0" else "^")%char hex s else true.

(** [num / den] as a float64 with its sign; beyond the range it is a range
    error. *)
Definition to_float (neg : bool) (num den : Z) : result float64 goerr :=
  match round_rat num den with
  | Some (m, e) => Ok (FFin neg m e)
  | None => Err err_range
  end.

(** [mant * 10^x]; magnitudes far outside the range are decided without the
    power, as in strconv. *)
Definition decimal_float (neg : bool) (mant x : Z) : result float64 goerr :=
  if mant =? 0 then Ok (FFin neg 0 0)
  else
    let dp := Z.of_nat (String.length (Itoa mant)) + x in
    if 310 <? dp then Err err_range
    else if dp <? -330 then Ok (FFin neg 0 0)
    else let '(n, d) := scale10 mant 1 x in to_float neg n d.

Definition hex_float (neg : bool) (mant x : Z) : result float64 goerr :=
  if mant =? 0 then Ok (FFin neg 0 0)
  else
    let top := Z.log2 mant + x in
    if 1100 <? top then Err err_range
    else if top <? -1200 then Ok (FFin neg 0 0)
    else let '(n, d) := scale2 mant 1 (- x) in to_float neg n d.

(** [strconv.ParseFloat(s, 64)]. *)
Definition ParseFloat (s : string) : result float64 goerr :=
  let '(neg, u) :=
    match s with
    | String c t =>
        if byte_val c =? 43 then (false, t)
        else if byte_val c =? 45 then (true, t) else (false, s)
    | EmptyString => (false, s)
    end in
  let l := lower_str u in
  if bool_decide (l = "inf") || bool_decide (l = "infinity") then Ok (FInf neg)
  else if bool_decide (lower_str s = "nan") then Ok FNaN
  else
    let '(hex, body) :=
      match u with
      | String z (String x t) =>
          if (byte_val z =? 48) && (byte_val (lower x) =? 120) then (true, t) else (false, u)
      | _ => (false, u)
      end in
    let '(mant, frac, saw, rest) := read_mant (if hex then 16 else 10) body 0 None false in
    if negb saw then Err err_syntax
    else
      match read_exponent (if hex then 112 else 101) rest with
      | Some (x, "") =>
          if negb (underscore_ok body hex) || (hex && bool_decide (x = None)) then Err err_syntax
          else
            let digits := default 0 frac in
            if hex then hex_float neg mant (default 0 x - 4 * digits)
            else decimal_float neg mant (default 0 x - digits)
      | _ => Err err_syntax
      end.

(** ** Printing *)

(** [v = num / den > 0]: the number of digits before the point, as
    [10^(dp-1) <= v < 10^dp]. *)
Definition decimal_point (num den : Z) : Z :=
  let est := (Z.log2 num - Z.log2 den) * 30103 / 100000 in
  default est (List.find (fun dp => let '(n, d) := scale10 num den (- dp) in n <? d)
                 [est - 1; est; est + 1; est + 2]).

(** The shortest decimal [D * 10^x] that rounds to the float: of each length
    the two neighbours are tried, the nearer one first. *)
Fixpoint shortest (fuel : nat) (num den dp n : Z) (f : Z * Z) : Z * Z :=
  let '(sn, sd) := scale10 num den (n - dp) in
  let lo := sn / sd in
  let near := div_even sn sd in
  let x := dp - n in
  match fuel with
  | O => (near, x)
  | S fuel' =>
      let ok c := let '(cn, cd) := scale10 c 1 x in
                  match round_rat cn cd with Some g => same_value g f | None => false end in
      let far := if near =? lo then lo + 1 else lo in
      if ok near then (near, x)
      else if (0 <? far) && ok far then (far, x)
      else shortest fuel' num den dp (n + 1) f
  end.

Fixpoint strip_zeros (fuel : nat) (D x : Z) : Z * Z :=
  match fuel with
  | O => (D, x)
  | S fuel' => if (0 <? D) && (D mod 10 =? 0) then strip_zeros fuel' (D / 10) (x + 1) else (D, x)
  end.

(** [D * 10^x] without an exponent. *)
Definition format_f (D x : Z) : string :=
  if 0 <=? x then Itoa (D * 10 ^ x)
  else
    let i := D / 10 ^ (- x) in
    let fr := Itoa (D mod 10 ^ (- x)) in
    Itoa i +:+ "." +:+ repeat_str "0" (Z.to_nat (- x) - String.length fr) +:+ fr.

(** ... and with one, in the cleaned-up form of encoding/json. *)
Definition format_e (D x : Z) : string :=
  let ds := Itoa D in
  let ex := Z.of_nat (String.length ds) - 1 + x in
  match ds with
  | String c t =>
      str1 c +:+ (if bool_decide (t = "") then "" else "." +:+ t) +:+ "e" +:+
      (if ex <? 0 then "-" else "+") +:+ Itoa (Z.abs ex)
  | EmptyString => ""
  end.

Definition minus (neg : bool) (s : string) : string := if neg then String "-" s else s.

(** The number text that json.Marshal writes for a float64; infinities and
    NaN are unsupported values. *)
Definition float_text (f : float64) : result string goerr :=
  match f with
  | FFin neg m e =>
      if (e =? 0) && (m <=? 2 ^ 53) then Ok (minus neg (Itoa m))
      else
        let '(num, den) := scale2 m 1 (- e) in
        if num =? 0 then Ok (minus neg "0")
        else
          let '(D0, x0) := shortest 17 num den (decimal_point num den) 1 (m, e) in
          let '(D, x) := strip_zeros 20 D0 x0 in
          let '(tm, te) := default (0, 0) (round_rat 1 1000000) in (* the float64 1e-6 *)
          let '(tn, td) := scale2 tm 1 (- te) in
          let small := num * td <? tn * den in
          let large := den * 10 ^ 21 <=? num in
          Ok (minus neg (if small || large then format_e D x else format_f D x))
  | _ => Err (ELib "json: unsupported value")
  end.

(** A number literal decoded into [any] and marshalled again. *)
Definition float_literal (lit : string) : result string goerr :=
  match ParseFloat lit with Ok f => float_text f | Err e => Err e end.

(** Tests. *)
Example float_tests :
  map float_literal
    ["0"; "-0"; "200"; "1.0"; "12.5"; "0.1"; "1e3"; "1E21"; "123456789012345678";
     "9007199254740993"; "9007199254740995"; "0.000001"; "1e-7"; "1.5e-10"; "5e-324"; "1e-400";
     "1.7976931348623157e308"; "3.141592653589793238"; "1e23"; "4.35"; "0.3"; "1e400";
     "0x1p-2"; "1_000"; "1__0"; "inf"; "NaN"; "abc"; "100000000000000000000"; "9007199254740992.5"]
  = [Ok "0"; Ok "-0"; Ok "200"; Ok "1"; Ok "12.5"; Ok "0.1"; Ok "1000"; Ok "1e+21";
     Ok "123456789012345680"; Ok "9007199254740992"; Ok "9007199254740996"; Ok "0.000001";
     Ok "1e-7"; Ok "1.5e-10"; Ok "5e-324"; Ok "0"; Ok "1.7976931348623157e+308";
     Ok "3.141592653589793"; Ok "1e+23"; Ok "4.35"; Ok "0.3"; Err err_range; Ok "0.25";
     Ok "1000"; Err err_syntax; Err (ELib "json: unsupported value");
     Err (ELib "json: unsupported value"); Err err_syntax; Ok "100000000000000000000";
     Ok "9007199254740992"].
Proof. vm_compute. reflexivity. Qed.

(** ** Integers *)

Lemma round_int z : 0 <= z <= 2 ^ 53 -> round_rat z 1 = Some (z, 0).
Proof.
  intros Hz. unfold round_rat. rewrite Z.mod_1_r, Z.div_1_r.
  by replace (z <=? 2 ^ 53) with true by lia.
Qed.

Lemma read_mant_digits s acc saw :
  all_bytes is_digit s = true ->
  read_mant 10 s acc None saw =
    (digits_value 10 acc s, None, saw || negb (bool_decide (s = "")), "").
Proof.
  revert acc saw. induction s as [|c s IH]; intros acc saw; simpl; [by rewrite orb_false_r|].
  intros [Hc Hs]%andb_true_iff. pose proof Hc as Hc'. unfold is_digit, in_range in Hc'.
  unfold is_underscore. replace (byte_val c =? 95) with false by lia.
  replace (byte_val c =? 46) with false by lia.
  rewrite digit_val_digit by done. replace (byte_val c - 48 <? 10) with true by lia.
  rewrite IH by done. by rewrite orb_true_r.
Qed.

Lemma has_underscore_digits s : all_bytes is_digit s = true -> has_underscore s = false.
Proof.
  induction s as [|c s IH]; simpl; [done|]. intros [Hc Hs]%andb_true_iff.
  unfold is_digit, in_range in Hc. unfold is_underscore. rewrite IH by done. lia.
Qed.

Lemma lower_str_head s c t w :
  s = String c t -> is_digit c = true -> bool_decide (lower_str s = String "i" w) = false /\
  bool_decide (lower_str s = String "n" w) = false.
Proof.
  intros -> Hc. unfold is_digit, in_range in Hc. simpl. unfold lower.
  replace ((65 <=? byte_val c) && (byte_val c <=? 90)) with false by lia.
  split; apply bool_decide_eq_false; intros [= -> _]; vm_compute in Hc; discriminate Hc.
Qed.

(** The text of a natural number up to 2^53 is parsed exactly. *)
Lemma ParseFloat_nat neg z :
  0 <= z <= 2 ^ 53 -> ParseFloat (minus neg (Itoa z)) = Ok (FFin neg z 0).
Proof.
  intros Hz. pose proof (Itoa_digits z ltac:(lia)) as Hd.
  assert (digits_value 10 0 (Itoa z) = z) as Hv.
  { destruct (Itoa_pos z ltac:(lia)) as (d & _ & -> & Hv). by rewrite digits_value_uint. }
  pose proof (Itoa_length z ltac:(unfold int64_max; lia)) as Hl.
  assert (decimal_float neg z 0 = Ok (FFin neg z 0)) as Hdec.
  { unfold decimal_float. destruct (Z.eqb_spec z 0) as [->|Hne]; [done|].
    replace (310 <? _) with false by lia. replace (_ <? -330) with false by lia.
    unfold scale10. simpl. rewrite Z.mul_1_r. unfold to_float. by rewrite round_int. }
  destruct (Itoa z) as [|c t] eqn:Es; [by destruct (Itoa_nonempty z)|].
  pose proof Hd as [Hc Ht]%andb_true_iff. pose proof Hc as Hc'.
  unfold is_digit, in_range in Hc'.
  assert (forall w, bool_decide (lower_str (String c t) = String "i" w) = false /\
                    bool_decide (lower_str (String c t) = String "n" w) = false) as Hlow
    by (intros w; by eapply lower_str_head).
  unfold ParseFloat.
  assert ((match minus neg (String c t) with
    | "" => (false, minus neg (String c t))
    | String c0 t0 => if byte_val c0 =? 43 then (false, t0)
                      else if byte_val c0 =? 45 then (true, t0)
                      else (false, minus neg (String c t))
    end) = (neg, String c t)) as ->.
  { destruct neg; [done|]. simpl. replace (byte_val c =? 43) with false by lia.
    by replace (byte_val c =? 45) with false by lia. }
  rewrite (proj1 (Hlow "nf")), (proj1 (Hlow "nfinity")). cbn [orb].
  assert (bool_decide (lower_str (minus neg (String c t)) = "nan") = false) as ->.
  { destruct neg; [done|]. apply (proj2 (Hlow "an")). }
  assert ((match String c t with
    | String z0 (String x t0) => if (byte_val z0 =? 48) && (byte_val (lower x) =? 120)
                                 then (true, t0) else (false, String c t)
    | _ => (false, String c t)
    end) = (false, String c t)) as ->.
  { destruct t as [|x t]; [done|]. simpl in Ht. apply andb_true_iff in Ht as [Hx _].
    unfold is_digit, in_range in Hx. unfold lower.
    replace ((65 <=? byte_val x) && (byte_val x <=? 90)) with false by lia.
    replace (byte_val x =? 120) with false by lia. by rewrite andb_false_r. }
  rewrite read_mant_digits by done. rewrite Hv. simpl negb. cbn [orb read_exponent].
  unfold underscore_ok. rewrite has_underscore_digits by done. simpl. exact Hdec.
Qed.

(** Integers of magnitude up to 2^53 survive the conversion to float64 and
    back to a number text. *)
Lemma float_literal_int z : - 2 ^ 53 <= z <= 2 ^ 53 -> float_literal (Itoa z) = Ok (Itoa z).
Proof.
  intros Hz. unfold float_literal.
  assert (exists neg m, 0 <= m <= 2 ^ 53 /\ Itoa z = minus neg (Itoa m)) as (neg & m & Hm & ->).
  { destruct z as [|p|p]; [by exists false, 0|by exists false, (Z.pos p)|].
    exists true, (Z.pos p). split; [lia|done]. }
  rewrite ParseFloat_nat by done. unfold float_text.
  by replace (m <=? 2 ^ 53) with true by lia.
Qed.
