(* ===== verification/Json.v ===== *)
(** * JSON texts and their decoding into Go values (encoding/json)

    [json] is the value tree of a JSON text; a number keeps its literal, as
    the decoder of encoding/json does until it knows the target type.
    [Marshal] prints a tree the way [json.Marshal] does (compact, HTML-safe
    escapes), [Unmarshal] is the validating parser, and [unmarshal_struct]
    and [unmarshal_map] fill a Go struct or a [map[string]string] with the
    rules of [json.Unmarshal]: case-folded field names, [null] as a no-op, a
    type error that is remembered while the decoding continues. *)

From S2P Require Import Prelude GoStrings.
From Stdlib Require Import Ascii.
From Stdlib Require String.

Inductive json : Type :=
| JNull
| JBool (b : bool)
| JNum (lit : string)
| JStr (s : string)
| JArr (l : list json)
| JObj (kvs : list (string * json)).

(** Induction through the lists of arrays and objects. *)
Section json_induction.
Context (P : json -> Prop).
Context (Hnull : P JNull) (Hbool : forall b, P (JBool b)).
Context (Hnum : forall l, P (JNum l)) (Hstr : forall s, P (JStr s)).
Context (Harr : forall l, Forall P l -> P (JArr l)).
Context (Hobj : forall kvs, Forall (fun kv => P kv.2) kvs -> P (JObj kvs)).

Fixpoint json_ind' (v : json) : P v :=
  match v with
  | JNull => Hnull
  | JBool b => Hbool b
  | JNum l => Hnum l
  | JStr s => Hstr s
  | JArr l =>
      Harr l ((fix go l : Forall P l :=
                 match l with
                 | [] => List.Forall_nil _
                 | x :: l' => List.Forall_cons _ _ _ (json_ind' x) (go l')
                 end) l)
  | JObj kvs =>
      Hobj kvs ((fix go kvs : Forall (fun kv => P kv.2) kvs :=
                   match kvs with
                   | [] => List.Forall_nil _
                   | kv :: l' => List.Forall_cons _ _ _ (json_ind' kv.2) (go l')
                   end) kvs)
  end.
End json_induction.

(** An integer value, and the object a [map[string]any] marshals to (keys in
    byte order). *)
Definition JInt (z : Z) : json := JNum (Itoa z).

Definition key_le (a b : string * json) : Prop := String.le a.1 b.1.
#[global] Instance key_le_dec a b : Decision (key_le a b).
Proof. unfold key_le. apply _. Defined.

Definition JMap (kvs : list (string * json)) : json := JObj (merge_sort key_le kvs).

(** ** Printing *)

Definition hex_digit (z : Z) : string :=
  str1 (byte_chr (if z <? 10 then 48 + z else 87 + z)).

(** The escape of one decoded element ([appendString] of encoding/json with
    HTML escaping on, as in [json.Marshal]). *)
Definition escape_rune (p : Z * string) : string :=
  let r := p.1 in
  if is_bad p then "\ufffd"
  else if r <? 128 then
    if r =? 34 then String "\" (str1 (byte_chr 34))
    else if r =? 92 then "\\"
    else if r =? 8 then "\b"
    else if r =? 12 then "\f"
    else if r =? 10 then "\n"
    else if r =? 13 then "\r"
    else if r =? 9 then "\t"
    else if (r <? 32) || (r =? 60) || (r =? 62) || (r =? 38)
    then "\u00" +:+ hex_digit (Z.shiftr r 4) +:+ hex_digit (Z.land r 15)
    else p.2
  else if r =? 8232 then "\u2028"
  else if r =? 8233 then "\u2029"
  else p.2.

Definition quote_char : string := str1 (byte_chr 34).

Definition quote (s : string) : string :=
  quote_char +:+ concat_str (map escape_rune (runes s)) +:+ quote_char.

Fixpoint join (sep : string) (l : list string) : string :=
  match l with
  | [] => ""
  | [s] => s
  | s :: l' => s +:+ sep +:+ join sep l'
  end.

Fixpoint Marshal (v : json) : string :=
  match v with
  | JNull => "null"
  | JBool true => "true"
  | JBool false => "false"
  | JNum lit => lit
  | JStr s => quote s
  | JArr l => "[" +:+ join "," (map Marshal l) +:+ "]"
  | JObj kvs =>
      "{" +:+ join "," (map (fun kv => quote kv.1 +:+ ":" +:+ Marshal kv.2) kvs)
          +:+ "}"
  end.

(** ** Parsing *)

Abbreviation toks := (list (Z * string)).

Fixpoint skip_ws (l : toks) : toks :=
  match l with
  | (r, b) :: t =>
      if (r =? 32) || (r =? 9) || (r =? 10) || (r =? 13) then skip_ws t else l
  | [] => []
  end.

(** [utf8.EncodeRune]; surrogates and out-of-range values give U+FFFD. *)
Definition encode_rune (r : Z) : string :=
  if (0 <=? r) && (r <? 128) then str1 (byte_chr r)
  else if (128 <=? r) && (r <? 2048) then
    String (byte_chr (192 + Z.shiftr r 6)) (str1 (byte_chr (128 + Z.land r 63)))
  else if (2048 <=? r) && (r <? 65536) && negb ((55296 <=? r) && (r <=? 57343)) then
    String (byte_chr (224 + Z.shiftr r 12))
      (String (byte_chr (128 + Z.land (Z.shiftr r 6) 63))
         (str1 (byte_chr (128 + Z.land r 63))))
  else if (65536 <=? r) && (r <=? 1114111) then
    String (byte_chr (240 + Z.shiftr r 18))
      (String (byte_chr (128 + Z.land (Z.shiftr r 12) 63))
         (String (byte_chr (128 + Z.land (Z.shiftr r 6) 63))
            (str1 (byte_chr (128 + Z.land r 63)))))
  else String (byte_chr 239) (String (byte_chr 191) (str1 (byte_chr 189))).

Definition hex_val (r : Z) : option Z :=
  if (48 <=? r) && (r <=? 57) then Some (r - 48)
  else if (97 <=? r) && (r <=? 102) then Some (r - 87)
  else if (65 <=? r) && (r <=? 70) then Some (r - 55)
  else None.

(** Four hexadecimal digits. *)
Definition hex4 (a b c d : Z) : option Z :=
  match hex_val a, hex_val b, hex_val c, hex_val d with
  | Some a, Some b, Some c, Some d => Some (((a * 16 + b) * 16 + c) * 16 + d)
  | _, _, _, _ => None
  end.

Definition is_high (r : Z) : bool := (55296 <=? r) && (r <=? 56319).
Definition is_low (r : Z) : bool := (56320 <=? r) && (r <=? 57343).

Definition pair_rune (hi lo : Z) : Z := (hi - 55296) * 1024 + (lo - 56320) + 65536.

Definition cons_str (s : string) (r : option (string * toks)) : option (string * toks) :=
  match r with Some (t, l) => Some (s +:+ t, l) | None => None end.

Definition simple_escape (r : Z) : option string :=
  if (r =? 34) || (r =? 92) || (r =? 47) then Some (str1 (byte_chr r))
  else if r =? 98 then Some (str1 (byte_chr 8))
  else if r =? 102 then Some (str1 (byte_chr 12))
  else if r =? 110 then Some (str1 (byte_chr 10))
  else if r =? 114 then Some (str1 (byte_chr 13))
  else if r =? 116 then Some (str1 (byte_chr 9))
  else None.

(** The body of a string literal, after its opening quote: the decoded
    string and what follows the closing quote. *)
Fixpoint pstring (l : toks) : option (string * toks) :=
  match l with
  | [] => None
  | (r, b) :: t =>
      if r =? 34 then Some ("", t)
      else if r =? 92 then
        match t with
        | (e, _) :: t1 =>
            if e =? 117 then
              match t1 with
              | (h1, _) :: (h2, _) :: (h3, _) :: (h4, _) :: t2 =>
                  match hex4 h1 h2 h3 h4 with
                  | None => None
                  | Some u =>
                      match t2 with
                      | (92, _) :: (117, _) :: (k1, _) :: (k2, _) :: (k3, _) :: (k4, _) :: t3 =>
                          match hex4 k1 k2 k3 k4 with
                          | Some u2 =>
                              if is_high u && is_low u2
                              then cons_str (encode_rune (pair_rune u u2)) (pstring t3)
                              else cons_str (encode_rune u) (pstring t2)
                          | None => cons_str (encode_rune u) (pstring t2)
                          end
                      | _ => cons_str (encode_rune u) (pstring t2)
                      end
                  end
              | _ => None
              end
            else
              match simple_escape e with
              | Some s => cons_str s (pstring t1)
              | None => None
              end
        | [] => None
        end
      else if r <? 32 then None
      else if is_bad (r, b) then cons_str (encode_rune rune_error) (pstring t)
      else cons_str b (pstring t)
  end.

(** Number literals. *)
Definition is_dig (r : Z) : bool := (48 <=? r) && (r <=? 57).

Fixpoint span_digits (l : toks) : string * toks :=
  match l with
  | (r, b) :: t =>
      if is_dig r then let '(s, l') := span_digits t in (b +:+ s, l') else ("", l)
  | [] => ("", [])
  end.

Definition pfrac (l : toks) : option (string * toks) :=
  match l with
  | (46, _) :: t =>
      let '(s, l') := span_digits t in
      if bool_decide (s = "") then None else Some ("." +:+ s, l')
  | _ => Some ("", l)
  end.

Definition pexp (l : toks) : option (string * toks) :=
  match l with
  | (e, eb) :: t =>
      if (e =? 101) || (e =? 69) then
        let '(sg, t1) :=
          match t with
          | (g, gb) :: t' => if (g =? 43) || (g =? 45) then (gb, t') else ("", t)
          | [] => ("", [])
          end in
        let '(s, l') := span_digits t1 in
        if bool_decide (s = "") then None else Some (eb +:+ sg +:+ s, l')
      else Some ("", l)
  | [] => Some ("", [])
  end.

Definition pint (l : toks) : option (string * toks) :=
  match l with
  | (r, b) :: t =>
      if r =? 48 then Some (b, t)
      else if is_dig r then Some (span_digits l) else None
  | [] => None
  end.

Definition pnumber (l : toks) : option (json * toks) :=
  let '(sg, l0) :=
    match l with (45, b) :: t => (b, t) | _ => ("", l) end in
  match pint l0 with
  | Some (i, l1) =>
      match pfrac l1 with
      | Some (f, l2) =>
          match pexp l2 with
          | Some (e, l3) => Some (JNum (sg +:+ i +:+ f +:+ e), l3)
          | None => None
          end
      | None => None
      end
  | None => None
  end.

(** The next tokens spell the given text. *)
Fixpoint pword (s : string) (l : toks) : option toks :=
  match s, l with
  | EmptyString, _ => Some l
  | String c s', (r, _) :: t => if byte_val c =? r then pword s' t else None
  | String _ _, [] => None
  end.

(** Values, the members of an object and the elements of an array; the first
    argument bounds the depth of the recursion, and one more than the number
    of tokens is always enough. *)
Fixpoint pvalue (n : nat) (l : toks) : option (json * toks) :=
  match n with
  | O => None
  | S n' =>
      match skip_ws l with
      | (123, _) :: t =>
          match skip_ws t with
          | (125, _) :: t' => Some (JObj [], t')
          | t' =>
              match pmembers n' t' with
              | Some (kvs, t'') => Some (JObj kvs, t'')
              | None => None
              end
          end
      | (91, _) :: t =>
          match skip_ws t with
          | (93, _) :: t' => Some (JArr [], t')
          | t' =>
              match pelems n' t' with
              | Some (vs, t'') => Some (JArr vs, t'')
              | None => None
              end
          end
      | (34, _) :: t =>
          match pstring t with
          | Some (s, t') => Some (JStr s, t')
          | None => None
          end
      | (116, b) :: t =>
          match pword "rue" t with Some t' => Some (JBool true, t') | None => None end
      | (102, b) :: t =>
          match pword "alse" t with Some t' => Some (JBool false, t') | None => None end
      | (110, b) :: t =>
          match pword "ull" t with Some t' => Some (JNull, t') | None => None end
      | l' => pnumber l'
      end
  end
with pmembers (n : nat) (l : toks) : option (list (string * json) * toks) :=
  match n with
  | O => None
  | S n' =>
      match skip_ws l with
      | (34, _) :: t =>
          match pstring t with
          | Some (k, t1) =>
              match skip_ws t1 with
              | (58, _) :: t2 =>
                  match pvalue n' t2 with
                  | Some (v, t3) =>
                      match skip_ws t3 with
                      | (125, _) :: t4 => Some ([(k, v)], t4)
                      | (44, _) :: t4 =>
                          match pmembers n' t4 with
                          | Some (kvs, t5) => Some ((k, v) :: kvs, t5)
                          | None => None
                          end
                      | _ => None
                      end
                  | None => None
                  end
              | _ => None
              end
          | None => None
          end
      | _ => None
      end
  end
with pelems (n : nat) (l : toks) : option (list json * toks) :=
  match n with
  | O => None
  | S n' =>
      match pvalue n' l with
      | Some (v, t3) =>
          match skip_ws t3 with
          | (93, _) :: t4 => Some ([v], t4)
          | (44, _) :: t4 =>
              match pelems n' t4 with
              | Some (vs, t5) => Some (v :: vs, t5)
              | None => None
              end
          | _ => None
          end
      | None => None
      end
  end.

Fixpoint json_depth (v : json) : Z :=
  match v with
  | JArr l => 1 + foldr (fun x d => Z.max (json_depth x) d) 0 l
  | JObj kvs => 1 + foldr (fun kv d => Z.max (json_depth kv.2) d) 0 kvs
  | _ => 0
  end.

Definition max_nesting_depth : Z := 10000.

(** The whole text is one value, nested at most [max_nesting_depth] deep. *)
Definition Unmarshal (s : string) : option json :=
  let l := runes s in
  match pvalue (S (length l)) l with
  | Some (v, rest) =>
      match skip_ws rest with
      | [] => if json_depth v <=? max_nesting_depth then Some v else None
      | _ => None
      end
  | None => None
  end.

(** ** Decoding into Go values *)

Definition err_json_type : goerr := ELib "json: cannot unmarshal value into Go value".
Definition err_json_syntax : goerr := ELib "invalid JSON text".
Definition err_json_eof : goerr := ELib "unexpected end of JSON input".

(** How one struct field takes a JSON value. *)
Definition setter (S : Type) : Type := json -> S -> result S goerr.

Definition set_string {S} (f : string -> S -> S) : setter S := fun v s =>
  match v with
  | JStr x => Ok (f x s)
  | JNull => Ok s
  | _ => Err err_json_type
  end.

(** [int] and [int64] fields: an integer literal in range. *)
Definition set_int {S} (f : Z -> S -> S) : setter S := fun v s =>
  match v with
  | JNum lit =>
      match ParseInt lit with Ok z => Ok (f z s) | Err _ => Err err_json_type end
  | JNull => Ok s
  | _ => Err err_json_type
  end.

Definition set_bool {S} (f : bool -> S -> S) : setter S := fun v s =>
  match v with
  | JBool b => Ok (f b s)
  | JNull => Ok s
  | _ => Err err_json_type
  end.

(** A [json.RawMessage] field keeps any value, [null] included. *)
Definition set_raw {S} (f : json -> S -> S) : setter S := fun v s => Ok (f v s).

(** An exact name wins over a case-folded one. *)
Definition find_field {S} (fs : list (string * setter S)) (key : string) : option (setter S) :=
  match List.find (fun f => bool_decide (f.1 = key)) fs with
  | Some f => Some f.2
  | None =>
      match List.find (fun f => fold_eq f.1 key) fs with
      | Some f => Some f.2
      | None => None
      end
  end.

(** One member of the object; a type error is remembered and the decoding
    goes on, an unknown key is skipped. *)
Definition decode_member {S} (fs : list (string * setter S))
    (acc : S * option goerr) (kv : string * json) : S * option goerr :=
  match find_field fs kv.1 with
  | None => acc
  | Some set =>
      match set kv.2 acc.1 with
      | Ok s => (s, acc.2)
      | Err e => (acc.1, match acc.2 with Some e0 => Some e0 | None => Some e end)
      end
  end.

Definition unmarshal_struct {S} (fs : list (string * setter S)) (zero : S) (v : json)
    : result S goerr :=
  match v with
  | JNull => Ok zero
  | JObj kvs =>
      match fold_left (decode_member fs) kvs (zero, None) with
      | (s, None) => Ok s
      | (_, Some e) => Err e
      end
  | _ => Err err_json_type
  end.

(** [map[string]string]: a [null] value leaves the zero string. *)
Fixpoint decode_entries (kvs : list (string * json)) (m : gmap string string)
    : result (gmap string string) goerr :=
  match kvs with
  | [] => Ok m
  | (k, JStr s) :: t => decode_entries t (<[k := s]> m)
  | (k, JNull) :: t => decode_entries t (<[k := ""]> m)
  | _ :: _ => Err err_json_type
  end.

Definition unmarshal_map (v : json) : result (gmap string string) goerr :=
  match v with
  | JNull => Ok ∅
  | JObj kvs => decode_entries kvs ∅
  | _ => Err err_json_type
  end.

(** Decoding of a [json.RawMessage]: [None] is an absent (empty) message. *)
Definition unmarshal_raw {A} (dec : json -> result A goerr) (raw : option json)
    : result A goerr :=
  match raw with None => Err err_json_eof | Some v => dec v end.

(** Decoding of a text. *)
Definition unmarshal_text {A} (dec : json -> result A goerr) (s : string)
    : result A goerr :=
  match Unmarshal s with
  | None => Err err_json_syntax
  | Some v => dec v
  end.

(** A missing key reads as the zero string. *)
Definition map_get (m : gmap string string) (k : string) : string :=
  default "" (m !! k).
