(* ===== verification/JsonFacts.v ===== *)
(** * The JSON codec: printing and parsing are inverse

    [Unmarshal (Marshal v) = Some v] for the values the services build:
    valid UTF-8 strings and decimal integers. *)

From S2P Require Import Prelude GoStrings Json.
From Stdlib Require Import Ascii DecimalString DecimalZ DecimalPos DecimalFacts.
From Stdlib Require String.

(** Values whose strings are valid UTF-8 and whose numbers are [%d] texts. *)
Inductive json_wf : json -> Prop :=
| wf_null : json_wf JNull
| wf_bool b : json_wf (JBool b)
| wf_int z : json_wf (JInt z)
| wf_str s : utf8_valid s = true -> json_wf (JStr s)
| wf_arr l : Forall json_wf l -> json_wf (JArr l)
| wf_obj kvs :
    Forall (fun kv => utf8_valid kv.1 = true /\ json_wf kv.2) kvs -> json_wf (JObj kvs).

(** Values whose numbers are [%d] texts; the strings are any. *)
Inductive json_ints : json -> Prop :=
| ints_null : json_ints JNull
| ints_bool b : json_ints (JBool b)
| ints_int z : json_ints (JInt z)
| ints_str s : json_ints (JStr s)
| ints_arr l : Forall json_ints l -> json_ints (JArr l)
| ints_obj kvs : Forall (fun kv => json_ints kv.2) kvs -> json_ints (JObj kvs).

(** What arrives of a string: every byte that is no part of a rune becomes
    U+FFFD. *)
Definition clean_rune (p : Z * string) : string :=
  if is_bad p then encode_rune rune_error else p.2.

Definition clean_string (s : string) : string := concat_str (map clean_rune (runes s)).

Fixpoint clean (v : json) : json :=
  match v with
  | JStr s => JStr (clean_string s)
  | JArr l => JArr (map clean l)
  | JObj kvs => JObj (map (fun kv => (clean_string kv.1, clean kv.2)) kvs)
  | v => v
  end.

(** ** Tokens of a text *)

Lemma byte_val_range c : 0 <= byte_val c < 256.
Proof.
  unfold byte_val. pose proof (N_ascii_bounded c). lia.
Qed.

Lemma byte_val_chr z : 0 <= z < 256 -> byte_val (byte_chr z) = z.
Proof.
  intros H. unfold byte_val, byte_chr. rewrite N_ascii_embedding; lia.
Qed.

(** A text that starts with a complete valid character decodes to it. *)
Lemma runes_head_app c t r b u s :
  runes (String c t) = (r, b) :: u -> is_bad (r, b) = false ->
  runes (b +:+ s) = (r, b) :: runes s.
Proof.
  cbn [runes]. intros H Hb. repeat case_match; injection H as <- <- <-;
    try (unfold is_bad in Hb; done);
    rewrite ?str_app_cons, str_app_nil; cbn [runes];
    repeat match goal with H : _ = _ |- _ => rewrite H; clear H end; done.
Qed.

Lemma runes_valid_app s t :
  utf8_valid s = true -> runes (s +:+ t) = runes s ++ runes t.
Proof.
  induction s as [s IH] using string_len_ind. destruct s as [|c s']; [done|].
  destruct (runes_cons c s') as (r & b & u & E & Hs & Hb).
  unfold utf8_valid in *. rewrite E. cbn [forallb]. intros [H1 H2]%andb_true_iff.
  apply negb_true_iff in H1. rewrite Hs at 1. rewrite str_app_assoc.
  rewrite (runes_head_app _ _ _ _ _ _ E H1). rewrite IH; [done| |done].
  rewrite Hs, str_app_length. lia.
Qed.

Lemma utf8_valid_ascii s : all_bytes is_ascii s = true -> utf8_valid s = true.
Proof.
  unfold utf8_valid. induction s as [|c s IH]; [done|].
  cbn [all_bytes]. intros [H1 H2]%andb_true_iff. rewrite runes_ascii_cons by done.
  cbn [forallb]. rewrite (IH H2), andb_true_r. unfold is_bad, is_ascii in *. simpl.
  destruct (byte_val c =? rune_error) eqn:E; [unfold rune_error in E; lia|done].
Qed.

Lemma runes_ascii_app s t :
  all_bytes is_ascii s = true -> runes (s +:+ t) = runes s ++ runes t.
Proof. intros H. by apply runes_valid_app, utf8_valid_ascii. Qed.

(** ** String literals *)

Lemma byte_val_inj c d : byte_val c = byte_val d -> c = d.
Proof.
  unfold byte_val. intros H. rewrite <- (ascii_N_embedding c), <- (ascii_N_embedding d).
  f_equal. lia.
Qed.

Lemma lor_shiftl_add y z k :
  0 <= k -> 0 <= z < 2 ^ k -> Z.lor (Z.shiftl y k) z = y * 2 ^ k + z.
Proof.
  intros Hk Hz. rewrite <- Z.shiftl_mul_pow2 by done.
  enough (Z.land (Z.shiftl y k) z = 0) as H0
    by (pose proof (Z.add_lor_land (Z.shiftl y k) z); lia).
  apply Z.bits_inj'. intros n Hn. rewrite Z.land_spec, Z.bits_0.
  destruct (Z.lt_ge_cases n k) as [Hl|Hl].
  - by rewrite Z.shiftl_spec_low.
  - replace (Z.testbit z n) with false; [apply andb_false_r|].
    symmetry. destruct (decide (z = 0)) as [->|Hz0]; [apply Z.bits_0|].
    apply Z.bits_above_log2; [apply Hz|]. apply Z.log2_lt_pow2; [lia|].
    eapply Z.lt_le_trans; [apply Hz|]. apply Z.pow_le_mono_r; lia.
Qed.

Lemma low6_range c : 0 <= low6 c < 64.
Proof.
  unfold low6. change 63 with (Z.ones 6). rewrite Z.land_ones by lia.
  apply Z.mod_pos_bound. lia.
Qed.

Lemma low6_cont c : cont c = true -> byte_val c = 128 + low6 c.
Proof.
  unfold cont, in_range, low6. change 63 with (Z.ones 6).
  rewrite Z.land_ones by lia. intros [H1 H2]%andb_true_iff.
  apply Z.leb_le in H1, H2. change (2 ^ 6) with 64.
  pose proof (Z.div_mod (byte_val c) 64 ltac:(lia)).
  pose proof (Z.mod_pos_bound (byte_val c) 64 ltac:(lia)). lia.
Qed.

(** The code point of a multi-byte character, as arithmetic. *)
Lemma rune2_val x c1 : Z.lor (Z.shiftl x 6) (low6 c1) = x * 64 + low6 c1.
Proof.
  pose proof (low6_range c1). rewrite lor_shiftl_add; change (2 ^ 6) with 64; lia.
Qed.

Lemma rune3_val x c1 c2 :
  Z.lor (Z.shiftl x 12) (Z.lor (Z.shiftl (low6 c1) 6) (low6 c2)) =
  x * 4096 + low6 c1 * 64 + low6 c2.
Proof.
  pose proof (low6_range c1). pose proof (low6_range c2).
  rewrite rune2_val, lor_shiftl_add; change (2 ^ 12) with 4096; lia.
Qed.

Lemma rune4_val x c1 c2 c3 :
  Z.lor (Z.shiftl x 18)
    (Z.lor (Z.shiftl (low6 c1) 12) (Z.lor (Z.shiftl (low6 c2) 6) (low6 c3))) =
  x * 262144 + low6 c1 * 4096 + low6 c2 * 64 + low6 c3.
Proof.
  pose proof (low6_range c1). pose proof (low6_range c2). pose proof (low6_range c3).
  rewrite rune3_val, lor_shiftl_add; change (2 ^ 18) with 262144; lia.
Qed.

Lemma land_ones_range z k : 0 <= k -> 0 <= Z.land z (Z.ones k) < 2 ^ k.
Proof. intros H. rewrite Z.land_ones by done. apply Z.mod_pos_bound. lia. Qed.

Lemma cont_of_second3 b0 c : second3 b0 c = true -> cont c = true.
Proof. unfold second3, cont, in_range. repeat case_match; lia. Qed.

Lemma cont_of_second4 b0 c : second4 b0 c = true -> cont c = true.
Proof. unfold second4, cont, in_range. repeat case_match; lia. Qed.

Lemma land15_lead c : 224 <= byte_val c <= 239 -> byte_val c = 224 + Z.land (byte_val c) 15.
Proof.
  intros H. change 15 with (Z.ones 4). rewrite Z.land_ones by lia.
  change (2 ^ 4) with 16. pose proof (Z.div_mod (byte_val c) 16 ltac:(lia)).
  pose proof (Z.mod_pos_bound (byte_val c) 16 ltac:(lia)). lia.
Qed.

Lemma byte_chr_val c z : byte_val c = z -> c = byte_chr z.
Proof.
  intros <-. apply byte_val_inj. rewrite byte_val_chr; [done|apply byte_val_range].
Qed.

(** The only valid encodings of U+2028 and U+2029. *)
Lemma chunk_line_sep c0 t r b u :
  runes (String c0 t) = (r, b) :: u -> r = 8232 \/ r = 8233 -> b = encode_rune r.
Proof.
  cbn [runes]. intros H Hr. pose proof (land_ones_range (byte_val c0) 5 ltac:(lia)) as H31.
  pose proof (land_ones_range (byte_val c0) 3 ltac:(lia)) as H7.
  change (Z.ones 5) with 31 in H31. change (Z.ones 3) with 7 in H7.
  repeat case_match; injection H as <- <- <-; try (unfold rune_error in Hr; lia).
  - rewrite rune2_val in Hr. pose proof (low6_range a). lia.
  - rewrite rune3_val in Hr |- *.
    match goal with H : second3 _ _ && _ = true |- _ => apply andb_true_iff in H as [Ha Hc] end.
    apply cont_of_second3, low6_cont in Ha. apply low6_cont in Hc.
    pose proof (land15_lead c0 ltac:(lia)) as Hlead.
    pose proof (low6_range a). pose proof (low6_range a0).
    set (x := Z.land (byte_val c0) 15) in *.
    assert (x = 2 /\ low6 a = 0 /\ (low6 a0 = 40 \/ low6 a0 = 41)) as (Hx & Hy & Hz) by lia.
    rewrite Hx, Hy in *. rewrite (byte_chr_val c0 226), (byte_chr_val a 128) by lia.
    destruct Hz as [Hz|Hz]; rewrite Hz in *; rewrite (byte_chr_val a0 _ Hc); done.
  - rewrite rune4_val in Hr.
    match goal with H : second4 _ _ && _ && _ = true |- _ =>
      apply andb_true_iff in H as [[Ha Hc]%andb_true_iff _] end.
    pose proof (low6_range a). pose proof (low6_range a0). pose proof (low6_range a1).
    assert (16 <= low6 a \/ 1 <= Z.land (byte_val c0) 7); [|lia].
    pose proof (cont_of_second4 _ _ Ha) as Hk%low6_cont.
    unfold second4, in_range in Ha. change 7 with (Z.ones 3).
    rewrite Z.land_ones by lia. change (2 ^ 3) with 8.
    pose proof (Z.div_mod (byte_val c0) 8 ltac:(lia)).
  pose proof (Z.mod_pos_bound (byte_val c0) 8 ltac:(lia)).
    destruct (byte_val c0 =? 240) eqn:E240; [lia|]. right. lia.
Qed.

(** A [\u] escape that is not a high surrogate decodes on its own. *)
Lemma pstring_u b1 b2 h1 h2 h3 h4 s1 s2 s3 s4 u l :
  hex4 h1 h2 h3 h4 = Some u -> is_high u = false ->
  pstring ((92, b1) :: (117, b2) :: (h1, s1) :: (h2, s2) :: (h3, s3) :: (h4, s4) :: l) =
  cons_str (encode_rune u) (pstring l).
Proof. intros Hh Hu. cbn. rewrite Hh, Hu. repeat (case_match; try done). Qed.

(** The control characters and [<], [>], [&] survive their [\u00XX] escape. *)
Definition u00_check (r : Z) : bool :=
  match runes ("\u00" +:+ hex_digit (Z.shiftr r 4) +:+ hex_digit (Z.land r 15)) with
  | [(92, _); (117, _); (h1, _); (h2, _); (h3, _); (h4, _)] =>
      bool_decide (hex4 h1 h2 h3 h4 = Some r)
  | _ => false
  end.

Lemma u00_all : forallb u00_check (seqZ 0 128) = true.
Proof. vm_compute. done. Qed.

Lemma u00_ok r : 0 <= r < 128 -> exists b1 b2 h1 s1 h2 s2 h3 s3 h4 s4,
  runes ("\u00" +:+ hex_digit (Z.shiftr r 4) +:+ hex_digit (Z.land r 15)) =
  [(92, b1); (117, b2); (h1, s1); (h2, s2); (h3, s3); (h4, s4)] /\
  hex4 h1 h2 h3 h4 = Some r.
Proof.
  intros Hr. pose proof u00_all as H. rewrite forallb_forall in H.
  specialize (H r ltac:(apply list_elem_of_In, elem_of_seqZ; lia)).
  unfold u00_check in H.
  destruct (runes _) as [|[r1 b1] [|[r2 b2] [|[h1 s1] [|[h2 s2] [|[h3 s3] [|[h4 s4] [|]]]]]]];
    repeat case_match; try discriminate H.
  apply bool_decide_eq_true in H. by repeat eexists.
Qed.

Lemma encode_ascii r : 0 <= r < 128 -> encode_rune r = str1 (byte_chr r).
Proof. intros H. unfold encode_rune. by replace ((0 <=? r) && (r <? 128)) with true by lia. Qed.

Lemma runes_head_bytes c t r b u :
  runes (String c t) = (r, b) :: u -> is_bad (r, b) = false ->
  r < 128 -> b = str1 (byte_chr r) /\ 0 <= r.
Proof.
  intros H Hbad Hr. cbn [runes] in H. pose proof (byte_val_range c) as Hc.
  pose proof (land_ones_range (byte_val c) 5 ltac:(lia)) as H31.
  pose proof (land_ones_range (byte_val c) 3 ltac:(lia)) as H7.
  change (Z.ones 5) with 31 in H31. change (Z.ones 3) with 7 in H7.
  repeat case_match; injection H as <- <- <-; try (unfold rune_error in Hr; lia).
  - split; [|lia]. f_equal. by apply byte_chr_val.
  - exfalso. rewrite rune2_val in Hr. pose proof (low6_range a).
    change 31 with (Z.ones 5) in *. rewrite Z.land_ones in Hr by lia. change (2 ^ 5) with 32 in *.
    pose proof (Z.div_mod (byte_val c) 32 ltac:(lia)).
    pose proof (Z.mod_pos_bound (byte_val c) 32 ltac:(lia)). lia.
  - exfalso. rewrite rune3_val in Hr. pose proof (low6_range a). pose proof (low6_range a0).
    match goal with H : second3 _ _ && _ = true |- _ => apply andb_true_iff in H as [Ha _] end.
    pose proof (low6_cont _ (cont_of_second3 _ _ Ha)).
    pose proof (land15_lead c ltac:(lia)).
    unfold second3, in_range in Ha. destruct (byte_val c =? 224) eqn:E; lia.
  - exfalso. rewrite rune4_val in Hr.
    pose proof (low6_range a). pose proof (low6_range a0). pose proof (low6_range a1).
    match goal with H : second4 _ _ && _ && _ = true |- _ =>
      apply andb_true_iff in H as [[Ha _]%andb_true_iff _] end.
    pose proof (low6_cont _ (cont_of_second4 _ _ Ha)).
    unfold second4, in_range in Ha. destruct (byte_val c =? 240) eqn:E; [lia|].
    change 7 with (Z.ones 3) in *. rewrite Z.land_ones in Hr by lia. change (2 ^ 3) with 8 in *.
    pose proof (Z.div_mod (byte_val c) 8 ltac:(lia)).
    pose proof (Z.mod_pos_bound (byte_val c) 8 ltac:(lia)). lia.
Qed.

Lemma pstring_escape c t r b u l :
  runes (String c t) = (r, b) :: u ->
  pstring (runes (escape_rune (r, b)) ++ l) = cons_str (clean_rune (r, b)) (pstring l).
Proof.
  intros H. unfold escape_rune, clean_rune. cbn [fst snd].
  destruct (is_bad (r, b)) eqn:Hbad;
    [exact (pstring_u "\" "u" 102 102 102 100 "f" "f" "f" "d" 65533 l eq_refl eq_refl)|].
  destruct (r <? 128) eqn:E128.
  - destruct (runes_head_bytes _ _ _ _ _ H Hbad ltac:(lia)) as [-> Hr0].
    repeat (match goal with |- context [if r =? ?k then _ else _] =>
      let E := fresh "Ek" in
      destruct (r =? k) eqn:E; [apply Z.eqb_eq in E; subst r; done|] end).
    destruct ((r <? 32) || (r =? 60) || (r =? 62) || (r =? 38)) eqn:Eu.
    + destruct (u00_ok r ltac:(lia)) as (b1 & b2 & h1 & s1 & h2 & s2 & h3 & s3 & h4 & s4 & -> & Hu).
      cbn [app]. rewrite (pstring_u _ _ _ _ _ _ _ _ _ _ r); [|done|unfold is_high; lia].
      by rewrite encode_ascii by lia.
    + rewrite runes_ascii_cons by (unfold is_ascii; rewrite byte_val_chr; lia).
      rewrite byte_val_chr by lia. cbn [app runes pstring].
      replace (r =? 34) with false by lia. replace (r =? 92) with false by lia.
      replace (r <? 32) with false by lia. by rewrite Hbad.
  - destruct (r =? 8232) eqn:E1; [apply Z.eqb_eq in E1; subst r;
      rewrite (chunk_line_sep _ _ _ _ _ H) by lia; exact (pstring_u "\" "u" 50 48 50 56 "2" "0" "2" "8" 8232 l eq_refl eq_refl)|].
    destruct (r =? 8233) eqn:E2; [apply Z.eqb_eq in E2; subst r;
      rewrite (chunk_line_sep _ _ _ _ _ H) by lia; exact (pstring_u "\" "u" 50 48 50 57 "2" "0" "2" "9" 8233 l eq_refl eq_refl)|].
    pose proof (runes_head_app _ _ _ _ _ "" H Hbad) as Hb. rewrite str_app_nil_r in Hb.
    rewrite Hb. cbn [runes app pstring].
    replace (r =? 34) with false by lia. replace (r =? 92) with false by lia.
    replace (r <? 32) with false by lia. by rewrite Hbad.
Qed.

Lemma utf8_valid_app s t :
  utf8_valid s = true -> utf8_valid (s +:+ t) = utf8_valid t.
Proof.
  intros H. unfold utf8_valid. rewrite runes_valid_app by done.
  rewrite forallb_app. unfold utf8_valid in H. by rewrite H.
Qed.

Lemma escape_valid c t r b u :
  runes (String c t) = (r, b) :: u -> utf8_valid (escape_rune (r, b)) = true.
Proof.
  intros H. destruct (is_bad (r, b)) eqn:Hbad; [unfold escape_rune; by rewrite Hbad|].
  assert (utf8_valid b = true) as Hb.
  { unfold utf8_valid. pose proof (runes_head_app _ _ _ _ _ "" H Hbad) as E.
    rewrite str_app_nil_r in E. rewrite E. simpl. by rewrite Hbad. }
  unfold escape_rune. cbn [fst snd]. rewrite Hbad.
  destruct (r <? 128) eqn:E128; [|by repeat (case_match; try done)].
  destruct (runes_head_bytes _ _ _ _ _ H Hbad ltac:(lia)) as [-> Hr0].
  assert (forall x, 0 <= x < 16 -> all_bytes is_ascii (hex_digit x) = true) as Hhex.
  { intros x Hx. unfold hex_digit. cbn [all_bytes]. unfold is_ascii.
    rewrite byte_val_chr by (case_match; lia). case_match; lia. }
  destruct ((r <? 32) || (r =? 60) || (r =? 62) || (r =? 38));
    repeat (case_match; try done).
  apply utf8_valid_ascii. rewrite !all_bytes_app, !Hhex; [done| |].
  - apply (land_ones_range r 4). lia.
  - rewrite Z.shiftr_div_pow2 by lia. change (2 ^ 4) with 16.
    split; [apply Z.div_pos; lia|apply Z.div_lt_upper_bound; lia].
Qed.

Lemma clean_string_cons c t r b u :
  runes (String c t) = (r, b) :: runes u ->
  clean_string (String c t) = clean_rune (r, b) +:+ clean_string u.
Proof. intros E. unfold clean_string. by rewrite E. Qed.

(** Parsing the body of a quoted string gives the cleaned string. *)
Lemma quote_body_ok s :
  utf8_valid (concat_str (map escape_rune (runes s))) = true /\
  forall l, pstring (runes (concat_str (map escape_rune (runes s)) +:+ quote_char) ++ l) =
            Some (clean_string s, l).
Proof.
  induction s as [s IH] using string_len_ind. destruct s as [|c s']; [done|].
  destruct (runes_cons c s') as (r & b & u & E & Hs & Hb).
  rewrite (clean_string_cons _ _ _ _ _ E), E.
  change (concat_str (map escape_rune ((r, b) :: runes u)))
    with (escape_rune (r, b) +:+ concat_str (map escape_rune (runes u))).
  pose proof (escape_valid _ _ _ _ _ E) as He.
  destruct (IH u ltac:(rewrite Hs, str_app_length; lia)) as [IH1 IH2].
  split; [by rewrite utf8_valid_app|]. intros l.
  rewrite str_app_assoc, runes_valid_app, <- app_assoc by done.
  by rewrite (pstring_escape _ _ _ _ _ _ E), IH2.
Qed.

Lemma quote_valid s : utf8_valid (quote s) = true.
Proof.
  unfold quote. rewrite utf8_valid_app by done.
  by rewrite utf8_valid_app by by apply quote_body_ok.
Qed.

Lemma quote_toks s l : exists l',
  runes (quote s) ++ l = (34, quote_char) :: l' /\ pstring l' = Some (clean_string s, l).
Proof.
  destruct (quote_body_ok s) as [H1 H2].
  eexists. split; [|apply H2]. unfold quote. by rewrite runes_ascii_app.
Qed.

(** A valid string is clean. *)
Lemma clean_string_id s : utf8_valid s = true -> clean_string s = s.
Proof.
  induction s as [s IH] using string_len_ind. destruct s as [|c s']; [done|].
  destruct (runes_cons c s') as (r & b & u & E & Hs & Hb). intros Hv.
  rewrite (clean_string_cons _ _ _ _ _ E). unfold utf8_valid in Hv. rewrite E in Hv.
  cbn [forallb] in Hv. apply andb_true_iff in Hv as [H1 H2]. apply negb_true_iff in H1.
  unfold clean_rune. rewrite H1, IH; [by rewrite Hs|rewrite Hs, str_app_length; lia|done].
Qed.

(** ** Numbers *)

Definition num_end (l : toks) : Prop :=
  match l with
  | (r, _) :: _ => is_dig r = false /\ r <> 46 /\ r <> 101 /\ r <> 69
  | [] => True
  end.

Lemma span_digits_ok d l :
  num_end l ->
  span_digits (runes (NilEmpty.string_of_uint d) ++ l) = (NilEmpty.string_of_uint d, l).
Proof.
  intros Hl. induction d;
    [|simpl; rewrite IHd; done ..].
  simpl. destruct l as [|[r b] t]; [done|]. destruct Hl as [Hd _]. simpl. by rewrite Hd.
Qed.

Lemma to_uint_head p d : Pos.to_uint p <> Decimal.D0 d.
Proof.
  intros H. pose proof (DecimalPos.Unsigned.to_of (Pos.to_uint p)) as Hto.
  rewrite DecimalPos.Unsigned.of_to in Hto. simpl in Hto.
  assert (Decimal.nzhead (Pos.to_uint p) <> Decimal.Nil) as En.
  { intros En. apply DecimalFacts.unorm_0 in En. rewrite En in Hto.
    pose proof (DecimalPos.Unsigned.of_to p) as Hof. by rewrite Hto in Hof. }
  rewrite DecimalFacts.unorm_nzhead, H in Hto by done.
  by apply (DecimalFacts.nzhead_nonzero (Decimal.D0 d) d).
Qed.

(** A decimal text without leading zeros parses as a number literal. *)
Lemma pnumber_digits d sg l :
  d <> Decimal.Nil -> (forall d', d = Decimal.D0 d' -> d' = Decimal.Nil) ->
  sg = "" \/ sg = "-" -> num_end l ->
  pnumber (runes (sg +:+ NilEmpty.string_of_uint d) ++ l) =
  Some (JNum (sg +:+ NilEmpty.string_of_uint d), l).
Proof.
  intros Hd Hz Hsg Hl.
  assert (pfrac l = Some ("", l) /\ pexp l = Some ("", l)) as [Hf He].
  { destruct l as [|[r b] t]; [done|]. destruct Hl as (_ & H46 & H101 & H69). split.
    - unfold pfrac. repeat (case_match; try done). 
    - unfold pexp. by replace ((r =? 101) || (r =? 69)) with false by lia. }
  assert (pint (runes (NilEmpty.string_of_uint d) ++ l) =
          Some (NilEmpty.string_of_uint d, l)) as Hi.
  { pose proof (span_digits_ok d l Hl) as Hs. destruct d; try done;
      [by rewrite (Hz d eq_refl)|..]; unfold pint; simpl in Hs |- *; by rewrite Hs. }
  unfold pnumber. destruct Hsg as [->| ->].
  - rewrite str_app_nil.
    assert (forall x, (match runes (NilEmpty.string_of_uint d) ++ l with
             (45, b) :: t => (b, t) | _ => ("", runes (NilEmpty.string_of_uint d) ++ l) end) = x ->
             x = ("", runes (NilEmpty.string_of_uint d) ++ l)) as Hm.
    { intros x <-. by destruct d. }
    rewrite (Hm _ eq_refl), Hi, Hf, He. by rewrite !str_app_nil, str_app_nil_r.
  - rewrite str_app_cons, str_app_nil, runes_ascii_cons by done. cbn -[pint pfrac pexp runes].
    change (byte_val "-") with 45. cbv beta iota zeta.
    rewrite Hi, Hf, He. by rewrite str_app_nil, str_app_nil_r.
Qed.

Lemma Itoa_shape z : exists sg d, Itoa z = sg +:+ NilEmpty.string_of_uint d /\
  (sg = "" \/ sg = "-") /\ d <> Decimal.Nil /\
  (forall d', d = Decimal.D0 d' -> d' = Decimal.Nil).
Proof.
  assert (forall p, Pos.to_uint p <> Decimal.Nil) as Hn
    by (intros p; apply DecimalPos.Unsigned.to_uint_nonnil).
  unfold Itoa. destruct z as [|p|p]; simpl.
  - exists "", (Decimal.D0 Decimal.Nil). split_and!; auto. by intros d' [= <-].
  - exists "", (Pos.to_uint p). rewrite string_of_uint_NilZero by done.
    split_and!; auto. intros d' H. by apply to_uint_head in H.
  - exists "-", (Pos.to_uint p). rewrite string_of_uint_NilZero by done.
    split_and!; auto. intros d' H. by apply to_uint_head in H.
Qed.

(** ** Values *)

(** The recursion depth that parsing a printed value uses. *)
Fixpoint jneed (v : json) : nat :=
  match v with
  | JArr l => S (foldr (fun x n => S (jneed x + n)) 0%nat l)
  | JObj kvs => S (foldr (fun kv n => S (jneed kv.2 + n)) 0%nat kvs)
  | _ => 1%nat
  end.

Lemma join_cons sep s t l : join sep (s :: t :: l) = s +:+ sep +:+ join sep (t :: l).
Proof. done. Qed.

Lemma join_valid sep l :
  utf8_valid sep = true -> Forall (fun s => utf8_valid s = true) l ->
  utf8_valid (join sep l) = true.
Proof.
  intros Hsep. induction 1 as [|s l Hs _ IH]; [done|].
  destruct l as [|t l]; [done|]. rewrite join_cons. by rewrite !utf8_valid_app.
Qed.

Lemma Itoa_valid z : utf8_valid (Itoa z) = true.
Proof. apply utf8_valid_ascii, Itoa_ascii. Qed.

Lemma Marshal_valid v : json_ints v -> utf8_valid (Marshal v) = true.
Proof.
  induction v as [|b| |s|l IH|kvs IH] using json_ind'; intros Hwf;
    inversion Hwf; subst; cbn [Marshal].
  - done.
  - by destruct b.
  - apply Itoa_valid.
  - apply quote_valid.
  - rewrite !utf8_valid_app; [done| |done]. apply join_valid; [done|].
    apply Forall_map. rewrite Forall_forall in *. eauto.
  - rewrite !utf8_valid_app; [done| |done]. apply join_valid; [done|].
    apply Forall_map. rewrite !Forall_forall in *. intros kv Hkv.
    rewrite !utf8_valid_app by auto using quote_valid. by apply IH; [|apply H0].
Qed.

(** A printed value starts with a token that is not white space. *)
Definition starts (r : Z) (l : toks) : Prop := exists b t, l = (r, b) :: t.

Lemma skip_ws_id r l :
  starts r l -> r <> 32 -> r <> 9 -> r <> 10 -> r <> 13 -> skip_ws l = l.
Proof.
  intros (b & t & ->) ????. cbn [skip_ws].
  by replace ((r =? 32) || (r =? 9) || (r =? 10) || (r =? 13)) with false by lia.
Qed.

Lemma pvalue_number n z l :
  num_end l -> pvalue (S n) (runes (Itoa z) ++ l) = Some (JInt z, l).
Proof.
  intros Hl. unfold JInt. destruct (Itoa_shape z) as (sg & d & -> & Hsg & Hd & Hz).
  rewrite <- (pnumber_digits d sg l) by done.
  destruct Hsg as [->| ->]; [|done]. rewrite str_app_nil. by destruct d.
Qed.

Definition parses (v : json) : Prop := forall n l,
  (jneed v <= n)%nat -> num_end l -> pvalue n (runes (Marshal v) ++ l) = Some (clean v, l).

Definition member_text (kv : string * json) : string :=
  quote kv.1 +:+ ":" +:+ Marshal kv.2.

Definition clean_member (kv : string * json) : string * json := (clean_string kv.1, clean kv.2).

Definition good_member (kv : string * json) : Prop :=
  utf8_valid (Marshal kv.2) = true /\ parses kv.2.

Lemma member_valid kv : good_member kv -> utf8_valid (member_text kv) = true.
Proof.
  intros (Hv & _). unfold member_text.
  by rewrite !utf8_valid_app by auto using quote_valid.
Qed.

Lemma member_toks kv l : exists l1,
  runes (member_text kv) ++ l = (34, quote_char) :: l1 /\
  pstring l1 = Some (clean_string kv.1, (58, ":") :: runes (Marshal kv.2) ++ l).
Proof.
  unfold member_text.
  destruct (quote_toks kv.1 ((58, ":") :: runes (Marshal kv.2) ++ l)) as (l1 & H1 & H2).
  exists l1. split; [|done].
  rewrite runes_valid_app, <- app_assoc by apply quote_valid.
  by rewrite runes_ascii_app.
Qed.

(** One member, and the token that follows its value. *)
Lemma pmembers_step n kv l :
  good_member kv -> (jneed kv.2 <= n)%nat -> num_end l ->
  pmembers (S n) (runes (member_text kv) ++ l) =
  match skip_ws l with
  | (125, _) :: t4 => Some ([clean_member kv], t4)
  | (44, _) :: t4 =>
      match pmembers n t4 with
      | Some (kvs, t5) => Some (clean_member kv :: kvs, t5)
      | None => None
      end
  | _ => None
  end.
Proof.
  intros [_ Hp] Hn Hl. destruct (member_toks kv l) as (l1 & -> & H2).
  simpl. rewrite H2. simpl. by rewrite (Hp n l Hn Hl).
Qed.

Lemma pelems_step n v l :
  parses v -> (jneed v <= n)%nat -> num_end l ->
  pelems (S n) (runes (Marshal v) ++ l) =
  match skip_ws l with
  | (93, _) :: t4 => Some ([clean v], t4)
  | (44, _) :: t4 =>
      match pelems n t4 with
      | Some (vs, t5) => Some (clean v :: vs, t5)
      | None => None
      end
  | _ => None
  end.
Proof. intros Hp Hn Hl. simpl. by rewrite (Hp n l Hn Hl). Qed.

Lemma pmembers_ok kvs : forall kv n l,
  Forall good_member (kv :: kvs) ->
  (foldr (fun kv n => S (jneed kv.2 + n)) 0 (kv :: kvs) <= n)%nat ->
  pmembers n (runes (join "," (map member_text (kv :: kvs))) ++ (125, "}") :: l) =
  Some (map clean_member (kv :: kvs), l).
Proof.
  induction kvs as [|kv' kvs IH]; intros kv n l [Hg Hgs]%Forall_cons Hn;
    destruct n as [|n]; simpl in Hn; try lia.
  - change (join "," (map member_text [kv])) with (member_text kv).
    rewrite pmembers_step; [done|done|lia|done].
  - change (join "," (map member_text (kv :: kv' :: kvs))) with
      (member_text kv +:+ "," +:+ join "," (map member_text (kv' :: kvs))).
    rewrite runes_valid_app, <- app_assoc by by apply member_valid.
    rewrite runes_ascii_app by done.
    rewrite pmembers_step; [|done|lia|done]. 
    change (skip_ws ((runes "," ++ ?x) ++ ?y)) with ((44, ",") :: x ++ y).
    cbv beta iota. rewrite IH; [done|done|simpl; lia].
Qed.

Lemma pelems_ok vs : forall v n l,
  Forall (fun v => utf8_valid (Marshal v) = true /\ parses v) (v :: vs) ->
  (foldr (fun v n => S (jneed v + n)) 0 (v :: vs) <= n)%nat ->
  pelems n (runes (join "," (map Marshal (v :: vs))) ++ (93, "]") :: l) =
  Some (map clean (v :: vs), l).
Proof.
  induction vs as [|v' vs IH]; intros v n l [[Hu Hg] Hgs]%Forall_cons Hn;
    destruct n as [|n]; simpl in Hn; try lia.
  - change (join "," (map Marshal [v])) with (Marshal v).
    rewrite pelems_step; [done|done|lia|done].
  - change (join "," (map Marshal (v :: v' :: vs))) with
      (Marshal v +:+ "," +:+ join "," (map Marshal (v' :: vs))).
    rewrite runes_valid_app, <- app_assoc by done. rewrite runes_ascii_app by done.
    rewrite pelems_step; [|done|lia|done].
    change (skip_ws ((runes "," ++ ?x) ++ ?y)) with ((44, ",") :: x ++ y).
    cbv beta iota. rewrite IH; [done|done|simpl; lia].
Qed.

(** The first token of a printed value: not white space, not a closing
    bracket. *)
Lemma Marshal_head v : json_ints v -> exists r b t, runes (Marshal v) = (r, b) :: t /\
  r <> 32 /\ r <> 9 /\ r <> 10 /\ r <> 13 /\ r <> 93 /\ r <> 125.
Proof.
  intros Hwf. destruct v as [|[]|lit|s|l|kvs]; cbn [Marshal];
    try (eexists _, _, _; split; [done|done]).
  inversion Hwf; subst. destruct (Itoa_shape z) as (sg & d & -> & Hsg & Hd & _).
  destruct Hsg as [->| ->]; [|eexists _, _, _; split; [done|done]].
  rewrite str_app_nil. destruct d; [done|..]; (eexists _, _, _; split; [done|done]).
Qed.

Lemma join_head v vs : json_ints v -> exists r b t,
  runes (join "," (map Marshal (v :: vs))) = (r, b) :: t /\
  r <> 32 /\ r <> 9 /\ r <> 10 /\ r <> 13 /\ r <> 93.
Proof.
  intros Hwf. destruct (Marshal_head v Hwf) as (r & b & t & Hr & H).
  exists r, b. destruct vs as [|v' vs].
  - exists t. simpl. rewrite Hr. by split_and!; try apply H.
  - exists (t ++ runes ("," +:+ join "," (map Marshal (v' :: vs)))).
    change (join "," (map Marshal (v :: v' :: vs))) with
      (Marshal v +:+ "," +:+ join "," (map Marshal (v' :: vs))).
    rewrite runes_valid_app, Hr by by apply Marshal_valid.
    by split_and!; try apply H.
Qed.

Lemma pvalue_array n v vs l :
  json_ints v -> pelems n (runes (join "," (map Marshal (v :: vs))) ++ (93, "]") :: l) =
    Some (map clean (v :: vs), l) ->
  pvalue (S n) ((91, "[") :: runes (join "," (map Marshal (v :: vs))) ++ (93, "]") :: l) =
  Some (clean (JArr (v :: vs)), l).
Proof.
  change (clean (JArr (v :: vs))) with (JArr (map clean (v :: vs))).
  intros Hwf Hp. destruct (join_head v vs Hwf) as (r & b & t & Hr & ?&?&?&?&?).
  rewrite Hr in *. simpl app in *.
  set (tl := t ++ (93, "]") :: l) in *. clearbody tl.
  change (pvalue (S n) ((91, "[") :: (r, b) :: tl)) with
    (match skip_ws ((r, b) :: tl) with
     | (93, _) :: t' => Some (JArr [], t')
     | t' => match pelems n t' with Some (vs, t'') => Some (JArr vs, t'') | None => None end
     end).
  rewrite (skip_ws_id r) by (done || by eexists _, _).
  repeat case_match; subst; first [done|congruence].
Qed.

Lemma pvalue_object n kv kvs l :
  good_member kv ->
  pmembers n (runes (join "," (map member_text (kv :: kvs))) ++ (125, "}") :: l) =
    Some (map clean_member (kv :: kvs), l) ->
  pvalue (S n) ((123, "{") :: runes (join "," (map member_text (kv :: kvs))) ++ (125, "}") :: l) =
  Some (clean (JObj (kv :: kvs)), l).
Proof.
  change (clean (JObj (kv :: kvs))) with (JObj (map clean_member (kv :: kvs))).
  intros Hg Hp.
  assert (exists t, runes (join "," (map member_text (kv :: kvs))) ++ (125, "}") :: l =
                    (34, quote_char) :: t) as [t Ht].
  { destruct kvs as [|kv' kvs].
    - destruct (member_toks kv ((125, "}") :: l)) as (l1 & Hl1 & _). by exists l1.
    - change (join "," (map member_text (kv :: kv' :: kvs))) with
        (member_text kv +:+ "," +:+ join "," (map member_text (kv' :: kvs))).
      rewrite runes_valid_app, <- app_assoc by by apply member_valid.
      destruct (member_toks kv (runes ("," +:+ join "," (map member_text (kv' :: kvs))) ++
        (125, "}") :: l)) as (l1 & Hl1 & _). by exists l1. }
  rewrite Ht in *. simpl. by rewrite Hp.
Qed.

Lemma members_valid kvs :
  Forall (fun kv => json_ints kv.2) kvs ->
  Forall (fun kv => parses kv.2) kvs -> Forall good_member kvs.
Proof.
  rewrite !Forall_forall. intros H1 H2 kv Hkv.
  split; [by apply Marshal_valid, H1|by apply H2].
Qed.

Lemma parses_ints v : json_ints v -> parses v.
Proof.
  induction v as [|b| |s|l IH|kvs IH] using json_ind'; intros Hwf n r Hn Hr;
    destruct n as [|n]; simpl in Hn; try lia; inversion Hwf; subst.
  - done.
  - by destruct b.
  - by apply pvalue_number.
  - destruct (quote_toks s r) as (l' & E & Hp). cbn [Marshal]. rewrite E.
    simpl. by rewrite Hp.
  - cbn [Marshal]. rewrite !runes_ascii_app, <- !app_assoc by done.
    destruct l as [|v vs]; [done|].
    assert (Forall (fun v => utf8_valid (Marshal v) = true /\ parses v) (v :: vs)) as Hg.
    { rewrite Forall_forall in *. intros x Hx.
      split; [apply Marshal_valid|apply IH; [done|]]; by apply H0. }
    assert (utf8_valid (join "," (map Marshal (v :: vs))) = true) as Hj.
    { apply join_valid; [done|]. apply Forall_map.
      eapply Forall_impl; [exact Hg|]. by intros x [? _]. }
    rewrite runes_valid_app, <- app_assoc by done.
    apply (pvalue_array n v vs r); [by apply Forall_cons in H0 as [? _]|].
    apply pelems_ok; [done|simpl in *; lia].
  - cbn [Marshal]. rewrite !runes_ascii_app, <- !app_assoc by done.
    destruct kvs as [|kv kvs]; [done|].
    assert (Forall good_member (kv :: kvs)) as Hg.
    { apply members_valid; [done|]. rewrite Forall_forall in *. intros x Hx.
      apply IH; [done|]. by apply H0. }
    change (map (fun kv => quote kv.1 +:+ ":" +:+ Marshal kv.2) (kv :: kvs))
      with (map member_text (kv :: kvs)).
    assert (utf8_valid (join "," (map member_text (kv :: kvs))) = true) as Hj.
    { apply join_valid; [done|]. apply Forall_map.
      eapply Forall_impl; [exact Hg|]. apply member_valid. }
    rewrite runes_valid_app, <- app_assoc by done.
    apply (pvalue_object n kv kvs r); [by apply Forall_cons in Hg as [? _]|].
    apply pmembers_ok; [done|simpl in *; lia].
Qed.

(** ** The round trip *)

Lemma join_length l : Forall (fun s => utf8_valid s = true) l ->
  (foldr (fun s n => S (length (runes s) + n)) 0 l <= S (length (runes (join "," l))))%nat.
Proof.
  induction 1 as [|s l Hs Hl IH]; [simpl; lia|]. destruct l as [|t l]; [simpl; lia|].
  rewrite join_cons, runes_valid_app, runes_ascii_app, !length_app by done.
  cbn [foldr] in *. change (length (runes ",")) with 1%nat. lia.
Qed.

Lemma foldr_need {A} (f g : A -> nat) l :
  Forall (fun x => f x <= g x)%nat l ->
  (foldr (fun x n => S (f x + n)) 0 l <= foldr (fun x n => S (g x + n)) 0 l)%nat.
Proof. induction 1; simpl; lia. Qed.

Lemma foldr_need_map {A} (f : string -> nat) (h : A -> string) l :
  foldr (fun x n => S (f (h x) + n)) 0%nat l = foldr (fun s n => S (f s + n)) 0%nat (map h l).
Proof. induction l; simpl; congruence. Qed.

Lemma jneed_length v : json_ints v -> (jneed v <= length (runes (Marshal v)))%nat.
Proof.
  induction v as [|b| |s|l IH|kvs IH] using json_ind'; intros Hwf;
    try (destruct (Marshal_head _ Hwf) as (r & b' & t & Hr & _); rewrite Hr; simpl; lia).
  - inversion Hwf as [| | | |l' Hl|]; subst. cbn [Marshal jneed].
    rewrite Forall_forall in IH, Hl.
    assert (Forall (fun s => utf8_valid s = true) (map Marshal l)) as Hv
      by (apply Forall_map, Forall_forall; eauto using Marshal_valid).
    rewrite runes_ascii_app, runes_valid_app, !length_app by auto using join_valid.
    pose proof (join_length _ Hv) as Hj. rewrite <- foldr_need_map in Hj.
    pose proof (foldr_need jneed (fun x => length (runes (Marshal x))) l) as Hn.
    change (length (runes "[")) with 1%nat. change (length (runes "]")) with 1%nat.
    rewrite Forall_forall in Hn. specialize (Hn ltac:(eauto)). lia.
  - inversion Hwf as [| | | | |l' Hl]; subst. cbn [Marshal jneed].
    change (map (fun kv => quote kv.1 +:+ ":" +:+ Marshal kv.2) kvs) with (map member_text kvs).
    rewrite Forall_forall in IH, Hl.
    assert (forall kv, kv ∈ kvs -> good_member kv) as Hg.
    { intros kv Hkv. pose proof (Hl kv Hkv). by split; [apply Marshal_valid|apply parses_ints]. }
    assert (Forall (fun s => utf8_valid s = true) (map member_text kvs)) as Hv
      by (apply Forall_map, Forall_forall; eauto using member_valid).
    rewrite runes_ascii_app, runes_valid_app, !length_app by auto using join_valid.
    pose proof (join_length _ Hv) as Hj. rewrite <- foldr_need_map in Hj.
    pose proof (foldr_need (fun kv => jneed kv.2)
      (fun kv => length (runes (member_text kv))) kvs) as Hn.
    change (length (runes "{")) with 1%nat. change (length (runes "}")) with 1%nat.
    rewrite Forall_forall in Hn.
    enough (forall kv, kv ∈ kvs -> (jneed kv.2 <= length (runes (member_text kv)))%nat)
      by (specialize (Hn ltac:(eauto)); lia).
    intros kv Hkv. specialize (IH kv Hkv (Hl kv Hkv)).
    unfold member_text. rewrite runes_valid_app, runes_ascii_app, !length_app
      by auto using quote_valid. change (length (runes ":")) with 1%nat. lia.
Qed.

(** Whatever bytes the strings hold, the text parses, to the cleaned value. *)
Lemma parse_print_clean v :
  json_ints v -> json_depth v <= max_nesting_depth -> Unmarshal (Marshal v) = Some (clean v).
Proof.
  intros Hwf Hd. unfold Unmarshal.
  pose proof (parses_ints v Hwf (S (length (runes (Marshal v)))) []) as Hp.
  rewrite List.app_nil_r in Hp. rewrite Hp; [|pose proof (jneed_length v Hwf); lia|done].
  simpl. assert (json_depth (clean v) = json_depth v) as ->; [|by apply Z.leb_le in Hd as ->].
  clear. induction v as [| | | |l IH|kvs IH] using json_ind'; try done; cbn [clean json_depth].
  - f_equal. induction IH as [|x l Hx _ IH]; simpl; [done|]. by rewrite Hx, IH.
  - f_equal. induction IH as [|x l Hx _ IH]; simpl; [done|]. by rewrite Hx, IH.
Qed.

Lemma json_wf_clean v : json_wf v -> json_ints v /\ clean v = v.
Proof.
  induction v as [| | | |l IH|kvs IH] using json_ind'; intros Hwf; inversion Hwf; subst; cbn [clean].
  - by split; [constructor|].
  - by split; [constructor|].
  - by split; [constructor|].
  - split; [constructor|]. by rewrite clean_string_id.
  - rewrite Forall_forall in *. split.
    + constructor. apply Forall_forall. intros v Hv. by apply IH; [|apply H0].
    + f_equal. rewrite <- (map_id l) at 2. apply map_ext_in. intros v Hv.
      apply list_elem_of_In in Hv. by apply IH; [|apply H0].
  - rewrite Forall_forall in *. split.
    + constructor. apply Forall_forall. intros kv Hkv. by apply IH; [|apply H0].
    + f_equal. rewrite <- (map_id kvs) at 2. apply map_ext_in. intros [k v] Hkv.
      apply list_elem_of_In in Hkv. destruct (H0 _ Hkv) as [Hk Hw].
      destruct (IH _ Hkv Hw) as [_ E]. simpl in *. by rewrite E, clean_string_id.
Qed.

Lemma parse_print v :
  json_wf v -> json_depth v <= max_nesting_depth -> Unmarshal (Marshal v) = Some v.
Proof.
  intros Hwf Hd. destruct (json_wf_clean v Hwf) as [Hi E]. rewrite <- E at 2.
  by apply parse_print_clean.
Qed.

(** ** Sorted objects *)

Lemma JMap_wf kvs :
  Forall (fun kv => utf8_valid kv.1 = true /\ json_wf kv.2) kvs -> json_wf (JMap kvs).
Proof.
  intros H. constructor. by rewrite (merge_sort_Permutation key_le kvs).
Qed.
