(* ===== verification/Tables.v ===== *)
(** * Rows, tables and schema constraints

    The row structs of internal/db/db.go, the three tables they mirror, and
    the constraints that the migrations under migrations/ declare on them.
    A table is the list of its rows in an unspecified physical order:
    [Tables] are compared up to permutation ([≡]). *)

From S2P Require Import Prelude GoStrings.

(** ** Rows (internal/db/db.go) *)

Record User := MkUser {
  u_id : Z;
  u_phone : string;
  u_account_number : string;
  u_username : string;
  u_password_hash : string;
  u_balance : Z;
  u_is_admin : bool;
}.

Record Transfer := MkTransfer {
  t_id : Z;
  t_from_user : Z;
  t_to_user : Z;
  t_amount : Z;
  t_created_at : Z;
}.

Record Notification := MkNotification {
  n_id : Z;
  n_user_id : Z;
  n_message : string;
  n_is_read : bool;
  n_created_at : Z;
}.

#[global] Instance User_eq_dec : EqDecision User.
Proof. solve_decision. Defined.
#[global] Instance Transfer_eq_dec : EqDecision Transfer.
Proof. solve_decision. Defined.
#[global] Instance Notification_eq_dec : EqDecision Notification.
Proof. solve_decision. Defined.

Definition set_balance (u : User) (b : Z) : User :=
  MkUser (u_id u) (u_phone u) (u_account_number u) (u_username u)
    (u_password_hash u) b (u_is_admin u).

Definition set_is_read (n : Notification) (b : bool) : Notification :=
  MkNotification (n_id n) (n_user_id n) (n_message n) b (n_created_at n).

(** ** Tables *)

Record Tables := MkTables {
  users : list User;
  transfers : list Transfer;
  notifications : list Notification;
}.

#[global] Instance Tables_equiv : Equiv Tables := fun T1 T2 =>
  users T1 ≡ₚ users T2 /\ transfers T1 ≡ₚ transfers T2 /\
  notifications T1 ≡ₚ notifications T2.

#[global] Instance Tables_equivalence : Equivalence (≡@{Tables}).
Proof.
  split.
  - intros T. by split_and!.
  - intros T1 T2 (H1 & H2 & H3). by split_and!; symmetry.
  - intros T1 T2 T3 (H1 & H2 & H3) (K1 & K2 & K3).
    by split_and!; etransitivity; eassumption.
Qed.

#[global] Instance users_proper : Proper ((≡) ==> (≡ₚ)) users.
Proof. by intros T1 T2 (H1 & _ & _). Qed.
#[global] Instance transfers_proper : Proper ((≡) ==> (≡ₚ)) transfers.
Proof. by intros T1 T2 (_ & H & _). Qed.
#[global] Instance notifications_proper : Proper ((≡) ==> (≡ₚ)) notifications.
Proof. by intros T1 T2 (_ & _ & H). Qed.

Definition with_users (T : Tables) (us : list User) : Tables :=
  MkTables us (transfers T) (notifications T).
Definition with_transfers (T : Tables) (ts : list Transfer) : Tables :=
  MkTables (users T) ts (notifications T).
Definition with_notifications (T : Tables) (ns : list Notification) : Tables :=
  MkTables (users T) (transfers T) ns.

(** ** Constraints of migrations 000001 to 000003 *)

(** Column checks of one row of users: VARCHAR lengths, BIGINT range,
    [users_balance_non_negative]. *)
Definition user_row_ok (u : User) : bool :=
  (char_len (u_phone u) <=? 20) && (char_len (u_account_number u) <=? 20) &&
  (char_len (u_username u) <=? 50) && (char_len (u_password_hash u) <=? 255) &&
  (0 <=? u_balance u) && (u_balance u <=? int64_max) &&
  (int64_min <=? u_id u) && (u_id u <=? int64_max).

(** Column checks of transfers: [transfers_amount_positive], BIGINT range. *)
Definition transfer_row_ok (t : Transfer) : bool :=
  (0 <? t_amount t) && (t_amount t <=? int64_max).

Definition notification_row_ok (n : Notification) : bool :=
  char_len (n_message n) <=? 255.

Definition user_ids (T : Tables) : list Z := map u_id (users T).

Record schema_ok (T : Tables) : Prop := {
  ok_user_rows : Forall (fun u => user_row_ok u = true) (users T);
  ok_user_ids : NoDup (user_ids T);
  ok_phones : NoDup (map u_phone (users T));
  ok_accounts : NoDup (map u_account_number (users T));
  ok_transfer_rows : Forall (fun t => transfer_row_ok t = true) (transfers T);
  ok_transfer_ids : NoDup (map t_id (transfers T));
  ok_transfer_from : Forall (fun t => t_from_user t ∈ user_ids T) (transfers T);
  ok_transfer_to : Forall (fun t => t_to_user t ∈ user_ids T) (transfers T);
  ok_notif_rows : Forall (fun n => notification_row_ok n = true) (notifications T);
  ok_notif_ids : NoDup (map n_id (notifications T));
  ok_notif_users : Forall (fun n => n_user_id n ∈ user_ids T) (notifications T);
}.

#[global] Instance schema_ok_dec T : Decision (schema_ok T).
Proof.
  destruct (decide
    ((Forall (fun u => user_row_ok u = true) (users T) /\ NoDup (user_ids T) /\
      NoDup (map u_phone (users T)) /\ NoDup (map u_account_number (users T))) /\
     (Forall (fun t => transfer_row_ok t = true) (transfers T) /\
      NoDup (map t_id (transfers T)) /\
      Forall (fun t => t_from_user t ∈ user_ids T) (transfers T) /\
      Forall (fun t => t_to_user t ∈ user_ids T) (transfers T)) /\
     (Forall (fun n => notification_row_ok n = true) (notifications T) /\
      NoDup (map n_id (notifications T)) /\
      Forall (fun n => n_user_id n ∈ user_ids T) (notifications T)))) as [H|H].
  - left. destruct_and! H. by constructor.
  - right. intros []. apply H. by split_and!.
Defined.

#[global] Instance schema_ok_proper : Proper ((≡) ==> iff) schema_ok.
Proof.
  enough (forall T1 T2, T1 ≡ T2 -> schema_ok T1 -> schema_ok T2) as H
    by (intros T1 T2 HT; split; by apply H).
  intros T1 T2 HT []. pose proof HT as (Hu & Ht & Hn). unfold user_ids in *.
  assert (forall i, i ∈ map u_id (users T1) -> i ∈ map u_id (users T2)) as Hi
    by (intros i; by rewrite Hu).
  constructor; unfold user_ids;
    rewrite <- ?Hu, <- ?Ht, <- ?Hn; try done;
    multimatch goal with H : Forall _ _ |- _ =>
      eapply Forall_impl; [exact H|]; simpl; intros x Hx; by apply Hi
    end.
Qed.

(** The money in the system. *)
Definition total_balance (T : Tables) : Z := sumZ (map u_balance (users T)).

#[global] Instance total_balance_proper : Proper ((≡) ==> (=)) total_balance.
Proof. intros T1 T2 (Eu & _). unfold total_balance. by rewrite Eu. Qed.

(** ** Rows by key *)

Lemma NoDup_map_inj {A B} (f : A -> B) l x y :
  NoDup (map f l) -> x ∈ l -> y ∈ l -> f x = f y -> x = y.
Proof.
  induction l as [|z l IH]; [set_solver|]. simpl.
  intros [Hz Hn]%NoDup_cons Hx Hy E.
  apply elem_of_cons in Hx as [->|Hx]; apply elem_of_cons in Hy as [->|Hy]; auto.
  - destruct Hz. rewrite E. by apply list_elem_of_fmap_2.
  - destruct Hz. rewrite <- E. by apply list_elem_of_fmap_2.
Qed.

Lemma user_by_id T u v :
  schema_ok T -> u ∈ users T -> v ∈ users T -> u_id u = u_id v -> u = v.
Proof. intros H. apply (NoDup_map_inj u_id), H. Qed.

Lemma user_by_phone T u v :
  schema_ok T -> u ∈ users T -> v ∈ users T -> u_phone u = u_phone v -> u = v.
Proof. intros H. apply (NoDup_map_inj u_phone), H. Qed.
