(* ===== verification/Sql.v ===== *)
(** * The SQL the services send

    The services build their statements with bob's query builder or as SQL
    text. This file gives them a syntax (expressions, [Stmt] for what returns
    rows, [Cmd] for what returns a row count) and the meaning that the SQL
    documentation gives them on [Tables]: three-valued logic, [CASE] without
    [ELSE] yielding NULL, BIGINT range errors, constraint checks of the
    migrations, [ON CONFLICT DO NOTHING], [ORDER BY]/[LIMIT]/[OFFSET].

    The identifiers a sequence hands out and the clock are inputs
    ([SqlEnv]); row order without [ORDER BY] is unspecified because tables
    are only known up to permutation (see Servers). The case-insensitive
    matching of [ILIKE] depends on the locale of the database and is a
    parameter. *)

From S2P Require Import Prelude GoStrings Tables.

(** ** Values and expressions *)

Inductive sval : Type := SNull | SInt (z : Z) | SText (s : string) | SBool (b : bool).

Inductive user_col : Type :=
  CId | CPhone | CAccountNumber | CUsername | CPasswordHash | CBalance | CIsAdmin.
Inductive transfer_col : Type :=
  TId | TFromUser | TToUser | TAmount | TCreatedAt.
Inductive notification_col : Type :=
  NId | NUserId | NMessage | NIsRead | NCreatedAt.

#[global] Instance user_col_eq_dec : EqDecision user_col.
Proof. solve_decision. Defined.

Inductive sexpr (C : Type) : Type :=
| ECol (c : C)
| EArg (v : sval)
| EEq (a b : sexpr C)
| EGe (a b : sexpr C)
| EAnd (a b : sexpr C)
| EOr (a b : sexpr C)
| EAdd (a b : sexpr C)
| ESub (a b : sexpr C)
| ECase (c t e : sexpr C)      (* CASE WHEN c THEN t ELSE e END *)
| EAny (a : sexpr C) (l : list Z) (* a = ANY(l) *)
| EILike (a : sexpr C) (pat : string).
Arguments ECol {C} c.
Arguments EArg {C} v.
Arguments EEq {C} a b.
Arguments EGe {C} a b.
Arguments EAnd {C} a b.
Arguments EOr {C} a b.
Arguments EAdd {C} a b.
Arguments ESub {C} a b.
Arguments ECase {C} c t e.
Arguments EAny {C} a l.
Arguments EILike {C} a pat.

(** [a IN (x, y)]. *)
Definition EIn2 {C} (a x y : sexpr C) : sexpr C := EOr (EEq a x) (EEq a y).

(** SQLSTATE codes. *)
Definition c_unique : string := "23505".
Definition c_not_null : string := "23502".
Definition c_check : string := "23514".
Definition c_foreign_key : string := "23503".
Definition c_range : string := "22003".
Definition c_too_long : string := "22001".
Definition c_type : string := "42804".

Definition get_user (c : user_col) (u : User) : sval :=
  match c with
  | CId => SInt (u_id u)
  | CPhone => SText (u_phone u)
  | CAccountNumber => SText (u_account_number u)
  | CUsername => SText (u_username u)
  | CPasswordHash => SText (u_password_hash u)
  | CBalance => SInt (u_balance u)
  | CIsAdmin => SBool (u_is_admin u)
  end.

Definition get_transfer (c : transfer_col) (t : Transfer) : sval :=
  match c with
  | TId => SInt (t_id t)
  | TFromUser => SInt (t_from_user t)
  | TToUser => SInt (t_to_user t)
  | TAmount => SInt (t_amount t)
  | TCreatedAt => SInt (t_created_at t)
  end.

Definition get_notification (c : notification_col) (n : Notification) : sval :=
  match c with
  | NId => SInt (n_id n)
  | NUserId => SInt (n_user_id n)
  | NMessage => SText (n_message n)
  | NIsRead => SBool (n_is_read n)
  | NCreatedAt => SInt (n_created_at n)
  end.

(** Three-valued connectives and comparisons. *)
Definition sql_eq (a b : sval) : result sval string :=
  match a, b with
  | SNull, _ | _, SNull => Ok SNull
  | SInt x, SInt y => Ok (SBool (x =? y))
  | SText x, SText y => Ok (SBool (bool_decide (x = y)))
  | SBool x, SBool y => Ok (SBool (Bool.eqb x y))
  | _, _ => Err c_type
  end.

Definition sql_ge (a b : sval) : result sval string :=
  match a, b with
  | SNull, _ | _, SNull => Ok SNull
  | SInt x, SInt y => Ok (SBool (y <=? x))
  | _, _ => Err c_type
  end.

Definition sql_and (a b : sval) : result sval string :=
  match a, b with
  | SBool false, (SBool _ | SNull) | (SBool true | SNull), SBool false => Ok (SBool false)
  | SBool true, SBool true => Ok (SBool true)
  | SBool true, SNull | SNull, (SBool true | SNull) => Ok SNull
  | _, _ => Err c_type
  end.

Definition sql_or (a b : sval) : result sval string :=
  match a, b with
  | SBool true, (SBool _ | SNull) | (SBool false | SNull), SBool true => Ok (SBool true)
  | SBool false, SBool false => Ok (SBool false)
  | SBool false, SNull | SNull, (SBool false | SNull) => Ok SNull
  | _, _ => Err c_type
  end.

(** BIGINT arithmetic: an overflow is an error, not a wrap-around. *)
Definition sql_arith (op : Z -> Z -> Z) (a b : sval) : result sval string :=
  match a, b with
  | SNull, (SInt _ | SNull) | SInt _, SNull => Ok SNull
  | SInt x, SInt y =>
      if decide (in_int64 (op x y)) then Ok (SInt (op x y)) else Err c_range
  | _, _ => Err c_type
  end.

Section Eval.
Context (ilike : string -> string -> bool).
Context {C R : Type} (get : C -> R -> sval).

Definition seval2 (f : sval -> sval -> result sval string) (a b : result sval string)
    : result sval string :=
  match a, b with
  | Ok x, Ok y => f x y
  | Err c, _ => Err c
  | _, Err c => Err c
  end.

Fixpoint seval (e : sexpr C) (r : R) : result sval string :=
  match e with
  | ECol c => Ok (get c r)
  | EArg v => Ok v
  | EEq a b => seval2 sql_eq (seval a r) (seval b r)
  | EGe a b => seval2 sql_ge (seval a r) (seval b r)
  | EAnd a b => seval2 sql_and (seval a r) (seval b r)
  | EOr a b => seval2 sql_or (seval a r) (seval b r)
  | EAdd a b => seval2 (sql_arith Z.add) (seval a r) (seval b r)
  | ESub a b => seval2 (sql_arith Z.sub) (seval a r) (seval b r)
  | ECase c t e =>
      match seval c r with
      | Ok (SBool true) => seval t r
      | Ok _ => seval e r
      | Err c => Err c
      end
  | EAny a l =>
      match seval a r with
      | Ok SNull => Ok SNull
      | Ok (SInt x) => Ok (SBool (bool_decide (x ∈ l)))
      | Ok _ => Err c_type
      | Err c => Err c
      end
  | EILike a pat =>
      match seval a r with
      | Ok SNull => Ok SNull
      | Ok (SText x) => Ok (SBool (ilike x pat))
      | Ok _ => Err c_type
      | Err c => Err c
      end
  end.

(** A row satisfies a [WHERE] clause when it evaluates to true. *)
Definition matches (w : option (sexpr C)) (r : R) : result bool string :=
  match w with
  | None => Ok true
  | Some e =>
      match seval e r with
      | Ok (SBool true) => Ok true
      | Ok _ => Ok false
      | Err c => Err c
      end
  end.

Fixpoint filter_rows (w : option (sexpr C)) (rs : list R) : result (list R) string :=
  match rs with
  | [] => Ok []
  | r :: rs' =>
      match matches w r, filter_rows w rs' with
      | Ok true, Ok l => Ok (r :: l)
      | Ok false, Ok l => Ok l
      | Err c, _ => Err c
      | _, Err c => Err c
      end
  end.

(** [ORDER BY col [DESC]] on an integer column. *)
Definition sort_key (c : C) (r : R) : Z :=
  match get c r with SInt z => z | _ => 0 end.

Definition row_le (o : C * bool) (r1 r2 : R) : Prop :=
  if o.2 then sort_key o.1 r2 <= sort_key o.1 r1
  else sort_key o.1 r1 <= sort_key o.1 r2.

#[global] Instance row_le_dec o r1 r2 : Decision (row_le o r1 r2).
Proof. unfold row_le. destruct (o.2); apply _. Defined.

Definition order_rows (o : option (C * bool)) (rs : list R) : list R :=
  match o with None => rs | Some o => merge_sort (row_le o) rs end.
End Eval.

(** What follows FROM: [WHERE], [ORDER BY], [LIMIT], [OFFSET], [FOR UPDATE]. *)
Record Query (C : Type) := MkQuery {
  q_where : option (sexpr C);
  q_order : option (C * bool);
  q_limit : option Z;
  q_offset : Z;
  q_for_update : bool;
}.
Arguments MkQuery {C} q_where q_order q_limit q_offset q_for_update.
Arguments q_where {C} q.
Arguments q_order {C} q.
Arguments q_limit {C} q.
Arguments q_offset {C} q.
Arguments q_for_update {C} q.

Definition limit_rows {R} (lim : option Z) (off : Z) (rs : list R) : list R :=
  let rs' := drop (Z.to_nat off) rs in
  match lim with None => rs' | Some n => take (Z.to_nat n) rs' end.

Definition run_query {C R} (ilike : string -> string -> bool) (get : C -> R -> sval)
    (q : Query C) (rs : list R) : result (list R) string :=
  rmap (fun l => limit_rows (q_limit q) (q_offset q) (order_rows get (q_order q) l))
       (filter_rows ilike get (q_where q) rs).

(** The columns a statement does not select keep the zero value of the Go
    struct that the row is scanned into. *)
Definition project_user (cols : list user_col) (u : User) : User :=
  let has c := bool_decide (c ∈ cols) in
  MkUser (if has CId then u_id u else 0)
    (if has CPhone then u_phone u else "")
    (if has CAccountNumber then u_account_number u else "")
    (if has CUsername then u_username u else "")
    (if has CPasswordHash then u_password_hash u else "")
    (if has CBalance then u_balance u else 0)
    (if has CIsAdmin then u_is_admin u else false).

(** ** Statements *)

(** Statements that return rows of type [A]. *)
Inductive Stmt : Type -> Type :=
| SelectUsers (cols : list user_col) (q : Query user_col) : Stmt User
| SelectTransfers (q : Query transfer_col) : Stmt Transfer
| SelectNotifications (q : Query notification_col) : Stmt Notification
| CountUsers (w : option (sexpr user_col)) : Stmt Z
| CountTransfers : Stmt Z
| CountNotifications : Stmt Z
| SumUsers : Stmt (Z * Z)       (* COUNT( * ), COALESCE(SUM(balance), 0) *)
| SumTransfers : Stmt (Z * Z)   (* COUNT( * ), COALESCE(SUM(amount), 0) *)
| InsertUser (phone account_number username password_hash : string)
    (returning : list user_col) : Stmt User
    (* ON CONFLICT (account_number) DO NOTHING *)
| InsertTransfer (from_user to_user amount : Z) : Stmt Z. (* RETURNING id *)

(** Statements that return the number of rows they affected. *)
Inductive Cmd : Type :=
| UpdateUsers (col : user_col) (e : sexpr user_col) (w : sexpr user_col)
| InsertNotifications (rows : list (Z * string))
| UpdateNotifications (is_read : bool) (w : sexpr notification_col).

(** ** Meaning *)

(** Every table has a sequence of its own ([SERIAL PRIMARY KEY], BIGINT since
    migration 000003): the identifiers that a statement draws from each. *)
Record SqlEnv := {
  env_user_ids : list Z;
  env_transfer_ids : list Z;
  env_notification_ids : list Z;
  env_now : Z;
}.

(** The sequence of a table whose identifiers are [used] hands out others, in
    the BIGINT range; at least [k] of them. *)
Definition seq_ok (k : nat) (used ids : list Z) : Prop :=
  NoDup ids /\ Forall (fun i => in_int64 i /\ i ∉ used) ids /\ (k <= length ids)%nat.

(** A user and a transfer may well have the same identifier. *)
Definition env_ok (env : SqlEnv) (T : Tables) : Prop :=
  seq_ok 1 (user_ids T) (env_user_ids env) /\
  seq_ok 1 (map t_id (transfers T)) (env_transfer_ids env) /\
  seq_ok 2 (map n_id (notifications T)) (env_notification_ids env).

Definition nth_id (ids : list Z) (k : nat) : Z := nth k ids 0.

(** DEFAULT of users.balance and users.is_admin (migration 000001). *)
Definition default_balance : Z := 100000.

Definition user_set (c : user_col) (v : sval) (u : User) : result User string :=
  match c, v with
  | _, SNull => Err c_not_null
  | CBalance, SInt z =>
      if z <? 0 then Err c_check
      else if decide (in_int64 z) then Ok (set_balance u z) else Err c_range
  | _, _ => Err c_type
  end.

Section Meaning.
Context (ilike : string -> string -> bool).

Fixpoint update_users (c : user_col) (e w : sexpr user_col) (us : list User)
    : result (list User * Z) string :=
  match us with
  | [] => Ok ([], 0)
  | u :: us' =>
      match matches ilike get_user (Some w) u with
      | Err x => Err x
      | Ok false =>
          rmap (fun r => (u :: r.1, r.2)) (update_users c e w us')
      | Ok true =>
          match seval ilike get_user e u with
          | Err x => Err x
          | Ok v =>
              match user_set c v u with
              | Err x => Err x
              | Ok u' =>
                  rmap (fun r => (u' :: r.1, r.2 + 1)) (update_users c e w us')
              end
          end
      end
  end.

Fixpoint update_notifications (b : bool) (w : sexpr notification_col)
    (ns : list Notification) : result (list Notification * Z) string :=
  match ns with
  | [] => Ok ([], 0)
  | n :: ns' =>
      match matches ilike get_notification (Some w) n with
      | Err x => Err x
      | Ok false => rmap (fun r => (n :: r.1, r.2)) (update_notifications b w ns')
      | Ok true =>
          rmap (fun r => (set_is_read n b :: r.1, r.2 + 1)) (update_notifications b w ns')
      end
  end.

Fixpoint number_notifications (ids : list Z) (now : Z) (rows : list (Z * string))
    : list Notification :=
  match rows, ids with
  | (uid, msg) :: rows', i :: ids' =>
      MkNotification i uid msg false now :: number_notifications ids' now rows'
  | _, _ => []
  end.

Definition stmt_run {A} (s : Stmt A) (env : SqlEnv) (T : Tables)
    : result (list A * Tables) string :=
  match s in Stmt A return result (list A * Tables) string with
  | SelectUsers cols q =>
      rmap (fun l => (map (project_user cols) l, T)) (run_query ilike get_user q (users T))
  | SelectTransfers q =>
      rmap (fun l => (l, T)) (run_query ilike get_transfer q (transfers T))
  | SelectNotifications q =>
      rmap (fun l => (l, T)) (run_query ilike get_notification q (notifications T))
  | CountUsers w =>
      rmap (fun l => ([Z.of_nat (length l)], T)) (filter_rows ilike get_user w (users T))
  | CountTransfers => Ok ([Z.of_nat (length (transfers T))], T)
  | CountNotifications => Ok ([Z.of_nat (length (notifications T))], T)
  | SumUsers =>
      Ok ([(Z.of_nat (length (users T)), sumZ (map u_balance (users T)))], T)
  | SumTransfers =>
      Ok ([(Z.of_nat (length (transfers T)), sumZ (map t_amount (transfers T)))], T)
  | InsertUser phone acct username pw returning =>
      let u := MkUser (nth_id (env_user_ids env) 0) phone acct username pw default_balance false in
      if negb (user_row_ok u) then Err c_too_long
      else if bool_decide (acct ∈ map u_account_number (users T)) then Ok ([], T)
      else if bool_decide (phone ∈ map u_phone (users T)) then Err c_unique
      else Ok ([project_user returning u], with_users T (users T ++ [u]))
  | InsertTransfer from to amount =>
      let t := MkTransfer (nth_id (env_transfer_ids env) 0) from to amount (env_now env) in
      if negb (transfer_row_ok t) then Err c_check
      else if bool_decide (from ∈ user_ids T /\ to ∈ user_ids T)
      then Ok ([nth_id (env_transfer_ids env) 0], with_transfers T (transfers T ++ [t]))
      else Err c_foreign_key
  end.

Definition cmd_run (c : Cmd) (env : SqlEnv) (T : Tables) : result (Z * Tables) string :=
  match c with
  | UpdateUsers col e w =>
      rmap (fun r => (r.2, with_users T r.1)) (update_users col e w (users T))
  | InsertNotifications rows =>
      let ns := number_notifications (env_notification_ids env) (env_now env) rows in
      if (length (env_notification_ids env) <? length rows)%nat then Err "2200H" (* sequence exhausted *)
      else if negb (forallb notification_row_ok ns) then Err c_too_long
      else if forallb (fun r => bool_decide (r.1 ∈ user_ids T)) rows
      then Ok (Z.of_nat (length rows), with_notifications T (notifications T ++ ns))
      else Err c_foreign_key
  | UpdateNotifications b w =>
      rmap (fun r => (r.2, with_notifications T r.1))
           (update_notifications b w (notifications T))
  end.
End Meaning.
