(* ===== verification/SqlFacts.v ===== *)
(** * Facts on the SQL statements

    What a [WHERE] clause selects and an [UPDATE] writes when the clause is a
    decidable predicate of the row, and that no statement breaks a constraint
    of the migrations. *)

From S2P Require Import Prelude GoStrings Tables Sql.

Section Facts.
Context (ilike : string -> string -> bool).

(** ** Selections *)

Lemma filter_rows_pure {C R} (get : C -> R -> sval) w (f : R -> bool) rs :
  (forall r, matches ilike get w r = Ok (f r)) ->
  filter_rows ilike get w rs = Ok (List.filter f rs).
Proof.
  intros Hf. induction rs as [|r rs IH]; [done|]. simpl.
  rewrite Hf, IH. by destruct (f r).
Qed.

Lemma order_rows_perm {C R} (get : C -> R -> sval) o rs :
  order_rows get o rs ≡ₚ rs.
Proof. destruct o as [o|]; [|done]. apply merge_sort_Permutation. Qed.

Lemma matches_eq_user c (v : sval) u b :
  sql_eq (get_user c u) v = Ok (SBool b) ->
  matches ilike get_user (Some (EEq (ECol c) (EArg v))) u = Ok b.
Proof. intros E. simpl. rewrite E. by destruct b. Qed.

Lemma project_all cols u :
  (forall c, c ∈ cols) -> project_user cols u = u.
Proof.
  intros H. unfold project_user. rewrite !bool_decide_eq_true_2 by apply H.
  by destruct u.
Qed.

(** ** Updates *)

(** What the assignment [SET c = e] makes of one row. *)
Definition assign_row (c : user_col) (e : sexpr user_col) (u : User) : result User string :=
  match seval ilike get_user e u with Ok v => user_set c v u | Err x => Err x end.

Lemma update_users_pure c e w f us :
  (forall u, matches ilike get_user (Some w) u = Ok (f u)) ->
  update_users ilike c e w us =
    foldr (fun u acc =>
             match (if f u then assign_row c e u else Ok u) with
             | Err x => Err x
             | Ok u' => rmap (fun r => (u' :: r.1, r.2 + if f u then 1 else 0)) acc
             end) (Ok ([], 0)) us.
Proof.
  intros Hf. induction us as [|u us IH]; [done|]. cbn [update_users foldr].
  rewrite Hf, IH. destruct (f u); unfold assign_row.
  - by repeat case_match; simplify_eq.
  - by destruct (foldr _ _ _) as [[]|]; simpl; rewrite ?Z.add_0_r.
Qed.

(** An update that succeeds wrote [g] to every selected row. *)
Lemma update_users_ok c e w f g us us' n :
  (forall u, matches ilike get_user (Some w) u = Ok (f u)) ->
  (forall u u', u ∈ us -> f u = true -> assign_row c e u = Ok u' -> u' = g u) ->
  update_users ilike c e w us = Ok (us', n) ->
  us' = map (fun u => if f u then g u else u) us /\
  n = Z.of_nat (length (List.filter f us)) /\
  (forall u, u ∈ us -> f u = true -> is_ok (assign_row c e u) = true).
Proof.
  intros Hf Hg. rewrite (update_users_pure _ _ _ _ _ Hf).
  revert us' n. induction us as [|u us IH]; intros us' n; cbn [foldr map List.filter].
  - intros [= <- <-]. split_and!; [done..|]. intros u Hu. by apply not_elem_of_nil in Hu.
  - destruct (if f u then _ else _) as [u'|] eqn:E; [|done].
    destruct (foldr _ _ us) as [[us1 n1]|]; [|done]. simpl. intros [= <- <-].
    destruct (IH ltac:(set_solver) us1 n1 eq_refl) as (-> & -> & Hok).
    split_and!.
    + destruct (f u) eqn:Fu; [f_equal; apply Hg; set_solver|congruence].
    + destruct (f u); simpl; lia.
    + intros v [->|Hv]%elem_of_cons Fv; [|auto]. rewrite Fv in E. by rewrite E.
Qed.

(** A failed update failed on one of the selected rows. *)
Lemma update_users_err c e w f us x :
  (forall u, matches ilike get_user (Some w) u = Ok (f u)) ->
  update_users ilike c e w us = Err x ->
  exists u, u ∈ us /\ f u = true /\ assign_row c e u = Err x.
Proof.
  intros Hf. rewrite (update_users_pure _ _ _ _ _ Hf).
  induction us as [|u us IH]; [done|]. cbn [foldr].
  destruct (f u) eqn:Fu; [destruct (assign_row c e u) as [u'|y] eqn:Ea|].
  2: { intros [= ->]. exists u. split_and!; try done. left. }
  all: destruct (foldr _ _ us) as [r|y]; [done|]; intros [= ->];
    destruct (IH eq_refl) as (v & Hv & Hfv & Hav); exists v; split_and!; try done; by right.
Qed.

(** An update of whose rows all can be written succeeds. *)
Lemma update_users_total c e w f g us :
  (forall u, matches ilike get_user (Some w) u = Ok (f u)) ->
  (forall u, u ∈ us -> f u = true -> assign_row c e u = Ok (g u)) ->
  update_users ilike c e w us =
    Ok (map (fun u => if f u then g u else u) us, Z.of_nat (length (List.filter f us))).
Proof.
  intros Hf Hg. rewrite (update_users_pure _ _ _ _ _ Hf).
  induction us as [|u us IH]; [done|]. cbn [foldr map List.filter].
  rewrite IH by set_solver. destruct (f u) eqn:Fu.
  - rewrite Hg by set_solver. cbn [rmap fst snd length]. do 2 f_equal. lia.
  - cbn [rmap fst snd]. do 2 f_equal. lia.
Qed.

Lemma user_set_balance c v u u' :
  user_set c v u = Ok u' ->
  exists z, c = CBalance /\ v = SInt z /\ 0 <= z /\ in_int64 z /\ u' = set_balance u z.
Proof.
  unfold user_set. intros E. repeat case_match; simplify_eq.
  eexists. split_and!; try done. lia.
Qed.

(** The general shape of an update: balances of selected rows, in range. *)
Lemma update_users_shape c e w us us' n :
  update_users ilike c e w us = Ok (us', n) ->
  Forall2 (fun u u' => u' = u \/
             exists z, 0 <= z /\ in_int64 z /\ u' = set_balance u z) us us'.
Proof.
  revert us' n. induction us as [|u us IH]; intros us' n; cbn [update_users].
  - intros [= <- <-]. constructor.
  - destruct (matches _ _ _ u) as [[]|]; [..|done].
    + destruct (seval _ _ e u) as [v|]; [|done].
      destruct (user_set c v u) as [u1|] eqn:Hu; [|done].
      destruct (update_users _ _ _ _ us) as [[us1 n1]|] eqn:E; [|done].
      intros [= <- <-]. constructor; [|by eapply IH].
      apply user_set_balance in Hu as (z & _ & _ & Hz & Hr & ->). eauto.
    + destruct (update_users _ _ _ _ us) as [[us1 n1]|] eqn:E; [|done].
      intros [= <- <-]. constructor; [by left|by eapply IH].
Qed.

Lemma update_notifications_shape b w ns ns' n :
  update_notifications ilike b w ns = Ok (ns', n) ->
  Forall2 (fun x x' => x' = x \/ x' = set_is_read x b) ns ns'.
Proof.
  revert ns' n. induction ns as [|x ns IH]; intros ns' n; cbn [update_notifications].
  - intros [= <- <-]. constructor.
  - destruct (matches _ _ _ x) as [[]|]; [..|done];
      destruct (update_notifications _ _ _ ns) as [[ns1 n1]|] eqn:E; try done;
      intros [= <- <-]; constructor; eauto.
Qed.

Lemma update_notifications_ok b w f ns ns' n :
  (forall x, matches ilike get_notification (Some w) x = Ok (f x)) ->
  update_notifications ilike b w ns = Ok (ns', n) ->
  ns' = map (fun x => if f x then set_is_read x b else x) ns /\
  n = Z.of_nat (length (List.filter f ns)).
Proof.
  intros Hf. revert ns' n.
  induction ns as [|x ns IH]; intros ns' n; cbn [update_notifications map List.filter].
  - by intros [= <- <-].
  - rewrite Hf. destruct (update_notifications _ _ _ ns) as [[ns1 n1]|] eqn:E;
      destruct (f x); try done; intros [= <- <-];
      destruct (IH _ _ eq_refl) as [-> ->]; split; simpl; try done; lia.
Qed.

Lemma update_notifications_total b w f ns :
  (forall x, matches ilike get_notification (Some w) x = Ok (f x)) ->
  update_notifications ilike b w ns =
    Ok (map (fun x => if f x then set_is_read x b else x) ns,
        Z.of_nat (length (List.filter f ns))).
Proof.
  intros Hf. induction ns as [|x ns IH]; [done|].
  cbn [update_notifications map List.filter]. rewrite Hf, IH.
  destruct (f x); simpl; do 2 f_equal; lia.
Qed.
End Facts.

(** ** Constraints *)

Lemma Forall2_map_eq {A B} (R : A -> A -> Prop) (f : A -> B) l l' :
  Forall2 R l l' -> (forall x y, R x y -> f x = f y) -> map f l' = map f l.
Proof. intros H Hf. induction H; simpl; [done|]. f_equal; [symmetry|]; auto. Qed.

Lemma Forall_Forall2_transport {A} (R : A -> A -> Prop) (Q : A -> Prop) l l' :
  Forall2 R l l' -> Forall Q l -> (forall x y, R x y -> Q x -> Q y) -> Forall Q l'.
Proof.
  intros H HQ Ht. induction H; inversion HQ; subst; constructor; eauto.
Qed.

Lemma user_row_ok_set_balance u z :
  user_row_ok u = true -> 0 <= z -> in_int64 z -> user_row_ok (set_balance u z) = true.
Proof.
  unfold user_row_ok, in_int64. simpl. intros H H0 [H1 H2].
  rewrite !andb_true_iff in *. destruct_and! H. split_and!; try done; lia.
Qed.

Lemma NoDup_snoc {A} (l : list A) x : NoDup l -> x ∉ l -> NoDup (l ++ [x]).
Proof.
  intros H Hx. apply NoDup_app. split_and!; [done| |apply NoDup_singleton].
  intros y Hy ->%list_elem_of_singleton. done.
Qed.

Lemma schema_with_users T us :
  Forall2 (fun u u' => u' = u \/
             exists z, 0 <= z /\ in_int64 z /\ u' = set_balance u z) (users T) us ->
  schema_ok T -> schema_ok (with_users T us).
Proof.
  intros Hs []. unfold user_ids in *.
  assert (map u_id us = map u_id (users T) /\ map u_phone us = map u_phone (users T) /\
          map u_account_number us = map u_account_number (users T)) as (E1 & E2 & E3)
    by (split_and!; eapply Forall2_map_eq; try exact Hs;
        intros u u' [->|(z & _ & _ & ->)]; done).
  constructor; unfold user_ids; simpl; rewrite ?E1, ?E2, ?E3; try done.
  eapply Forall_Forall2_transport; [exact Hs|done|].
  intros u u' [->|(z & Hz & Hr & ->)] Hu; [done|]. by apply user_row_ok_set_balance.
Qed.

Lemma schema_with_notification_flags T ns b :
  Forall2 (fun x x' => x' = x \/ x' = set_is_read x b) (notifications T) ns ->
  schema_ok T -> schema_ok (with_notifications T ns).
Proof.
  intros Hs []. unfold user_ids in *.
  assert (map n_id ns = map n_id (notifications T)) as E
    by (eapply Forall2_map_eq; try exact Hs; intros x x' [->| ->]; done).
  constructor; unfold user_ids; simpl; rewrite ?E; try done;
    eapply Forall_Forall2_transport; try exact Hs; try done;
    intros x x' [->| ->] Hx; done.
Qed.

Lemma schema_insert_user T u :
  schema_ok T -> user_row_ok u = true -> u_id u ∉ user_ids T ->
  u_phone u ∉ map u_phone (users T) ->
  u_account_number u ∉ map u_account_number (users T) ->
  schema_ok (with_users T (users T ++ [u])).
Proof.
  intros [] Hrow Hid Hp Ha. unfold user_ids in *.
  assert (forall i, i ∈ map u_id (users T) -> i ∈ map u_id (users T ++ [u])) as Hsub
    by (intros i Hi; rewrite map_app; set_solver).
  constructor; unfold user_ids; simpl; rewrite ?map_app;
    try by (apply NoDup_snoc).
  - apply Forall_app. by rewrite Forall_singleton.
  - done.
  - done.
  - eapply Forall_impl; [exact ok_transfer_from|]. intros t Ht. set_solver.
  - eapply Forall_impl; [exact ok_transfer_to|]. intros t Ht. set_solver.
  - done.
  - done.
  - eapply Forall_impl; [exact ok_notif_users|]. intros t Ht. set_solver.
Qed.

Lemma schema_insert_transfer T t :
  schema_ok T -> transfer_row_ok t = true -> t_id t ∉ map t_id (transfers T) ->
  t_from_user t ∈ user_ids T -> t_to_user t ∈ user_ids T ->
  schema_ok (with_transfers T (transfers T ++ [t])).
Proof.
  intros [] Hrow Hid Hf Ht.
  constructor; simpl; try done; rewrite ?map_app;
    try (apply Forall_app; by rewrite Forall_singleton).
  by apply NoDup_snoc.
Qed.

Lemma number_notifications_spec ids now rows :
  (length rows <= length ids)%nat ->
  map n_id (number_notifications ids now rows) = take (length rows) ids /\
  map (fun x => (n_user_id x, n_message x)) (number_notifications ids now rows) = rows.
Proof.
  revert ids. induction rows as [|[uid msg] rows IH]; intros [|i ids] H; simpl in *; try done; try lia.
  destruct (IH ids ltac:(lia)) as [-> ->]. done.
Qed.

Lemma schema_insert_notifications T env rows :
  schema_ok T -> env_ok env T ->
  (length rows <= length (env_notification_ids env))%nat ->
  Forall (fun x => notification_row_ok x = true)
    (number_notifications (env_notification_ids env) (env_now env) rows) ->
  Forall (fun r => r.1 ∈ user_ids T) rows ->
  schema_ok (with_notifications T
    (notifications T ++ number_notifications (env_notification_ids env) (env_now env) rows)).
Proof.
  intros [] (_ & _ & Hnd & Hfresh & _) Hlen Hok Hu.
  destruct (number_notifications_spec (env_notification_ids env) (env_now env) rows Hlen) as [Eid Erow].
  set (ns := number_notifications _ _ _) in *.
  constructor; simpl; try done; rewrite ?map_app; try (by apply Forall_app).
  - apply NoDup_app. split_and!; [done| |].
    + intros i Hi Hi'. rewrite Eid in Hi'. apply elem_of_take in Hi' as (j & Hj & _).
      apply list_elem_of_lookup_2 in Hj. rewrite Forall_forall in Hfresh.
      by destruct (Hfresh _ Hj) as (_ & Hn).
    + rewrite Eid. by apply (sublist_NoDup _ (env_notification_ids env)); [|apply sublist_take].
  - apply Forall_app. split; [done|].
    apply Forall_forall. intros x Hx. rewrite Forall_forall in Hu.
    apply (Hu (n_user_id x, n_message x)). rewrite <- Erow.
    by apply (list_elem_of_fmap_2 (fun x => (n_user_id x, n_message x))).
Qed.

Lemma nth_id_fresh n used ids k :
  seq_ok n used ids -> (k < n)%nat -> in_int64 (nth_id ids k) /\ nth_id ids k ∉ used.
Proof.
  intros (_ & Hf & Hl) Hk. rewrite Forall_forall in Hf. apply Hf.
  unfold nth_id. apply list_elem_of_In, nth_In. lia.
Qed.

Lemma user_id_fresh env T :
  env_ok env T ->
  in_int64 (nth_id (env_user_ids env) 0) /\ nth_id (env_user_ids env) 0 ∉ user_ids T.
Proof. intros [H _]. by apply (nth_id_fresh 1); [|lia]. Qed.

Lemma transfer_id_fresh env T :
  env_ok env T ->
  in_int64 (nth_id (env_transfer_ids env) 0) /\
  nth_id (env_transfer_ids env) 0 ∉ map t_id (transfers T).
Proof. intros (_ & H & _). by apply (nth_id_fresh 1); [|lia]. Qed.

(** No statement breaks a constraint. *)
Lemma stmt_run_schema ilike {A} (s : Stmt A) env T l T' :
  schema_ok T -> env_ok env T -> stmt_run ilike s env T = Ok (l, T') -> schema_ok T'.
Proof.
  intros HT He. destruct s; cbn [stmt_run]; unfold rmap; intros E;
    repeat case_match; simplify_eq; try done.
  - apply schema_insert_user; simpl; try done;
      repeat match goal with H : bool_decide _ = false |- _ => apply bool_decide_eq_false in H end;
      try done.
    + by apply negb_false_iff.
    + by apply user_id_fresh.
  - match goal with H : bool_decide _ = true |- _ => apply bool_decide_eq_true in H as [??] end.
    apply schema_insert_transfer; simpl; try done.
    + by apply negb_false_iff.
    + by apply transfer_id_fresh.
Qed.

Lemma cmd_run_schema ilike c env T n T' :
  schema_ok T -> env_ok env T -> cmd_run ilike c env T = Ok (n, T') -> schema_ok T'.
Proof.
  intros HT He. destruct c; cbn [cmd_run]; unfold rmap; intros E.
  - destruct (update_users _ _ _ _ _) as [[us m]|] eqn:Eu; simplify_eq.
    eapply schema_with_users; [by eapply update_users_shape|done].
  - repeat case_match; simplify_eq. apply schema_insert_notifications; try done.
    + apply Nat.ltb_ge. done.
    + apply Forall_forall. intros x Hx.
      match goal with H : negb (forallb _ _) = false |- _ => apply negb_false_iff in H;
        rewrite forallb_forall in H; apply H; by apply list_elem_of_In end.
    + apply Forall_forall. intros x Hx.
      match goal with H : forallb _ rows = true |- _ => rewrite forallb_forall in H;
        apply list_elem_of_In in Hx; specialize (H _ Hx); by apply bool_decide_eq_true in H end.
  - destruct (update_notifications _ _ _ _) as [[us m]|] eqn:Eu; simplify_eq.
    eapply schema_with_notification_flags; [by eapply update_notifications_shape|done].
Qed.
