(* ===== verification/Servers.v ===== *)
(** * Interfaces of the servers and libraries the services call

    PostgreSQL behind bob, Redis behind go-redis, JetStream and bcrypt are not
    part of this repository. Each is a class: its operations on a state of its
    own, an observation of that state, and a class of laws that state its
    documented behaviour. A call may always fail; the laws say what the
    observable state can be afterwards ([outcome]). [healthy n] says that the
    next [n] operations meet no fault: it is only used for totality results.

    [World] puts the servers and the process environment ([Host]) together;
    the services are programs of the state monad over it. *)

From S2P Require Import Prelude GoStrings Tables Sql.

(** ** PostgreSQL, through bob *)

Inductive sqlfail : Type := FNoRows | FState (code : string).

(** [sql.ErrNoRows]. *)
Definition ErrNoRows : goerr := ELib "sql: no rows in result set".

Definition no_rows (e : goerr) : bool := errors_Is e ErrNoRows.

(** SQLSTATE codes that report the data of the statement itself. *)
Definition data_code (c : string) : bool :=
  bool_decide (c ∈ [c_unique; c_not_null; c_check; c_foreign_key; c_range; c_too_long; c_type]).

(** The error value reports the failure [f] of the statement. *)
Definition reports (f : sqlfail) (e : goerr) : bool :=
  foreign e &&
  match f with
  | FNoRows => no_rows e && bool_decide (errors_As_pg e = None)
  | FState c => negb (no_rows e) && bool_decide (errors_As_pg e = Some c)
  end.

(** The error value reports anything else: a lost connection, a timeout, a
    serialization failure, a cancelled context. *)
Definition server_fault (e : goerr) : bool :=
  foreign e && negb (no_rows e) &&
  match errors_As_pg e with Some c => negb (data_code c) | None => true end.

(** Faults after which the caller cannot know whether the server applied the
    operation: those that are no answer of the server. *)
Definition reply_lost (e : goerr) : bool :=
  foreign e && negb (no_rows e) && bool_decide (errors_As_pg e = None).

Section Runs.
Context (ilike : string -> string -> bool).

Definition all_run {A} (s : Stmt A) (env : SqlEnv) (T : Tables)
    : result (list A * Tables) sqlfail :=
  match stmt_run ilike s env T with Ok r => Ok r | Err c => Err (FState c) end.

Definition one_run {A} (s : Stmt A) (env : SqlEnv) (T : Tables)
    : result (A * Tables) sqlfail :=
  match stmt_run ilike s env T with
  | Ok (a :: _, T') => Ok (a, T')
  | Ok ([], _) => Err FNoRows
  | Err c => Err (FState c)
  end.

Definition exec_run (c : Cmd) (env : SqlEnv) (T : Tables) : result (Z * Tables) sqlfail :=
  match cmd_run ilike c env T with Ok r => Ok r | Err c => Err (FState c) end.
End Runs.

(** What one operation can return and leave behind, on tables [T]. *)
Inductive outcome {B} (run : SqlEnv -> Tables -> result (B * Tables) sqlfail) (T : Tables)
  : result B goerr -> Tables -> Prop :=
| out_ok env T0 b T1 T' :
    T ≡ T0 -> env_ok env T0 -> run env T0 = Ok (b, T1) -> T1 ≡ T' ->
    outcome run T (Ok b) T'
| out_fail env T0 f e T' :
    T ≡ T0 -> env_ok env T0 -> run env T0 = Err f -> reports f e = true -> T ≡ T' ->
    outcome run T (Err e) T'
| out_fault e T' :
    server_fault e = true -> T ≡ T' -> outcome run T (Err e) T'
| out_lost env T0 b T1 e T' :
    reply_lost e = true ->
    T ≡ T0 -> env_ok env T0 -> run env T0 = Ok (b, T1) -> T1 ≡ T' ->
    outcome run T (Err e) T'.

(** Without faults. *)
Inductive sound_outcome {B} (run : SqlEnv -> Tables -> result (B * Tables) sqlfail) (T : Tables)
  : result B goerr -> Tables -> Prop :=
| snd_ok env T0 b T1 T' :
    T ≡ T0 -> env_ok env T0 -> run env T0 = Ok (b, T1) -> T1 ≡ T' ->
    sound_outcome run T (Ok b) T'
| snd_fail env T0 f e T' :
    T ≡ T0 -> env_ok env T0 -> run env T0 = Err f -> reports f e = true -> T ≡ T' ->
    sound_outcome run T (Err e) T'.

Record TxOptions := { tx_serializable : bool; tx_read_only : bool }.

(** [bob.One], [bob.All], [bob.Exec] with RowsAffected, and
    [bob.DB.RunInTx]. The callback of a transaction works on the variables it
    captures ([S]) and on the transaction; the captured variables are not
    rolled back. [pg_tx] is a transaction as one operation: the laws promise
    that it runs as if it were alone when its options ask for SERIALIZABLE,
    and nothing otherwise. A READ COMMITTED transaction is [pg_begin], its
    statements, each of which sees what is committed when it starts, and
    [pg_end] with the error of the callback. *)
Class PgServer (P : Type) := {
  pg_view : P -> Tables;
  pg_ilike : string -> string -> bool;
  pg_one : forall {A}, Stmt A -> P -> result A goerr * P;
  pg_all : forall {A}, Stmt A -> P -> result (list A) goerr * P;
  pg_exec : Cmd -> P -> result Z goerr * P;
  pg_tx : forall {S}, TxOptions -> (S * P -> option goerr * (S * P)) ->
                      S * P -> option goerr * (S * P);
  pg_begin : TxOptions -> P -> option goerr * P;
  pg_end : option goerr -> P -> option goerr * P;
  pg_healthy : nat -> P -> Prop;
}.

(** What a SERIALIZABLE transaction can return. An error of the callback comes back
    as it is or joined with a failure of the rollback; begin and commit can
    fail on their own; after a lost reply to COMMIT the transaction may have
    been applied. *)
Inductive tx_outcome {P} `{PgServer P} {S} (fn : S * P -> option goerr * (S * P))
    (s : S) (p : P) : option goerr -> S -> P -> Prop :=
| tx_committed p0 s' p1 p' :
    pg_view p ≡ pg_view p0 -> fn (s, p0) = (None, (s', p1)) ->
    pg_view p1 ≡ pg_view p' -> tx_outcome fn s p None s' p'
| tx_aborted p0 e e' s' p1 p' :
    pg_view p ≡ pg_view p0 -> fn (s, p0) = (Some e, (s', p1)) ->
    (e' = e \/ exists er, foreign er = true /\ e' = EJoin e er) ->
    pg_view p ≡ pg_view p' -> tx_outcome fn s p (Some e') s' p'
| tx_fault e s' p' :
    server_fault e = true -> pg_view p ≡ pg_view p' -> tx_outcome fn s p (Some e) s' p'
| tx_lost p0 e s' p1 p' :
    reply_lost e = true -> pg_view p ≡ pg_view p0 -> fn (s, p0) = (None, (s', p1)) ->
    pg_view p1 ≡ pg_view p' -> tx_outcome fn s p (Some e) s' p'.

(** What a read-only READ COMMITTED transaction returns for the callback's
    [r]: its error, joined with that of a failed rollback if there is one, or
    the fault of the commit. *)
Definition end_outcome (r r' : option goerr) : Prop :=
  match r with
  | None => r' = None \/ exists e, r' = Some e /\ server_fault e = true
  | Some e => r' = Some e \/ exists er, foreign er = true /\ r' = Some (EJoin e er)
  end.

Class PgLaws (P : Type) `{PgServer P} : Prop := {
  pg_one_law : forall {A} (s : Stmt A) p r p',
    pg_one s p = (r, p') -> outcome (one_run pg_ilike s) (pg_view p) r (pg_view p');
  pg_all_law : forall {A} (s : Stmt A) p r p',
    pg_all s p = (r, p') -> outcome (all_run pg_ilike s) (pg_view p) r (pg_view p');
  pg_exec_law : forall c p r p',
    pg_exec c p = (r, p') -> outcome (exec_run pg_ilike c) (pg_view p) r (pg_view p');
  pg_tx_law : forall {S} o (fn : S * P -> option goerr * (S * P)) s p r s' p',
    tx_serializable o = true -> pg_tx o fn (s, p) = (r, (s', p')) -> tx_outcome fn s p r s' p';
  pg_begin_law : forall o p r p',
    pg_begin o p = (r, p') -> pg_view p ≡ pg_view p' /\ (r = None \/ exists e, r = Some e /\ server_fault e = true);
  pg_end_law : forall r p r' p',
    pg_end r p = (r', p') -> pg_view p ≡ pg_view p' /\ end_outcome r r';
  pg_healthy_mono : forall n p, pg_healthy (S n) p -> pg_healthy n p;
  pg_begin_healthy : forall o n p r p',
    pg_healthy (S n) p -> pg_begin o p = (r, p') -> r = None /\ pg_healthy n p';
  pg_end_healthy : forall n p r' p',
    pg_healthy (S n) p -> pg_end None p = (r', p') -> r' = None /\ pg_healthy n p';
  pg_one_healthy : forall {A} (s : Stmt A) n p r p',
    pg_healthy (S n) p -> pg_one s p = (r, p') ->
    sound_outcome (one_run pg_ilike s) (pg_view p) r (pg_view p') /\ pg_healthy n p';
  pg_all_healthy : forall {A} (s : Stmt A) n p r p',
    pg_healthy (S n) p -> pg_all s p = (r, p') ->
    sound_outcome (all_run pg_ilike s) (pg_view p) r (pg_view p') /\ pg_healthy n p';
  pg_exec_healthy : forall c n p r p',
    pg_healthy (S n) p -> pg_exec c p = (r, p') ->
    sound_outcome (exec_run pg_ilike c) (pg_view p) r (pg_view p') /\ pg_healthy n p';
  pg_tx_healthy : forall {S} o (fn : S * P -> option goerr * (S * P)) n s p,
    tx_serializable o = true -> pg_healthy (Datatypes.S n) p -> exists p0, pg_healthy n p0 /\ pg_view p ≡ pg_view p0 /\
      let '(r, (s', p1)) := fn (s, p0) in
      exists p', pg_tx o fn (s, p) = (r, (s', p')) /\
        match r with
        | None => pg_view p1 ≡ pg_view p'
        | Some _ => pg_view p ≡ pg_view p'
        end;
}.

(** ** Redis, through go-redis *)

Record RedisState := {
  rs_now : Z;                                  (* nanoseconds *)
  rs_kv : gmap string (string * option Z);     (* value, expiry if any *)
  rs_hash : gmap string (gmap string string);
  rs_pub : list (string * string);             (* published (channel, message) *)
}.

Inductive RedisCmd : Type :=
| RSet (key val : string) (ttl : Z)
| RGet (key : string)
| RGetToBuffer (key : string) (cap : Z)
| RDel (keys : list string)
| RHSet (h f v : string)
| RHGet (h f : string)
| RPublish (channel msg : string)
| RPing.

Inductive RReply : Type := RStatus | RBulk (s : string) | RInteger (z : Z).

(** [goredis.Nil]. *)
Definition RedisNil : goerr := ELib "redis: nil".

Definition redis_nil (e : goerr) : bool := errors_Is e RedisNil.

Definition err_buffer : goerr := EOther "redis: buffer too small".

Definition live_get (s : RedisState) (k : string) : option string :=
  match rs_kv s !! k with
  | Some (v, Some exp) => if rs_now s <? exp then Some v else None
  | Some (v, None) => Some v
  | None => None
  end.

Definition with_kv (s : RedisState) kv : RedisState :=
  {| rs_now := rs_now s; rs_kv := kv; rs_hash := rs_hash s; rs_pub := rs_pub s |}.
Definition with_hash (s : RedisState) h : RedisState :=
  {| rs_now := rs_now s; rs_kv := rs_kv s; rs_hash := h; rs_pub := rs_pub s |}.
Definition with_pub (s : RedisState) l : RedisState :=
  {| rs_now := rs_now s; rs_kv := rs_kv s; rs_hash := rs_hash s; rs_pub := l |}.

Definition hash_get (s : RedisState) (h f : string) : option string :=
  match rs_hash s !! h with Some m => m !! f | None => None end.

(** The documented effect of a command that the server executes. *)
Definition redis_run (c : RedisCmd) (s : RedisState) : result RReply goerr * RedisState :=
  match c with
  | RSet k v ttl =>
      (* an expiration that is not positive means none *)
      let exp := if 0 <? ttl then Some (rs_now s + ttl) else None in
      (Ok RStatus, with_kv s (<[k := (v, exp)]> (rs_kv s)))
  | RGet k =>
      (match live_get s k with Some v => Ok (RBulk v) | None => Err RedisNil end, s)
  | RGetToBuffer k cap =>
      (match live_get s k with
       | Some v => if go_len v <=? cap then Ok (RBulk v) else Err err_buffer
       | None => Err RedisNil
       end, s)
  | RDel ks =>
      (Ok (RInteger (Z.of_nat (length (base.filter (fun k => is_Some (live_get s k)) ks)))),
       with_kv s (foldr delete (rs_kv s) ks))
  | RHSet h f v =>
      (Ok (RInteger (match hash_get s h f with Some _ => 0 | None => 1 end)),
       with_hash s (<[h := <[f := v]> (default ∅ (rs_hash s !! h))]> (rs_hash s)))
  | RHGet h f =>
      (match hash_get s h f with Some v => Ok (RBulk v) | None => Err RedisNil end, s)
  | RPublish ch m => (Ok (RInteger 0), with_pub s (rs_pub s ++ [(ch, m)]))
  | RPing => (Ok RStatus, s)
  end.

(** Time passes; nothing else changes. *)
Definition advance (d : Z) (s : RedisState) : RedisState :=
  {| rs_now := rs_now s + d; rs_kv := rs_kv s; rs_hash := rs_hash s; rs_pub := rs_pub s |}.

(** An error that is no answer of the server. *)
Definition redis_fault (e : goerr) : bool := foreign e && negb (redis_nil e).

(** The replies of PUBLISH count the subscribers, which is not observed. *)
Definition reply_eq (c : RedisCmd) (r1 r2 : result RReply goerr) : Prop :=
  match c with
  | RPublish _ _ => is_ok r1 = true /\ is_ok r2 = true
  | _ => r1 = r2
  end.

Inductive redis_outcome (c : RedisCmd) (s : RedisState)
  : result RReply goerr -> RedisState -> Prop :=
| ro_done d r r' s' :
    0 <= d -> redis_run c (advance d s) = (r, s') -> reply_eq c r r' ->
    redis_outcome c s r' s'
| ro_fault d e :
    0 <= d -> redis_fault e = true -> redis_outcome c s (Err e) (advance d s)
| ro_lost d e r s' :
    0 <= d -> redis_fault e = true -> redis_run c (advance d s) = (r, s') ->
    redis_outcome c s (Err e) s'.

(** A pipeline sends its commands in order; when [Exec] reports no error all
    of them were executed, otherwise possibly only some first ones were. *)
Fixpoint redis_run_all (cs : list RedisCmd) (s : RedisState) : RedisState :=
  match cs with
  | [] => s
  | c :: cs' => redis_run_all cs' (redis_run c s).2
  end.

Inductive pipe_outcome (cs : list RedisCmd) (s : RedisState)
  : option goerr -> RedisState -> Prop :=
| po_done d : 0 <= d -> pipe_outcome cs s None (redis_run_all cs (advance d s))
| po_fault d e k :
    0 <= d -> redis_fault e = true ->
    pipe_outcome cs s (Some e) (redis_run_all (take k cs) (advance d s)).

Class RedisServer (R : Type) := {
  redis_view : R -> RedisState;
  redis_do : RedisCmd -> R -> result RReply goerr * R;
  redis_pipe : list RedisCmd -> R -> option goerr * R;
  redis_healthy : nat -> R -> Prop;
}.

Class RedisLaws (R : Type) `{RedisServer R} : Prop := {
  redis_do_law : forall c r x r',
    redis_do c r = (x, r') -> redis_outcome c (redis_view r) x (redis_view r');
  redis_pipe_law : forall cs r x r',
    redis_pipe cs r = (x, r') -> pipe_outcome cs (redis_view r) x (redis_view r');
  redis_healthy_mono : forall n r, redis_healthy (S n) r -> redis_healthy n r;
  redis_do_healthy : forall c n r x r',
    redis_healthy (S n) r -> redis_do c r = (x, r') ->
    (exists d x0, 0 <= d /\ redis_run c (advance d (redis_view r)) = (x0, redis_view r') /\
                  reply_eq c x0 x) /\ redis_healthy n r';
  redis_pipe_healthy : forall cs n r x r',
    redis_healthy (S n) r -> redis_pipe cs r = (x, r') ->
    x = None /\ redis_healthy n r';
}.

(** ** JetStream *)

Record JsMsg := { jm_subject : string; jm_id : string; jm_data : string; jm_time : Z }.

Record JsState := { js_now : Z; js_log : list JsMsg }.

(** A message with this Nats-Msg-Id was stored within the last [win]
    nanoseconds. *)
Definition js_duplicate (win : Z) (s : JsState) (id : string) : bool :=
  existsb (fun m => bool_decide (jm_id m = id) && (js_now s - jm_time m <? win)) (js_log s).

Definition js_append (win : Z) (subject id data : string) (s : JsState) : JsState :=
  if js_duplicate win s id then s
  else {| js_now := js_now s;
          js_log := js_log s ++ [{| jm_subject := subject; jm_id := id; jm_data := data;
                                    jm_time := js_now s |}] |}.

Definition js_advance (d : Z) (s : JsState) : JsState :=
  {| js_now := js_now s + d; js_log := js_log s |}.

(** [js.PublishMsg] of a message with a Nats-Msg-Id header: the server stores
    it, or drops it as a duplicate; an error leaves it open which. *)
Class JetStream (J : Type) := {
  js_view : J -> JsState;
  js_window : Z;
  js_publish : string -> string -> string -> J -> option goerr * J;
}.

Class JetStreamLaws (J : Type) `{JetStream J} : Prop := {
  js_publish_law : forall subject id data j r j',
    js_publish subject id data j = (r, j') ->
    exists d, 0 <= d /\
      match r with
      | None => js_view j' = js_append js_window subject id data (js_advance d (js_view j))
      | Some e => js_view j' = js_advance d (js_view j) \/
          js_view j' = js_append js_window subject id data (js_advance d (js_view j))
      end;
}.

(** ** bcrypt *)

(** [bcrypt.GenerateFromPassword] (the salt is drawn by the caller's entropy
    source) and [bcrypt.CompareHashAndPassword(hash, pw) == nil]. *)
Class Bcrypt := {
  bcrypt_generate : string -> Z -> Z -> result string goerr;
  bcrypt_compare : string -> string -> bool;
}.

Class BcryptLaws `{Bcrypt} : Prop := {
  bcrypt_verifies : forall pw cost salt h,
    bcrypt_generate pw cost salt = Ok h -> bcrypt_compare h pw = true;
  bcrypt_ascii : forall pw cost salt h,
    bcrypt_generate pw cost salt = Ok h -> all_bytes is_ascii h = true;
}.

(** ** The process and the world *)

(** Why a context is done ([ctx.Err()]). *)
Inductive ctx_cause : Type := Canceled | DeadlineExceeded.

Definition ctx_error (c : ctx_cause) : goerr :=
  match c with
  | Canceled => ELib "context canceled"
  | DeadlineExceeded => ELib "context deadline exceeded"
  end.

(** Entropy, fresh UUIDs, cancellation of the request context during a wait,
    and the environment variables. Each draw advances [h_pos]. *)
Record Host := {
  h_entropy : nat -> Z;
  h_uuid : nat -> string;
  h_done : nat -> option ctx_cause;
  h_env : gmap string string;
  h_pos : nat;
}.

Record World (P R J : Type) := MkWorld { w_pg : P; w_rd : R; w_js : J; w_host : Host }.
Arguments MkWorld {P R J} w_pg w_rd w_js w_host.
Arguments w_pg {P R J} w.
Arguments w_rd {P R J} w.
Arguments w_js {P R J} w.
Arguments w_host {P R J} w.

Definition tick (h : Host) : Host :=
  {| h_entropy := h_entropy h; h_uuid := h_uuid h; h_done := h_done h;
     h_env := h_env h; h_pos := S (h_pos h) |}.

Section Lift.
Context {P R J : Type}.
Abbreviation W := (World P R J).

Definition set_pg (w : W) (p : P) : W := MkWorld p (w_rd w) (w_js w) (w_host w).
Definition set_rd (w : W) (r : R) : W := MkWorld (w_pg w) r (w_js w) (w_host w).
Definition set_js (w : W) (j : J) : W := MkWorld (w_pg w) (w_rd w) j (w_host w).
Definition set_host (w : W) (h : Host) : W := MkWorld (w_pg w) (w_rd w) (w_js w) h.

Definition on_pg {A} (f : P -> A * P) : M W A :=
  fun w => let '(a, p) := f (w_pg w) in (a, set_pg w p).
Definition on_rd {A} (f : R -> A * R) : M W A :=
  fun w => let '(a, r) := f (w_rd w) in (a, set_rd w r).
Definition on_js {A} (f : J -> A * J) : M W A :=
  fun w => let '(a, j) := f (w_js w) in (a, set_js w j).
Definition on_host {A} (f : Host -> A) : M W A :=
  fun w => (f (w_host w), set_host w (tick (w_host w))).

Definition getenv (k : string) : M W string :=
  fun w => (default "" (h_env (w_host w) !! k), w).

(** A uniform draw from [0, n), as [rand.Int] and [rand.Int64N] give. *)
Definition rand_below (n : Z) : M W Z :=
  on_host (fun h => h_entropy h (h_pos h) mod n).
Definition new_uuid : M W string := on_host (fun h => h_uuid h (h_pos h)).
Definition ctx_done : M W (option ctx_cause) := on_host (fun h => h_done h (h_pos h)).

Lemma wp_on_pg {A} (f : P -> A * P) Q w :
  (forall a p, f (w_pg w) = (a, p) -> Q a (set_pg w p)) -> wp (on_pg f) Q w.
Proof. unfold wp, on_pg. destruct (f (w_pg w)). eauto. Qed.

Lemma wp_on_rd {A} (f : R -> A * R) Q w :
  (forall a r, f (w_rd w) = (a, r) -> Q a (set_rd w r)) -> wp (on_rd f) Q w.
Proof. unfold wp, on_rd. destruct (f (w_rd w)). eauto. Qed.

Lemma wp_on_js {A} (f : J -> A * J) Q w :
  (forall a j, f (w_js w) = (a, j) -> Q a (set_js w j)) -> wp (on_js f) Q w.
Proof. unfold wp, on_js. destruct (f (w_js w)). eauto. Qed.

Lemma wp_on_host {A} (f : Host -> A) Q w :
  Q (f (w_host w)) (set_host w (tick (w_host w))) -> wp (on_host f) Q w.
Proof. done. Qed.

Lemma wp_getenv k Q w : Q (default "" (h_env (w_host w) !! k)) w -> wp (getenv k) Q w.
Proof. done. Qed.
End Lift.
