(* ===== verification/Db.v ===== *)
(** * internal/db/db.go: error classification, queries, serializable retries

    [RunInTx] runs the callback of a transaction at the isolation level of its
    options; the callback reaches the database through the transaction it is
    given ([TxCode]), so that the same code runs alone with the server or
    statement by statement. *)

From S2P Require Import Prelude GoStrings Json Tables Sql Servers.

(** ** Errors *)

Definition pgErrCode (err : goerr) : string := default "" (errors_As_pg err).

Definition ErrNotFound : goerr := ErrNoRows.

Definition IsNotFound (err : goerr) : bool := errors_Is err ErrNoRows.

Definition IsUniqueViolation (err : goerr) : bool := bool_decide (pgErrCode err = "23505").

Definition IsSerializationFailure (err : goerr) : bool :=
  bool_decide (pgErrCode err = "40001").

(** ** Queries *)

Definition UserCols : list user_col :=
  [CId; CPhone; CAccountNumber; CUsername; CPasswordHash; CBalance; CIsAdmin].

(** The first non-empty identifier: account number, then phone, then
    username. *)
Definition UserIdentifierCol (accountNumber phone username : string) : user_col * string :=
  if negb (bool_decide (accountNumber = "")) then (CAccountNumber, accountNumber)
  else if negb (bool_decide (phone = "")) then (CPhone, phone)
  else (CUsername, username).

(** [SELECT cols FROM users WHERE col = val]. *)
Definition users_where (cols : list user_col) (col : user_col) (val : sval) (lock : bool)
    : Stmt User :=
  SelectUsers cols (MkQuery (Some (EEq (ECol col) (EArg val))) None None 0 lock).

Section Queries.
Context {P : Type} `{PgServer P}.

Definition QueryUser (col : user_col) (val : sval) : P -> result User goerr * P :=
  pg_one (users_where UserCols col val false).

Definition QueryUserForUpdate (col : user_col) (val : sval) : P -> result User goerr * P :=
  pg_one (users_where UserCols col val true).
End Queries.

(** The JSON shape of a notification; the text of a timestamp depends on the
    time zone of the process and is a parameter. *)
Definition NotificationToMap (fmt_time : Z -> string) (n : Notification) : json :=
  JMap [("id", JInt (n_id n)); ("user_id", JInt (n_user_id n));
        ("message", JStr (n_message n)); ("is_read", JBool (n_is_read n));
        ("created_at", JStr (fmt_time (n_created_at n)))].

(** ** Pool configuration *)

(** The fields of [pgxpool.Config] that [NewPool] sets; times in
    milliseconds. [ParseConfig] fills [MaxConns] from the DSN. *)
Record PoolConfig := {
  MaxConns : Z;
  MinConns : Z;
  MaxConnLifetime : Z;
  MaxConnIdleTime : Z;
  HealthCheckPeriod : Z;
  RuntimeParams : gmap string string;
}.

Definition NewPool_config (dbPoolSize statementTimeoutMs : string) (parsed : PoolConfig)
    : PoolConfig :=
  let maxConns :=
    if negb (bool_decide (dbPoolSize = "")) then
      match Atoi dbPoolSize with
      | Ok n => if 0 <? n then wrap32 n else MaxConns parsed
      | Err _ => MaxConns parsed
      end
    else 15 in
  let stmtTimeoutMs :=
    if negb (bool_decide (statementTimeoutMs = "")) then statementTimeoutMs else "30000" in
  {| MaxConns := maxConns; MinConns := 2; MaxConnLifetime := 30 * 60000;
     MaxConnIdleTime := 5 * 60000; HealthCheckPeriod := 60000;
     RuntimeParams := <["statement_timeout" := stmtTimeoutMs]>
       (<["idle_in_transaction_session_timeout" := "30000"]> (RuntimeParams parsed)) |}.

(** [NewPool] up to the connection itself: [parse] is [pgxpool.ParseConfig]
    and [env] the environment. *)
Definition NewPool (parse : string -> result PoolConfig goerr) (env : gmap string string)
    (dsn : string) : result PoolConfig goerr :=
  let dsn := if bool_decide (dsn = "") then default "" (env !! "DATABASE_URL") else dsn in
  if bool_decide (dsn = "") then Err (EOther "DATABASE_URL is not set")
  else
    match parse dsn with
    | Err e => Err (EWrap "parse database url" e)
    | Ok cfg =>
        Ok (NewPool_config (default "" (env !! "DB_POOL_SIZE"))
              (default "" (env !! "STATEMENT_TIMEOUT_MS")) cfg)
    end.

(** ** Serializable transactions *)

Definition maxSerializableRetries : nat := 5.

(** The upper end of the backoff before retry [attempt + 1], in nanoseconds:
    2^attempt * 2 ms, at most 100 ms. *)
Definition backoff_max (attempt : nat) : Z :=
  let maxDelay := Z.shiftl 1 (Z.of_nat attempt) * 2 * 1000000 in
  if 100 * 1000000 <? maxDelay then 100 * 1000000 else maxDelay.

Definition serializable_opts : TxOptions :=
  {| tx_serializable := true; tx_read_only := false |}.

(** Inside the callback of a transaction, which works on the captured
    variables [S] and on [X]: an operation on the transaction, an assignment
    to the captured variables. *)
Definition in_tx {X S A} (f : M X A) : M (S * X) A :=
  fun '(s, x) => let '(a, x') := f x in (a, (s, x')).

Definition assign {X S} (f : S -> S) : M (S * X) unit := fun '(s, x) => (tt, (f s, x)).

(** The callback of a transaction. It reaches the database only through the
    transaction it is given, [tx], which executes one statement; [X] is what
    these statements work on. *)
Definition TxCode (P S : Type) : Type :=
  forall X, (forall A, (P -> A * P) -> M X A) -> M (S * X) (option goerr).

(** The statements of a transaction that is alone with the server. *)
Definition alone {P} A (f : P -> A * P) : M P A := f.

(** A callback with its captured variables made explicit. *)
Definition with_vars {S X A} (m : M (S * X) A) (s : S) : M X (A * S) :=
  fun x => let '(a, (s', x')) := m (s, x) in ((a, s'), x').

Section Transactions.
Context {P R J : Type} `{PgServer P}.
Abbreviation W := (World P R J).

(** [bdb.RunInTx(ctx, opts, fn)] with the captured variables [s]. A
    SERIALIZABLE transaction is one operation of the server; at the default
    isolation level, READ COMMITTED, the statements of the callback are
    operations of their own, between which others may commit. *)
Definition RunInTx {S} (o : TxOptions) (code : TxCode P S) (s : S) : M W (option goerr * S) :=
  if tx_serializable o then on_pg (with_vars (pg_tx o (code P alone)) s)
  else
    let* b := on_pg (pg_begin o) in
    match b with
    | Some err => ret (Some err, s)
    | None =>
        let* (r, s') := with_vars (code W (fun A f => on_pg f)) s in
        let* err := on_pg (pg_end r) in
        ret (err, s')
    end.

Context {S : Type} (code : TxCode P S).

(** The loop over the attempts that are left. *)
Fixpoint serializable_loop (attempts : list nat) (s : S) : M W (option goerr * S) :=
  match attempts with
  | [] => ret (None, s)
  | attempt :: rest =>
      let* (err, s') := RunInTx serializable_opts code s in
      match err with
      | None => ret (None, s')
      | Some err =>
          if negb (IsSerializationFailure err) then ret (Some err, s')
          else if (attempt =? maxSerializableRetries - 1)%nat then
            ret (Some (EWrap ("serializable tx failed after " +:+
                   Itoa (Z.of_nat maxSerializableRetries) +:+ " attempts") err), s')
          else
            let* jitter := rand_below (backoff_max attempt) in
            let* done := ctx_done in
            match done with
            | Some cause =>
                ret (Some (EWrap "serializable tx cancelled during retry backoff"
                                 (ctx_error cause)), s')
            | None => serializable_loop rest s'
            end
      end
  end.

Definition SerializableTx (s : S) : M W (option goerr * S) :=
  serializable_loop (seq 0 maxSerializableRetries) s.
End Transactions.
