(* ===== verification/PgFacts.v ===== *)
(** * What the calls of the database can do

    Consequences of the laws of [PgServer]: an operation that reports no
    success leaves the tables as they were, except when the reply was lost;
    relations on tables that every statement of a program respects hold from
    before a program to after it. *)

From S2P Require Import Prelude GoStrings Tables Sql SqlFacts Servers Db.

(** ** Errors the interfaces hand out *)

Lemma server_fault_foreign e : server_fault e = true -> foreign e = true.
Proof. unfold server_fault. intros H. by bool_hyps. Qed.

Lemma reply_lost_foreign e : reply_lost e = true -> foreign e = true.
Proof. unfold reply_lost. intros H. by bool_hyps. Qed.

Lemma reply_lost_fault e : reply_lost e = true -> server_fault e = true.
Proof.
  unfold reply_lost, server_fault. intros H. bool_hyps.
  repeat match goal with H : _ = _ |- _ => rewrite H end. done.
Qed.

Lemma reports_foreign f e : reports f e = true -> foreign e = true.
Proof. unfold reports. intros H. by bool_hyps. Qed.

Lemma reports_no_rows e : reports FNoRows e = true -> IsNotFound e = true.
Proof. unfold reports. intros H. by bool_hyps. Qed.

Lemma reports_state c e :
  reports (FState c) e = true -> IsNotFound e = false /\ pgErrCode e = c.
Proof.
  unfold reports, pgErrCode. intros H. bool_hyps. split; [done|].
  match goal with H : errors_As_pg e = _ |- _ => by rewrite H end.
Qed.

Lemma server_fault_found e : server_fault e = true -> IsNotFound e = false.
Proof. unfold server_fault. intros H. by bool_hyps. Qed.

Lemma reply_lost_code e :
  reply_lost e = true -> IsSerializationFailure e = false /\ IsUniqueViolation e = false.
Proof.
  unfold reply_lost, IsSerializationFailure, IsUniqueViolation, pgErrCode.
  intros H. bool_hyps. match goal with H : errors_As_pg e = _ |- _ => by rewrite H end.
Qed.

Lemma server_fault_not_unique e : server_fault e = true -> IsUniqueViolation e = false.
Proof.
  unfold server_fault, IsUniqueViolation, pgErrCode. intros H. bool_hyps.
  apply bool_decide_eq_false. destruct (errors_As_pg e) as [c|]; simpl; [|done].
  intros ->. done.
Qed.

(** ** One operation *)

(** A relation on tables that does not see the physical order. *)
Class TableRel (R : Tables -> Tables -> Prop) : Prop := {
  table_rel_preorder :: PreOrder R;
  table_rel_equiv : forall T T', T ≡ T' -> R T T';
}.

Definition schema_kept (T T' : Tables) : Prop := schema_ok T -> schema_ok T'.

#[global] Instance schema_kept_rel : TableRel schema_kept.
Proof.
  split.
  - split; [by intros T H|]. intros T1 T2 T3 H1 H2 H. auto.
  - intros T T' E H. by rewrite <- E.
Qed.

#[global] Instance equiv_rel : TableRel (≡).
Proof. split; [apply _|done]. Qed.

Definition run_respects {B} (R : Tables -> Tables -> Prop)
    (run : SqlEnv -> Tables -> result (B * Tables) sqlfail) : Prop :=
  forall env T b T', env_ok env T -> run env T = Ok (b, T') -> R T T'.

Lemma outcome_rel {B} R `{!TableRel R}
    (run : SqlEnv -> Tables -> result (B * Tables) sqlfail) T r T' :
  run_respects R run -> outcome run T r T' -> R T T'.
Proof.
  intros HR [env T0 b T1 T2 E1 He Hr E2|env T0 f e T2 _ _ _ _ E|e T2 _ E|env T0 b T1 e T2 _ E1 He Hr E2];
    try (by apply table_rel_equiv);
    (transitivity T0; [by apply table_rel_equiv|];
     transitivity T1; [by eapply HR|by apply table_rel_equiv]).
Qed.

Lemma sound_outcome_weaken {B} (run : SqlEnv -> Tables -> result (B * Tables) sqlfail) T r T' :
  sound_outcome run T r T' -> outcome run T r T'.
Proof.
  intros [env T0 b T1 T2 E1 He Hr E2|env T0 f e T2 E1 He Hr Hf E2].
  - exact (out_ok _ _ _ _ _ _ _ E1 He Hr E2).
  - exact (out_fail _ _ _ _ _ _ _ E1 He Hr Hf E2).
Qed.

(** The statements that only read. *)
Definition reads {A} (s : Stmt A) : bool :=
  match s with InsertUser _ _ _ _ _ | InsertTransfer _ _ _ => false | _ => true end.

Lemma stmt_run_reads ilike {A} (s : Stmt A) env T l T' :
  reads s = true -> stmt_run ilike s env T = Ok (l, T') -> T' = T.
Proof. destruct s; simpl; unfold rmap; intros Hr E; repeat case_match; by simplify_eq. Qed.

Lemma one_run_all ilike {A} (s : Stmt A) env T a T' :
  one_run ilike s env T = Ok (a, T') -> exists l, stmt_run ilike s env T = Ok (a :: l, T').
Proof. unfold one_run. intros E. repeat case_match; simplify_eq. eauto. Qed.

Lemma all_run_all ilike {A} (s : Stmt A) env T l T' :
  all_run ilike s env T = Ok (l, T') -> stmt_run ilike s env T = Ok (l, T').
Proof. unfold all_run. intros E. repeat case_match; by simplify_eq. Qed.

Lemma exec_run_all ilike c env T n T' :
  exec_run ilike c env T = Ok (n, T') -> cmd_run ilike c env T = Ok (n, T').
Proof. unfold exec_run. intros E. repeat case_match; by simplify_eq. Qed.

Lemma one_respects_reads ilike {A} (s : Stmt A) R `{!TableRel R} :
  reads s = true -> run_respects R (one_run ilike s).
Proof.
  intros Hr env T a T' _ E. apply one_run_all in E as [l E].
  apply stmt_run_reads in E as ->; [|done]. reflexivity.
Qed.

Lemma all_respects_reads ilike {A} (s : Stmt A) R `{!TableRel R} :
  reads s = true -> run_respects R (all_run ilike s).
Proof.
  intros Hr env T a T' _ E. apply all_run_all in E.
  apply stmt_run_reads in E as ->; [|done]. reflexivity.
Qed.

Lemma one_respects_schema ilike {A} (s : Stmt A) : run_respects schema_kept (one_run ilike s).
Proof.
  intros env T a T' He E HT. apply one_run_all in E as [l E]. by eapply stmt_run_schema.
Qed.

Lemma all_respects_schema ilike {A} (s : Stmt A) : run_respects schema_kept (all_run ilike s).
Proof. intros env T a T' He E HT. apply all_run_all in E. by eapply stmt_run_schema. Qed.

Lemma exec_respects_schema ilike c : run_respects schema_kept (exec_run ilike c).
Proof. intros env T a T' He E HT. apply exec_run_all in E. by eapply cmd_run_schema. Qed.

#[export] Hint Resolve one_respects_reads all_respects_reads one_respects_schema
  all_respects_schema exec_respects_schema : bank.

(** ** Programs *)

Section Programs.
Context {P R J : Type} `{PgLaws P}.
Abbreviation W := (World P R J).

Lemma pg_one_reads {A} (s : Stmt A) p r p' :
  reads s = true -> pg_one s p = (r, p') -> pg_view p ≡ pg_view p'.
Proof.
  intros Hr E. eapply (outcome_rel (≡)); [|by eapply pg_one_law].
  apply one_respects_reads; [apply _|done].
Qed.

Lemma pg_all_reads {A} (s : Stmt A) p r p' :
  reads s = true -> pg_all s p = (r, p') -> pg_view p ≡ pg_view p'.
Proof.
  intros Hr E. eapply (outcome_rel (≡)); [|by eapply pg_all_law].
  apply all_respects_reads; [apply _|done].
Qed.

Definition tables_of (w : W) : Tables := pg_view (w_pg w).

(** [Q] relates the tables before and after. *)
Definition on_tables (Q : Tables -> Tables -> Prop) (w w' : W) : Prop :=
  Q (tables_of w) (tables_of w').

#[global] Instance on_tables_preorder Q `{!TableRel Q} : PreOrder (on_tables Q).
Proof.
  split; unfold on_tables; [by intros w|].
  intros w1 w2 w3 H1 H2. by etransitivity.
Qed.

(** Redis, JetStream and the environment variables stay as they are. *)
Definition db_only (w w' : W) : Prop :=
  w_rd w' = w_rd w /\ w_js w' = w_js w /\ h_env (w_host w') = h_env (w_host w).

#[global] Instance db_only_preorder : PreOrder db_only.
Proof.
  split; unfold db_only; [by intros w|].
  intros w1 w2 w3 (-> & -> & ->) (-> & -> & ->). done.
Qed.

Lemma keeps_on_pg_db {A} (f : P -> A * P) : keeps db_only (on_pg (R:=R) (J:=J) f).
Proof. intros w. unfold on_pg. by destruct (f (w_pg w)). Qed.

Lemma keeps_on_host_db {A} (f : Host -> A) : keeps db_only (on_host (P:=P) (R:=R) (J:=J) f).
Proof. intros w. done. Qed.

Lemma keeps_getenv {Rel : W -> W -> Prop} `{!Reflexive Rel} k : keeps Rel (getenv k).
Proof. intros w. done. Qed.

Context (Q : Tables -> Tables -> Prop) `{!TableRel Q}.

Lemma keeps_pg_one {A} (s : Stmt A) :
  run_respects Q (one_run pg_ilike s) -> keeps (on_tables Q) (on_pg (pg_one s)).
Proof.
  intros HQ w. unfold on_pg, on_tables, tables_of.
  destruct (pg_one s (w_pg w)) as [r p'] eqn:E. simpl.
  apply pg_one_law in E. by eapply outcome_rel.
Qed.

Lemma keeps_pg_all {A} (s : Stmt A) :
  run_respects Q (all_run pg_ilike s) -> keeps (on_tables Q) (on_pg (pg_all s)).
Proof.
  intros HQ w. unfold on_pg, on_tables, tables_of.
  destruct (pg_all s (w_pg w)) as [r p'] eqn:E. simpl.
  apply pg_all_law in E. by eapply outcome_rel.
Qed.

Lemma keeps_pg_exec c :
  run_respects Q (exec_run pg_ilike c) -> keeps (on_tables Q) (on_pg (pg_exec c)).
Proof.
  intros HQ w. unfold on_pg, on_tables, tables_of.
  destruct (pg_exec c (w_pg w)) as [r p'] eqn:E. simpl.
  apply pg_exec_law in E. by eapply outcome_rel.
Qed.

Lemma keeps_on_rd {A} (f : R -> A * R) : keeps (on_tables Q) (on_rd f).
Proof. intros w. unfold on_rd. destruct (f (w_rd w)). unfold on_tables. simpl. reflexivity. Qed.

Lemma keeps_on_js {A} (f : J -> A * J) : keeps (on_tables Q) (on_js f).
Proof. intros w. unfold on_js. destruct (f (w_js w)). unfold on_tables. simpl. reflexivity. Qed.

Lemma keeps_on_host {A} (f : Host -> A) : keeps (on_tables Q) (on_host f).
Proof. intros w. unfold on_tables. simpl. reflexivity. Qed.
End Programs.

#[export] Hint Resolve keeps_on_pg_db keeps_on_host_db keeps_getenv keeps_pg_one keeps_pg_all
  keeps_pg_exec keeps_on_rd keeps_on_js keeps_on_host : bank.
