(* ===== verification/TxFacts.v ===== *)
(** * Operations with a fault budget, transactions and their retries

    A budget [h] is [None] when faults may happen at any time and [Some n]
    when the next [n] operations meet none. One specification of a program
    then serves both its safety under faults and its behaviour without. *)

From S2P Require Import Prelude GoStrings Tables Sql SqlFacts Servers Db PgFacts.

(** ** Budgets *)

Definition budget : Type := option nat.

Definition plus (k : nat) (h : budget) : budget :=
  match h with Some n => Some (k + n)%nat | None => None end.

(** What one operation returns and leaves: faults only without a budget. *)
Inductive bounded_outcome {B} (h : budget)
    (run : SqlEnv -> Tables -> result (B * Tables) sqlfail) (T : Tables)
  : result B goerr -> Tables -> Prop :=
| bo_ok env T0 b T1 T' :
    T ≡ T0 -> env_ok env T0 -> run env T0 = Ok (b, T1) -> T1 ≡ T' ->
    bounded_outcome h run T (Ok b) T'
| bo_fail env T0 f e T' :
    T ≡ T0 -> env_ok env T0 -> run env T0 = Err f -> reports f e = true -> T ≡ T' ->
    bounded_outcome h run T (Err e) T'
| bo_fault e T' :
    h = None -> server_fault e = true -> T ≡ T' -> bounded_outcome h run T (Err e) T'
| bo_lost env T0 b T1 e T' :
    h = None -> reply_lost e = true ->
    T ≡ T0 -> env_ok env T0 -> run env T0 = Ok (b, T1) -> T1 ≡ T' ->
    bounded_outcome h run T (Err e) T'.

Lemma wp_in_tx {P S A} (f : P -> A * P) Q (s : S) p :
  (forall a p', f p = (a, p') -> Q a (s, p')) -> wp (in_tx f) Q (s, p).
Proof. unfold wp, in_tx. destruct (f p). eauto. Qed.

Lemma wp_tx_stmt {X S A} (f : M X A) Q (s : S) x :
  wp f (fun a x' => Q a (s, x')) x -> wp (in_tx f) Q (s, x).
Proof. unfold wp, in_tx. by destruct (f x). Qed.

Lemma wp_assign {P S} (f : S -> S) Q s (p : P) : Q tt (f s, p) -> wp (assign f) Q (s, p).
Proof. done. Qed.

Lemma with_vars_inv {S X A} (m : M (S * X) A) s x a s' x' :
  with_vars m s x = ((a, s'), x') -> m (s, x) = (a, (s', x')).
Proof. unfold with_vars. destruct (m (s, x)) as [b [s1 x1]]. by intros [= <- <- <-]. Qed.

Lemma wp_with_vars {S X A} (m : M (S * X) A) s x (Q : A * S -> X -> Prop) :
  wp m (fun a sx => Q (a, sx.1) sx.2) (s, x) -> wp (with_vars m s) Q x.
Proof. unfold wp, with_vars. by destruct (m (s, x)) as [a [s' x']]. Qed.

Section Budget.
Context {P : Type} `{PgLaws P}.

Definition within (h : budget) (p : P) : Prop :=
  match h with Some n => pg_healthy n p | None => True end.

Lemma outcome_bounded {B} (run : SqlEnv -> Tables -> result (B * Tables) sqlfail) T r T' :
  outcome run T r T' -> bounded_outcome None run T r T'.
Proof.
  intros [env T0 b T1 T2 E1 He Hr E2|env T0 f e T2 E1 He Hr Hf E2|e T2 Hf E
         |env T0 b T1 e T2 Hl E1 He Hr E2].
  - exact (bo_ok _ _ _ _ _ _ _ _ E1 He Hr E2).
  - exact (bo_fail _ _ _ _ _ _ _ _ E1 He Hr Hf E2).
  - by apply bo_fault.
  - exact (bo_lost _ _ _ _ _ _ _ _ _ eq_refl Hl E1 He Hr E2).
Qed.

Lemma sound_bounded {B} h (run : SqlEnv -> Tables -> result (B * Tables) sqlfail) T r T' :
  sound_outcome run T r T' -> bounded_outcome h run T r T'.
Proof.
  intros [env T0 b T1 T2 E1 He Hr E2|env T0 f e T2 E1 He Hr Hf E2].
  - exact (bo_ok _ _ _ _ _ _ _ _ E1 He Hr E2).
  - exact (bo_fail _ _ _ _ _ _ _ _ E1 He Hr Hf E2).
Qed.

Lemma one_bounded {A} (s : Stmt A) k h p r p' :
  within (plus (S k) h) p -> pg_one s p = (r, p') ->
  bounded_outcome h (one_run pg_ilike s) (pg_view p) r (pg_view p') /\
  within (plus k h) p'.
Proof.
  destruct h as [n|]; simpl; intros Hp E.
  - apply (pg_one_healthy s _ p r p') in Hp as [Ho Hh]; [|done].
    split; [by apply sound_bounded|done].
  - apply pg_one_law in E. split; [by apply outcome_bounded|done].
Qed.

Lemma all_bounded {A} (s : Stmt A) k h p r p' :
  within (plus (S k) h) p -> pg_all s p = (r, p') ->
  bounded_outcome h (all_run pg_ilike s) (pg_view p) r (pg_view p') /\
  within (plus k h) p'.
Proof.
  destruct h as [n|]; simpl; intros Hp E.
  - apply (pg_all_healthy s _ p r p') in Hp as [Ho Hh]; [|done].
    split; [by apply sound_bounded|done].
  - apply pg_all_law in E. split; [by apply outcome_bounded|done].
Qed.

Lemma exec_bounded c k h p r p' :
  within (plus (S k) h) p -> pg_exec c p = (r, p') ->
  bounded_outcome h (exec_run pg_ilike c) (pg_view p) r (pg_view p') /\
  within (plus k h) p'.
Proof.
  destruct h as [n|]; simpl; intros Hp E.
  - apply (pg_exec_healthy c _ p r p') in Hp as [Ho Hh]; [|done].
    split; [by apply sound_bounded|done].
  - apply pg_exec_law in E. split; [by apply outcome_bounded|done].
Qed.
End Budget.

(** A failed operation reports the data of the statement or, without a
    budget, something foreign to this program. *)
Lemma bounded_err {B} h (run : SqlEnv -> Tables -> result (B * Tables) sqlfail) T e T' :
  bounded_outcome h run T (Err e) T' ->
  foreign e = true /\
  ((exists env T0 f, T ≡ T0 /\ env_ok env T0 /\ run env T0 = Err f /\ reports f e = true)
   \/ (h = None /\ IsNotFound e = false)).
Proof.
  intros Ho. inversion Ho; subst.
  - split; [by eapply reports_foreign|]. left. eauto 10.
  - split; [by apply server_fault_foreign|]. right. split; [done|]. by apply server_fault_found.
  - split; [by apply reply_lost_foreign|]. right. split; [done|].
    by apply server_fault_found, reply_lost_fault.
Qed.

Lemma bounded_ok {B} h (run : SqlEnv -> Tables -> result (B * Tables) sqlfail) T b T' :
  bounded_outcome h run T (Ok b) T' ->
  exists env T0 T1, T ≡ T0 /\ env_ok env T0 /\ run env T0 = Ok (b, T1) /\ T1 ≡ T'.
Proof. intros Ho. inversion Ho; subst. eauto 10. Qed.

(** ** Serializable transactions *)

(** The errors [SerializableTx] can report for a transaction that was rolled
    back, on tables [T]. *)
Inductive stx_error {P} `{PgServer P} {S} (fn : S * P -> option goerr * (S * P)) (T : Tables)
  : goerr -> Prop :=
| se_callback s0 p0 e er s' p1 :
    T ≡ pg_view p0 -> fn (s0, p0) = (Some e, (s', p1)) ->
    (er = e \/ exists e2, foreign e2 = true /\ er = EJoin e e2) -> stx_error fn T er
| se_fault e : server_fault e = true -> stx_error fn T e
| se_exhausted e :
    IsSerializationFailure e = true -> stx_error fn T e ->
    stx_error fn T (EWrap "serializable tx failed after 5 attempts" e)
| se_cancelled c :
    stx_error fn T (EWrap "serializable tx cancelled during retry backoff" (ctx_error c)).

(** Its outcomes: committed, rolled back, or committed with the reply to
    COMMIT lost. *)
Inductive stx_outcome {P} `{PgServer P} {S} (fn : S * P -> option goerr * (S * P)) (p : P)
  : option goerr -> S -> P -> Prop :=
| so_committed s0 p0 s' p1 p' :
    pg_view p ≡ pg_view p0 -> fn (s0, p0) = (None, (s', p1)) ->
    pg_view p1 ≡ pg_view p' -> stx_outcome fn p None s' p'
| so_aborted e s' p' :
    pg_view p ≡ pg_view p' -> stx_error fn (pg_view p) e -> stx_outcome fn p (Some e) s' p'
| so_lost s0 p0 e s' p1 p' :
    reply_lost e = true -> pg_view p ≡ pg_view p0 -> fn (s0, p0) = (None, (s', p1)) ->
    pg_view p1 ≡ pg_view p' -> stx_outcome fn p (Some e) s' p'.

Section Retries.
Context {P R J : Type} `{PgLaws P}.
Abbreviation W := (World P R J).
Context {S : Type} (code : TxCode P S).
Abbreviation fn := (code P alone).

Lemma tx_outcome_stx s p e s' p' :
  tx_outcome fn s p e s' p' -> stx_outcome fn p e s' p'.
Proof.
  intros [p0 s1 p1 p2 E1 Ef E2|p0 e0 e1 s1 p1 p2 E1 Ef He E2|e0 s1 p2 Hf E
         |p0 e0 s1 p1 p2 Hl E1 Ef E2].
  - exact (so_committed _ _ _ _ _ _ _ E1 Ef E2).
  - apply so_aborted; [done|]. exact (se_callback _ _ _ _ _ _ _ _ E1 Ef He).
  - apply so_aborted; [done|]. by apply se_fault.
  - exact (so_lost _ _ _ _ _ _ _ _ Hl E1 Ef E2).
Qed.

(** An attempt that started from the same tables. *)
Lemma stx_outcome_from p p1 e s' p' :
  pg_view p ≡ pg_view p1 -> stx_outcome fn p1 e s' p' -> stx_outcome fn p e s' p'.
Proof.
  intros E.
  assert (forall e, stx_error fn (pg_view p1) e -> stx_error fn (pg_view p) e) as Herr.
  { induction 1 as [s0 p0 e0 er s1 p2 E1 Ef He|e0|e0|c].
    - exact (se_callback _ _ _ _ _ _ _ _ (transitivity E E1) Ef He).
    - by apply se_fault.
    - by apply se_exhausted.
    - apply se_cancelled. }
  intros [s0 p0 s1 p2 p3 E1 Ef E2|e0 s1 p3 E1 He|s0 p0 e0 s1 p2 p3 Hl E1 Ef E2].
  - exact (so_committed _ _ _ _ _ _ _ (transitivity E E1) Ef E2).
  - apply so_aborted; [by transitivity (pg_view p1)|auto].
  - exact (so_lost _ _ _ _ _ _ _ _ Hl (transitivity E E1) Ef E2).
Qed.

(** A serialization failure is never reported for a committed run. *)
Lemma stx_retry_unchanged p e s' p' :
  stx_outcome fn p (Some e) s' p' -> IsSerializationFailure e = true ->
  pg_view p ≡ pg_view p' /\ stx_error fn (pg_view p) e.
Proof.
  intros Ho Hs. inversion Ho; subst; [done|].
  match goal with H : reply_lost e = true |- _ => apply reply_lost_code in H as [? _] end.
  congruence.
Qed.

Lemma serializable_loop_spec attempts s (w : W) :
  attempts <> [] -> (forall a, a ∈ attempts -> (a < 5)%nat) -> last attempts = Some 4%nat ->
  wp (serializable_loop code attempts s)
    (fun '(r, s') w' => stx_outcome fn (w_pg w) r s' (w_pg w') /\ db_only w w') w.
Proof.
  revert s w. induction attempts as [|a rest IH]; intros s w Hne Hlt Hlast; [done|].
  simpl. apply wp_bind, wp_on_pg. intros [r s1] p1 E.
  pose proof (with_vars_inv _ _ _ _ _ _ E) as Etx.
  apply pg_tx_law, tx_outcome_stx in Etx; [|done].
  destruct r as [e|]; [|by apply wp_ret].
  destruct (IsSerializationFailure e) eqn:Hs; simpl; [|by apply wp_ret].
  destruct (stx_retry_unchanged _ _ _ _ Etx Hs) as [Esame Herr].
  destruct (a =? 4)%nat eqn:Ha.
  { apply wp_ret. split; [|done]. apply so_aborted; [done|]. by apply se_exhausted. }
  apply wp_bind, wp_on_host, wp_bind, wp_on_host.
  case_match; [apply wp_ret; split; [|done]; apply so_aborted; [done|apply se_cancelled]|].
  destruct rest as [|a' rest].
  { injection Hlast as ->. done. }
  eapply wp_mono; [apply IH; [done|set_solver|by rewrite last_cons_cons in Hlast]|].
  intros [r' s'] w' [Ho Hdb]. split; [|done].
  eapply stx_outcome_from; [|exact Ho]. done.
Qed.

Lemma SerializableTx_outcome s (w : W) :
  wp (SerializableTx code s)
    (fun '(r, s') w' => stx_outcome fn (w_pg w) r s' (w_pg w') /\ db_only w w') w.
Proof. apply serializable_loop_spec; [done| |done]. simpl. set_solver by lia. Qed.

(** Without faults the first attempt decides. *)
Lemma SerializableTx_healthy n s (w : W) :
  pg_healthy (Datatypes.S n) (w_pg w) ->
  exists p0, pg_healthy n p0 /\ pg_view (w_pg w) ≡ pg_view p0 /\
    let '(r, (s', p1)) := fn (s, p0) in
    match r with
    | None => exists p', SerializableTx code s w = ((None, s'), set_pg w p') /\
                         pg_view p1 ≡ pg_view p'
    | Some e => IsSerializationFailure e = false ->
                exists p', SerializableTx code s w = ((Some e, s'), set_pg w p') /\
                           pg_view (w_pg w) ≡ pg_view p'
    end.
Proof.
  intros Hh. destruct (pg_tx_healthy serializable_opts fn n s (w_pg w) eq_refl Hh)
    as (p0 & Hp0 & E0 & Hrun).
  exists p0. split; [done|]. split; [done|].
  destruct (fn (s, p0)) as [[e|] [s' p1]]; destruct Hrun as (p' & Etx & Hv).
  - intros Hs. exists p'. split; [|done]. unfold SerializableTx. simpl.
    unfold bind at 1, RunInTx. simpl. unfold on_pg, with_vars. rewrite Etx. simpl. by rewrite Hs.
  - exists p'. split; [|done]. unfold SerializableTx. simpl.
    unfold bind at 1, RunInTx. simpl. unfold on_pg, with_vars. by rewrite Etx.
Qed.

(** A relation on tables that the callback respects holds across the
    retries. *)
Lemma keeps_SerializableTx Q `{!TableRel Q} s :
  (forall s0 p0, Q (pg_view p0) (pg_view (fn (s0, p0)).2.2)) ->
  keeps (on_tables Q) (SerializableTx (R:=R) (J:=J) code s).
Proof.
  intros HQ. apply wp_keeps. intros w.
  eapply wp_mono; [apply SerializableTx_outcome|].
  intros [r s'] w' [Ho _]. unfold on_tables, tables_of.
  assert (forall s0 p0 r0 s1 p1, pg_view (w_pg w) ≡ pg_view p0 ->
            fn (s0, p0) = (r0, (s1, p1)) -> pg_view p1 ≡ pg_view (w_pg w') ->
            Q (pg_view (w_pg w)) (pg_view (w_pg w'))) as Hrun.
  { intros s0 p0 r0 s1 p1 E1 Ef E2. specialize (HQ s0 p0). rewrite Ef in HQ.
    etransitivity; [apply table_rel_equiv; exact E1|].
    etransitivity; [exact HQ|by apply table_rel_equiv]. }
  inversion Ho; subst; eauto. by apply table_rel_equiv.
Qed.
End Retries.

(** The delays: attempt [a] of the four that can be followed by a retry waits
    less than 2^(a+1) ms. *)
Lemma backoff_max_attempt a :
  (a < 4)%nat -> backoff_max a = 2 ^ (Z.of_nat a + 1) * 1000000.
Proof. intros Ha. destruct a as [|[|[|[|a]]]]; [reflexivity..|lia]. Qed.

Lemma backoff_max_bounds a : 0 < backoff_max a <= 100 * 1000000.
Proof.
  unfold backoff_max. rewrite Z.shiftl_1_l.
  pose proof (Z.pow_pos_nonneg 2 (Z.of_nat a) ltac:(lia) ltac:(lia)).
  case_match; lia.
Qed.

(** ** Queries by one column *)

#[global] Instance sval_eq_dec : EqDecision sval.
Proof. solve_decision. Defined.

Definition has_val (col : user_col) (v : sval) (u : User) : bool :=
  bool_decide (get_user col u = v).

(** The type of the argument fits the column. *)
Definition typed (col : user_col) (v : sval) : bool :=
  match col, v with
  | (CPhone | CAccountNumber | CUsername | CPasswordHash), SText _ => true
  | (CId | CBalance), SInt _ => true
  | CIsAdmin, SBool _ => true
  | _, _ => false
  end.

Lemma matches_where ilike col v u :
  typed col v = true ->
  matches ilike get_user (Some (EEq (ECol col) (EArg v))) u = Ok (has_val col v u).
Proof.
  intros Ht. apply matches_eq_user. unfold has_val.
  destruct col, v; try discriminate Ht; simpl; do 2 f_equal;
    try (apply bool_decide_ext; split; congruence).
  - rewrite Z_eqb_bool_decide. apply bool_decide_ext. split; congruence.
  - rewrite Z_eqb_bool_decide. apply bool_decide_ext. split; congruence.
  - destruct (u_is_admin u), b; done.
Qed.

Lemma users_where_run ilike cols col v lock env T :
  typed col v = true ->
  stmt_run ilike (users_where cols col v lock) env T =
    Ok (map (project_user cols) (List.filter (has_val col v) (users T)), T).
Proof.
  intros Ht. simpl. unfold run_query. simpl.
  by rewrite (filter_rows_pure _ _ _ (has_val col v)) by (intros; by apply matches_where).
Qed.

Section QueryFacts.
Context {P : Type} `{PgLaws P}.

(** A query for one user returns a row that matches, or says that there is
    none, or fails for a foreign reason. *)
Lemma one_where_bounded cols col v lock k h p r p' :
  typed col v = true -> within (plus (S k) h) p ->
  pg_one (users_where cols col v lock) p = (r, p') ->
  within (plus k h) p' /\ pg_view p ≡ pg_view p' /\
  match r with
  | Ok row => exists u, u ∈ users (pg_view p) /\ has_val col v u = true /\
                        row = project_user cols u
  | Err e =>
      foreign e = true /\
      ((IsNotFound e = true /\ forall u, u ∈ users (pg_view p) -> has_val col v u = false)
       \/ (h = None /\ IsNotFound e = false))
  end.
Proof.
  intros Ht Hp E. destruct (one_bounded _ _ _ _ _ _ Hp E) as [Ho Hp'].
  split; [done|]. split.
  { apply (outcome_rel (≡) (one_run pg_ilike (users_where cols col v lock)) _ r).
    - by apply one_respects_reads; [apply _|].
    - by eapply pg_one_law. }
  destruct r as [row|e].
  - apply bounded_ok in Ho as (env & T0 & T1 & E0 & He & Er & _).
    apply one_run_all in Er as [l Er]. rewrite users_where_run in Er by done.
    destruct (List.filter (has_val col v) (users T0)) as [|u us] eqn:Ef; [done|].
    injection Er as <- _ _.
    assert (u ∈ List.filter (has_val col v) (users T0)) as Hu by (rewrite Ef; left).
    rewrite list_elem_of_In, filter_In, <- list_elem_of_In in Hu. destruct Hu as [Hu Hv].
    exists u. rewrite E0. done.
  - apply bounded_err in Ho as [Hf [(env & T0 & f & E0 & He & Er & Hr)|Hh]]; [|by auto].
    split; [done|]. left. unfold one_run in Er. rewrite users_where_run in Er by done.
    destruct (List.filter (has_val col v) (users T0)) as [|u us] eqn:Ef; [|done].
    injection Er as <-. split; [by apply reports_no_rows|]. intros u Hu. rewrite E0 in Hu.
    apply not_true_is_false. intros Hv.
    assert (u ∈ List.filter (has_val col v) (users T0)) as Hin
      by (rewrite list_elem_of_In, filter_In, <- list_elem_of_In; done).
    rewrite Ef in Hin. by apply not_elem_of_nil in Hin.
Qed.
End QueryFacts.
