(* ===== verification/Logging.v ===== *)
(** * internal/logging/logging.go: masking of sensitive fields

    [MaskPhone] also masks the numbers in replies; [MaskAccount] and
    [MaskAmount] feed the log. HMAC-SHA256 is a parameter. *)

From S2P Require Import Prelude GoStrings.
From Stdlib Require String.

(** The slices and repetitions below are within bounds, so the [None] of a
    panic never occurs ([MaskPhone_total], [MaskAccount_total]). *)
Definition concat3 (a b c : option string) : option string :=
  match a, b, c with Some a, Some b, Some c => Some (a +:+ b +:+ c) | _, _, _ => None end.

Definition MaskPhone (phone : string) : option string :=
  let phone := TrimSpace phone in
  if go_len phone <=? 4 then Repeat "*" (go_len phone)
  else concat3 (slice_to phone 2) (Repeat "*" (go_len phone - 4))
         (slice_from phone (go_len phone - 2)).

Definition MaskAccount (acct : string) : option string :=
  if go_len acct <=? 6 then Repeat "*" (go_len acct)
  else concat3 (slice_to acct 4) (Repeat "*" (go_len acct - 6))
         (slice_from acct (go_len acct - 2)).

(** The masked text; a panic is impossible. *)
Definition mask_phone (phone : string) : string := default "" (MaskPhone phone).

(** LOG_LEVEL. *)
Inductive Level : Type := LevelDebug | LevelInfo | LevelWarn | LevelError.

Definition to_upper (s : string) : string :=
  concat_str (map (fun p => if (97 <=? p.1) && (p.1 <=? 122)
                            then str1 (byte_chr (p.1 - 32)) else p.2) (runes s)).

Definition logLevel (env : string) : Level :=
  let s := to_upper (TrimSpace env) in
  if bool_decide (s = "DEBUG") then LevelDebug
  else if bool_decide (s = "WARN") || bool_decide (s = "WARNING") then LevelWarn
  else if bool_decide (s = "ERROR") then LevelError
  else LevelInfo.

(** NewLogger: the level of the handler and the attribute of every line. *)
Record LoggerOptions := MkLoggerOptions { lg_level : Level; lg_service : string }.

Definition NewLogger (env_level service : string) : LoggerOptions :=
  MkLoggerOptions (logLevel env_level) service.

(** LOG_AMOUNT_SECRET. *)
Definition getAmountSecret (env : string) : string :=
  if bool_decide (env = "") then "banking-demo-default" else env.

Definition lower_hex (z : Z) : string := str1 (byte_chr (if z <? 10 then 48 + z else 87 + z)).

(** The verb %x of a byte slice. *)
Fixpoint fmt_x (s : string) : string :=
  match s with
  | EmptyString => ""
  | String c t =>
      lower_hex (Z.shiftr (byte_val c) 4) +:+ lower_hex (Z.land (byte_val c) 15) +:+ fmt_x t
  end.

Section Amounts.
(** The digest of a message under a key. *)
Context (hmac_sha256 : string -> string -> string).

Definition MaskAmount (secret : string) (amount : Z) : option string :=
  slice_to (fmt_x (hmac_sha256 secret (Itoa amount))) 12.
End Amounts.

(** ** Facts *)

Lemma length_substring n m s :
  (n + m <= String.length s)%nat -> String.length (String.substring n m s) = m.
Proof.
  revert n m. induction s as [|c s IH]; intros n m H; cbn [String.length] in H.
  - assert (n = 0%nat /\ m = 0%nat) as [-> ->] by lia. done.
  - destruct n as [|n]; [destruct m as [|m]; [done|]|]; cbn [String.substring].
    + cbn [String.length]. f_equal. apply IH. lia.
    + apply IH. lia.
Qed.

Lemma length_repeat_str s n :
  String.length (repeat_str s n) = (n * String.length s)%nat.
Proof. induction n as [|n IH]; [done|]. cbn [repeat_str]. rewrite str_app_length, IH. lia. Qed.

(** The middle of a text of [n] bytes, without the first [a] and the last [b],
    as stars. *)
Lemma masked_total a b (s : string) :
  0 <= a -> 0 <= b -> a + b <= go_len s -> exists m,
    concat3 (slice_to s a) (Repeat "*" (go_len s - (a + b))) (slice_from s (go_len s - b)) = Some m /\
    String.length m = String.length s.
Proof.
  intros Ha Hb Hab. unfold concat3, slice_to, slice_from, Repeat, go_len in *.
  replace ((0 <=? a) && (a <=? Z.of_nat (String.length s))) with true by lia.
  replace (Z.of_nat (String.length s) - (a + b) <? 0) with false by lia.
  replace ((0 <=? Z.of_nat (String.length s) - b) &&
           (Z.of_nat (String.length s) - b <=? Z.of_nat (String.length s))) with true by lia.
  eexists. split; [done|].
  rewrite !str_app_length, length_repeat_str, !length_substring by lia. simpl. lia.
Qed.

Lemma stars_total s : exists m, Repeat "*" (go_len s) = Some m /\ String.length m = String.length s.
Proof.
  unfold Repeat, go_len. rewrite (proj2 (Z.ltb_ge _ 0)) by apply Nat2Z.is_nonneg.
  eexists. split; [done|]. rewrite length_repeat_str. simpl. lia.
Qed.

Lemma MaskPhone_total phone : exists m, MaskPhone phone = Some m /\
  String.length m = String.length (TrimSpace phone).
Proof.
  unfold MaskPhone. cbn zeta. destruct (_ <=? 4) eqn:E; [apply stars_total|].
  apply (masked_total 2 2); lia.
Qed.

Lemma MaskAccount_total acct : exists m, MaskAccount acct = Some m /\
  String.length m = String.length acct.
Proof.
  unfold MaskAccount. destruct (_ <=? 6) eqn:E; [apply stars_total|]. apply (masked_total 4 2); lia.
Qed.

(** A text of which at most the first two and the last two bytes are shown,
    the rest stars; nothing of it when it has at most four bytes. *)
Definition is_star (c : Ascii.ascii) : bool := byte_val c =? 42.

Definition hidden (s : string) : Prop :=
  exists a m b, s = a +:+ m +:+ b /\ all_bytes is_star m = true /\
    (String.length a <= 2)%nat /\ (String.length b <= 2)%nat /\
    ((String.length s <= 4)%nat -> a = "" /\ b = "").

Lemma stars_only n : all_bytes is_star (repeat_str "*" n) = true.
Proof. induction n as [|n IH]; [done|]. cbn [repeat_str]. by rewrite all_bytes_app, IH. Qed.

Lemma mask_phone_hidden phone : hidden (mask_phone phone).
Proof.
  unfold mask_phone, MaskPhone. cbn zeta. set (s := TrimSpace phone).
  destruct (go_len s <=? 4) eqn:E.
  - destruct (stars_total s) as (m & Em & _). rewrite Em. unfold Repeat in Em.
    destruct (go_len s <? 0); [done|]. injection Em as <-.
    exists "", (repeat_str "*" (Z.to_nat (go_len s))), "". split; [by rewrite str_app_nil, str_app_nil_r|].
    split_and!; [apply stars_only|simpl; lia..|done].
  - unfold concat3, slice_to, slice_from, Repeat, go_len in *.
    replace ((0 <=? 2) && (2 <=? Z.of_nat (String.length s))) with true by lia.
    replace (Z.of_nat (String.length s) - 4 <? 0) with false by lia.
    replace ((0 <=? Z.of_nat (String.length s) - 2) &&
             (Z.of_nat (String.length s) - 2 <=? Z.of_nat (String.length s))) with true by lia.
    eexists _, _, _. split; [done|]. split_and!; [apply stars_only|rewrite length_substring; lia..|].
    simpl default. rewrite !str_app_length, length_repeat_str, !length_substring by lia. simpl. lia.
Qed.

(** Nothing but the length, the ends and that it is long enough shows. *)
Lemma MaskPhone_hides p q :
  go_len (TrimSpace p) = go_len (TrimSpace q) ->
  slice_to (TrimSpace p) 2 = slice_to (TrimSpace q) 2 ->
  slice_from (TrimSpace p) (go_len (TrimSpace p) - 2) = slice_from (TrimSpace q) (go_len (TrimSpace q) - 2) ->
  MaskPhone p = MaskPhone q.
Proof. intros El E1 E2. unfold MaskPhone. cbn zeta. by rewrite E1, E2, El. Qed.

Lemma MaskAccount_hides p q :
  go_len p = go_len q -> slice_to p 4 = slice_to q 4 ->
  slice_from p (go_len p - 2) = slice_from q (go_len q - 2) -> MaskAccount p = MaskAccount q.
Proof. intros El E1 E2. unfold MaskAccount. by rewrite E1, E2, El. Qed.

Lemma fmt_x_length s : String.length (fmt_x s) = (2 * String.length s)%nat.
Proof. induction s as [|c s IH]; [done|]. cbn [fmt_x]. rewrite !str_app_length, IH. simpl. lia. Qed.

(** A digest of 32 bytes leaves 12 digits. *)
Lemma MaskAmount_total hmac secret amount :
  String.length (hmac secret (Itoa amount)) = 32%nat ->
  exists m, MaskAmount hmac secret amount = Some m /\ String.length m = 12%nat.
Proof.
  intros Hl. unfold MaskAmount, slice_to, go_len. rewrite fmt_x_length, Hl.
  eexists. split; [done|]. apply length_substring. rewrite fmt_x_length, Hl. lia.
Qed.
