(* ===== verification/RedisClient.v ===== *)
(** * internal/redis/redis.go: sessions, user cache, presence, read model

    The key formats, payload encodings and command sequences that the
    services use on Redis. Durations are in nanoseconds ([time.Duration]). *)

From S2P Require Import Prelude GoStrings Json Tables Sql Servers.

Definition ErrUnauthorized : goerr := EApp "unauthorized".

Definition Second : Z := 1000000000.
Definition Minute : Z := 60 * Second.
Definition Hour : Z := 60 * Minute.

(** ** TTL getters *)

(** The value a getter computes on its first call. *)
Definition duration_value (s : string) (defaultVal : Z) : Z :=
  if negb (bool_decide (s = "")) then
    match Atoi s with
    | Ok n => if 0 <? n then wrap64 (n * Second) else defaultVal
    | Err _ => defaultVal
    end
  else defaultVal.

(** The closure that [onceDuration] returns, with the cell its [sync.Once]
    guards: [None] before the first call. *)
Definition onceDuration (envKey : string) (defaultVal : Z)
    (env : gmap string string) (cell : option Z) : Z * option Z :=
  match cell with
  | Some v => (v, Some v)
  | None => let v := duration_value (default "" (env !! envKey)) defaultVal in (v, Some v)
  end.

(** ** Payloads *)

Record CachedUser := MkCachedUser {
  cu_id : Z;
  cu_phone : string;
  cu_username : string;
  cu_account_number : string;
  cu_password_hash : string;
  cu_balance : Z;
  cu_is_admin : bool;
}.

Definition cached_user_zero : CachedUser := MkCachedUser 0 "" "" "" "" 0 false.

Definition encode_CachedUser (u : CachedUser) : json :=
  JObj [("id", JInt (cu_id u)); ("phone", JStr (cu_phone u));
        ("username", JStr (cu_username u)); ("account_number", JStr (cu_account_number u));
        ("password_hash", JStr (cu_password_hash u)); ("balance", JInt (cu_balance u));
        ("is_admin", JBool (cu_is_admin u))].

Definition CachedUser_fields : list (string * setter CachedUser) :=
  [("id", set_int (fun z u => MkCachedUser z (cu_phone u) (cu_username u)
      (cu_account_number u) (cu_password_hash u) (cu_balance u) (cu_is_admin u)));
   ("phone", set_string (fun s u => MkCachedUser (cu_id u) s (cu_username u)
      (cu_account_number u) (cu_password_hash u) (cu_balance u) (cu_is_admin u)));
   ("username", set_string (fun s u => MkCachedUser (cu_id u) (cu_phone u) s
      (cu_account_number u) (cu_password_hash u) (cu_balance u) (cu_is_admin u)));
   ("account_number", set_string (fun s u => MkCachedUser (cu_id u) (cu_phone u)
      (cu_username u) s (cu_password_hash u) (cu_balance u) (cu_is_admin u)));
   ("password_hash", set_string (fun s u => MkCachedUser (cu_id u) (cu_phone u)
      (cu_username u) (cu_account_number u) s (cu_balance u) (cu_is_admin u)));
   ("balance", set_int (fun z u => MkCachedUser (cu_id u) (cu_phone u) (cu_username u)
      (cu_account_number u) (cu_password_hash u) z (cu_is_admin u)));
   ("is_admin", set_bool (fun b u => MkCachedUser (cu_id u) (cu_phone u) (cu_username u)
      (cu_account_number u) (cu_password_hash u) (cu_balance u) b))].

Definition decode_CachedUser : json -> result CachedUser goerr :=
  unmarshal_struct CachedUser_fields cached_user_zero.

Record NotifyEvent := { ne_transfer_id : Z; ne_amount : Z }.

Definition encode_NotifyEvent (e : NotifyEvent) : json :=
  JObj [("transfer_id", JInt (ne_transfer_id e)); ("amount", JInt (ne_amount e))].

Record TransferCompleted := MkTransferCompleted {
  TransferID : Z;
  Amount : Z;
  SenderID : Z;
  SenderBalance : Z;
  ReceiverID : Z;
  ReceiverBalance : Z;
}.

Definition encode_TransferCompleted (e : TransferCompleted) : json :=
  JObj [("transfer_id", JInt (TransferID e)); ("amount", JInt (Amount e));
        ("sender_id", JInt (SenderID e)); ("sender_balance", JInt (SenderBalance e));
        ("receiver_id", JInt (ReceiverID e)); ("receiver_balance", JInt (ReceiverBalance e))].

Definition TransferCompleted_fields : list (string * setter TransferCompleted) :=
  [("transfer_id", set_int (fun z e => MkTransferCompleted z (Amount e) (SenderID e)
      (SenderBalance e) (ReceiverID e) (ReceiverBalance e)));
   ("amount", set_int (fun z e => MkTransferCompleted (TransferID e) z (SenderID e)
      (SenderBalance e) (ReceiverID e) (ReceiverBalance e)));
   ("sender_id", set_int (fun z e => MkTransferCompleted (TransferID e) (Amount e) z
      (SenderBalance e) (ReceiverID e) (ReceiverBalance e)));
   ("sender_balance", set_int (fun z e => MkTransferCompleted (TransferID e) (Amount e)
      (SenderID e) z (ReceiverID e) (ReceiverBalance e)));
   ("receiver_id", set_int (fun z e => MkTransferCompleted (TransferID e) (Amount e)
      (SenderID e) (SenderBalance e) z (ReceiverBalance e)));
   ("receiver_balance", set_int (fun z e => MkTransferCompleted (TransferID e) (Amount e)
      (SenderID e) (SenderBalance e) (ReceiverID e) z))].

Definition decode_TransferCompleted : json -> result TransferCompleted goerr :=
  unmarshal_struct TransferCompleted_fields (MkTransferCompleted 0 0 0 0 0 0).

(** ** Keys *)

Definition session_key (sid : string) : string := "session:" +:+ sid.
Definition phone_cache_key (phone : string) : string := "user_cache:phone:" +:+ phone.
Definition username_cache_key (name : string) : string := "user_cache:username:" +:+ name.
Definition presence_key (userID : Z) : string := "presence:" +:+ Itoa userID.
Definition notify_channel (userID : Z) : string := "notify:" +:+ Itoa userID.

(** ** Commands *)

Section Client.
Context {P R J : Type} `{RedisServer R}.
Abbreviation W := (World P R J).

Definition sessionTTL : M W Z :=
  let* s := getenv "SESSION_TTL_SECONDS" in ret (duration_value s (24 * Hour)).
Definition userCacheTTL : M W Z :=
  let* s := getenv "USER_CACHE_TTL_SECONDS" in ret (duration_value s (5 * Minute)).
Definition presenceTTL : M W Z :=
  let* s := getenv "PRESENCE_TTL_SECONDS" in ret (duration_value s (60 * Second)).
Definition PresenceTTL : M W Z := presenceTTL.

Definition rdo (c : RedisCmd) : M W (result RReply goerr) := on_rd (redis_do c).
Definition rpipe (cs : list RedisCmd) : M W (option goerr) := on_rd (redis_pipe cs).

(** [cmd.Err()]. *)
Definition cmd_err (r : result RReply goerr) : option goerr :=
  match r with Ok _ => None | Err e => Some e end.

Definition CreateSession (userID : Z) : M W (result string goerr) :=
  let* sid := new_uuid in
  let* ttl := sessionTTL in
  let* r := rdo (RSet (session_key sid) (Itoa userID) ttl) in
  match r with
  | Err e => ret (Err (EWrap "create session" e))
  | Ok _ => ret (Ok sid)
  end.

Definition DeleteSession (sid : string) : M W (option goerr) :=
  if bool_decide (sid = "") then ret None
  else
    let* r := rdo (RDel [session_key sid]) in
    ret (cmd_err r).

Definition GetUserIDFromSession (sid : string) : M W (result Z goerr) :=
  if bool_decide (sid = "") then ret (Err ErrUnauthorized)
  else
    let* r := rdo (RGet (session_key sid)) in
    match r with
    | Err e =>
        if redis_nil e then ret (Err ErrUnauthorized)
        else ret (Err (EWrap "get session" e))
    | Ok (RBulk val) =>
        match Atoi val with
        | Err _ => ret (Err ErrUnauthorized)
        | Ok id => ret (Ok id)
        end
    | Ok _ => ret (Err (EWrap "get session" (EOther "redis: unexpected reply")))
    end.

Definition SetUserCache (u : CachedUser) : M W (option goerr) :=
  let data := Marshal (encode_CachedUser u) in
  let* ttl := userCacheTTL in
  let* r := rdo (RSet (phone_cache_key (cu_phone u)) data ttl) in
  match r with
  | Err e => ret (Some (EWrap "set user cache phone" e))
  | Ok _ =>
      if negb (bool_decide (cu_username u = "")) then
        let* r := rdo (RSet (username_cache_key (cu_username u)) data ttl) in
        match r with
        | Err e => ret (Some (EWrap "set user cache username" e))
        | Ok _ => ret None
        end
      else ret None
  end.

Definition GetUserCache (key : string) : M W (result (option CachedUser) goerr) :=
  let* r := rdo (RGetToBuffer ("user_cache:" +:+ key) 512) in
  match r with
  | Err e =>
      if redis_nil e then ret (Ok None) else ret (Err (EWrap "get user cache" e))
  | Ok (RBulk data) =>
      match unmarshal_text decode_CachedUser data with
      | Err e => ret (Err (EWrap "unmarshal user cache" e))
      | Ok u => ret (Ok (Some u))
      end
  | Ok _ => ret (Err (EWrap "get user cache" (EOther "redis: unexpected reply")))
  end.

Definition GetUserCacheByPhone (phone : string) : M W (result (option CachedUser) goerr) :=
  GetUserCache ("phone:" +:+ phone).

Definition GetUserCacheByUsername (name : string) : M W (result (option CachedUser) goerr) :=
  GetUserCache ("username:" +:+ name).

Definition SetPresence (userID : Z) (online : bool) : M W (option goerr) :=
  let key := presence_key userID in
  if online then
    let* ttl := presenceTTL in
    let* r := rdo (RSet key "online" ttl) in
    ret (cmd_err r)
  else
    let* r := rdo (RDel [key]) in
    ret (cmd_err r).

Definition SetBalance (userID balance : Z) : M W (option goerr) :=
  let* r := rdo (RHSet "balance" (Itoa userID) (Itoa balance)) in
  ret (cmd_err r).

Definition balance_batch (senderID senderBalance receiverID receiverBalance : Z)
    : list RedisCmd :=
  [RHSet "balance" (Itoa senderID) (Itoa senderBalance);
   RHSet "balance" (Itoa receiverID) (Itoa receiverBalance)].

Definition SetBalanceBatch (senderID senderBalance receiverID receiverBalance : Z)
    : M W (option goerr) :=
  rpipe (balance_batch senderID senderBalance receiverID receiverBalance).

(** A hit, a miss, or an error; a stored text that is no integer is an
    error ([HGet(...).Int()]). *)
Definition GetBalance (userID : Z) : M W (result (option Z) goerr) :=
  let* r := rdo (RHGet "balance" (Itoa userID)) in
  match r with
  | Err e => if redis_nil e then ret (Ok None) else ret (Err e)
  | Ok (RBulk s) =>
      match Atoi s with Ok z => ret (Ok (Some z)) | Err e => ret (Err e) end
  | Ok _ => ret (Err (EOther "redis: unexpected reply"))
  end.

Definition transfer_completed_batch (evt : TransferCompleted) (senderPhone receiverPhone : string)
    : list RedisCmd :=
  let data := Marshal (encode_TransferCompleted evt) in
  [RDel [phone_cache_key senderPhone; phone_cache_key receiverPhone];
   RHSet "balance" (Itoa (SenderID evt)) (Itoa (SenderBalance evt));
   RHSet "balance" (Itoa (ReceiverID evt)) (Itoa (ReceiverBalance evt));
   RPublish (notify_channel (SenderID evt)) data;
   RPublish (notify_channel (ReceiverID evt)) data].

Definition PublishTransferCompleted (evt : TransferCompleted)
    (senderPhone receiverPhone : string) : M W (option goerr) :=
  rpipe (transfer_completed_batch evt senderPhone receiverPhone).

Definition PublishNotify (userID : Z) (event : NotifyEvent) : M W (option goerr) :=
  let* r := rdo (RPublish (notify_channel userID) (Marshal (encode_NotifyEvent event))) in
  ret (cmd_err r).
End Client.
