(* ===== verification/Consumer.v ===== *)
(** * internal/nats/consumer.go: session and admin guards, dispatch

    A [Handler] is a program of the world's state monad. [RequireSession] and
    [RequireAdmin] wrap one; [dispatch] decodes the request text, runs the
    handler of the action and encodes what the caller receives. *)

From S2P Require Import Prelude GoStrings Json Tables Sql Servers RedisClient.

(** The parts of [context.Context] the handlers read. *)
Record Ctx := { ctx_user : option Z }.

Definition withUserID (ctx : Ctx) (id : Z) : Ctx := {| ctx_user := Some id |}.

Definition UserIDFromContext (ctx : Ctx) : Z * bool :=
  match ctx_user ctx with Some v => (v, true) | None => (0, false) end.

Record rpcResponse := MkRpcResponse { rpc_status : Z; rpc_body : json }.

Definition encode_rpcResponse (r : rpcResponse) : json :=
  JObj [("status", JInt (rpc_status r)); ("body", rpc_body r)].

(** What a handler returns as [any]: a well-formed response or another
    value. *)
Inductive goany : Type := ARpc (r : rpcResponse) | AVal (v : json).

Definition Reply (status : Z) (body : json) : goany := ARpc (MkRpcResponse status body).

Definition detail (s : string) : json := JMap [("detail", JStr s)].

(** Headers absent from the map read as the empty string. *)
Definition Headers : Type := gmap string string.
Definition header (h : Headers) (k : string) : string := default "" (h !! k).

(** A raw payload is a JSON value, or [None] when it is absent. *)
Definition Handler (W : Type) : Type :=
  Ctx -> string -> option json -> Headers -> M W (result goany goerr).

Section Guards.
Context {P R J : Type} `{RedisServer R}.
Abbreviation W := (World P R J).

Definition RequireSession (next : Handler W) : Handler W :=
  fun ctx action payload headers =>
    let* r := GetUserIDFromSession (header headers "x-session") in
    match r with
    | Err err =>
        if errors_Is err ErrUnauthorized
        then ret (Ok (Reply 401 (detail "Unauthorized")))
        else ret (Ok (Reply 500 (detail "session error")))
    | Ok userID => next (withUserID ctx userID) action payload headers
    end.

Definition RequireAdmin (secret : string) (next : Handler W) : Handler W :=
  fun ctx action payload headers =>
    if negb (bool_decide (header headers "x-admin-secret" = secret))
    then ret (Ok (Reply 403 (detail "Forbidden")))
    else
      let* r := GetUserIDFromSession (header headers "x-session") in
      match r with
      | Err err =>
          if errors_Is err ErrUnauthorized
          then ret (Ok (Reply 401 (detail "Unauthorized")))
          else ret (Ok (Reply 500 (detail "session error")))
      | Ok userID => next (withUserID ctx userID) action payload headers
      end.

Definition SessionMiddleware : Handler W -> Handler W := RequireSession.
Definition AdminMiddleware (secret : string) : Handler W -> Handler W :=
  RequireAdmin secret.
End Guards.

(** ** The consumer *)

(** The endpoints of a service: [handlers] by action name; the subject of an
    endpoint is the prefix, a dot and the action. *)
Record Consumer (W : Type) := MkConsumer {
  c_name : string;
  c_subjectPrefix : string;
  c_handlers : gmap string (Handler W);
  c_pendingMsgs : Z;
}.
Arguments MkConsumer {W} c_name c_subjectPrefix c_handlers c_pendingMsgs.
Arguments c_name {W} c.
Arguments c_subjectPrefix {W} c.
Arguments c_handlers {W} c.
Arguments c_pendingMsgs {W} c.

Definition ConsumerOption (W : Type) : Type := Consumer W -> Consumer W.

Definition WithHandler {W} (action : string) (h : Handler W) : ConsumerOption W :=
  fun c => MkConsumer (c_name c) (c_subjectPrefix c) (<[action := h]> (c_handlers c))
             (c_pendingMsgs c).

Definition WithPendingMsgs {W} (n : Z) : ConsumerOption W :=
  fun c => if 0 <? n then MkConsumer (c_name c) (c_subjectPrefix c) (c_handlers c) n else c.

Definition NewConsumer {W} (name subjectPrefix : string) (opts : list (ConsumerOption W))
    : Consumer W :=
  fold_left (fun c opt => opt c) opts (MkConsumer name subjectPrefix ∅ 64).

Definition endpoint_subject {W} (c : Consumer W) (action : string) : string :=
  c_subjectPrefix c +:+ "." +:+ action.

(** ** Dispatch *)

(** The body of a request: only [payload]. *)
Definition rpcRequest_fields : list (string * setter (option json)) :=
  [("payload", set_raw (fun v _ => Some v))].

Definition decode_rpcRequest : json -> result (option json) goerr :=
  unmarshal_struct rpcRequest_fields None.

(** What reaches the caller: a reply text, or an error reply of the micro
    framework (code and description in headers, no body). *)
Inductive RpcReply : Type :=
| Respond (data : string)
| RespondError (code description : string).

(** The response of the handler's outcome. *)
Definition response_of (r : result goany goerr) : rpcResponse :=
  match r with
  | Err _ => MkRpcResponse 500 (detail "internal error")
  | Ok (ARpc resp) => resp
  | Ok (AVal v) => MkRpcResponse 200 v
  end.


Section Dispatch.
Context {W : Type}.

(** [None]: the service is shutting down and the request is dropped.
    Marshalling a [json] tree cannot fail, so the fallback reply of the
    source is never taken. *)
Definition dispatch (shutdown : bool) (reqData : string) (reqHeaders : Headers)
    (action : string) (h : Handler W) : M W (option RpcReply) :=
  if shutdown then ret None
  else
    match unmarshal_text decode_rpcRequest reqData with
    | Err _ => ret (Some (RespondError "400" "invalid request body"))
    | Ok payload =>
        let headers : Headers :=
          <["x-session" := header reqHeaders "x-session"]>
            (<["x-admin-secret" := header reqHeaders "x-admin-secret"]> ∅) in
        let* result := h {| ctx_user := None |} action payload headers in
        ret (Some (Respond (Marshal (encode_rpcResponse (response_of result)))))
    end.

(** A request on a subject reaches the endpoint registered for it, if
    any. *)
Definition serve (c : Consumer W) (shutdown : bool) (action reqData : string)
    (reqHeaders : Headers) : M W (option RpcReply) :=
  match c_handlers c !! action with
  | None => ret None
  | Some h => dispatch shutdown reqData reqHeaders action h
  end.
End Dispatch.
