(* ===== verification/Transfer.v ===== *)
(** * services/transfer-service/handlers.go: the balance transfer

    [transfer_tx] is the callback that [runTransferTx] hands to the
    serializable transaction, statement by statement; [handleTransfer] is the
    whole handler, with the post-commit Redis pipeline and the JetStream
    publish. *)

From S2P Require Import Prelude GoStrings Json Tables Sql Servers Db RedisClient Consumer.

Record transferPayload := MkTransferPayload {
  p_AccountNumber : string;
  p_Phone : string;
  p_Username : string;
  p_Amount : Z;
}.

Definition transferPayload_fields : list (string * setter transferPayload) :=
  [("account_number", set_string (fun s p =>
      MkTransferPayload s (p_Phone p) (p_Username p) (p_Amount p)));
   ("phone", set_string (fun s p =>
      MkTransferPayload (p_AccountNumber p) s (p_Username p) (p_Amount p)));
   ("username", set_string (fun s p =>
      MkTransferPayload (p_AccountNumber p) (p_Phone p) s (p_Amount p)));
   ("amount", set_int (fun z p =>
      MkTransferPayload (p_AccountNumber p) (p_Phone p) (p_Username p) z))].

Definition decode_transferPayload : json -> result transferPayload goerr :=
  unmarshal_struct transferPayload_fields (MkTransferPayload "" "" "" 0).

(** The three [TrimSpace] assignments. *)
Definition trim_payload (p : transferPayload) : transferPayload :=
  MkTransferPayload (TrimSpace (p_AccountNumber p)) (TrimSpace (p_Phone p))
    (TrimSpace (p_Username p)) (p_Amount p).

Record transferResult := MkTransferResult {
  r_transferID : Z;
  r_senderID : Z;
  r_receiverID : Z;
  r_senderPhone : string;
  r_receiverPhone : string;
  r_senderBalance : Z;
  r_receiverBalance : Z;
}.

Definition transferResult_zero : transferResult := MkTransferResult 0 0 0 "" "" 0 0.

Definition errInsufficientFunds : goerr := EApp "insufficient funds".
Definition errReceiverNotFound : goerr := EApp "receiver not found".
Definition errSelfTransfer : goerr := EApp "self transfer".

(** ** The statements of the transaction *)

Definition select_receiver (p : transferPayload) : Stmt User :=
  let '(col, val) := UserIdentifierCol (p_AccountNumber p) (p_Phone p) (p_Username p) in
  users_where [CId] col (SText val) false.

Definition id_in (a b : Z) : sexpr user_col :=
  EIn2 (ECol CId) (EArg (SInt a)) (EArg (SInt b)).

(** [WHERE id IN (?, ?) ORDER BY id FOR UPDATE]. *)
Definition select_both (senderID receiverID : Z) : Stmt User :=
  SelectUsers UserCols
    (MkQuery (Some (id_in senderID receiverID)) (Some (CId, false)) None 0 true).

(** [CASE WHEN id = ? AND balance >= ? THEN balance - ?
         WHEN id = ? THEN balance + ? END]: no ELSE arm, so NULL otherwise. *)
Definition balance_case (senderID receiverID amount : Z) : sexpr user_col :=
  ECase (EAnd (EEq (ECol CId) (EArg (SInt senderID)))
              (EGe (ECol CBalance) (EArg (SInt amount))))
        (ESub (ECol CBalance) (EArg (SInt amount)))
        (ECase (EEq (ECol CId) (EArg (SInt receiverID)))
               (EAdd (ECol CBalance) (EArg (SInt amount)))
               (EArg SNull)).

Definition update_both (senderID receiverID amount : Z) : Cmd :=
  UpdateUsers CBalance (balance_case senderID receiverID amount) (id_in senderID receiverID).

Section Tx.
Context {P : Type} `{PgServer P}.

(** The transaction [tx], what its statements work on, and the captured
    [res]. *)
Context {X : Type} (tx : forall A, (P -> A * P) -> M X A).
Abbreviation TX := (transferResult * X)%type.

Definition resolveReceiver (p : transferPayload) : M TX (result Z goerr) :=
  let* r := in_tx (tx _ (pg_one (select_receiver p))) in
  match r with
  | Err err => if IsNotFound err then ret (Err errReceiverNotFound) else ret (Err err)
  | Ok row => ret (Ok (u_id row))
  end.

Definition lockBothUsers (senderID receiverID : Z) : M TX (result (User * User) goerr) :=
  let* r := in_tx (tx _ (pg_all (select_both senderID receiverID))) in
  match r with
  | Err err => ret (Err (EWrap "lock both users" err))
  | Ok [row0; row1] =>
      if u_id row0 =? senderID then ret (Ok (row0, row1)) else ret (Ok (row1, row0))
  | Ok rows =>
      ret (Err (EOther ("lock both users: expected 2 rows, got " +:+
                        Itoa (Z.of_nat (length rows)))))
  end.

Definition updateBalances (senderID receiverID amount : Z) : M TX (option goerr) :=
  let* r := in_tx (tx _ (pg_exec (update_both senderID receiverID amount))) in
  match r with
  | Err err => ret (Some (EWrap "update balances" err))
  | Ok n => if negb (n =? 2) then ret (Some errInsufficientFunds) else ret None
  end.

Definition insertTransferRecord (senderID receiverID amount : Z) : M TX (result Z goerr) :=
  let* r := in_tx (tx _ (pg_one (InsertTransfer senderID receiverID amount))) in
  match r with
  | Err err => ret (Err (EWrap "insert transfer" err))
  | Ok id => ret (Ok id)
  end.

Definition sender_msg (receiver : User) (amount : Z) : string :=
  "You sent " +:+ Itoa amount +:+ " to " +:+ u_username receiver.
Definition receiver_msg (sender : User) (amount : Z) : string :=
  "You received " +:+ Itoa amount +:+ " from " +:+ u_username sender.

Definition insertNotifications (sender receiver : User) (amount : Z) : M TX (option goerr) :=
  let* r := in_tx (tx _ (pg_exec (InsertNotifications
              [(u_id sender, sender_msg receiver amount);
               (u_id receiver, receiver_msg sender amount)]))) in
  match r with
  | Err err => ret (Some (EWrap "insert notifications" err))
  | Ok _ => ret None
  end.

(** The callback of [db.SerializableTx] in [runTransferTx]. *)
Definition transfer_tx (senderID : Z) (p : transferPayload) : M TX (option goerr) :=
  let* receiver := resolveReceiver p in
  match receiver with
  | Err err => ret (Some err)
  | Ok receiverID =>
      if senderID =? receiverID then ret (Some errSelfTransfer)
      else
        let* _ := assign (fun res => MkTransferResult (r_transferID res) (r_senderID res)
                    receiverID (r_senderPhone res) (r_receiverPhone res)
                    (r_senderBalance res) (r_receiverBalance res)) in
        let* locked := lockBothUsers senderID receiverID in
        match locked with
        | Err err => ret (Some err)
        | Ok (sender, receiver) =>
            if u_balance sender <? p_Amount p then ret (Some errInsufficientFunds)
            else
              let* uerr := updateBalances (u_id sender) (u_id receiver) (p_Amount p) in
              match uerr with
              | Some err => ret (Some err)
              | None =>
                  let* t := insertTransferRecord (u_id sender) (u_id receiver) (p_Amount p) in
                  match t with
                  | Err err => ret (Some err)
                  | Ok tfr =>
                      let* _ := assign (fun res =>
                        MkTransferResult tfr (u_id sender) (r_receiverID res)
                          (u_phone sender) (u_phone receiver)
                          (wrap64 (u_balance sender - p_Amount p))
                          (wrap64 (u_balance receiver + p_Amount p))) in
                      insertNotifications sender receiver (p_Amount p)
                  end
              end
        end
  end.
End Tx.

Definition transfer_code {P} `{PgServer P} (senderID : Z) (p : transferPayload)
    : TxCode P transferResult :=
  fun X tx => transfer_tx tx senderID p.

Section Handler.
Context {P R J : Type} `{PgServer P} `{RedisServer R}.
Abbreviation W := (World P R J).

Definition runTransferTx (senderID : Z) (p : transferPayload)
    : M W (option goerr * transferResult) :=
  SerializableTx (transfer_code senderID p) transferResult_zero.

(** [publishEvent] is [None] when JetStream is unavailable. *)
Definition handleTransfer (publishEvent : option (TransferCompleted -> M W (option goerr)))
    : Handler W :=
  fun ctx _ raw _ =>
    let '(senderID, _) := UserIDFromContext ctx in
    match unmarshal_raw decode_transferPayload raw with
    | Err _ => ret (Ok (Reply 400 (detail "invalid payload")))
    | Ok p0 =>
        let p := trim_payload p0 in
        if bool_decide (p_AccountNumber p = "") && bool_decide (p_Phone p = "") &&
           bool_decide (p_Username p = "")
        then ret (Ok (Reply 400 (detail "provide account_number, phone, or username")))
        else if p_Amount p <=? 0
        then ret (Ok (Reply 400 (detail "amount must be positive")))
        else
          let* (txErr, res) := runTransferTx senderID p in
          match txErr with
          | Some err =>
              if errors_Is err errInsufficientFunds
              then ret (Ok (Reply 400 (detail "Insufficient funds")))
              else if errors_Is err errReceiverNotFound
              then ret (Ok (Reply 404 (detail "Receiver not found")))
              else if errors_Is err errSelfTransfer
              then ret (Ok (Reply 400 (detail "Cannot transfer to yourself")))
              else if IsSerializationFailure err
              then ret (Ok (Reply 503 (detail "Serialization failure — please retry")))
              else ret (Err (EWrap "transfer tx" err))
          | None =>
              let evt := MkTransferCompleted (r_transferID res) (p_Amount p)
                (r_senderID res) (r_senderBalance res)
                (r_receiverID res) (r_receiverBalance res) in
              (* a failure of the pipeline is only logged *)
              let* _ := PublishTransferCompleted evt (r_senderPhone res) (r_receiverPhone res) in
              (* so is a failure of the publish *)
              let* _ := match publishEvent with
                        | Some publish => publish evt
                        | None => ret None
                        end in
              ret (Ok (Reply 200 (JMap [("transfer_id", JInt (r_transferID res));
                                        ("amount", JInt (p_Amount p))])))
          end
    end.
End Handler.
