(* ===== verification/TransferFacts.v ===== *)
(** * The balance transfer: specification and proofs

    [transferred] and [refused] say what one run of the transaction does to
    the tables and why it may refuse; [transfer_tx_spec] shows that the
    statements of the callback implement them, statement by statement. *)

From S2P Require Import Prelude GoStrings Json Tables Sql SqlFacts Servers Db PgFacts TxFacts.
From S2P Require Import RedisClient Consumer Transfer.

(** ** Specification *)

(** The user whom the first non-empty identifier of the payload names. *)
Definition identifies (p : transferPayload) (u : User) : bool :=
  let '(col, val) := UserIdentifierCol (p_AccountNumber p) (p_Phone p) (p_Username p) in
  has_val col (SText val) u.

(** Debit of user [s] and credit of user [r]. *)
Definition move (s r amount : Z) (u : User) : User :=
  if u_id u =? s then set_balance u (u_balance u - amount)
  else if u_id u =? r then set_balance u (u_balance u + amount)
  else u.

Inductive transferred (senderID : Z) (p : transferPayload) (T : Tables)
  : transferResult -> Tables -> Prop :=
| transferred_intro sender receiver tid n1 n2 now1 now2 T' :
    sender ∈ users T -> receiver ∈ users T ->
    u_id sender = senderID -> u_id receiver <> senderID ->
    identifies p receiver = true ->
    p_Amount p <= u_balance sender ->
    u_balance receiver + p_Amount p <= int64_max ->
    (in_int64 tid /\ tid ∉ map t_id (transfers T)) ->
    users T' ≡ₚ map (move senderID (u_id receiver) (p_Amount p)) (users T) ->
    transfers T' ≡ₚ MkTransfer tid senderID (u_id receiver) (p_Amount p) now1 :: transfers T ->
    notifications T' ≡ₚ
      MkNotification n1 senderID (sender_msg receiver (p_Amount p)) false now2 ::
      MkNotification n2 (u_id receiver) (receiver_msg sender (p_Amount p)) false now2 ::
      notifications T ->
    transferred senderID p T
      (MkTransferResult tid senderID (u_id receiver) (u_phone sender) (u_phone receiver)
         (u_balance sender - p_Amount p) (u_balance receiver + p_Amount p)) T'.

(** The reasons that the data give to refuse, with the error reported. *)
Inductive refused (senderID : Z) (p : transferPayload) (T : Tables) : goerr -> Prop :=
| refused_not_found :
    (forall u, u ∈ users T -> identifies p u = false) ->
    refused senderID p T errReceiverNotFound
| refused_self u :
    u ∈ users T -> identifies p u = true -> u_id u = senderID ->
    refused senderID p T errSelfTransfer
| refused_insufficient sender receiver :
    sender ∈ users T -> receiver ∈ users T -> u_id sender = senderID ->
    u_id receiver <> senderID -> identifies p receiver = true ->
    u_balance sender < p_Amount p -> refused senderID p T errInsufficientFunds
| refused_no_sender n :
    (forall u, u ∈ users T -> u_id u <> senderID) ->
    refused senderID p T (EOther ("lock both users: expected 2 rows, got " +:+ Itoa n))
| refused_overflow e receiver :
    foreign e = true -> pgErrCode e = c_range ->
    receiver ∈ users T -> identifies p receiver = true ->
    int64_max < u_balance receiver + p_Amount p ->
    refused senderID p T (EWrap "update balances" e).

(** ** Rows *)

Definition id_is (a b : Z) (u : User) : bool := (u_id u =? a) || (u_id u =? b).

Lemma matches_id_in ilike a b u :
  matches ilike get_user (Some (id_in a b)) u = Ok (id_is a b u).
Proof. unfold id_is. simpl. by destruct (u_id u =? a), (u_id u =? b). Qed.

(** The rows of two different users. *)
Lemma two_rows a b (us : list User) s r :
  NoDup (map u_id us) -> s ∈ us -> r ∈ us -> u_id s = a -> u_id r = b -> a <> b ->
  length (List.filter (id_is a b) us) = 2%nat.
Proof.
  intros Hn Hs Hr <- <- Hne.
  rewrite <- (length_map u_id). change 2%nat with (length [u_id s; u_id r]).
  apply Permutation_length, NoDup_Permutation.
  - by apply NoDup_map_filter.
  - repeat constructor; set_solver.
  - intros i. split.
    + intros (u & -> & Hu)%list_elem_of_fmap. apply elem_of_filter_bool in Hu as [_ Hu].
      unfold id_is in Hu. apply orb_true_iff in Hu. rewrite !elem_of_cons. lia.
    + assert (forall u, u ∈ us -> id_is (u_id s) (u_id r) u = true ->
                u_id u ∈ map u_id (List.filter (id_is (u_id s) (u_id r)) us)) as Hin
        by (intros u Hu Hf; by apply list_elem_of_fmap_2, elem_of_filter_bool).
      rewrite !elem_of_cons. intros [->|[->|[]%not_elem_of_nil]]; apply Hin; try done;
        unfold id_is; lia.
Qed.

Lemma assign_row_sender ilike s r amount u :
  user_row_ok u = true -> u_id u = s -> 0 < amount <= u_balance u ->
  assign_row ilike CBalance (balance_case s r amount) u = Ok (move s r amount u).
Proof.
  intros Hu Hs Ha. unfold user_row_ok in Hu. bool_hyps.
  assert (in_int64 (u_balance u - amount)) by (unfold in_int64, int64_min, int64_max in *; lia).
  unfold assign_row, move. simpl.
  replace (u_id u =? s) with true by lia. replace (amount <=? u_balance u) with true by lia.
  simpl. rewrite decide_True by done. simpl.
  replace (u_balance u - amount <? 0) with false by lia. by rewrite decide_True.
Qed.

Lemma assign_row_receiver ilike s r amount u :
  user_row_ok u = true -> u_id u = r -> s <> r -> 0 < amount ->
  assign_row ilike CBalance (balance_case s r amount) u =
    if u_balance u + amount <=? int64_max then Ok (move s r amount u) else Err c_range.
Proof.
  intros Hu Hr Hne Ha. unfold user_row_ok in Hu. bool_hyps.
  unfold assign_row, move. simpl.
  replace (u_id u =? s) with false by lia.
  replace (u_id u =? r) with true by lia.
  destruct (Z.leb_spec (u_balance u + amount) int64_max) as [Hle|Hgt].
  - assert (in_int64 (u_balance u + amount)) by (unfold in_int64, int64_min in *; lia).
    destruct (amount <=? u_balance u); simpl; rewrite decide_True by done; simpl;
      replace (u_balance u + amount <? 0) with false by lia; by rewrite decide_True.
  - assert (~ in_int64 (u_balance u + amount)) by (unfold in_int64; lia).
    destruct (amount <=? u_balance u); simpl; by rewrite decide_False.
Qed.

(** The CASE expression has no ELSE: a sender row without the funds would be
    set to NULL. *)
Lemma assign_row_null ilike s r amount u :
  u_id u = s -> s <> r -> u_balance u < amount ->
  assign_row ilike CBalance (balance_case s r amount) u = Err c_not_null.
Proof.
  intros Hs Hne Hb. unfold assign_row. simpl.
  replace (u_id u =? s) with true by lia. replace (amount <=? u_balance u) with false by lia.
  replace (u_id u =? r) with false by lia. done.
Qed.

Lemma update_both_ok ilike s r amount T sender us n :
  schema_ok T -> sender ∈ users T -> u_id sender = s -> s <> r ->
  0 < amount <= u_balance sender ->
  update_users ilike CBalance (balance_case s r amount) (id_in s r) (users T) = Ok (us, n) ->
  us = map (move s r amount) (users T) /\
  n = Z.of_nat (length (List.filter (id_is s r) (users T))).
Proof.
  intros Hok Hs Hid Hne Ha E.
  apply (update_users_ok _ _ _ _ (id_is s r) (move s r amount)) in E as (-> & -> & _).
  - split; [|done]. apply map_ext. intros u. unfold id_is, move.
    by destruct (u_id u =? s), (u_id u =? r).
  - apply matches_id_in.
  - intros u u' Hu Hf Eu. pose proof (ok_user_rows _ Hok) as Hrows.
    rewrite Forall_forall in Hrows. specialize (Hrows _ Hu).
    destruct (decide (u_id u = s)) as [Es|Es].
    + assert (u = sender) as -> by (apply (user_by_id T); congruence).
      rewrite assign_row_sender in Eu by done. by injection Eu.
    + unfold id_is in Hf. rewrite assign_row_receiver in Eu by (done || lia).
      destruct (_ <=? _); [by injection Eu|done].
Qed.

Lemma update_both_err ilike s r amount T sender receiver c :
  schema_ok T -> sender ∈ users T -> u_id sender = s -> s <> r ->
  receiver ∈ users T -> u_id receiver = r -> 0 < amount <= u_balance sender ->
  update_users ilike CBalance (balance_case s r amount) (id_in s r) (users T) = Err c ->
  c = c_range /\ int64_max < u_balance receiver + amount.
Proof.
  intros Hok Hs Hid Hne Hr Hrid Ha E.
  apply (update_users_err _ _ _ _ (id_is s r)) in E as (u & Hu & Hf & E);
    [|apply matches_id_in].
  pose proof (ok_user_rows _ Hok) as Hrows. rewrite Forall_forall in Hrows.
  specialize (Hrows _ Hu). destruct (decide (u_id u = s)) as [Es|Es].
  - assert (u = sender) as -> by (apply (user_by_id T); congruence).
    by rewrite assign_row_sender in E.
  - unfold id_is in Hf. assert (u_id u = r) as Er by lia.
    assert (u = receiver) as -> by (apply (user_by_id T); congruence).
    rewrite assign_row_receiver in E by (done || lia).
    destruct (_ <=? _) eqn:El; [done|]. injection E as <-. split; [done|lia].
Qed.

(** ** The statements *)

Section Statements.
Context {P : Type} `{PgLaws P}.
Abbreviation TX := (transferResult * P)%type.

Lemma resolveReceiver_spec pl k h res p :
  within (plus (S k) h) p ->
  wp (resolveReceiver alone pl)
    (fun r '(res', p') =>
       res' = res /\ within (plus k h) p' /\ pg_view p ≡ pg_view p' /\
       match r with
       | Ok i => exists u, u ∈ users (pg_view p) /\ identifies pl u = true /\ u_id u = i
       | Err e => (e = errReceiverNotFound /\
                   forall u, u ∈ users (pg_view p) -> identifies pl u = false)
                  \/ (h = None /\ foreign e = true)
       end) (res, p).
Proof.
  intros Hp. unfold resolveReceiver, select_receiver, identifies.
  assert (exists col val, UserIdentifierCol (p_AccountNumber pl) (p_Phone pl) (p_Username pl)
            = (col, val) /\ typed col (SText val) = true) as (col & val & -> & Ht)
    by (unfold UserIdentifierCol; repeat case_match; eauto).
  apply wp_bind, wp_in_tx. intros r p' E.
  destruct (one_where_bounded _ _ _ _ _ _ _ _ _ Ht Hp E) as (Hp' & Hv & Hr).
  destruct r as [row|e].
  - destruct Hr as (u & Hu & Huv & ->). apply wp_ret. split_and!; try done.
    exists u. split_and!; try done.
  - destruct Hr as [Hf [[Hn Hall]|[Hh Hn]]]; rewrite Hn; apply wp_ret; split_and!; auto.
Qed.

Lemma lockBothUsers_spec sid rid receiver k h res p :
  schema_ok (pg_view p) -> within (plus (S k) h) p ->
  receiver ∈ users (pg_view p) -> u_id receiver = rid -> sid <> rid ->
  wp (lockBothUsers alone sid rid)
    (fun r '(res', p') =>
       res' = res /\ within (plus k h) p' /\ pg_view p ≡ pg_view p' /\
       match r with
       | Ok (a, b) => a ∈ users (pg_view p) /\ u_id a = sid /\
                      b ∈ users (pg_view p) /\ u_id b = rid
       | Err e => (h = None /\ foreign e = true) \/
                  ((exists n, e = EOther ("lock both users: expected 2 rows, got " +:+ Itoa n)) /\
                   forall u, u ∈ users (pg_view p) -> u_id u <> sid)
       end) (res, p).
Proof.
  intros Hok Hp Hrec Hrid Hne. unfold lockBothUsers.
  apply wp_bind, wp_in_tx. intros r p' E.
  pose proof (pg_all_reads (select_both sid rid) _ _ _ eq_refl E) as Hv.
  destruct (all_bounded _ _ _ _ _ _ Hp E) as [Ho Hp'].
  assert (forall env T, stmt_run pg_ilike (select_both sid rid) env T =
            Ok (merge_sort (row_le get_user (CId, false))
                  (List.filter (id_is sid rid) (users T)), T)) as Hrun.
  { intros env T. simpl. unfold run_query. simpl.
    rewrite (filter_rows_pure _ _ _ (id_is sid rid)) by apply matches_id_in. simpl.
    unfold limit_rows. simpl. rewrite drop_0.
    rewrite (map_ext _ id), map_id; [done|].
    intros u. apply project_all. intros []; set_solver. }
  destruct r as [rows|e].
  - apply bounded_ok in Ho as (env & T0 & T1 & E0 & He & Er & _).
    apply all_run_all in Er. rewrite Hrun in Er. injection Er as Erows _.
    rewrite E0 in Hok, Hrec.
    assert (rows ≡ₚ List.filter (id_is sid rid) (users T0)) as Hperm
      by (rewrite <- Erows; apply merge_sort_Permutation).
    assert (NoDup (map u_id rows)) as Hnd
      by (rewrite Hperm; apply NoDup_map_filter, Hok).
    assert (forall u, u ∈ rows -> u ∈ users (pg_view p) /\ (u_id u = sid \/ u_id u = rid)) as Hin.
    { intros u Hu. rewrite Hperm in Hu. apply elem_of_filter_bool in Hu as [Hu Hi].
      rewrite E0. split; [done|]. unfold id_is in Hi. lia. }
    destruct rows as [|row0 [|row1 [|row2 rows]]].
    1, 2, 4: apply wp_ret; split_and!; try done; right; (split; [by eexists|]); intros u Hu Hus;
      rewrite E0 in Hu;
      pose proof (two_rows sid rid _ u receiver (ok_user_ids _ Hok) Hu Hrec Hus Hrid Hne) as Hl;
      rewrite <- Hperm in Hl; discriminate Hl.
    destruct (Hin row0 ltac:(set_solver)) as [Hin0 I0].
    destruct (Hin row1 ltac:(set_solver)) as [Hin1 I1].
    assert (u_id row0 <> u_id row1) by (simpl in Hnd; apply NoDup_cons in Hnd; set_solver).
    destruct (u_id row0 =? sid) eqn:Es; apply wp_ret; split_and!; try done; lia.
  - apply wp_ret. apply bounded_err in Ho as [Hf [(env & T0 & f & _ & _ & Er & _)|[Hh _]]].
    + unfold all_run in Er. by rewrite Hrun in Er.
    + split_and!; auto.
Qed.

Lemma updateBalances_spec sender receiver amount k h res p :
  schema_ok (pg_view p) -> within (plus (S k) h) p ->
  sender ∈ users (pg_view p) -> receiver ∈ users (pg_view p) ->
  u_id sender <> u_id receiver -> 0 < amount <= u_balance sender ->
  wp (updateBalances alone (u_id sender) (u_id receiver) amount)
    (fun r '(res', p') =>
       res' = res /\ within (plus k h) p' /\
       match r with
       | None => users (pg_view p') ≡ₚ
                   map (move (u_id sender) (u_id receiver) amount) (users (pg_view p)) /\
                 transfers (pg_view p') ≡ₚ transfers (pg_view p) /\
                 notifications (pg_view p') ≡ₚ notifications (pg_view p) /\
                 u_balance receiver + amount <= int64_max
       | Some e => (h = None /\ foreign e = true) \/
                   (exists e0, e = EWrap "update balances" e0 /\ foreign e0 = true /\
                      pgErrCode e0 = c_range /\ int64_max < u_balance receiver + amount)
       end) (res, p).
Proof.
  intros Hok Hp Hs Hr Hne Ha. unfold updateBalances.
  apply wp_bind, wp_in_tx. intros r p' E.
  destruct (exec_bounded _ _ _ _ _ _ Hp E) as [Ho Hp'].
  destruct r as [n|e].
  - apply bounded_ok in Ho as (env & T0 & T1 & E0 & He & Er & E1).
    pose proof E0 as (Eu & Et & En). pose proof E1 as (Eu1 & Et1 & En1).
    rewrite E0 in Hok, Hs, Hr. apply exec_run_all in Er. simpl in Er.
    destruct (update_users _ _ _ _ _) as [[us m]|] eqn:Eup; [|done].
    injection Er as <- <-. simpl in *.
    pose proof (update_users_ok _ _ _ _ (id_is (u_id sender) (u_id receiver))
      (fun u => default u (match assign_row pg_ilike CBalance
         (balance_case (u_id sender) (u_id receiver) amount) u with
         Ok u' => Some u' | Err _ => None end)) _ _ _ (matches_id_in _ _ _)
      ltac:(intros u u' _ _ Ea; cbn beta; by rewrite Ea) Eup) as (_ & _ & Hall).
    destruct (update_both_ok _ _ _ _ _ sender _ _ Hok Hs eq_refl Hne Ha Eup) as [-> ->].
    rewrite (two_rows _ _ _ sender receiver) by (done || apply Hok). simpl.
    apply wp_ret. split; [done|]. split; [done|].
    rewrite <- Eu1, <- Et1, <- En1, Et, En. split_and!; try done; [by rewrite <- Eu|].
    specialize (Hall receiver Hr ltac:(unfold id_is; lia)).
    pose proof (ok_user_rows _ Hok) as Hrows. rewrite Forall_forall in Hrows.
    rewrite assign_row_receiver in Hall by (auto; lia).
    destruct (_ <=? _) eqn:El; [lia|done].
  - apply wp_ret. split; [done|]. split; [done|].
    apply bounded_err in Ho as [Hf [(env & T0 & f & E0 & _ & Er & Hrep)|[Hh _]]]; [|by auto].
    right. rewrite E0 in Hok, Hs, Hr. unfold exec_run in Er. simpl in Er.
    destruct (update_users _ _ _ _ _) as [[us m]|c] eqn:Eup; [done|]. injection Er as <-.
    destruct (update_both_err _ _ _ _ _ sender receiver _ Hok Hs eq_refl Hne Hr eq_refl Ha Eup)
      as [-> Hmax].
    exists e. split_and!; try done. by destruct (reports_state _ _ Hrep).
Qed.

Lemma insertTransferRecord_spec sid rid amount k h res p :
  within (plus (S k) h) p ->
  sid ∈ user_ids (pg_view p) -> rid ∈ user_ids (pg_view p) -> 0 < amount <= int64_max ->
  wp (insertTransferRecord alone sid rid amount)
    (fun r '(res', p') =>
       res' = res /\ within (plus k h) p' /\
       match r with
       | Ok tid => exists now,
           (in_int64 tid /\ tid ∉ map t_id (transfers (pg_view p))) /\
           users (pg_view p') ≡ₚ users (pg_view p) /\
           transfers (pg_view p') ≡ₚ MkTransfer tid sid rid amount now :: transfers (pg_view p) /\
           notifications (pg_view p') ≡ₚ notifications (pg_view p)
       | Err e => foreign e = true /\ h = None
       end) (res, p).
Proof.
  intros Hp Hs Hr Ha. unfold insertTransferRecord.
  apply wp_bind, wp_in_tx. intros r p' E.
  destruct (one_bounded _ _ _ _ _ _ Hp E) as [Ho Hp'].
  assert (forall env T0, pg_view p ≡ T0 ->
    one_run pg_ilike (InsertTransfer sid rid amount) env T0 =
      Ok (nth_id (env_transfer_ids env) 0, with_transfers T0 (transfers T0 ++
            [MkTransfer (nth_id (env_transfer_ids env) 0) sid rid amount (env_now env)]))) as Hrun.
  { intros env T0 (Eu & _ & _). unfold user_ids in Hs, Hr. rewrite Eu in Hs, Hr.
    unfold one_run. cbn [stmt_run].
    replace (transfer_row_ok _) with true by (unfold transfer_row_ok; simpl; lia). simpl.
    by rewrite bool_decide_eq_true_2. }
  destruct r as [tid|e]; apply wp_ret; (split; [done|]; split; [done|]).
  - apply bounded_ok in Ho as (env & T0 & T1 & E0 & He & Er & E1).
    rewrite (Hrun _ _ E0) in Er. injection Er as <- <-.
    destruct E0 as (Eu & Et & En), E1 as (Eu1 & Et1 & En1). simpl in *.
    exists (env_now env). rewrite <- Eu1, <- Et1, <- En1, Eu, Et, En.
    split; [by apply transfer_id_fresh|]. split_and!; try done.
    by rewrite Permutation_app_comm.
  - apply bounded_err in Ho as [Hf [(env & T0 & f & E0 & _ & Er & _)|[Hh _]]]; [|by auto].
    by rewrite (Hrun _ _ E0) in Er.
Qed.

(** The notification texts fit VARCHAR(255). *)
Lemma message_fits amount prefix mid name :
  0 < amount <= int64_max -> all_bytes is_ascii prefix = true ->
  all_bytes is_ascii mid = true -> (String.length prefix + String.length mid <= 100)%nat ->
  char_len name <= 50 ->
  char_len (prefix +:+ Itoa amount +:+ mid +:+ name) <= 255.
Proof.
  intros Ha Hp Hm Hl Hn. unfold char_len in *.
  rewrite runes_length_ascii, runes_length_ascii, runes_length_ascii by (done || apply Itoa_ascii).
  pose proof (Itoa_length amount ltac:(lia)). lia.
Qed.

Lemma insertNotifications_spec sender receiver amount k h res p :
  within (plus (S k) h) p ->
  u_id sender ∈ user_ids (pg_view p) -> u_id receiver ∈ user_ids (pg_view p) ->
  char_len (u_username sender) <= 50 -> char_len (u_username receiver) <= 50 ->
  0 < amount <= int64_max ->
  wp (insertNotifications alone sender receiver amount)
    (fun r '(res', p') =>
       res' = res /\ within (plus k h) p' /\
       match r with
       | None => exists n1 n2 now,
           users (pg_view p') ≡ₚ users (pg_view p) /\
           transfers (pg_view p') ≡ₚ transfers (pg_view p) /\
           notifications (pg_view p') ≡ₚ
             MkNotification n1 (u_id sender) (sender_msg receiver amount) false now ::
             MkNotification n2 (u_id receiver) (receiver_msg sender amount) false now ::
             notifications (pg_view p)
       | Some e => foreign e = true /\ h = None
       end) (res, p).
Proof.
  intros Hp Hs Hr Hns Hnr Ha. unfold insertNotifications.
  apply wp_bind, wp_in_tx. intros r p' E.
  destruct (exec_bounded _ _ _ _ _ _ Hp E) as [Ho Hp'].
  set (ns env := [MkNotification (nth_id (env_notification_ids env) 0) (u_id sender)
                    (sender_msg receiver amount) false (env_now env);
                  MkNotification (nth_id (env_notification_ids env) 1) (u_id receiver)
                    (receiver_msg sender amount) false (env_now env)]).
  assert (forall env T0, pg_view p ≡ T0 -> env_ok env T0 ->
    exec_run pg_ilike (InsertNotifications
        [(u_id sender, sender_msg receiver amount);
         (u_id receiver, receiver_msg sender amount)]) env T0 =
      Ok (2, with_notifications T0 (notifications T0 ++ ns env))) as Hrun.
  { intros env T0 (Eu & _ & _) (_ & _ & _ & _ & Hl). unfold user_ids in Hs, Hr. rewrite Eu in Hs, Hr.
    destruct env as [us ts [|i1 [|i2 ids]] now]; simpl in Hl; try lia.
    assert (number_notifications ids now [] = []) as Enil by by destruct ids.
    unfold exec_run. cbn [cmd_run number_notifications env_notification_ids env_now]. rewrite Enil.
    replace (length _ <? length _)%nat with false by (symmetry; apply Nat.ltb_ge; simpl; lia).
    replace (forallb notification_row_ok _) with true.
    2: { symmetry. cbn [forallb]. unfold notification_row_ok. cbn [n_message].
         rewrite !andb_true_iff, !Z.leb_le.
         unfold sender_msg, receiver_msg.
         split_and!; try done; (apply message_fits; [done..|simpl; lia|done]). }
    cbn [negb forallb fst]. unfold user_ids. by rewrite !bool_decide_eq_true_2. }
  destruct r as [n|e]; apply wp_ret; (split; [done|]; split; [done|]).
  - apply bounded_ok in Ho as (env & T0 & T1 & E0 & He & Er & E1).
    rewrite (Hrun _ _ E0 He) in Er. injection Er as <- <-.
    destruct E0 as (Eu & Et & En), E1 as (Eu1 & Et1 & En1). simpl in *.
    exists (nth_id (env_notification_ids env) 0), (nth_id (env_notification_ids env) 1), (env_now env).
    rewrite <- Eu1, <- Et1, <- En1, Eu, Et, En. split_and!; try done.
    by rewrite Permutation_app_comm.
  - apply bounded_err in Ho as [Hf [(env & T0 & f & E0 & He & Er & _)|[Hh _]]]; [|by auto].
    by rewrite (Hrun _ _ E0 He) in Er.
Qed.

(** One run of the callback on tables that satisfy the constraints. *)
Lemma transfer_tx_spec senderID pl h res p :
  schema_ok (pg_view p) -> 0 < p_Amount pl -> within (plus 5 h) p ->
  wp (transfer_tx alone senderID pl)
    (fun r '(res', p') =>
       match r with
       | None => transferred senderID pl (pg_view p) res' (pg_view p')
       | Some e => refused senderID pl (pg_view p) e \/ (h = None /\ foreign e = true)
       end) (res, p).
Proof.
  intros Hok Ha Hp. unfold transfer_tx.
  apply wp_bind. eapply wp_mono; [by apply (resolveReceiver_spec pl 4 h)|].
  intros r [res1 p1] (-> & Hp1 & E1 & Hr).
  destruct r as [rid|e]; [|apply wp_ret; destruct Hr as [[-> Hn]|Hf]; [|by auto];
    left; by apply refused_not_found].
  destruct Hr as (rec & Hrec & Hid & Erid).
  destruct (senderID =? rid) eqn:Eself.
  { apply wp_ret. left. apply (refused_self _ _ _ rec); auto; lia. }
  apply wp_bind, wp_assign. rewrite E1 in Hok.
  assert (rec ∈ users (pg_view p1)) as Hrec1 by by rewrite <- E1.
  apply wp_bind. eapply wp_mono;
    [apply (lockBothUsers_spec senderID rid rec 3 h); (done || lia)|].
  intros r [res2 p2] (-> & Hp2 & E2 & Hr).
  destruct r as [[s r]|e]; [|apply wp_ret; destruct Hr as [Hf|[[n ->] Hn]]; [by auto|];
    left; apply refused_no_sender; intros u Hu; apply Hn; by rewrite <- E1].
  destruct Hr as (Hs & Es & Hr & Er).
  assert (r = rec) as -> by (apply (user_by_id _ _ _ Hok Hr Hrec1); congruence).
  assert (s ∈ users (pg_view p)) as Hs0 by by rewrite E1.
  destruct (u_balance s <? p_Amount pl) eqn:Ebal.
  { apply wp_ret. left. apply (refused_insufficient _ _ _ s rec); auto; lia. }
  rewrite E2 in Hok, Hs, Hrec1.
  apply wp_bind. eapply wp_mono; [apply (updateBalances_spec s rec (p_Amount pl) 2 h);
    (done || lia)|].
  intros r [res3 p3] (-> & Hp3 & Hr3).
  destruct r as [e|]; [apply wp_ret; destruct Hr3 as [Hf|(e0 & -> & Hf & Hc & Hn)];
    [by auto|]; left; by apply (refused_overflow _ _ _ _ rec)|].
  destruct Hr3 as (Eu3 & Et3 & En3 & Hmax).
  pose proof (ok_user_rows _ Hok) as Hrows. rewrite Forall_forall in Hrows.
  pose proof (Hrows _ Hs) as Hsrow. pose proof (Hrows _ Hrec1) as Hrrow.
  unfold user_row_ok in Hsrow, Hrrow. bool_hyps.
  assert (forall u, u ∈ users (pg_view p2) -> u_id u ∈ user_ids (pg_view p3)) as Hids.
  { intros u Hu. unfold user_ids. rewrite Eu3, map_map.
    apply list_elem_of_fmap. exists u. split; [|done]. unfold move. by repeat case_match. }
  apply wp_bind. eapply wp_mono;
    [apply (insertTransferRecord_spec (u_id s) (u_id rec) (p_Amount pl) 1 h);
     (done || auto || lia)|].
  intros r [res4 p4] (-> & Hp4 & Hr4).
  destruct r as [tid|e]; [|apply wp_ret; destruct Hr4; by auto].
  destruct Hr4 as (now1 & Hfresh & Eu4 & Et4 & En4).
  assert (user_ids (pg_view p4) ≡ₚ user_ids (pg_view p3)) as Eids
    by (unfold user_ids; by rewrite Eu4).
  apply wp_bind, wp_assign. eapply wp_mono;
    [apply (insertNotifications_spec s rec (p_Amount pl) 0 h);
     rewrite ?Eids; (done || auto || lia)|].
  intros r [res5 p5] (-> & Hp5 & Hr5).
  destruct r as [e|]; [by destruct Hr5; auto|].
  destruct Hr5 as (n1 & n2 & now2 & Eu5 & Et5 & En5).
  rewrite !wrap64_id by (unfold in_int64, int64_min, int64_max in *; lia).
  simpl. rewrite <- Es, <- Er in *.
  pose proof (transitivity E1 E2) as (Eu & Et & En).
  eapply (transferred_intro _ _ _ s rec tid n1 n2 now1 now2); try done; try lia.
  - rewrite Et, <- Et3. done.
  - by rewrite Eu5, Eu4, Eu3, Eu.
  - by rewrite Et5, Et4, Et3, Et.
  - by rewrite En5, En4, En3, En.
Qed.
End Statements.

(** ** Properties of the specification *)

Lemma transferred_equiv senderID pl T1 T2 res T1' T2' :
  T1 ≡ T2 -> T1' ≡ T2' -> transferred senderID pl T1 res T1' ->
  transferred senderID pl T2 res T2'.
Proof.
  intros (Eu & Et & En) (Eu' & Et' & En') Ht.
  destruct Ht as [s r tid n1 n2 now1 now2 T' Hs Hr Es Hne Hid Ha Hmax Hf Hu' Ht' Hn'].
  rewrite Eu in Hs, Hr. rewrite Et in Hf.
  apply (transferred_intro _ _ _ s r tid n1 n2 now1 now2); try done.
  - by rewrite <- Eu', <- Eu.
  - by rewrite <- Et', <- Et.
  - by rewrite <- En', <- En.
Qed.

Lemma refused_equiv senderID pl T1 T2 e :
  T1 ≡ T2 -> refused senderID pl T1 e -> refused senderID pl T2 e.
Proof.
  intros (Eu & _ & _) Hr.
  destruct Hr as [Hn|u Hu Hi Hs|s r Hs Hr Es Hne Hi Hb|n Hn|e r Hf Hc Hr Hi Hb].
  - apply refused_not_found. intros u Hu. apply Hn. by rewrite Eu.
  - apply (refused_self _ _ _ u); by rewrite <- ?Eu.
  - apply (refused_insufficient _ _ _ s r); by rewrite <- ?Eu.
  - apply refused_no_sender. intros u Hu. apply Hn. by rewrite Eu.
  - apply (refused_overflow _ _ _ _ r); by rewrite <- ?Eu.
Qed.

Lemma refused_foreign_or_app senderID pl T e :
  refused senderID pl T e -> foreign e = true \/ exists s, e = EApp s.
Proof. intros []; eauto. Qed.

Lemma refused_not_retried senderID pl T e :
  refused senderID pl T e -> IsSerializationFailure e = false.
Proof.
  intros [| | | |e0 r Hf Hc _ _ _]; try done.
  unfold IsSerializationFailure, pgErrCode in *. simpl. by rewrite Hc.
Qed.

(** The sum of a function that is [c] at one key and 0 elsewhere. *)
Lemma sumZ_indicator {A} (f : A -> Z) l k c :
  NoDup (map f l) -> k ∈ map f l -> sumZ (map (fun x => if f x =? k then c else 0) l) = c.
Proof.
  induction l as [|x l IH]; [set_solver|]. cbn [map].
  intros [Hx Hn]%NoDup_cons Hk. unfold sumZ in *. cbn [foldr].
  destruct (f x =? k) eqn:E.
  - assert (f x = k) as <- by lia.
    assert (foldr Z.add 0 (map (fun y => if f y =? f x then c else 0) l) = 0) as ->; [|lia].
    clear IH Hk Hn E. induction l as [|y l IH]; [done|]. cbn [map foldr].
    cbn [map] in Hx. rewrite not_elem_of_cons in Hx. destruct Hx as [Hy Hx].
    replace (f y =? f x) with false by lia. by rewrite IH.
  - apply elem_of_cons in Hk as [Hk|Hk]; [lia|]. rewrite IH by done. lia.
Qed.

Lemma move_total us s r amount :
  NoDup (map u_id us) -> s ∈ map u_id us -> r ∈ map u_id us -> s <> r ->
  sumZ (map u_balance (map (move s r amount) us)) = sumZ (map u_balance us).
Proof.
  intros Hn Hs Hr Hne. rewrite map_map.
  rewrite (sumZ_map_ext _ (fun u => (u_balance u + (if u_id u =? s then - amount else 0))
                                    + (if u_id u =? r then amount else 0))).
  - rewrite !sumZ_map_add, (sumZ_indicator u_id us s), (sumZ_indicator u_id us r) by done. lia.
  - intros u _. unfold move. destruct (u_id u =? s) eqn:E1, (u_id u =? r) eqn:E2; simpl; lia.
Qed.

Lemma transferred_total senderID pl T res T' :
  schema_ok T -> transferred senderID pl T res T' -> total_balance T' = total_balance T.
Proof.
  intros Hok [s r tid n1 n2 now1 now2 T2 Hs Hr Es Hne _ _ _ _ Hu _ _].
  unfold total_balance. rewrite Hu. apply move_total; [apply Hok|..|done].
  - rewrite <- Es. by apply list_elem_of_fmap_2.
  - by apply list_elem_of_fmap_2.
Qed.

(** Nobody but the two parties is touched. *)
Lemma transferred_others senderID pl T res T' u :
  transferred senderID pl T res T' -> u ∈ users T ->
  u_id u <> r_senderID res -> u_id u <> r_receiverID res -> u ∈ users T'.
Proof.
  intros [s r tid n1 n2 now1 now2 T2 Hs Hr Es Hne _ _ _ _ Hu _ _] Hin Hns Hnr. simpl in *.
  rewrite Hu. apply list_elem_of_fmap. exists u. split; [|done]. unfold move.
  replace (u_id u =? senderID) with false by lia.
  by replace (u_id u =? u_id r) with false by lia.
Qed.

(** ** The handler *)

(** An error that reaches the handler through [SerializableTx] shows a
    sentinel of this file only for the reason it stands for. *)
Lemma stx_error_app {P} `{PgLaws P} senderID pl T e s :
  schema_ok T -> 0 < p_Amount pl ->
  stx_error (P:=P) (transfer_tx alone senderID pl) T e -> errors_Is e (EApp s) = true ->
  refused senderID pl T (EApp s).
Proof.
  intros Hok Ha He. revert Hok.
  induction He as [s0 p0 e er s' p1 E0 Ef Her|e Hf|e Hs He IH|c]; intros Hok Hs'.
  - rewrite E0 in Hok.
    pose proof (transfer_tx_spec senderID pl None s0 p0 Hok Ha I) as Hw.
    unfold wp in Hw. rewrite Ef in Hw.
    assert (errors_Is e (EApp s) = true) as He.
    { destruct Her as [->|(e2 & Hf2 & ->)]; [done|]. simpl in Hs'.
      by rewrite (foreign_not_app e2), orb_false_r in Hs'. }
    destruct Hw as [Hr|[_ Hf]]; [|by rewrite foreign_not_app in He].
    destruct (refused_foreign_or_app _ _ _ _ Hr) as [Hf|[s1 ->]];
      [by rewrite foreign_not_app in He|].
    simpl in He. rewrite orb_false_r, bool_decide_eq_true in He. rewrite <- He.
    eapply refused_equiv; [symmetry; exact E0|done].
  - by rewrite foreign_not_app in Hs' by by apply server_fault_foreign.
  - simpl in Hs'. auto.
  - by destruct c.
Qed.

Section Handler.
Context {P R J : Type} `{PgLaws P} `{RedisServer R}.
Abbreviation W := (World P R J).

(** What a transaction run leaves: the transfer, or nothing and an error,
    or the transfer and an error without an SQLSTATE. *)
Lemma runTransferTx_spec senderID pl (w : W) :
  schema_ok (tables_of w) -> 0 < p_Amount pl ->
  wp (runTransferTx senderID pl)
    (fun '(r, res) w' => db_only w w' /\
       match r with
       | None => transferred senderID pl (tables_of w) res (tables_of w')
       | Some e =>
           (tables_of w ≡ tables_of w' /\
            forall s, errors_Is e (EApp s) = true -> refused senderID pl (tables_of w) (EApp s))
           \/ (reply_lost e = true /\
               exists res', transferred senderID pl (tables_of w) res' (tables_of w'))
       end) w.
Proof.
  intros Hok Ha. unfold runTransferTx, tables_of in *.
  eapply wp_mono; [apply SerializableTx_outcome|]. intros [r res] w' [Ho Hdb].
  split; [done|].
  assert (forall s0 p0 s1 p1 p2, pg_view (w_pg w) ≡ pg_view p0 ->
            transfer_tx alone senderID pl (s0, p0) = (None, (s1, p1)) -> pg_view p1 ≡ pg_view p2 ->
            transferred senderID pl (pg_view (w_pg w)) s1 (pg_view p2)) as Hdone.
  { intros s0 p0 s1 p1 p2 E0 Ef E1.
    pose proof (transfer_tx_spec senderID pl None s0 p0 ltac:(by rewrite <- E0) Ha I) as Hw.
    unfold wp in Hw. rewrite Ef in Hw.
    eapply transferred_equiv; [symmetry; exact E0|exact E1|done]. }
  inversion Ho; subst; [by eauto| |by right; eauto].
  left. split; [done|]. intros s Hs. by eapply stx_error_app.
Qed.

(** The publisher of the durable event works on JetStream only. *)
Definition js_only (w w' : W) : Prop := w_pg w' = w_pg w /\ w_rd w' = w_rd w.

Definition publisher_ok (publishEvent : option (TransferCompleted -> M W (option goerr))) : Prop :=
  forall f evt, publishEvent = Some f -> keeps js_only (f evt).

(** The request that the handler accepts for execution. *)
Definition accepts (raw : option json) : option transferPayload :=
  match unmarshal_raw decode_transferPayload raw with
  | Err _ => None
  | Ok p0 =>
      let p := trim_payload p0 in
      if bool_decide (p_AccountNumber p = "") && bool_decide (p_Phone p = "") &&
         bool_decide (p_Username p = "") then None
      else if p_Amount p <=? 0 then None else Some p
  end.

Definition event_of (p : transferPayload) (res : transferResult) : TransferCompleted :=
  MkTransferCompleted (r_transferID res) (p_Amount p) (r_senderID res) (r_senderBalance res)
    (r_receiverID res) (r_receiverBalance res).

Definition receipt (p : transferPayload) (res : transferResult) : json :=
  JMap [("transfer_id", JInt (r_transferID res)); ("amount", JInt (p_Amount p))].

(** What the caller sees, and what the databases hold then. *)
Inductive transfer_answer (publishEvent : option (TransferCompleted -> M W (option goerr)))
    (senderID : Z) (raw : option json) (w w' : W)
  : result goany goerr -> Prop :=
| ta_invalid msg :
    accepts raw = None -> w' = w ->
    transfer_answer publishEvent senderID raw w w' (Ok (Reply 400 (detail msg)))
| ta_done p res :
    accepts raw = Some p ->
    transferred senderID p (tables_of w) res (tables_of w') ->
    w_rd w' = (redis_pipe (transfer_completed_batch (event_of p res)
                 (r_senderPhone res) (r_receiverPhone res)) (w_rd w)).2 ->
    match publishEvent with
    | Some publish => exists w1, w_js w1 = w_js w /\ w' = (publish (event_of p res) w1).2
    | None => w_js w' = w_js w
    end ->
    transfer_answer publishEvent senderID raw w w' (Ok (Reply 200 (receipt p res)))
| ta_refused p e status msg :
    accepts raw = Some p -> refused senderID p (tables_of w) e ->
    (e, status, msg) ∈
      [(errInsufficientFunds, 400, "Insufficient funds");
       (errReceiverNotFound, 404, "Receiver not found");
       (errSelfTransfer, 400, "Cannot transfer to yourself")] ->
    tables_of w ≡ tables_of w' -> db_only w w' ->
    transfer_answer publishEvent senderID raw w w' (Ok (Reply status (detail msg)))
| ta_contention p msg :
    accepts raw = Some p -> tables_of w ≡ tables_of w' -> db_only w w' ->
    transfer_answer publishEvent senderID raw w w' (Ok (Reply 503 (detail msg)))
| ta_failed p e :
    accepts raw = Some p -> tables_of w ≡ tables_of w' -> db_only w w' ->
    transfer_answer publishEvent senderID raw w w' (Err (EWrap "transfer tx" e))
| ta_unknown p e res :
    accepts raw = Some p -> reply_lost e = true ->
    transferred senderID p (tables_of w) res (tables_of w') -> db_only w w' ->
    transfer_answer publishEvent senderID raw w w' (Err (EWrap "transfer tx" e)).

Lemma handleTransfer_answer publishEvent ctx action raw headers (w : W) :
  schema_ok (tables_of w) -> publisher_ok publishEvent ->
  wp (handleTransfer publishEvent ctx action raw headers)
    (fun r w' => transfer_answer publishEvent (UserIDFromContext ctx).1 raw w w' r) w.
Proof.
  intros Hok Hpub. unfold handleTransfer.
  destruct (UserIDFromContext ctx) as [senderID b]. cbn [fst].
  destruct (unmarshal_raw decode_transferPayload raw) as [p0|err] eqn:Eraw.
  2: { apply wp_ret, ta_invalid; [|done]. unfold accepts. by rewrite Eraw. }
  remember (trim_payload p0) as p eqn:Ep.
  assert (accepts raw = if bool_decide (p_AccountNumber p = "") && bool_decide (p_Phone p = "")
            && bool_decide (p_Username p = "") then None
            else if p_Amount p <=? 0 then None else Some p) as Hacc
    by (unfold accepts; by rewrite Eraw, Ep).
  destruct (_ && _ && _) eqn:Eid; [by apply wp_ret, ta_invalid|].
  destruct (p_Amount p <=? 0) eqn:Eamt; [by apply wp_ret, ta_invalid|].
  apply wp_bind. eapply wp_mono; [apply (runTransferTx_spec senderID p); [done|lia]|].
  intros [txErr res] w1 [Hdb Hr].
  destruct txErr as [err|].
  - assert (forall s, errors_Is err (EApp s) = true ->
              tables_of w ≡ tables_of w1 /\ refused senderID p (tables_of w) (EApp s)) as Happ.
    { intros s Hs. destruct Hr as [[Hsame Happ]|[Hl _]]; [by auto|].
      by rewrite foreign_not_app in Hs by by apply reply_lost_foreign. }
    destruct (errors_Is err errInsufficientFunds) eqn:E1;
      [destruct (Happ _ E1); apply wp_ret; eapply ta_refused; eauto; set_solver|].
    destruct (errors_Is err errReceiverNotFound) eqn:E2;
      [destruct (Happ _ E2); apply wp_ret; eapply ta_refused; eauto; set_solver|].
    destruct (errors_Is err errSelfTransfer) eqn:E3;
      [destruct (Happ _ E3); apply wp_ret; eapply ta_refused; eauto; set_solver|].
    destruct (IsSerializationFailure err) eqn:E4; apply wp_ret.
    + destruct Hr as [[Hsame _]|[Hl _]]; [by eapply ta_contention|].
      apply reply_lost_code in Hl as [? _]. congruence.
    + destruct Hr as [[Hsame _]|[Hl [res' Ht]]]; [by eapply ta_failed|by eapply ta_unknown].
  - apply wp_bind. unfold PublishTransferCompleted, rpipe. apply wp_on_rd. intros r1 rd1 Erd.
    apply wp_bind. destruct Hdb as (Erd0 & Ejs0 & _).
    assert (forall w2, js_only (set_rd w1 rd1) w2 ->
              match publishEvent with
              | Some publish => exists w1, w_js w1 = w_js w /\ w2 = (publish (event_of p res) w1).2
              | None => w_js w2 = w_js w
              end ->
              transfer_answer publishEvent senderID raw w w2 (Ok (Reply 200 (receipt p res)))) as Hfin.
    { intros w2 [Hpg Hrd] Hjs. eapply ta_done; [done|..|done].
      - unfold tables_of in *. by rewrite Hpg.
      - rewrite Hrd. simpl. unfold event_of. rewrite <- Erd0. by rewrite Erd. }
    destruct publishEvent as [f|].
    + pose proof (Hpub f (event_of p res) eq_refl (set_rd w1 rd1)) as Hw2. unfold event_of in *.
      unfold wp. destruct (f _ (set_rd w1 rd1)) as [r2 w2] eqn:Ef.
      apply Hfin; [done|]. exists (set_rd w1 rd1). split; [done|]. by rewrite Ef.
    + by apply wp_ret, wp_ret, Hfin.
Qed.
End Handler.

Section Healthy.
Context {P R J : Type} `{PgLaws P} `{RedisServer R}.
Abbreviation W := (World P R J).

Lemma runTransferTx_healthy senderID pl (w : W) :
  schema_ok (tables_of w) -> 0 < p_Amount pl -> pg_healthy 6 (w_pg w) ->
  wp (runTransferTx senderID pl)
    (fun '(r, res) w' => db_only w w' /\
       match r with
       | None => transferred senderID pl (tables_of w) res (tables_of w')
       | Some e => tables_of w ≡ tables_of w' /\ refused senderID pl (tables_of w) e
       end) w.
Proof.
  intros Hok Ha Hh. unfold runTransferTx, tables_of in *.
  destruct (SerializableTx_healthy (transfer_code senderID pl) 5 transferResult_zero w Hh)
    as (p0 & Hp0 & E0 & Hrun).
  pose proof (transfer_tx_spec senderID pl (Some 0%nat) transferResult_zero p0
    ltac:(by rewrite <- E0) Ha Hp0) as Hw.
  change (transfer_code senderID pl P alone) with (transfer_tx alone senderID pl) in Hrun.
  unfold wp in Hw. destruct (transfer_tx alone senderID pl (transferResult_zero, p0)) as [r [res p1]].
  destruct r as [e|].
  - destruct Hw as [Hr|[? _]]; [|done].
    destruct (Hrun (refused_not_retried _ _ _ _ Hr)) as (p' & E & E1).
    unfold wp. rewrite E. split; [done|]. split; [done|].
    eapply refused_equiv; [symmetry; exact E0|done].
  - destruct Hrun as (p' & E & E1). unfold wp. rewrite E. split; [done|].
    eapply transferred_equiv; [symmetry; exact E0|exact E1|done].
Qed.

(** The answer for a refusal. *)
Definition refusal (e : goerr) : result goany goerr :=
  if errors_Is e errInsufficientFunds then Ok (Reply 400 (detail "Insufficient funds"))
  else if errors_Is e errReceiverNotFound then Ok (Reply 404 (detail "Receiver not found"))
  else if errors_Is e errSelfTransfer then Ok (Reply 400 (detail "Cannot transfer to yourself"))
  else Err (EWrap "transfer tx" e).

Lemma handleTransfer_decides publishEvent ctx action raw headers p (w : W) :
  schema_ok (tables_of w) -> publisher_ok publishEvent -> pg_healthy 6 (w_pg w) ->
  accepts raw = Some p ->
  wp (handleTransfer publishEvent ctx action raw headers)
    (fun r w' =>
       (exists res, r = Ok (Reply 200 (receipt p res)) /\
          transferred (UserIDFromContext ctx).1 p (tables_of w) res (tables_of w'))
       \/ (exists e, r = refusal e /\ tables_of w ≡ tables_of w' /\
             refused (UserIDFromContext ctx).1 p (tables_of w) e)) w.
Proof.
  intros Hok Hpub Hh Hacc. unfold handleTransfer.
  destruct (UserIDFromContext ctx) as [senderID b]. cbn [fst].
  unfold accepts in Hacc.
  destruct (unmarshal_raw decode_transferPayload raw) as [p0|err]; [|done].
  remember (trim_payload p0) as q eqn:Eq. cbn zeta in Hacc |- *.
  destruct (_ && _ && _); [done|].
  destruct (p_Amount q <=? 0) eqn:Eamt; [done|]. injection Hacc as ->.
  apply wp_bind. eapply wp_mono; [apply (runTransferTx_healthy senderID p); (done || lia)|].
  intros [[e|] res] w1 [Hdb Hr].
  - destruct Hr as [Hsame Hr]. pose proof (refused_not_retried _ _ _ _ Hr) as Hs.
    cbn beta iota. rewrite Hs.
    assert (forall r, r = refusal e ->
      (exists res, r = Ok (Reply 200 (receipt p res)) /\
          transferred senderID p (tables_of w) res (tables_of w1)) \/
      (exists e, r = refusal e /\ tables_of w ≡ tables_of w1 /\
             refused senderID p (tables_of w) e)) as Hgoal by (intros r ->; right; eauto).
    unfold refusal in Hgoal. repeat case_match; by apply wp_ret, Hgoal.
  - apply wp_bind. unfold PublishTransferCompleted, rpipe. apply wp_on_rd. intros r1 rd1 Erd.
    apply wp_bind. destruct publishEvent as [f|].
    + eapply wp_mono; [apply keeps_wp, (Hpub f _ eq_refl)|]. intros r2 w2 [Hpg _].
      apply wp_ret. left. exists res. unfold tables_of in *. rewrite Hpg. done.
    + apply wp_ret, wp_ret. left. exists res. done.
Qed.

(** The two outcomes exclude each other when the identifier names one
    user. *)
Lemma refused_excluded senderID p T e sender receiver :
  schema_ok T -> 0 < p_Amount p -> sender ∈ users T -> u_id sender = senderID ->
  receiver ∈ users T -> u_id receiver <> senderID -> identifies p receiver = true ->
  (forall u, u ∈ users T -> identifies p u = true -> u = receiver) ->
  p_Amount p <= u_balance sender -> u_balance receiver + p_Amount p <= int64_max ->
  ~ refused senderID p T e.
Proof.
  intros Hok Ha Hs Es Hr Hne Hid Huniq Hb Hmax Href.
  destruct Href as [Hn|u Hu Hi Hsu|s r Hs' Hr' Es' Hne' Hi Hb'|n Hn|e r Hf Hc Hr' Hi Hmax'].
  - by rewrite (Hn receiver Hr) in Hid.
  - rewrite (Huniq u Hu Hi) in Hsu. done.
  - rewrite (user_by_id T s sender Hok Hs' Hs) in Hb' by congruence. lia.
  - by apply (Hn sender).
  - rewrite (Huniq r Hr' Hi) in Hmax'. lia.
Qed.
End Healthy.

(** ** Constraints across the handler *)

Section Schema.
Context {P R J : Type} `{PgLaws P} `{RedisServer R}.
Abbreviation W := (World P R J).
Abbreviation TX := (transferResult * P)%type.

Definition tx_tables (Q : Tables -> Tables -> Prop) (s s' : TX) : Prop :=
  Q (pg_view s.2) (pg_view s'.2).

#[local] Instance tx_tables_preorder Q `{!TableRel Q} : PreOrder (tx_tables Q).
Proof.
  split; unfold tx_tables; [by intros s|].
  intros s1 s2 s3 H1' H2'. by etransitivity.
Qed.

Lemma keeps_in_tx {A} Q (f : P -> A * P) :
  (forall p, Q (pg_view p) (pg_view (f p).2)) -> keeps (tx_tables Q) (in_tx f).
Proof. intros Hf [res p]. unfold in_tx, tx_tables. specialize (Hf p). by destruct (f p). Qed.

Lemma keeps_assign Q `{!TableRel Q} f : keeps (tx_tables Q) (assign f).
Proof. intros [res p]. unfold tx_tables. simpl. reflexivity. Qed.

Lemma one_schema {A} (s : Stmt A) p : schema_kept (pg_view p) (pg_view (pg_one s p).2).
Proof.
  destruct (pg_one s p) as [r p'] eqn:E. apply pg_one_law in E.
  eapply (outcome_rel schema_kept); [apply one_respects_schema|exact E].
Qed.

Lemma all_schema {A} (s : Stmt A) p : schema_kept (pg_view p) (pg_view (pg_all s p).2).
Proof.
  destruct (pg_all s p) as [r p'] eqn:E. apply pg_all_law in E.
  eapply (outcome_rel schema_kept); [apply all_respects_schema|exact E].
Qed.

Lemma exec_schema c p : schema_kept (pg_view p) (pg_view (pg_exec c p).2).
Proof.
  destruct (pg_exec c p) as [r p'] eqn:E. apply pg_exec_law in E.
  eapply (outcome_rel schema_kept); [apply exec_respects_schema|exact E].
Qed.

Lemma transfer_tx_schema senderID pl : keeps (tx_tables schema_kept) (transfer_tx alone senderID pl).
Proof.
  unfold transfer_tx, resolveReceiver, lockBothUsers, updateBalances, insertTransferRecord,
    insertNotifications.
  repeat first
    [ apply keeps_in_tx; first [apply one_schema|apply all_schema|apply exec_schema]
    | apply keeps_assign; apply _ | apply keeps_ret; apply _
    | apply keeps_bind; [apply _| |intros ?] | progress cbn beta | case_match ].
Qed.

Lemma keeps_js_only_tables Q `{!TableRel Q} {A} (m : M W A) :
  keeps js_only m -> keeps (on_tables Q) m.
Proof.
  intros Hm w. destruct (Hm w) as [E _]. unfold on_tables, tables_of. rewrite E. reflexivity.
Qed.

Lemma handleTransfer_schema publishEvent ctx action raw headers :
  publisher_ok publishEvent ->
  keeps (on_tables schema_kept) (handleTransfer (P:=P) (R:=R) (J:=J) publishEvent ctx action raw headers).
Proof.
  intros Hpub. unfold handleTransfer, runTransferTx, PublishTransferCompleted, rpipe.
  repeat first
    [ apply keeps_SerializableTx; [apply _|]; intros s0 p0; apply (transfer_tx_schema _ _ (s0, p0))
    | apply keeps_on_rd; apply _ | apply keeps_ret; apply _
    | apply keeps_js_only_tables; [apply _|]; by eapply Hpub
    | apply keeps_bind; [apply _| |intros ?] | progress cbn zeta | case_match ].
Qed.
End Schema.

(** ** What the result of a transfer says of the committed rows *)

Lemma accepts_amount raw p : accepts raw = Some p -> 0 < p_Amount p.
Proof. unfold accepts. intros Hacc. repeat case_match; simplify_eq. lia. Qed.

Lemma transferred_range senderID p T res T' :
  schema_ok T -> transferred senderID p T res T' -> 0 < p_Amount p ->
  in_int64 (r_transferID res) /\ in_int64 (p_Amount p) /\ in_int64 (r_senderID res) /\
  in_int64 (r_senderBalance res) /\ in_int64 (r_receiverID res) /\ in_int64 (r_receiverBalance res).
Proof.
  intros Hok [s r0 tid n1 n2 now1 now2 T2 Hss Hrr <- _ _ Hb Hmax [Htid _] _ _ _] Ha. simpl.
  pose proof (ok_user_rows _ Hok) as Hrows. rewrite Forall_forall in Hrows.
  pose proof (Hrows _ Hss) as Hs. pose proof (Hrows _ Hrr) as Hr. unfold user_row_ok in Hs, Hr.
  bool_hyps. unfold in_int64, int64_min, int64_max in *. lia.
Qed.

Lemma transferred_parties senderID p T res T' :
  schema_ok T -> transferred senderID p T res T' ->
  r_senderID res = senderID /\ r_receiverID res <> r_senderID res /\
  (forall u, u ∈ users T' -> u_id u = r_senderID res ->
     u_balance u = r_senderBalance res /\ u_phone u = r_senderPhone res) /\
  (forall u, u ∈ users T' -> u_id u = r_receiverID res ->
     u_balance u = r_receiverBalance res /\ u_phone u = r_receiverPhone res).
Proof.
  intros Hok [s r0 tid n1 n2 now1 now2 T2 Hss Hrr Es Hne _ _ _ _ Hus _ _]. simpl.
  split; [done|]. split; [done|].
  assert (forall u, u ∈ users T2 -> exists u0, u0 ∈ users T /\ u_id u0 = u_id u /\
            u = move senderID (u_id r0) (p_Amount p) u0) as Hrow.
  { intros u Hu. rewrite Hus in Hu. apply list_elem_of_fmap in Hu as (u0 & -> & Hu0).
    exists u0. split; [done|]. split; [|done]. unfold move. by repeat case_match. }
  split; intros u Hu Hid; destruct (Hrow u Hu) as (u0 & Hu0 & Eid & ->); unfold move in *.
  - assert (u0 = s) as -> by (apply (user_by_id _ _ _ Hok Hu0 Hss); congruence).
    by replace (u_id s =? senderID) with true by lia.
  - assert (u0 = r0) as -> by (apply (user_by_id _ _ _ Hok Hu0 Hrr); congruence).
    replace (u_id r0 =? senderID) with false by lia. by rewrite Z.eqb_refl.
Qed.
