(* ===== verification/RedisFacts.v ===== *)
(** * Facts on the Redis commands of the services *)

From S2P Require Import Prelude GoStrings Json JsonFacts Tables Sql Servers Db PgFacts TxFacts.
From S2P Require Import RedisClient Consumer.

(** ** Keys *)

Lemma hash_get_set s h f v h' f' :
  hash_get (with_hash s (<[h := <[f := v]> (default ∅ (rs_hash s !! h))]> (rs_hash s))) h' f' =
    if bool_decide (h = h' /\ f = f') then Some v else hash_get s h' f'.
Proof.
  unfold hash_get. simpl. destruct (decide (h = h')) as [->|Hh].
  - rewrite lookup_insert_eq. destruct (decide (f = f')) as [->|Hf].
    + by rewrite lookup_insert_eq, bool_decide_eq_true_2.
    + rewrite lookup_insert_ne, bool_decide_eq_false_2 by naive_solver.
      destruct (rs_hash s !! h'); simpl; [done|]. by rewrite lookup_empty.
  - by rewrite lookup_insert_ne, bool_decide_eq_false_2 by naive_solver.
Qed.

Lemma lookup_foldr_delete {A} (m : gmap string A) ks k :
  foldr delete m ks !! k = if bool_decide (k ∈ ks) then None else m !! k.
Proof.
  induction ks as [|x ks IH]; cbn [foldr]; [by rewrite bool_decide_eq_false_2 by apply not_elem_of_nil|].
  destruct (decide (x = k)) as [->|Hne].
  - by rewrite lookup_delete_eq, bool_decide_eq_true_2 by set_solver.
  - rewrite lookup_delete_ne, IH by done. do 2 case_bool_decide; set_solver.
Qed.

(** The kinds of keys are disjoint. *)
Lemma phone_not_username p n : phone_cache_key p <> username_cache_key n.
Proof. unfold phone_cache_key, username_cache_key. intros E. discriminate E. Qed.

Lemma session_not_cache s n :
  session_key s <> phone_cache_key n /\ session_key s <> username_cache_key n /\
  forall i, session_key s <> presence_key i.
Proof.
  unfold session_key, phone_cache_key, username_cache_key, presence_key.
  split_and!; [..|intros i]; intros E; discriminate E.
Qed.

Lemma phone_cache_key_inj a b : phone_cache_key a = phone_cache_key b -> a = b.
Proof. apply app_inj_l. Qed.

Lemma session_key_inj a b : session_key a = session_key b -> a = b.
Proof. apply app_inj_l. Qed.

(** ** The batch of a completed transfer *)

Section Batch.
Context (evt : TransferCompleted) (sp rp : string) (s : RedisState).
Let s' := redis_run_all (transfer_completed_batch evt sp rp) s.

Lemma batch_kv k :
  rs_kv s' !! k =
    if bool_decide (k = phone_cache_key sp \/ k = phone_cache_key rp) then None
    else rs_kv s !! k.
Proof.
  change (foldr delete (rs_kv s) [phone_cache_key sp; phone_cache_key rp] !! k =
    if bool_decide (k = phone_cache_key sp \/ k = phone_cache_key rp) then None
    else rs_kv s !! k).
  rewrite lookup_foldr_delete. do 2 case_bool_decide; set_solver.
Qed.

Lemma batch_live k :
  live_get s' k =
    if bool_decide (k = phone_cache_key sp \/ k = phone_cache_key rp) then None
    else live_get s k.
Proof. unfold live_get. rewrite batch_kv. by case_bool_decide. Qed.

Lemma batch_hash h f :
  hash_get s' h f =
    if bool_decide (h = "balance") then
      if bool_decide (f = Itoa (ReceiverID evt)) then Some (Itoa (ReceiverBalance evt))
      else if bool_decide (f = Itoa (SenderID evt)) then Some (Itoa (SenderBalance evt))
      else hash_get s h f
    else hash_get s h f.
Proof.
  unfold s', transfer_completed_batch. cbn [redis_run_all redis_run snd].
  set (s1 := with_kv s _).
  change (hash_get (with_pub (with_pub ?x _) _) h f) with (hash_get x h f).
  transitivity (hash_get (with_hash
    (with_hash s1 (<["balance" := <[Itoa (SenderID evt) := Itoa (SenderBalance evt)]>
       (default ∅ (rs_hash s1 !! "balance"))]> (rs_hash s1)))
    (<["balance" := <[Itoa (ReceiverID evt) := Itoa (ReceiverBalance evt)]>
       (default ∅ (rs_hash (with_hash s1 (<["balance" := <[Itoa (SenderID evt) := Itoa (SenderBalance evt)]>
       (default ∅ (rs_hash s1 !! "balance"))]> (rs_hash s1))) !! "balance"))]>
       (rs_hash (with_hash s1 (<["balance" := <[Itoa (SenderID evt) := Itoa (SenderBalance evt)]>
       (default ∅ (rs_hash s1 !! "balance"))]> (rs_hash s1)))))) h f); [done|].
  rewrite !hash_get_set. change (hash_get s1 h f) with (hash_get s h f).
  repeat case_bool_decide; naive_solver.
Qed.

Lemma batch_pub :
  rs_pub s' = rs_pub s ++
    [(notify_channel (SenderID evt), Marshal (encode_TransferCompleted evt));
     (notify_channel (ReceiverID evt), Marshal (encode_TransferCompleted evt))].
Proof. subst s'. simpl. by rewrite <- app_assoc. Qed.
End Batch.

Lemma pipe_outcome_done cs s r s' :
  pipe_outcome cs s r s' -> r = None ->
  exists d, 0 <= d /\ s' = redis_run_all cs (advance d s).
Proof. intros [d Hd|d e k _ _]; [eauto|done]. Qed.

(** ** Time *)

Lemma live_get_advance_none s k d :
  0 <= d -> live_get s k = None -> live_get (advance d s) k = None.
Proof.
  unfold live_get, advance. simpl. intros Hd. destruct (rs_kv s !! k) as [[v [exp|]]|]; try done.
  destruct (rs_now s <? exp) eqn:E; [done|]. intros _.
  by replace (rs_now s + d <? exp) with false by lia.
Qed.

Lemma live_get_set s k v exp k' :
  live_get (with_kv s (<[k := (v, exp)]> (rs_kv s))) k' =
    if bool_decide (k = k') then
      match exp with Some x => if rs_now s <? x then Some v else None | None => Some v end
    else live_get s k'.
Proof.
  unfold live_get. simpl. destruct (decide (k = k')) as [->|Hne].
  - rewrite lookup_insert_eq, bool_decide_eq_true_2 by done. by destruct exp.
  - by rewrite lookup_insert_ne, bool_decide_eq_false_2.
Qed.

Lemma live_get_delete s ks k :
  live_get (with_kv s (foldr delete (rs_kv s) ks)) k =
    if bool_decide (k ∈ ks) then None else live_get s k.
Proof. unfold live_get. simpl. rewrite lookup_foldr_delete. by case_bool_decide. Qed.

(** ** The session store

    What a session token stands for: the abstract state that the session
    functions implement on the keys [session:<sid>]. *)
Definition session_of (s : RedisState) (sid : string) : option Z :=
  if bool_decide (sid = "") then None
  else
    match live_get s (session_key sid) with
    | Some v => match Atoi v with Ok id => Some id | Err _ => None end
    | None => None
    end.

Lemma session_of_live s s' sid :
  live_get s (session_key sid) = live_get s' (session_key sid) ->
  session_of s sid = session_of s' sid.
Proof. unfold session_of. by intros ->. Qed.

Section Client.
Context {P R J : Type} `{RedisLaws R}.
Abbreviation W := (World P R J).

(** Only Redis changes (and draws are made). *)
Definition rd_only (w w' : W) : Prop :=
  w_pg w' = w_pg w /\ w_js w' = w_js w /\ h_env (w_host w') = h_env (w_host w).

#[global] Instance rd_only_preorder : PreOrder rd_only.
Proof.
  split; unfold rd_only; [by intros w|].
  intros w1 w2 w3 (-> & -> & ->) (-> & -> & ->). done.
Qed.

Lemma keeps_on_rd_only {A} (f : R -> A * R) : keeps rd_only (on_rd f).
Proof. intros w. unfold on_rd. by destruct (f (w_rd w)). Qed.

Lemma keeps_on_host_only {A} (f : Host -> A) : keeps rd_only (on_host f).
Proof. done. Qed.

Abbreviation rview w := (redis_view (w_rd w)).

(** Redis operations within a budget, as for the database. *)
Definition rwithin (h : budget) (r : R) : Prop :=
  match h with Some n => redis_healthy n r | None => True end.

Lemma rwithin_mono k h (r : R) : rwithin (plus (S k) h) r -> rwithin (plus k h) r.
Proof. destruct h; [|done]. apply redis_healthy_mono. Qed.

Inductive rbounded (h : budget) (c : RedisCmd) (s : RedisState)
  : result RReply goerr -> RedisState -> Prop :=
| rb_done d r r' s' :
    0 <= d -> redis_run c (advance d s) = (r, s') -> reply_eq c r r' -> rbounded h c s r' s'
| rb_fault d e :
    h = None -> 0 <= d -> redis_fault e = true -> rbounded h c s (Err e) (advance d s)
| rb_lost d e r s' :
    h = None -> 0 <= d -> redis_fault e = true -> redis_run c (advance d s) = (r, s') ->
    rbounded h c s (Err e) s'.

(** [w'] is [w] after [d] nanoseconds. *)
Definition waited (w w' : W) : Prop :=
  rd_only w w' /\ exists d, 0 <= d /\ rview w' = advance d (rview w).

(** A session that is held later is held now. *)
Lemma waited_session (w w' : W) sid id :
  waited w w' -> session_of (rview w') sid = Some id -> session_of (rview w) sid = Some id.
Proof.
  intros [_ (d & Hd & E)]. rewrite E. unfold session_of. destruct (bool_decide (sid = "")); [done|].
  unfold live_get, advance. simpl.
  destruct (rs_kv (rview w) !! session_key sid) as [[v [exp|]]|]; [|done..].
  destruct (_ + d <? exp) eqn:E1; [|done]. by replace (rs_now (rview w) <? exp) with true by lia.
Qed.

Lemma rdo_spec k h c Q (w : W) :
  rwithin (plus (S k) h) (w_rd w) ->
  (forall x w', rbounded h c (rview w) x (rview w') -> rd_only w w' ->
                w_host w' = w_host w -> rwithin (plus k h) (w_rd w') -> Q x w') ->
  wp (rdo c) Q w.
Proof.
  intros Hw HQ. unfold rdo. apply wp_on_rd. intros x r' E. destruct h as [n|].
  - destruct (redis_do_healthy _ _ _ _ _ Hw E) as [(d & x0 & Hd & Er & Hx) Hh].
    apply HQ; try done. exact (rb_done _ _ _ d _ _ _ Hd Er Hx).
  - apply redis_do_law in E. apply HQ; try done.
    remember (rview w) as s0 eqn:Es.
    remember (redis_view (w_rd (set_rd w r'))) as s1 eqn:Es1.
    change (redis_view r') with (redis_view (w_rd (set_rd w r'))) in E. rewrite <- Es1 in E.
    destruct E as [d r r2 s2 Hd E Hre|d e Hd He|d e r s2 Hd He E].
    + exact (rb_done _ _ _ d _ _ _ Hd E Hre).
    + exact (rb_fault _ _ _ d e eq_refl Hd He).
    + exact (rb_lost _ _ _ d e _ _ eq_refl Hd He E).
Qed.

(** A command that only reads. *)
Lemma rbounded_read h c s x s' :
  (forall s0, (redis_run c s0).2 = s0) -> (forall r1 r2, reply_eq c r1 r2 -> r1 = r2) ->
  rbounded h c s x s' ->
  exists d, 0 <= d /\ s' = advance d s /\
    (x = (redis_run c (advance d s)).1 \/ exists e, h = None /\ x = Err e /\ redis_fault e = true).
Proof.
  intros Hr Heq Ho. inversion Ho as [d r r' s2 Hd E Hre|d e Hh Hd He|d e r s2 Hh Hd He E]; subst;
    exists d; split; try done.
  - pose proof (Hr (advance d s)) as Hs. rewrite E in Hs |- *. simpl in *.
    apply Heq in Hre. subst. auto.
  - eauto 6.
  - pose proof (Hr (advance d s)) as Hs. rewrite E in Hs. simpl in *. subst. eauto 6.
Qed.

Lemma redis_fault_facts e :
  redis_fault e = true -> redis_nil e = false /\ foreign e = true.
Proof. unfold redis_fault. intros Hf. by bool_hyps. Qed.

(** GET: the live value, nothing, or a fault; only time passes. *)
Lemma rget_spec k h key Q (w : W) :
  rwithin (plus (S k) h) (w_rd w) ->
  (forall w', waited w w' -> w_host w' = w_host w -> rwithin (plus k h) (w_rd w') ->
     match live_get (rview w') key with
     | Some v => Q (Ok (RBulk v)) w'
     | None => Q (Err RedisNil) w'
     end /\ (forall e, h = None -> redis_fault e = true -> Q (Err e) w')) ->
  wp (rdo (RGet key)) Q w.
Proof.
  intros Hw HQ. apply (rdo_spec k h); [done|]. intros x w' Ho Hrd Hh Hw'.
  apply rbounded_read in Ho as (d & Hd & Ev & Hx); [|done..].
  destruct (HQ w') as [H1' H2']; [split; eauto|done|done|].
  destruct Hx as [->|(e & Hn & -> & He)]; [|by auto].
  simpl. rewrite <- Ev. by destruct (live_get (rview w') key).
Qed.

(** A token is looked up by its live value at the time of the call. *)
Lemma GetUserIDFromSession_spec k h sid Q (w : W) :
  rwithin (plus (S k) h) (w_rd w) ->
  (forall w', waited w w' -> rwithin (plus k h) (w_rd w') ->
     match session_of (rview w') sid with
     | Some id => Q (Ok id) w'
     | None => Q (Err ErrUnauthorized) w'
     end /\ (forall e, h = None -> redis_fault e = true -> Q (Err (EWrap "get session" e)) w')) ->
  wp (GetUserIDFromSession sid) Q w.
Proof.
  intros Hw HQ. unfold GetUserIDFromSession, session_of in *.
  destruct (bool_decide (sid = "")) eqn:Es.
  { apply wp_ret. apply (HQ w).
    - split; [reflexivity|]. exists 0. split; [lia|].
      destruct (rview w). unfold advance. simpl. by rewrite Z.add_0_r.
    - destruct h as [n|]; [|done]. by apply redis_healthy_mono. }
  apply wp_bind, (rget_spec k h); [done|]. intros w' Hwt Hh Hw'.
  destruct (HQ w' Hwt Hw') as [H1' H2'].
  destruct (live_get (rview w') (session_key sid)) as [v|]; simpl.
  - split.
    + destruct (Atoi v); by apply wp_ret.
    + intros e Hn He. destruct (redis_fault_facts _ He) as [-> _]. apply wp_ret. auto.
  - split; [by apply wp_ret|].
    intros e Hn He. destruct (redis_fault_facts _ He) as [-> _]. apply wp_ret. auto.
Qed.

(** The two guards, as equations: the handler runs for the user of a live
    session, or not at all. *)
Lemma RequireSession_cases k h next ctx action payload headers (w : W) :
  rwithin (plus (S k) h) (w_rd w) ->
  exists w1, waited w w1 /\ rwithin (plus k h) (w_rd w1) /\
    (RequireSession next ctx action payload headers w =
       match session_of (rview w1) (header headers "x-session") with
       | Some id => next (withUserID ctx id) action payload headers w1
       | None => (Ok (Reply 401 (detail "Unauthorized")), w1)
       end
     \/ (h = None /\ RequireSession next ctx action payload headers w =
          (Ok (Reply 500 (detail "session error")), w1))).
Proof.
  intros Hw. set (sid := header headers "x-session").
  set (Q := fun x w2 => waited w w2 /\ rwithin (plus k h) (w_rd w2) /\
    (x = match session_of (rview w2) sid with
         | Some id => Ok id | None => Err ErrUnauthorized end
     \/ exists e, h = None /\ x = Err (EWrap "get session" e) /\ redis_fault e = true)).
  assert (wp (GetUserIDFromSession sid) Q w) as Hs.
  { apply (GetUserIDFromSession_spec k h); [done|]. intros w' Hwt Hw'. split.
    - destruct (session_of (rview w') sid) eqn:Es;
        (split; [done|split; [done|left; by rewrite Es]]).
    - intros e Hn He. split; [done|]. split; [done|]. right. eauto. }
  unfold wp in Hs. unfold RequireSession, bind. fold sid.
  destruct (GetUserIDFromSession sid w) as [x w2].
  destruct Hs as (Hwt & Hw' & Hc). exists w2. split; [done|]. split; [done|].
  destruct Hc as [->|(e & Hn & -> & He)].
  - left. by destruct (session_of _ _).
  - right. split; [done|]. destruct (redis_fault_facts _ He) as [_ Hf].
    assert (errors_Is (EWrap "get session" e) ErrUnauthorized = false) as ->
      by (by apply (foreign_not_app (EWrap "get session" e) "unauthorized")).
    done.
Qed.

Lemma RequireAdmin_session secret next ctx action payload headers (w : W) :
  RequireAdmin secret next ctx action payload headers w =
    if bool_decide (header headers "x-admin-secret" = secret)
    then RequireSession next ctx action payload headers w
    else (Ok (Reply 403 (detail "Forbidden")), w).
Proof. unfold RequireAdmin. by case_bool_decide. Qed.

(** A state in which key [k] was set to [v] for [ttl], all else as after
    [d] nanoseconds. *)
Definition was_set (s s' : RedisState) (k v : string) (ttl : Z) : Prop :=
  exists d, 0 <= d /\
    s' = with_kv (advance d s)
           (<[k := (v, if 0 <? ttl then Some (rs_now (advance d s) + ttl) else None)]>
              (rs_kv (advance d s))).

Lemma was_set_live s s' k v ttl k' :
  was_set s s' k v ttl ->
  if bool_decide (k = k') then live_get s' k' = Some v
  else exists d, 0 <= d /\ live_get s' k' = live_get (advance d s) k'.
Proof.
  intros (d & Hd & ->). destruct (decide (k = k')) as [->|Hne].
  - rewrite live_get_set, !bool_decide_eq_true_2 by done.
    destruct (0 <? ttl) eqn:E; [|done].
    by replace (_ <? _) with true by (simpl; lia).
  - rewrite bool_decide_eq_false_2 by done. exists d. split; [done|].
    by rewrite live_get_set, bool_decide_eq_false_2.
Qed.

(** ... and how long it stays. *)
Lemma was_set_until s s' k v ttl d :
  was_set s s' k v ttl -> 0 < ttl -> 0 <= d ->
  live_get (advance d s') k = if d <? ttl then Some v else None.
Proof.
  intros (d0 & Hd0 & ->) Ht Hd. replace (0 <? ttl) with true by lia.
  unfold live_get, advance. simpl. rewrite lookup_insert_eq.
  destruct (d <? ttl) eqn:E.
  - by replace (_ <? _) with true by lia.
  - by replace (_ <? _) with false by lia.
Qed.

Definition session_ttl (w : W) : Z :=
  duration_value (default "" (h_env (w_host w) !! "SESSION_TTL_SECONDS")) (24 * Hour).

(** The entries that a SET may leave: written, or on a fault not. *)
Lemma rset_spec k h key v ttl Q (w : W) :
  rwithin (plus (S k) h) (w_rd w) ->
  (forall w', rd_only w w' -> w_host w' = w_host w -> rwithin (plus k h) (w_rd w') ->
     (was_set (rview w) (rview w') key v ttl -> Q (Ok RStatus) w') /\
     (forall e, h = None -> redis_fault e = true ->
        (was_set (rview w) (rview w') key v ttl \/
         exists d, 0 <= d /\ rview w' = advance d (rview w)) -> Q (Err e) w')) ->
  wp (rdo (RSet key v ttl)) Q w.
Proof.
  intros Hw HQ. apply (rdo_spec k h); [done|]. intros x w' Ho Hrd Hh Hw'.
  destruct (HQ w' Hrd Hh Hw') as [H1' H2'].
  inversion Ho as [d r r' s2 Hd E Hre|d e Hn Hd He|d e r s2 Hn Hd He E]; subst.
  - simpl in *. simplify_eq. apply H1'. by exists d.
  - apply H2'; [done..|]. right. eauto.
  - simpl in *. simplify_eq. apply H2'; [done..|]. left. by exists d.
Qed.

Lemma CreateSession_spec k h userID Q (w : W) :
  rwithin (plus (S k) h) (w_rd w) ->
  (forall w', rd_only w w' -> rwithin (plus k h) (w_rd w') ->
     (was_set (rview w) (rview w') (session_key (h_uuid (w_host w) (h_pos (w_host w))))
        (Itoa userID) (session_ttl w) ->
      Q (Ok (h_uuid (w_host w) (h_pos (w_host w)))) w') /\
     (forall e, h = None -> redis_fault e = true ->
        (was_set (rview w) (rview w') (session_key (h_uuid (w_host w) (h_pos (w_host w))))
           (Itoa userID) (session_ttl w) \/
         exists d, 0 <= d /\ rview w' = advance d (rview w)) ->
        Q (Err (EWrap "create session" e)) w')) ->
  wp (CreateSession userID) Q w.
Proof.
  intros Hw HQ. unfold CreateSession, sessionTTL. apply wp_bind, wp_on_host, wp_bind, wp_bind,
    wp_getenv, wp_ret, wp_bind, (rset_spec k h); [done|].
  intros w' Hrd Hh Hw'. destruct (HQ w' Hrd Hw') as [H1' H2']. split.
  - intros Hs. by apply wp_ret, H1'.
  - intros e Hn He Hs. apply wp_ret. by apply H2'.
Qed.
(** DEL of one key: gone, all else as after [d] nanoseconds, or a fault. *)
Lemma rdel_spec k h key Q (w : W) :
  rwithin (plus (S k) h) (w_rd w) ->
  (forall w', rd_only w w' -> rwithin (plus k h) (w_rd w') ->
     (forall x, (exists d, 0 <= d /\ forall key', live_get (rview w') key' =
         if bool_decide (key' = key) then None else live_get (advance d (rview w)) key') ->
      Q (Ok x) w') /\
     (forall e, h = None -> redis_fault e = true -> Q (Err e) w')) ->
  wp (rdo (RDel [key])) Q w.
Proof.
  intros Hw HQ. apply (rdo_spec k h); [done|]. intros x w' Ho Hrd Hh Hw'.
  destruct (HQ w' Hrd Hw') as [HQ1 HQ2].
  inversion Ho as [d r r' s2 Hd E Hre|d e Hn Hd He|d e r s2 Hn Hd He E]; subst; simpl in *; auto.
  simplify_eq. apply HQ1. exists d. split; [done|]. intros key'.
  match goal with H : _ = rview w' |- _ => rewrite <- H end.
  change (delete key (rs_kv (rview w))) with (foldr delete (rs_kv (advance d (rview w))) [key]).
  change (with_kv _ _) with (with_kv (advance d (rview w))
    (foldr delete (rs_kv (advance d (rview w))) [key])).
  rewrite live_get_delete. do 2 case_bool_decide; set_solver.
Qed.

(** A pipeline: all of it, or on a fault a first part. *)
Lemma rpipe_spec k h cs Q (w : W) :
  rwithin (plus (S k) h) (w_rd w) ->
  (forall d w', 0 <= d -> rd_only w w' -> rwithin (plus k h) (w_rd w') ->
     rview w' = redis_run_all cs (advance d (rview w)) -> Q None w') ->
  (forall d n e w', h = None -> 0 <= d -> redis_fault e = true -> rd_only w w' ->
     rview w' = redis_run_all (take n cs) (advance d (rview w)) -> Q (Some e) w') ->
  wp (rpipe cs) Q w.
Proof.
  intros Hw Hok Herr. unfold rpipe. apply wp_on_rd. intros x r' E.
  pose proof (redis_pipe_law _ _ _ _ E) as Ho.
  assert (rwithin (plus k h) r' /\ (h <> None -> x = None)) as [Hr' Hx].
  { destruct h as [n|]; [|done].
    destruct (redis_pipe_healthy cs _ _ _ _ Hw E) as [-> Hh]. by split. }
  remember (redis_view r') as s1 eqn:Es. destruct Ho as [d Hd|d e n Hd He].
  - by apply (Hok d).
  - apply (Herr d n); try done. destruct h; [|done]. by specialize (Hx ltac:(done)).
Qed.

(** ** The balance read model *)

Definition balance_of (s : RedisState) (userID : Z) : option string :=
  hash_get s "balance" (Itoa userID).

(** After [d] nanoseconds the field of the user was written. *)
Definition balance_was_set (s s' : RedisState) (userID balance : Z) : Prop :=
  exists d, 0 <= d /\
    s' = (redis_run (RHSet "balance" (Itoa userID) (Itoa balance)) (advance d s)).2.

Lemma GetBalance_spec k h userID Q (w : W) :
  rwithin (plus (S k) h) (w_rd w) ->
  (forall w', waited w w' -> rwithin (plus k h) (w_rd w') ->
     match balance_of (rview w) userID with
     | Some s => match Atoi s with Ok z => Q (Ok (Some z)) w' | Err e => Q (Err e) w' end
     | None => Q (Ok None) w'
     end /\ (forall e, h = None -> redis_fault e = true -> Q (Err e) w')) ->
  wp (GetBalance userID) Q w.
Proof.
  intros Hw HQ. unfold GetBalance. apply wp_bind, (rdo_spec k h); [done|].
  intros x w' Ho Hrd Hh Hw'. apply rbounded_read in Ho as (d & Hd & Ev & Hx).
  2: intros s0; simpl; by case_match.
  2: done.
  destruct (HQ w') as [H1' H2']; [split; eauto|done|].
  destruct Hx as [->|(e & Hn & -> & He)].
  - simpl. unfold balance_of in H1'.
    change (hash_get (advance d (rview w))) with (hash_get (rview w)).
    destruct (hash_get (rview w) "balance" (Itoa userID)) as [v|]; [|by apply wp_ret].
    destruct (Atoi v); by apply wp_ret.
  - destruct (redis_fault_facts _ He) as [-> _]. apply wp_ret. auto.
Qed.

Lemma SetBalance_spec k h userID balance Q (w : W) :
  rwithin (plus (S k) h) (w_rd w) ->
  (forall w', rd_only w w' -> rwithin (plus k h) (w_rd w') ->
     (balance_was_set (rview w) (rview w') userID balance -> Q None w') /\
     (forall e, h = None -> redis_fault e = true ->
        (balance_was_set (rview w) (rview w') userID balance \/
         exists d, 0 <= d /\ rview w' = advance d (rview w)) -> Q (Some e) w')) ->
  wp (SetBalance userID balance) Q w.
Proof.
  intros Hw HQ. unfold SetBalance. apply wp_bind, (rdo_spec k h); [done|].
  intros x w' Ho Hrd _ Hw'. destruct (HQ w' Hrd Hw') as [H1' H2'].
  inversion Ho as [d r r' s2 Hd E Hre|d e Hn Hd He|d e r s2 Hn Hd He E]; subst; apply wp_ret.
  - simpl in *. injection E as Er Es. simpl. subst r x. apply H1'. exists d. by split.
  - apply H2'; [done..|]. right. eauto.
  - apply H2'; [done..|]. left. exists d. split; [done|]. by rewrite E.
Qed.

Lemma balance_was_set_get s s' userID balance i :
  balance_was_set s s' userID balance ->
  balance_of s' i = if bool_decide (userID = i) then Some (Itoa balance) else balance_of s i.
Proof.
  intros (d & _ & ->). unfold balance_of. cbn [redis_run snd]. rewrite hash_get_set.
  case_bool_decide as E.
  - destruct E as [_ E]. apply Itoa_inj in E as ->. by rewrite bool_decide_eq_true_2.
  - rewrite bool_decide_eq_false_2; [done|]. intros ->. by apply E.
Qed.
End Client.

(** ** Payload codecs *)

Lemma decode_hit {S} (fs : list (string * setter S)) name set (st : S) e v st' :
  find_field fs name = Some set -> set v st = Ok st' ->
  decode_member fs (st, e) (name, v) = (st', e).
Proof. intros Hf Hs. unfold decode_member. simpl. by rewrite Hf, Hs. Qed.

Lemma set_int_JInt {S} (f : Z -> S -> S) z st :
  in_int64 z -> set_int f (JInt z) st = Ok (f z st).
Proof. intros Hz. unfold set_int, JInt. by rewrite ParseInt_Itoa. Qed.

(** Decodes the members one by one. *)
Ltac decode_struct :=
  unfold unmarshal_struct; cbn [fold_left];
  repeat (erewrite decode_hit;
    [|reflexivity|first [by apply set_int_JInt|reflexivity]]); reflexivity.

Lemma decode_encode_CachedUser u :
  in_int64 (cu_id u) -> in_int64 (cu_balance u) ->
  decode_CachedUser (encode_CachedUser u) = Ok u.
Proof.
  intros Hi Hb. destruct u as [i ph un ac pw b ad]. simpl in *.
  unfold decode_CachedUser, encode_CachedUser. decode_struct.
Qed.

Lemma decode_encode_TransferCompleted e :
  in_int64 (TransferID e) -> in_int64 (Amount e) -> in_int64 (SenderID e) ->
  in_int64 (SenderBalance e) -> in_int64 (ReceiverID e) -> in_int64 (ReceiverBalance e) ->
  decode_TransferCompleted (encode_TransferCompleted e) = Ok e.
Proof.
  intros. destruct e as [a b c d f g]. simpl in *.
  unfold decode_TransferCompleted, encode_TransferCompleted. decode_struct.
Qed.

Lemma member_wf k v kvs :
  utf8_valid k = true -> json_wf v ->
  Forall (fun kv => utf8_valid kv.1 = true /\ json_wf kv.2) kvs ->
  Forall (fun kv => utf8_valid kv.1 = true /\ json_wf kv.2) ((k, v) :: kvs).
Proof. by constructor. Qed.

Ltac wf_object :=
  constructor; repeat (apply member_wf; [by vm_compute|by constructor|]); constructor.

Lemma CachedUser_text u :
  utf8_valid (cu_phone u) = true -> utf8_valid (cu_username u) = true ->
  utf8_valid (cu_account_number u) = true -> utf8_valid (cu_password_hash u) = true ->
  in_int64 (cu_id u) -> in_int64 (cu_balance u) ->
  unmarshal_text decode_CachedUser (Marshal (encode_CachedUser u)) = Ok u.
Proof.
  intros H1 H2 H3 H4 Hi Hb. unfold unmarshal_text.
  rewrite parse_print; [by apply decode_encode_CachedUser| |done].
  unfold encode_CachedUser. wf_object.
Qed.

Lemma TransferCompleted_text e :
  in_int64 (TransferID e) -> in_int64 (Amount e) -> in_int64 (SenderID e) ->
  in_int64 (SenderBalance e) -> in_int64 (ReceiverID e) -> in_int64 (ReceiverBalance e) ->
  unmarshal_text decode_TransferCompleted (Marshal (encode_TransferCompleted e)) = Ok e.
Proof.
  intros. unfold unmarshal_text.
  rewrite parse_print; [by apply decode_encode_TransferCompleted| |done].
  unfold encode_TransferCompleted. wf_object.
Qed.

(** ** The user cache *)

Section Cache.
Context {P R J : Type} `{RedisLaws R}.
Abbreviation W := (World P R J).
Abbreviation rview w := (redis_view (w_rd w)).

(** What a lookup in the cache makes of a stored text. *)
Definition cache_read (data : string) : result (option CachedUser) goerr :=
  if go_len data <=? 512 then
    match unmarshal_text decode_CachedUser data with
    | Ok u => Ok (Some u)
    | Err e => Err (EWrap "unmarshal user cache" e)
    end
  else Err (EWrap "get user cache" err_buffer).

Lemma GetUserCache_spec k h key Q (w : W) :
  rwithin (plus (S k) h) (w_rd w) ->
  (forall w', waited w w' -> rwithin (plus k h) (w_rd w') ->
     Q (match live_get (rview w') ("user_cache:" +:+ key) with
        | Some data => cache_read data
        | None => Ok None
        end) w' /\
     (forall e, h = None -> redis_fault e = true -> Q (Err (EWrap "get user cache" e)) w')) ->
  wp (GetUserCache key) Q w.
Proof.
  intros Hw HQ. unfold GetUserCache. apply wp_bind, (rdo_spec k h); [done|].
  intros x w' Ho Hrd Hh Hw'.
  apply rbounded_read in Ho as (d & Hd & Ev & Hx); [|done..].
  destruct (HQ w') as [HQ1 HQ2]; [split; eauto|done|].
  destruct Hx as [->|(e & Hn & -> & He)].
  - simpl. rewrite <- Ev. destruct (live_get (rview w') _) as [data|]; [|by apply wp_ret].
    unfold cache_read in HQ1. destruct (go_len data <=? 512); [|by apply wp_ret].
    by destruct (unmarshal_text decode_CachedUser data); apply wp_ret.
  - destruct (redis_fault_facts _ He) as [-> _]. apply wp_ret. auto.
Qed.
End Cache.
