(* ===== verification/ReadFacts.v ===== *)
(** * Programs that only read the database, and listings

    A statement that cannot fail on the data of the tables returns its value
    or meets a fault; the tables stay. Listings in descending order of a key
    do not depend on how the rows are stored. *)

From S2P Require Import Prelude GoStrings Json Tables Sql SqlFacts Servers Db PgFacts TxFacts.
From S2P Require Import RedisClient RedisFacts Consumer.

(** The outcome of a handler within a fault budget: an error, which is then
    foreign to this program, is only possible without one. *)
Definition or_fault (h : budget) (r : result goany goerr) (P : Prop) : Prop :=
  P \/ (h = None /\ exists e, r = Err e /\ foreign e = true).

(** ** Listings *)

(** The rows in descending order of a key: what every administrator page is
    cut from. *)
Definition key_ge {A} (key : A -> Z) (a b : A) : Prop := key b <= key a.

#[global] Instance key_ge_dec {A} (key : A -> Z) a b : Decision (key_ge key a b).
Proof. unfold key_ge. apply _. Defined.
#[global] Instance key_ge_trans {A} (key : A -> Z) : Transitive (key_ge key).
Proof. unfold key_ge. intros x y z. lia. Qed.
#[global] Instance key_ge_total {A} (key : A -> Z) : Total (key_ge key).
Proof. unfold key_ge. intros x y. lia. Qed.

Definition newest {A} (key : A -> Z) (l : list A) : list A := merge_sort (key_ge key) l.

Lemma newest_sorted {A} (key : A -> Z) l :
  StronglySorted (key_ge key) (newest key l).
Proof. apply (StronglySorted_merge_sort _ _). Qed.

Lemma newest_all {A} (key : A -> Z) l : newest key l ≡ₚ l.
Proof. apply merge_sort_Permutation. Qed.

Lemma newest_length {A} (key : A -> Z) l : length (newest key l) = length l.
Proof. apply Permutation_length, newest_all. Qed.

(** With distinct keys the order does not depend on the order of storage. *)
Lemma sorted_newest {A} (key : A -> Z) l1 l2 :
  NoDup (map key l1) -> l1 ≡ₚ l2 -> StronglySorted (key_ge key) l2 ->
  l2 = newest key l1.
Proof.
  intros Hn Hp Hs. symmetry.
  apply (StronglySorted_unique_strong (key_ge key)); [|apply newest_sorted|done|].
  - unfold key_ge. intros x y Hx Hy H1 H2. apply (NoDup_map_inj key l1); [done| | |lia].
    + by rewrite <- (newest_all key l1).
    + by rewrite Hp.
  - by rewrite newest_all.
Qed.

Lemma newest_perm {A} (key : A -> Z) l1 l2 :
  NoDup (map key l1) -> l1 ≡ₚ l2 -> newest key l1 = newest key l2.
Proof.
  intros Hn Hp. symmetry. apply sorted_newest; [done| |apply newest_sorted].
  by rewrite newest_all.
Qed.

Lemma order_rows_desc {C R} (get : C -> R -> sval) c (key : R -> Z) rs :
  (forall r, get c r = SInt (key r)) ->
  StronglySorted (key_ge key) (order_rows get (Some (c, true)) rs).
Proof.
  intros Hk. simpl.
  assert (forall a b, row_le get (c, true) a b <-> key_ge key a b) as Heq
    by (intros a b; unfold key_ge, row_le, sort_key; simpl; by rewrite !Hk).
  assert (Transitive (row_le get (c, true))) by (intros x y z; rewrite !Heq; apply key_ge_trans).
  assert (Total (row_le get (c, true))) by (intros x y; rewrite !Heq; apply key_ge_total).
  assert (forall l, StronglySorted (row_le get (c, true)) l -> StronglySorted (key_ge key) l)
    as Himpl.
  { induction 1 as [|x l Hs IH Hx]; constructor; [done|].
    eapply Forall_impl; [exact Hx|]. intros y. apply Heq. }
  apply Himpl, (StronglySorted_merge_sort _ _).
Qed.

Lemma order_rows_newest {C R} (get : C -> R -> sval) c (key : R -> Z) rs :
  (forall r, get c r = SInt (key r)) -> NoDup (map key rs) ->
  order_rows get (Some (c, true)) rs = newest key rs.
Proof.
  intros Hk Hn. apply sorted_newest; [done| |by apply order_rows_desc].
  symmetry. apply order_rows_perm.
Qed.

(** ** Queries that cannot fail on data *)

Section Queries.
Context {P : Type} `{PgLaws P}.

Lemma all_pure {A} (s : Stmt A) (l : list A) k h p r p' :
  reads s = true ->
  (forall env T, pg_view p ≡ T -> stmt_run pg_ilike s env T = Ok (l, T)) ->
  within (plus (S k) h) p -> pg_all s p = (r, p') ->
  within (plus k h) p' /\ pg_view p ≡ pg_view p' /\
  match r with Ok l' => l' = l | Err e => h = None /\ foreign e = true end.
Proof.
  intros Hr Hf Hp E. pose proof (pg_all_reads _ _ _ _ Hr E) as Hv.
  destruct (all_bounded _ _ _ _ _ _ Hp E) as [Ho Hp']. split; [done|]. split; [done|].
  destruct r as [l'|e].
  - apply bounded_ok in Ho as (env & T0 & T1 & E0 & _ & Er & _).
    apply all_run_all in Er. rewrite (Hf _ _ E0) in Er. by injection Er.
  - apply bounded_err in Ho as [Hfo [(env & T0 & x & E0 & _ & Er & _)|[Hh _]]]; [|done].
    unfold all_run in Er. by rewrite (Hf _ _ E0) in Er.
Qed.

Lemma one_pure {A} (s : Stmt A) (x : A) k h p r p' :
  reads s = true ->
  (forall env T, pg_view p ≡ T -> stmt_run pg_ilike s env T = Ok ([x], T)) ->
  within (plus (S k) h) p -> pg_one s p = (r, p') ->
  within (plus k h) p' /\ pg_view p ≡ pg_view p' /\
  match r with Ok x' => x' = x | Err e => h = None /\ foreign e = true end.
Proof.
  intros Hr Hf Hp E. pose proof (pg_one_reads _ _ _ _ Hr E) as Hv.
  destruct (one_bounded _ _ _ _ _ _ Hp E) as [Ho Hp']. split; [done|]. split; [done|].
  destruct r as [x'|e].
  - apply bounded_ok in Ho as (env & T0 & T1 & E0 & _ & Er & _).
    apply one_run_all in Er as [l' Er]. rewrite (Hf _ _ E0) in Er. by injection Er.
  - apply bounded_err in Ho as [Hfo [(env & T0 & y & E0 & _ & Er & _)|[Hh _]]]; [|done].
    unfold one_run in Er. by rewrite (Hf _ _ E0) in Er.
Qed.
End Queries.

Lemma project_user_cols u : project_user UserCols u = u.
Proof. apply project_all. intros c. destruct c; unfold UserCols; set_solver. Qed.

Lemma map_project_user_cols l : map (project_user UserCols) l = l.
Proof. rewrite (map_ext _ id), map_id; [done|]. intros u. apply project_user_cols. Qed.

(** ** Programs that only read the database *)

Section Reads.
Context {P R J : Type} `{PgLaws P}.
Abbreviation W := (World P R J).

Definition unchanged (w w' : W) : Prop := db_only w w' /\ tables_of w ≡ tables_of w'.

#[global] Instance unchanged_preorder : PreOrder unchanged.
Proof.
  split; unfold unchanged; [done|].
  intros w1 w2 w3 [H1 E1] [H2 E2]. split; [by etransitivity|by rewrite E1].
Qed.

Lemma set_pg_unchanged (w : W) p : pg_view (w_pg w) ≡ pg_view p -> unchanged w (set_pg w p).
Proof. done. Qed.

Lemma wp_all_pure {A} (s : Stmt A) l k h (w : W) Q :
  reads s = true ->
  (forall env T, tables_of w ≡ T -> stmt_run pg_ilike s env T = Ok (l, T)) ->
  within (plus (S k) h) (w_pg w) ->
  (forall w', unchanged w w' -> within (plus k h) (w_pg w') -> Q (Ok l) w') ->
  (forall e w', h = None -> foreign e = true -> unchanged w w' -> Q (Err e) w') ->
  wp (on_pg (pg_all s)) Q w.
Proof.
  intros Hr Hf Hp Hok Herr. apply wp_on_pg. intros r p' E.
  destruct (all_pure _ _ _ _ _ _ _ Hr Hf Hp E) as (Hp' & Hv & Hres).
  destruct r as [l'|e]; [subst; by apply Hok|]. destruct Hres. by apply Herr.
Qed.

Lemma wp_one_pure {A} (s : Stmt A) x k h (w : W) Q :
  reads s = true ->
  (forall env T, tables_of w ≡ T -> stmt_run pg_ilike s env T = Ok ([x], T)) ->
  within (plus (S k) h) (w_pg w) ->
  (forall w', unchanged w w' -> within (plus k h) (w_pg w') -> Q (Ok x) w') ->
  (forall e w', h = None -> foreign e = true -> unchanged w w' -> Q (Err e) w') ->
  wp (on_pg (pg_one s)) Q w.
Proof.
  intros Hr Hf Hp Hok Herr. apply wp_on_pg. intros r p' E.
  destruct (one_pure _ _ _ _ _ _ _ Hr Hf Hp E) as (Hp' & Hv & Hres).
  destruct r as [l'|e]; [subst; by apply Hok|]. destruct Hres. by apply Herr.
Qed.
(** The begin and the end of a READ COMMITTED transaction. *)
Lemma wp_begin o k h (w : W) Q :
  within (plus (S k) h) (w_pg w) ->
  (forall w', unchanged w w' -> within (plus k h) (w_pg w') -> Q None w') ->
  (forall e w', h = None -> unchanged w w' -> Q (Some e) w') ->
  wp (on_pg (pg_begin o)) Q w.
Proof.
  intros Hp Hok Herr. apply wp_on_pg. intros r p' E. destruct (pg_begin_law _ _ _ _ E) as [Hv _].
  destruct h as [n|]; simpl in Hp.
  - destruct (pg_begin_healthy _ _ _ _ _ Hp E) as [-> Hp']. by apply Hok.
  - destruct r as [e|]; [by apply Herr|by apply Hok].
Qed.

Lemma wp_end r k h (w : W) Q :
  (r = None -> within (plus (S k) h) (w_pg w)) ->
  (forall w', unchanged w w' -> r = None -> Q None w') ->
  (forall e w', (r = None -> h = None) -> unchanged w w' -> Q (Some e) w') ->
  wp (on_pg (pg_end r)) Q w.
Proof.
  intros Hp Hok Herr. apply wp_on_pg. intros r' p' E. destruct (pg_end_law _ _ _ _ E) as [Hv He].
  destruct r as [e|]; simpl in He.
  - destruct He as [->|(er & _ & ->)]; by apply Herr.
  - specialize (Hp eq_refl). destruct h as [n|]; simpl in Hp.
    + destruct (pg_end_healthy _ _ _ _ Hp E) as [-> _]. by apply Hok.
    + destruct r' as [e|]; [by apply Herr|by apply Hok].
Qed.

Lemma keeps_begin o : keeps (on_tables (≡)) (on_pg (R:=R) (J:=J) (pg_begin o)).
Proof. apply wp_keeps. intros w. apply (wp_begin o 0 None); [done|by intros w' [_ E]|by intros e w' _ [_ E]]. Qed.

Lemma keeps_end r : keeps (on_tables (≡)) (on_pg (R:=R) (J:=J) (pg_end r)).
Proof. apply wp_keeps. intros w. apply (wp_end r 0 None); [done|by intros w' [_ E]|by intros e w' _ [_ E]]. Qed.
End Reads.

(** ** One user *)

Section OneUser.
Context {P R J : Type} `{PgLaws P}.
Abbreviation W := (World P R J).

Lemma wp_query_user cols col v lock k h (w : W) Q :
  typed col v = true -> within (plus (S k) h) (w_pg w) ->
  (forall u w', unchanged w w' -> within (plus k h) (w_pg w') -> u ∈ users (tables_of w) ->
     has_val col v u = true -> Q (Ok (project_user cols u)) w') ->
  (forall e w', unchanged w w' -> foreign e = true -> IsNotFound e = true ->
     (forall u, u ∈ users (tables_of w) -> has_val col v u = false) -> Q (Err e) w') ->
  (forall e w', unchanged w w' -> foreign e = true -> h = None -> IsNotFound e = false ->
     Q (Err e) w') ->
  wp (on_pg (pg_one (users_where cols col v lock))) Q w.
Proof.
  intros Ht Hp H1 H2 H3. apply wp_on_pg. intros r p' E.
  destruct (one_where_bounded _ _ _ _ _ _ _ _ _ Ht Hp E) as (Hp' & Hv & Hr).
  destruct r as [row|e].
  - destruct Hr as (u & Hu & Hval & ->). by apply H1.
  - destruct Hr as [Hf [[Hn Hall]|[Hh Hn]]]; [by apply H2|by apply H3].
Qed.
End OneUser.

(** ** The balance read model against the tables *)

(** Every field of the hash holds the balance of its user. *)
Definition balance_coherent (T : Tables) (s : RedisState) : Prop :=
  forall i v, balance_of s i = Some v ->
    exists u, u ∈ users T /\ u_id u = i /\ v = Itoa (u_balance u).

#[global] Instance balance_coherent_proper : Proper ((≡) ==> (=) ==> iff) balance_coherent.
Proof.
  intros T1 T2 (E & _ & _) s s' <-. unfold balance_coherent. by setoid_rewrite E.
Qed.

Lemma balance_coherent_waited T s d :
  balance_coherent T s -> balance_coherent T (advance d s).
Proof. intros Hc i v Hv. by apply Hc. Qed.

Lemma balance_coherent_set T s s' u :
  u ∈ users T -> balance_was_set s s' (u_id u) (u_balance u) ->
  balance_coherent T s -> balance_coherent T s'.
Proof.
  intros Hu Hs Hc i x Hx. rewrite (balance_was_set_get _ _ _ _ _ Hs) in Hx.
  case_bool_decide as E; [|by apply Hc]. injection Hx as <-. by exists u.
Qed.

Lemma user_balance_range T u : schema_ok T -> u ∈ users T -> in_int64 (u_balance u) /\ in_int64 (u_id u).
Proof.
  intros Hok Hu. pose proof (ok_user_rows _ Hok) as Hr. rewrite Forall_forall in Hr.
  specialize (Hr _ Hu). unfold user_row_ok in Hr. bool_hyps.
  unfold in_int64, int64_min, int64_max in *. lia.
Qed.
