(* ===== verification/Auth.v ===== *)
(** * services/auth-service and internal/auth: register, login, logout *)

From S2P Require Import Prelude GoStrings Json Tables Sql Servers Db Logging RedisClient.
From S2P Require Import Consumer.

(** ** internal/auth/auth.go *)

Section Passwords.
Context {P R J : Type} `{Bcrypt}.
Abbreviation W := (World P R J).

Definition bcrypt_rounds_value (s : string) : Z :=
  if negb (bool_decide (s = "")) then
    match Atoi s with
    | Ok n => if (4 <=? n) && (n <=? 31) then n else 10
    | Err _ => 10
    end
  else 10.

Definition bcryptRounds : M W Z :=
  let* s := getenv "BCRYPT_ROUNDS" in ret (bcrypt_rounds_value s).

(** The salt is drawn inside [bcrypt.GenerateFromPassword]. *)
Definition HashPassword (pw : string) : M W (result string goerr) :=
  let* cost := bcryptRounds in
  let* salt := on_host (fun h => h_entropy h (h_pos h)) in
  match bcrypt_generate pw cost salt with
  | Err err => ret (Err (EWrap "hash password" err))
  | Ok hash => ret (Ok hash)
  end.

Definition VerifyPassword (pw hash : string) : bool := bcrypt_compare hash pw.
End Passwords.

(** ** crypto.go *)

Section Digits.
Context {P R J : Type}.
Abbreviation W := (World P R J).

Fixpoint randomDigits (n : nat) : M W string :=
  match n with
  | O => ret ""
  | S n' =>
      let* idx := rand_below 10 in
      let* rest := randomDigits n' in
      ret (String (byte_chr (48 + idx)) rest)
  end.
End Digits.

(** ** handlers.go *)

Record credentials := MkCredentials { cr_Phone : string; cr_Username : string; cr_Password : string }.

Definition credentials_fields : list (string * setter credentials) :=
  [("phone", set_string (fun s p => MkCredentials s (cr_Username p) (cr_Password p)));
   ("username", set_string (fun s p => MkCredentials (cr_Phone p) s (cr_Password p)));
   ("password", set_string (fun s p => MkCredentials (cr_Phone p) (cr_Username p) s))].

Definition decode_credentials : json -> result credentials goerr :=
  unmarshal_struct credentials_fields (MkCredentials "" "" "").

Definition isDigits (s : string) : bool :=
  if bool_decide (s = "") then false
  else forallb (fun p => negb ((p.1 <? 48) || (57 <? p.1))) (runes s).

Definition maxAttempts : nat := 20.

Definition register_returning : list user_col := [CId; CPhone; CAccountNumber; CUsername; CBalance].

Section Handlers.
Context {P R J : Type} `{PgServer P} `{RedisServer R} `{Bcrypt}.
Abbreviation W := (World P R J).

Definition register_reply (u : User) : goany :=
  Reply 201 (JMap [("id", JInt (u_id u)); ("phone", JStr (mask_phone (u_phone u)));
                   ("username", JStr (u_username u));
                   ("account_number", JStr (u_account_number u));
                   ("balance", JInt (u_balance u))]).

(** The insert loop over the attempts that are left. *)
Fixpoint register_loop (attempts : nat) (phone username pwHash : string)
    : M W (result goany goerr) :=
  match attempts with
  | O => ret (Ok (Reply 503 (detail "Cannot generate account number")))
  | S attempts' =>
      let* acctNumber := randomDigits 12 in
      let* r := on_pg (pg_one (InsertUser phone acctNumber username pwHash register_returning)) in
      match r with
      | Err err =>
          if IsUniqueViolation err
          then ret (Ok (Reply 409 (detail "Phone already registered")))
          else if IsNotFound err then register_loop attempts' phone username pwHash
          else ret (Err (EWrap "insert user" err))
      | Ok u => ret (Ok (register_reply u))
      end
  end.

Definition handleRegister : Handler W :=
  fun _ _ raw _ =>
    match unmarshal_raw decode_credentials raw with
    | Err _ => ret (Ok (Reply 400 (detail "invalid payload")))
    | Ok p =>
        let phone := TrimSpace (cr_Phone p) in
        if negb (isDigits phone)
        then ret (Ok (Reply 400 (detail "Phone must be digits only")))
        else
          let* h := HashPassword (cr_Password p) in
          match h with
          | Err err => ret (Err (EWrap "hash password" err))
          | Ok pwHash =>
              let username := TrimSpace (cr_Username p) in
              register_loop maxAttempts phone username pwHash
          end
    end.

Definition cached_of (row : User) : CachedUser :=
  MkCachedUser (u_id row) (u_phone row) (u_username row) (u_account_number row)
    (u_password_hash row) (u_balance row) (u_is_admin row).

Definition login_reply (sid : string) (u : CachedUser) : goany :=
  Reply 200 (JMap [("session", JStr sid); ("phone", JStr (mask_phone (cu_phone u)));
                   ("username", JStr (cu_username u));
                   ("account_number", JStr (cu_account_number u));
                   ("balance", JInt (cu_balance u)); ("is_admin", JBool (cu_is_admin u))]).

(** The lookup of the user: a cache hit, or the row and a back-fill of the
    cache whose failure is only logged. [None] is an unknown user. *)
Definition login_user (phone username : string) : M W (result (option CachedUser) goerr) :=
  let* c := (if negb (bool_decide (phone = "")) then GetUserCacheByPhone phone
             else GetUserCacheByUsername username) in
  match c with
  | Err err => ret (Err (EWrap "get user cache" err))
  | Ok (Some cached) => ret (Ok (Some cached))
  | Ok None =>
      let '(col, val) := UserIdentifierCol "" phone username in
      let* r := on_pg (QueryUser col (SText val)) in
      match r with
      | Err err =>
          if IsNotFound err then ret (Ok None) else ret (Err (EWrap "query user" err))
      | Ok row =>
          let cu := cached_of row in
          let* _ := SetUserCache cu in
          ret (Ok (Some cu))
      end
  end.

Definition handleLogin : Handler W :=
  fun _ _ raw _ =>
    match unmarshal_raw decode_credentials raw with
    | Err _ => ret (Ok (Reply 400 (detail "invalid payload")))
    | Ok p =>
        let phone := TrimSpace (cr_Phone p) in
        let username := TrimSpace (cr_Username p) in
        if bool_decide (phone = "") && bool_decide (username = "")
        then ret (Ok (Reply 400 (detail "Missing phone/username")))
        else if negb (bool_decide (phone = "")) && negb (isDigits phone)
        then ret (Ok (Reply 400 (detail "Phone must be digits only")))
        else
          let* r := login_user phone username in
          match r with
          | Err err => ret (Err err)
          | Ok None => ret (Ok (Reply 401 (detail "Invalid credentials")))
          | Ok (Some u) =>
              if negb (VerifyPassword (cr_Password p) (cu_password_hash u))
              then ret (Ok (Reply 401 (detail "Invalid credentials")))
              else
                let* s := CreateSession (cu_id u) in
                match s with
                | Err err => ret (Err (EWrap "create session" err))
                | Ok sid => ret (Ok (login_reply sid u))
                end
          end
    end.

Definition handleLogout : Handler W :=
  fun _ _ _ headers =>
    let sid := header headers "x-session" in
    let* r := DeleteSession sid in
    match r with
    | Some err => ret (Err (EWrap "delete session" err))
    | None => ret (Ok (Reply 204 JNull))
    end.
End Handlers.
