(* ===== verification/AuthFacts.v ===== *)
(** * Register, login and logout: specification and proofs *)

From S2P Require Import Prelude GoStrings Json JsonFacts Tables Sql SqlFacts Servers Db.
From S2P Require Import PgFacts TxFacts Logging RedisClient RedisFacts ReadFacts Consumer Auth.

(** ** Account numbers *)

Section Digits.
Context {P R J : Type}.
Abbreviation W := (World P R J).

(** Only draws are made. *)
Definition draws (w w' : W) : Prop :=
  w_pg w' = w_pg w /\ w_rd w' = w_rd w /\ w_js w' = w_js w /\
  h_env (w_host w') = h_env (w_host w).

#[global] Instance draws_preorder : PreOrder draws.
Proof.
  split; unfold draws; [by intros w|].
  intros w1 w2 w3 (-> & -> & -> & ->) (-> & -> & -> & ->). done.
Qed.

Lemma digit_byte z : 0 <= z < 10 -> is_digit (byte_chr (48 + z)) = true.
Proof.
  intros Hz. assert (z ∈ seqZ 0 10) as Hin by (apply elem_of_seqZ; lia).
  assert (Forall (fun z => is_digit (byte_chr (48 + z)) = true) (seqZ 0 10)) as Hall
    by (apply (bool_decide_unpack _); by vm_compute).
  rewrite Forall_forall in Hall. auto.
Qed.

Lemma randomDigits_spec n (w : W) :
  wp (randomDigits n)
    (fun s w' => String.length s = n /\ all_bytes is_digit s = true /\ draws w w') w.
Proof.
  revert w. induction n as [|n IH]; intros w; simpl; [by apply wp_ret|].
  apply wp_bind, wp_on_host, wp_bind. eapply wp_mono; [apply IH|].
  intros rest w' (Hl & Hd & Hw). apply wp_ret. split_and!.
  - simpl. by rewrite Hl.
  - cbn [all_bytes]. rewrite digit_byte, Hd; [done|]. by apply Z.mod_pos_bound.
  - etransitivity; [|exact Hw]. done.
Qed.
End Digits.

(** ** Register *)

(** The new user, and the tables with it. *)
Inductive registered `{Bcrypt} (phone username password : string) (T : Tables)
  : User -> Tables -> Prop :=
| registered_intro id acct hash T' :
    String.length acct = 12%nat -> all_bytes is_digit acct = true ->
    bcrypt_compare hash password = true -> all_bytes is_ascii hash = true ->
    id ∉ user_ids T -> acct ∉ map u_account_number (users T) ->
    phone ∉ map u_phone (users T) ->
    let u := MkUser id phone acct username hash default_balance false in
    user_row_ok u = true ->
    users T' ≡ₚ u :: users T -> transfers T' ≡ₚ transfers T ->
    notifications T' ≡ₚ notifications T ->
    registered phone username password T u T'.

Lemma registered_equiv `{Bcrypt} phone username password T1 T2 u T1' T2' :
  T1 ≡ T2 -> T1' ≡ T2' -> registered phone username password T1 u T1' ->
  registered phone username password T2 u T2'.
Proof.
  intros (Eu & Et & En) (Eu' & Et' & En') Hr.
  destruct Hr as [id acct hash T' Hl Hd Hb Hasc Hi Ha Hp u Hok Hu Ht Hn].
  apply registered_intro; try done; unfold user_ids in *;
    rewrite <- ?Eu, <- ?Et, <- ?En, <- ?Eu', <- ?Et', <- ?En'; done.
Qed.

Inductive register_answer `{Bcrypt} (phone username password : string) (T T' : Tables)
  : result goany goerr -> Prop :=
| ra_created u :
    registered phone username password T u T' ->
    register_answer phone username password T T' (Ok (register_reply u))
| ra_taken :
    phone ∈ map u_phone (users T) -> T ≡ T' ->
    register_answer phone username password T T'
      (Ok (Reply 409 (detail "Phone already registered")))
| ra_no_number :
    T ≡ T' ->
    register_answer phone username password T T'
      (Ok (Reply 503 (detail "Cannot generate account number")))
| ra_failed e :
    T ≡ T' -> register_answer phone username password T T' (Err e)
| ra_unknown e u :
    registered phone username password T u T' ->
    register_answer phone username password T T' (Err e).

(** The reply only shows selected columns. *)
Lemma register_reply_project u :
  register_reply (project_user register_returning u) = register_reply u.
Proof. destruct u. reflexivity. Qed.

(** The outcome of one insertion. *)
Lemma insert_user_run ilike phone acct username hash ret env T :
  one_run ilike (InsertUser phone acct username hash ret) env T =
    let u := MkUser (nth_id (env_user_ids env) 0) phone acct username hash default_balance false in
    if negb (user_row_ok u) then Err (FState c_too_long)
    else if bool_decide (acct ∈ map u_account_number (users T)) then Err FNoRows
    else if bool_decide (phone ∈ map u_phone (users T)) then Err (FState c_unique)
    else Ok (project_user ret u, with_users T (users T ++ [u])).
Proof.
  unfold one_run. cbn [stmt_run]. cbn zeta.
  destruct (negb _); [done|]. destruct (bool_decide _); [done|]. by destruct (bool_decide _).
Qed.

Section Register.
Context {P R J : Type} `{PgLaws P} `{Bcrypt}.
Abbreviation W := (World P R J).

Lemma insert_user_ok h phone acct username hash password p p' row :
  String.length acct = 12%nat -> all_bytes is_digit acct = true ->
  bcrypt_compare hash password = true -> all_bytes is_ascii hash = true ->
  bounded_outcome h (one_run pg_ilike
    (InsertUser phone acct username hash register_returning)) (pg_view p) (Ok row) (pg_view p') ->
  exists u, registered phone username password (pg_view p) u (pg_view p') /\
            row = project_user register_returning u.
Proof.
  intros Hl Hd Hb Hasc Ho. apply bounded_ok in Ho as (env & T0 & T1 & E0 & He & Er & E1).
  rewrite insert_user_run in Er. cbn zeta in Er.
  destruct (negb _) eqn:Eok; [done|]. destruct (bool_decide _) eqn:Ea; [done|].
  destruct (bool_decide _) eqn:Ep in Er; [done|]. bool_hyps. injection Er as <- <-.
  eexists. split; [|reflexivity].
  eapply registered_equiv; [symmetry; exact E0|exact E1|].
  apply registered_intro; try done; [by apply user_id_fresh|].
  simpl. by rewrite Permutation_app_comm.
Qed.

Lemma insert_user_lost h phone acct username hash password p p' e :
  String.length acct = 12%nat -> all_bytes is_digit acct = true ->
  bcrypt_compare hash password = true -> all_bytes is_ascii hash = true ->
  bounded_outcome h (one_run pg_ilike
    (InsertUser phone acct username hash register_returning)) (pg_view p) (Err e) (pg_view p') ->
  (pg_view p ≡ pg_view p' /\
   (IsUniqueViolation e = true -> phone ∈ map u_phone (users (pg_view p))) /\
   (h <> None -> IsUniqueViolation e = false -> IsNotFound e = false ->
      char_len phone > 20 \/ char_len username > 50 \/ char_len hash > 255 \/
      char_len acct > 20) /\
   (h <> None -> IsNotFound e = true -> acct ∈ map u_account_number (users (pg_view p))))
  \/ (h = None /\ IsUniqueViolation e = false /\ IsNotFound e = false /\
      exists u, registered phone username password (pg_view p) u (pg_view p')).
Proof.
  intros Hl Hd Hb Hasc Ho. inversion Ho as [|env T0 f e0 T' E0 He Er Hrep E1|e0 T' Hh Hf E1
    |env T0 b T1 e0 T' Hh Hlost E0 He Er E1]; subst.
  - left. split; [done|].
    rewrite insert_user_run in Er. cbn zeta in Er. pose proof E0 as (Eu & _ & _). rewrite Eu.
    destruct (negb _) eqn:Eok; [|destruct (bool_decide _) eqn:Ea;
      [|destruct (bool_decide _) eqn:Ep in Er; [|done]]]; injection Er as <-; bool_hyps.
    + destruct (reports_state _ _ Hrep) as [Hnf Hc]. split_and!.
      * unfold IsUniqueViolation. rewrite Hc. intros Hx. by bool_hyps.
      * intros _ _ _. destruct (user_id_fresh env T0 He) as [Hid _].
        unfold user_row_ok, in_int64 in *. simpl in *.
        unfold default_balance, int64_max, int64_min in *.
        rewrite !andb_false_iff in Eok. lia.
      * by rewrite Hnf.
    + pose proof (reports_no_rows _ Hrep) as Hnf. split_and!; [|by rewrite Hnf|done].
      unfold reports in Hrep. bool_hyps.
      unfold IsUniqueViolation, pgErrCode. intros Hx.
      match goal with Hn : errors_As_pg e = None |- _ => by rewrite Hn in Hx end.
    + destruct (reports_state _ _ Hrep) as [Hnf Hc]. split_and!; [done| |by rewrite Hnf].
      intros _. unfold IsUniqueViolation. by rewrite Hc.
  - left. split_and!; try done. by rewrite server_fault_not_unique.
  - right. destruct (reply_lost_code _ Hlost) as [_ Hu]. split_and!; try done.
    + by apply server_fault_found, reply_lost_fault.
    + assert (bounded_outcome None (one_run pg_ilike
        (InsertUser phone acct username hash register_returning)) (pg_view p) (Ok b) (pg_view p'))
        as Hok by exact (bo_ok _ _ _ _ _ _ _ _ E0 He Er E1).
      destruct (insert_user_ok _ _ _ _ _ password _ _ _ Hl Hd Hb Hasc Hok) as (u & Hu' & _). eauto.
Qed.

(** The insertion loop, under any budget for its attempts. *)
Lemma register_loop_spec n h phone username hash password (w : W) :
  bcrypt_compare hash password = true -> all_bytes is_ascii hash = true ->
  within (plus n h) (w_pg w) ->
  wp (register_loop n phone username hash)
    (fun r w' =>
       w_rd w' = w_rd w /\ w_js w' = w_js w /\ h_env (w_host w') = h_env (w_host w) /\
       register_answer phone username password (tables_of w) (tables_of w') r /\
       (h <> None -> phone ∉ map u_phone (users (tables_of w)) ->
        char_len phone <= 20 -> char_len username <= 50 -> char_len hash <= 255 ->
        (exists u, r = Ok (register_reply u)) \/
        r = Ok (Reply 503 (detail "Cannot generate account number")))) w.
Proof.
  intros Hb Hasc. revert w. induction n as [|n IH]; intros w Hw.
  { apply wp_ret. split_and!; try done; [by apply ra_no_number|by right]. }
  cbn [register_loop]. apply wp_bind. eapply wp_mono; [apply randomDigits_spec|].
  intros acct w1 (Hl & Hd & Epg & Erd & Ejs & Eenv).
  apply wp_bind, wp_on_pg. intros r p1 E. rewrite Epg in E.
  destruct (one_bounded _ _ _ _ _ _ Hw E) as [Ho Hp1].
  destruct r as [row|e].
  - destruct (insert_user_ok _ _ _ _ _ password _ _ _ Hl Hd Hb Hasc Ho) as (u & Hreg & ->).
    apply wp_ret. rewrite register_reply_project.
    split_and!; try done; [by apply ra_created|]. intros. left. by exists u.
  - destruct (insert_user_lost _ _ _ _ _ password _ _ _ Hl Hd Hb Hasc Ho)
      as [(Hsame & Huv & Hlong & _)|(Hh & Hu & Hn & u & Hreg)].
    + destruct (IsUniqueViolation e) eqn:Eu.
      { apply wp_ret. split_and!; try done; [apply ra_taken; auto|].
        intros _ Hp. by destruct Hp; auto. }
      destruct (IsNotFound e) eqn:En.
      * eapply wp_mono; [by apply (IH (set_pg w1 p1))|].
        intros r w' (Erd' & Ejs' & Eenv' & Hans & Hcomp).
        assert (users (pg_view p1) ≡ₚ users (tables_of w)) as Eus by (by rewrite <- Hsame).
        split_and!; simpl in *; try congruence.
        -- unfold tables_of in *. simpl in *.
           destruct Hans as [u Hr|Hp E1|E1|e1 E1|e1 u Hr].
           ++ apply ra_created. eapply registered_equiv; [symmetry; exact Hsame|done|done].
           ++ apply ra_taken; [by rewrite <- Eus|by etransitivity].
           ++ apply ra_no_number. by etransitivity.
           ++ apply ra_failed. by etransitivity.
           ++ apply (ra_unknown _ _ _ _ _ _ u).
              eapply registered_equiv; [symmetry; exact Hsame|done|done].
        -- intros Hh Hp. apply Hcomp; [done|]. unfold tables_of. simpl. by rewrite Eus.
      * apply wp_ret. split_and!; try done; [by apply ra_failed|].
        intros Hh _ H20 H50 H255. exfalso.
        destruct (Hlong Hh eq_refl eq_refl) as [?|[?|[?|Hacct]]]; try lia.
        unfold char_len in Hacct. pose proof (runes_length_ascii acct "") as Hlen.
        rewrite str_app_nil_r in Hlen. rewrite Hlen, Hl in Hacct; [simpl in Hacct; lia|].
        eapply all_bytes_impl; [apply digit_ascii|done].
    + rewrite Hu, Hn. apply wp_ret. split_and!; try done.
      by apply (ra_unknown _ _ _ _ _ _ u).
Qed.
End Register.

(** The request that is executed: phone, username, password. *)
Definition register_request (raw : option json) : option (string * string * string) :=
  match unmarshal_raw decode_credentials raw with
  | Err _ => None
  | Ok p =>
      if isDigits (TrimSpace (cr_Phone p))
      then Some (TrimSpace (cr_Phone p), TrimSpace (cr_Username p), cr_Password p) else None
  end.

Lemma registered_total `{Bcrypt} phone username password T u T' :
  registered phone username password T u T' ->
  total_balance T' = total_balance T + default_balance /\
  length (users T') = S (length (users T)).
Proof.
  intros [id acct hash T2 _ _ _ _ _ _ _ v _ Hu _ _]. unfold total_balance. rewrite Hu.
  unfold sumZ. simpl. lia.
Qed.

Section RegisterHandler.
Context {P R J : Type} `{PgLaws P} `{RedisServer R} `{BcryptLaws}.
Abbreviation W := (World P R J).

Lemma HashPassword_spec pw (w : W) :
  wp (HashPassword pw)
    (fun r w' => draws w w' /\
       match r with
       | Ok hash => bcrypt_compare hash pw = true /\ all_bytes is_ascii hash = true
       | Err _ => exists cost salt e, bcrypt_generate pw cost salt = Err e
       end) w.
Proof.
  unfold HashPassword, bcryptRounds. apply wp_bind, wp_bind, wp_getenv, wp_ret, wp_bind, wp_on_host.
  destruct (bcrypt_generate _ _ _) as [hash|e] eqn:E; apply wp_ret; (split; [done|]); [|by eauto].
  split; [by eapply bcrypt_verifies|by eapply bcrypt_ascii].
Qed.

Lemma handleRegister_spec h ctx action raw headers (w : W) :
  within (plus maxAttempts h) (w_pg w) ->
  wp (handleRegister ctx action raw headers)
    (fun r w' =>
       w_rd w' = w_rd w /\ w_js w' = w_js w /\ h_env (w_host w') = h_env (w_host w) /\
       match register_request raw with
       | None => w_pg w' = w_pg w /\ exists msg, r = Ok (Reply 400 (detail msg))
       | Some (phone, username, password) =>
           register_answer phone username password (tables_of w) (tables_of w') r
       end) w.
Proof.
  intros Hw. unfold handleRegister, register_request.
  destruct (unmarshal_raw decode_credentials raw) as [p|e].
  2: { apply wp_ret. split_and!; eauto. }
  destruct (isDigits (TrimSpace (cr_Phone p))) eqn:Ed; simpl.
  2: { apply wp_ret. split_and!; eauto. }
  apply wp_bind. eapply wp_mono; [apply HashPassword_spec|].
  intros [hash|e] w1 [(Epg & Erd & Ejs & Eenv) Hh]; [destruct Hh as [Hh Hascii]|].
  - eapply wp_mono.
    + apply (register_loop_spec maxAttempts h _ _ hash (cr_Password p)); [done|done|by rewrite Epg].
    + intros r w' (E1 & E2 & E3 & Hans & _). unfold tables_of in *. rewrite Epg in Hans.
      split_and!; congruence.
  - apply wp_ret. split_and!; try done. unfold tables_of. rewrite Epg. by apply ra_failed.
Qed.

Lemma handleRegister_schema ctx action raw headers :
  keeps (on_tables schema_kept) (handleRegister (P:=P) (R:=R) (J:=J) ctx action raw headers).
Proof.
  assert (forall n, keeps (on_tables schema_kept) (randomDigits (P:=P) (R:=R) (J:=J) n)) as Hd.
  { induction n as [|n IH]; simpl; repeat first
      [ apply keeps_on_host; apply _ | apply keeps_ret; apply _ | exact IH
      | apply keeps_bind; [apply _| |intros ?] ]. }
  assert (forall n a b c, keeps (on_tables schema_kept)
            (register_loop (P:=P) (R:=R) (J:=J) n a b c)) as Hl.
  { induction n as [|n IH]; intros a b c; cbn [register_loop]; repeat first
      [ apply Hd | apply keeps_ret; apply _ | apply IH
      | apply keeps_pg_one; [apply _|]; apply one_respects_schema
      | apply keeps_bind; [apply _| |intros ?] | case_match ]. }
  unfold handleRegister, HashPassword, bcryptRounds. repeat first
    [ apply Hl | apply keeps_ret; apply _ | apply keeps_on_host; apply _
    | apply keeps_getenv; apply _
    | apply keeps_bind; [apply _| |intros ?] | progress cbn zeta | case_match ].
Qed.
End RegisterHandler.

(** ** The user cache and the table

    What an entry of the cache may hold: the row of the user it is filed
    under, with any balance. *)
Definition cache_value (T : Tables) (key : User -> string) (name data : string) : Prop :=
  exists u b, u ∈ users T /\ key u = name /\ in_int64 b /\
              data = Marshal (encode_CachedUser (cached_of (set_balance u b))).

Definition entry_ok (T : Tables) (k data : string) : Prop :=
  (forall name, k = phone_cache_key name -> cache_value T u_phone name data) /\
  (forall name, k = username_cache_key name -> cache_value T u_username name data).

Definition cache_coherent (T : Tables) (s : RedisState) : Prop :=
  forall k data exp, rs_kv s !! k = Some (data, exp) -> entry_ok T k data.

(** Texts in the database are UTF-8. *)
Definition text_ok (T : Tables) : Prop :=
  forall u, u ∈ users T ->
    utf8_valid (u_phone u) = true /\ utf8_valid (u_username u) = true /\
    utf8_valid (u_account_number u) = true /\ utf8_valid (u_password_hash u) = true.

Lemma cache_coherent_advance T s d : cache_coherent T s -> cache_coherent T (advance d s).
Proof. done. Qed.

Lemma cache_coherent_set T s s' k v ttl :
  was_set s s' k v ttl -> entry_ok T k v -> cache_coherent T s -> cache_coherent T s'.
Proof.
  intros (d & _ & ->) Hk Hc k' data exp. simpl.
  intros [[<- [= <- <-]]|[_ Hl]]%lookup_insert_Some; [done|]. by eapply Hc.
Qed.

(** Entries for other keys than the two kinds are free. *)
Lemma entry_ok_other T k v :
  (forall n, k <> phone_cache_key n) -> (forall n, k <> username_cache_key n) -> entry_ok T k v.
Proof. intros Hp Hu. split; intros n Hn; [by destruct (Hp n)|by destruct (Hu n)]. Qed.

Lemma cache_value_mono T T' key name data :
  (forall u, u ∈ users T -> exists u', u' ∈ users T' /\ exists b, u = set_balance u' b) ->
  (forall u b, key (set_balance u b) = key u) ->
  cache_value T key name data -> cache_value T' key name data.
Proof.
  intros Hsub Hkey (u & b & Hu & Hn & Hb & Hd).
  destruct (Hsub u Hu) as (u' & Hu' & b' & ->). rewrite Hkey in Hn.
  exists u', b. by split_and!.
Qed.

(** Coherence survives balance changes and new users. *)
Lemma cache_coherent_mono T T' s :
  (forall u, u ∈ users T -> exists u', u' ∈ users T' /\ exists b, u = set_balance u' b) ->
  cache_coherent T s -> cache_coherent T' s.
Proof.
  intros Hsub Hc k data exp Hl. destruct (Hc k data exp Hl) as [Hp Hu].
  split; intros name Hk; eapply cache_value_mono; eauto.
Qed.

Lemma set_balance_id u : set_balance u (u_balance u) = u.
Proof. by destruct u. Qed.

Lemma cache_read_value T u b :
  text_ok T -> schema_ok T -> u ∈ users T -> in_int64 b ->
  let cu := cached_of (set_balance u b) in
  cache_read (Marshal (encode_CachedUser cu)) =
    if go_len (Marshal (encode_CachedUser cu)) <=? 512 then Ok (Some cu)
    else Err (EWrap "get user cache" err_buffer).
Proof.
  intros Ht Hok Hu Hb cu. unfold cache_read. destruct (_ <=? 512); [|done].
  destruct (Ht u Hu) as (H1 & H2 & H3 & H4).
  pose proof (ok_user_rows _ Hok) as Hrows. rewrite Forall_forall in Hrows.
  specialize (Hrows u Hu). unfold user_row_ok in Hrows. bool_hyps.
  rewrite CachedUser_text; try done. unfold in_int64. simpl. lia.
Qed.

(** The users that a login request names. *)
Definition login_names (phone username : string) (u : User) : bool :=
  if bool_decide (phone = "") then bool_decide (u_username u = username)
  else bool_decide (u_phone u = phone).

(** An entry that the buffer of the cache client cannot hold. *)
Definition oversized (u : User) (b : Z) : Prop :=
  512 < go_len (Marshal (encode_CachedUser (cached_of (set_balance u b)))).

(** Equivalent tables have the same caches. *)
Lemma cache_coherent_same T T' s :
  T ≡ T' -> cache_coherent T s -> cache_coherent T' s.
Proof.
  intros E. apply cache_coherent_mono. intros v Hv. exists v.
  split; [by rewrite <- E|]. exists (u_balance v). by rewrite set_balance_id.
Qed.

Section Login.
Context {P R J : Type} `{PgLaws P} `{RedisLaws R} `{Bcrypt}.
Abbreviation W := (World P R J).
Abbreviation rview w := (redis_view (w_rd w)).

Lemma SetUserCache_spec k h u Q (w : W) :
  u ∈ users (tables_of w) -> in_int64 (u_balance u) ->
  cache_coherent (tables_of w) (rview w) -> rwithin (plus (S (S k)) h) (w_rd w) ->
  (forall r w', rd_only w w' -> rwithin (plus k h) (w_rd w') ->
     cache_coherent (tables_of w) (rview w') -> Q r w') ->
  wp (SetUserCache (cached_of u)) Q w.
Proof.
  intros Hu Hb Hc Hw HQ. unfold SetUserCache, userCacheTTL.
  set (T := tables_of w) in *.
  assert (cache_value T u_phone (u_phone u) (Marshal (encode_CachedUser (cached_of u))) /\
          cache_value T u_username (u_username u) (Marshal (encode_CachedUser (cached_of u))))
    as [Hv1 Hv2]
    by (split; exists u, (u_balance u); by rewrite set_balance_id).
  assert (entry_ok T (phone_cache_key (u_phone u)) (Marshal (encode_CachedUser (cached_of u))))
    as He1.
  { split; intros n Hn; [by apply phone_cache_key_inj in Hn as <-|].
    by apply phone_not_username in Hn. }
  assert (entry_ok T (username_cache_key (u_username u)) (Marshal (encode_CachedUser (cached_of u))))
    as He2.
  { split; intros n Hn; [by apply eq_sym, phone_not_username in Hn|].
    by apply app_inj_l in Hn as <-. }
  apply wp_bind, wp_bind, wp_getenv, wp_ret, wp_bind, (rset_spec (S k) h); [done|].
  intros w1 Hrd Hh Hw1. split.
  - intros Hs1. pose proof (cache_coherent_set _ _ _ _ _ _ Hs1 He1 Hc) as Hc1.
    simpl. destruct (negb _); [|apply wp_ret; apply HQ; [done|by apply rwithin_mono|done]].
    apply wp_bind, (rset_spec k h); [done|]. intros w2 Hrd2 Hh2 Hw2. split.
    + intros Hs2. apply wp_ret, HQ; [by etransitivity|done|].
      by eapply cache_coherent_set.
    + intros e Hn He [Hs2|(d & _ & E)]; apply wp_ret, HQ; try done; try by etransitivity.
      * by eapply cache_coherent_set.
      * by rewrite E.
  - intros e Hn He Hs. apply wp_ret, HQ; [done|by apply rwithin_mono|].
    destruct Hs as [Hs|(d & _ & E)]; [by eapply cache_coherent_set|by rewrite E].
Qed.

(** What the lookup of the user of a login ends in: the user, possibly with a
    balance that is out of date, or nobody, or an error, which without
    faults can only be a cache entry that is too long. *)
Definition login_post (k : nat) (h : option nat) (phone username : string) (w : W)
    (r : result (option CachedUser) goerr) (w' : W) : Prop :=
  tables_of w ≡ tables_of w' /\ w_js w' = w_js w /\
  h_env (w_host w') = h_env (w_host w) /\
  cache_coherent (tables_of w) (rview w') /\ rwithin (plus k h) (w_rd w') /\
  match r with
  | Ok (Some cu) => exists u b,
      u ∈ users (tables_of w) /\ login_names phone username u = true /\ in_int64 b /\
      cu = cached_of (set_balance u b)
  | Ok None =>
      forall u, u ∈ users (tables_of w) -> login_names phone username u = false
  | Err e => h = None \/ exists u b,
      u ∈ users (tables_of w) /\ login_names phone username u = true /\
      in_int64 b /\ oversized u b
  end.

Definition login_key (phone username : string) : string :=
  if bool_decide (phone = "") then "username:" +:+ username else "phone:" +:+ phone.

Lemma login_entry T phone username data :
  entry_ok T ("user_cache:" +:+ login_key phone username) data ->
  exists u b, u ∈ users T /\ login_names phone username u = true /\ in_int64 b /\
    data = Marshal (encode_CachedUser (cached_of (set_balance u b))).
Proof.
  intros [Hp Hu]. unfold login_names, login_key in *. destruct (bool_decide (phone = "")).
  - destruct (Hu username eq_refl) as (u & b & Hin & Hn & Hb & Hd). exists u, b.
    split_and!; try done. by apply bool_decide_eq_true.
  - destruct (Hp phone eq_refl) as (u & b & Hin & Hn & Hb & Hd). exists u, b.
    split_and!; try done. by apply bool_decide_eq_true.
Qed.

(** The lookup after a miss of the cache. *)
Definition login_row (phone username : string) : M W (result (option CachedUser) goerr) :=
  let '(col, val) := UserIdentifierCol "" phone username in
  let* r := on_pg (QueryUser col (SText val)) in
  match r with
  | Err err =>
      if IsNotFound err then ret (Ok None) else ret (Err (EWrap "query user" err))
  | Ok row => let* _ := SetUserCache (cached_of row) in ret (Ok (Some (cached_of row)))
  end.

Lemma login_row_spec k h phone username (w w1 : W) :
  schema_ok (tables_of w) -> rd_only w w1 -> cache_coherent (tables_of w) (rview w1) ->
  within (plus 1 h) (w_pg w) -> rwithin (plus (S (S k)) h) (w_rd w1) ->
  wp (login_row phone username) (login_post k h phone username w) w1.
Proof.
  intros Hok (Epg1 & Ejs1 & Eenv1) Hc1 Hpg Hw1. unfold login_row, login_post.
  set (T := tables_of w) in *. set (cv := UserIdentifierCol "" phone username).
  assert (forall u, has_val cv.1 (SText cv.2) u = login_names phone username u) as Hval.
  { intros u. unfold cv, UserIdentifierCol, login_names, has_val. simpl.
    destruct (bool_decide (phone = "")); simpl; apply bool_decide_ext; split; congruence. }
  assert (typed cv.1 (SText cv.2) = true) as Hty
    by (unfold cv, UserIdentifierCol; simpl; by destruct (bool_decide (phone = ""))).
  clearbody cv. destruct cv as [col val]. apply wp_bind, wp_on_pg. intros r p2 E. rewrite Epg1 in E.
  destruct (one_where_bounded _ _ _ _ _ _ _ _ _ Hty Hpg E) as (_ & Hsame & Hr).
  change (T ≡ pg_view p2) in Hsame. change (users (pg_view (w_pg w))) with (users T) in Hr.
  destruct r as [row|e].
  - destruct Hr as (u & Hu & Hv & ->).
    rewrite project_all by (intros c; destruct c; unfold UserCols; set_solver).
    pose proof (user_balance_range T u Hok Hu) as [Hb _].
    apply wp_bind, (SetUserCache_spec k h); [|done| |done|].
    + unfold tables_of. simpl. by rewrite <- Hsame.
    + unfold tables_of. simpl. by apply (cache_coherent_same T).
    + intros r w' (Epg' & Ejs' & Eenv') Hw' Hc'. apply wp_ret.
      unfold tables_of in *. simpl in *. rewrite Epg'. split_and!; try congruence; try done.
      * by apply (cache_coherent_same (pg_view p2)).
      * exists u, (u_balance u). rewrite set_balance_id. by rewrite <- Hval.
  - destruct Hr as [Hf [[Hn Hall]|[Hh Hn]]]; rewrite Hn; apply wp_ret;
      (split_and!; try done; [by do 2 apply rwithin_mono|]).
    + intros u Hu. rewrite <- Hval. by apply Hall.
    + by left.
Qed.

Lemma login_user_spec k h phone username (w : W) :
  schema_ok (tables_of w) -> text_ok (tables_of w) ->
  cache_coherent (tables_of w) (rview w) ->
  within (plus 1 h) (w_pg w) -> rwithin (plus (S (S (S k))) h) (w_rd w) ->
  wp (login_user phone username) (login_post k h phone username w) w.
Proof.
  intros Hok Ht Hc Hpg Hw. set (key := login_key phone username). unfold login_user. apply wp_bind.
  assert ((if negb (bool_decide (phone = "")) then GetUserCacheByPhone phone
           else GetUserCacheByUsername username) = GetUserCache (P:=P) (R:=R) (J:=J) key) as ->
    by (unfold key, login_key; by destruct (bool_decide _)).
  apply (GetUserCache_spec (S (S k)) h); [done|].
  intros w1 [Hrd1 (d1 & Hd1 & Ev1)] Hw1. pose proof Hrd1 as (Epg1 & Ejs1 & Eenv1).
  assert (tables_of w1 = tables_of w) as ET1 by (unfold tables_of; by rewrite Epg1).
  assert (cache_coherent (tables_of w) (rview w1)) as Hc1 by by rewrite Ev1.
  split.
  2: { intros e Hn He. apply wp_ret. unfold login_post. rewrite ET1. split_and!; try done; [|by left].
       by do 2 apply rwithin_mono. }
  destruct (live_get (rview w1) ("user_cache:" +:+ key)) as [data|] eqn:El.
  - assert (entry_ok (tables_of w) ("user_cache:" +:+ key) data) as He.
    { unfold live_get in El. destruct (rs_kv (rview w1) !! _) as [[v exp]|] eqn:Ek; [|done].
      assert (v = data) as -> by (destruct exp; [destruct (_ <? _)|]; congruence).
      by eapply Hc1. }
    destruct (login_entry _ _ _ _ He) as (u & b & Hu & Hn & Hb & ->).
    rewrite (cache_read_value (tables_of w) u b) by done.
    destruct (_ <=? 512) eqn:Esize; apply wp_ret; unfold login_post; rewrite ET1;
      (split_and!; try done; [by do 2 apply rwithin_mono|]); [by exists u, b|].
    right. exists u, b. split_and!; try done. unfold oversized. lia.
  - exact (login_row_spec k h phone username w w1 Hok Hrd1 Hc1 Hpg Hw1).
Qed.
End Login.

(** ** Login and logout *)

(** The request that is looked up: phone, username, password. *)
Definition login_request (raw : option json) : option (string * string * string) :=
  match unmarshal_raw decode_credentials raw with
  | Err _ => None
  | Ok p =>
      let phone := TrimSpace (cr_Phone p) in
      let username := TrimSpace (cr_Username p) in
      if bool_decide (phone = "") && bool_decide (username = "") then None
      else if negb (bool_decide (phone = "")) && negb (isDigits phone) then None
      else Some (phone, username, cr_Password p)
  end.

Inductive login_answer `{Bcrypt} (raw : option json) (T : Tables) (s' : RedisState)
  : result goany goerr -> Prop :=
| la_invalid msg :
    login_request raw = None -> login_answer raw T s' (Ok (Reply 400 (detail msg)))
| la_denied phone username password :
    login_request raw = Some (phone, username, password) ->
    (forall u, u ∈ users T -> login_names phone username u = false) \/
    (exists u, u ∈ users T /\ login_names phone username u = true /\
               bcrypt_compare (u_password_hash u) password = false) ->
    login_answer raw T s' (Ok (Reply 401 (detail "Invalid credentials")))
| la_session phone username password u b sid :
    login_request raw = Some (phone, username, password) ->
    u ∈ users T -> login_names phone username u = true ->
    bcrypt_compare (u_password_hash u) password = true ->
    live_get s' (session_key sid) = Some (Itoa (u_id u)) ->
    login_answer raw T s' (Ok (login_reply sid (cached_of (set_balance u b))))
| la_failed e : login_answer raw T s' (Err e).

Lemma session_of_live_id s sid id :
  sid <> "" -> in_int64 id -> live_get s (session_key sid) = Some (Itoa id) ->
  session_of s sid = Some id.
Proof.
  intros Hs Hid Hl. unfold session_of, Atoi.
  by rewrite bool_decide_eq_false_2, Hl, ParseInt_Itoa.
Qed.

Section LoginHandler.
Context {P R J : Type} `{PgLaws P} `{RedisLaws R} `{Bcrypt}.
Abbreviation W := (World P R J).
Abbreviation rview w := (redis_view (w_rd w)).

Lemma handleLogin_spec k h ctx action raw headers (w : W) :
  schema_ok (tables_of w) -> text_ok (tables_of w) ->
  cache_coherent (tables_of w) (rview w) ->
  within (plus 1 h) (w_pg w) -> rwithin (plus (4 + k) h) (w_rd w) ->
  wp (handleLogin ctx action raw headers)
    (fun r w' =>
       tables_of w ≡ tables_of w' /\ w_js w' = w_js w /\
       cache_coherent (tables_of w) (rview w') /\ rwithin (plus k h) (w_rd w') /\
       login_answer raw (tables_of w) (rview w') r /\
       (forall e, r = Err e -> h = None \/ exists phone username password u b,
          login_request raw = Some (phone, username, password) /\
          u ∈ users (tables_of w) /\ login_names phone username u = true /\ in_int64 b /\
          oversized u b)) w.
Proof.
  intros Hok Ht Hc Hpg Hw. set (T := tables_of w) in *.
  assert (rwithin (plus k h) (w_rd w)) as Hw0 by (by do 4 apply rwithin_mono).
  unfold handleLogin.
  destruct (unmarshal_raw decode_credentials raw) as [p|e] eqn:Eraw.
  2: { apply wp_ret. split_and!; try done. apply la_invalid. unfold login_request. by rewrite Eraw. }
  set (phone := TrimSpace (cr_Phone p)). set (username := TrimSpace (cr_Username p)).
  assert (login_request raw =
    if bool_decide (phone = "") && bool_decide (username = "") then None
    else if negb (bool_decide (phone = "")) && negb (isDigits phone) then None
    else Some (phone, username, cr_Password p)) as Hreq
    by (unfold login_request; by rewrite Eraw).
  cbn zeta. fold phone username.
  destruct (_ && _) eqn:E1; [apply wp_ret; split_and!; try done; by apply la_invalid|].
  destruct (negb _ && negb _) eqn:E2; [apply wp_ret; split_and!; try done; by apply la_invalid|].
  apply wp_bind. eapply wp_mono;
    [by apply (login_user_spec (S k) h phone username w)|].
  intros r w1 (Hsame & Ejs & Eenv & Hc1 & Hw1 & Hr). fold T in Hsame, Hc1, Hr.
  destruct r as [[cu|]|e].
  - destruct Hr as (u & b & Hu & Hn & Hb & ->).
    pose proof (ok_user_rows _ Hok) as Hrows. rewrite Forall_forall in Hrows.
    specialize (Hrows u Hu). unfold user_row_ok in Hrows. bool_hyps.
    unfold VerifyPassword. simpl.
    destruct (bcrypt_compare (u_password_hash u) (cr_Password p)) eqn:Ev; simpl.
    2: { apply wp_ret. split_and!; try done; [by apply rwithin_mono|].
         eapply la_denied; [done|]. right. by exists u. }
    apply wp_bind, (CreateSession_spec k h); [done|].
    set (sid := h_uuid _ _). intros w2 (Epg2 & Ejs2 & Eenv2) Hw2.
    assert (tables_of w2 = tables_of w1) as ET2 by (unfold tables_of; by rewrite Epg2).
    assert (entry_ok T (session_key sid) (Itoa (u_id u))) as Hentry
      by (apply entry_ok_other; intros n; apply session_not_cache).
    split.
    + intros Hs. apply wp_ret. split_and!; try congruence.
      * by eapply cache_coherent_set.
      * eapply (la_session _ _ _ phone username (cr_Password p) u b); try done.
        pose proof (was_set_live _ _ _ _ _ (session_key sid) Hs) as Hlive.
        by rewrite bool_decide_eq_true_2 in Hlive.
    + intros e Hn' He Hs. apply wp_ret. split_and!; try congruence.
      * destruct Hs as [Hs|(d & _ & E)]; [by eapply cache_coherent_set|by rewrite E].
      * apply la_failed.
      * by left.
  - apply wp_ret. split_and!; try done; [by apply rwithin_mono|].
    eapply la_denied; [done|]. by left.
  - apply wp_ret. split_and!; try done; [by apply rwithin_mono|apply la_failed|].
    intros _ _. destruct Hr as [Hh|(u & b & Hu & Hn & Hb & Hov)]; [by left|]. right.
    by exists phone, username, (cr_Password p), u, b.
Qed.
End LoginHandler.

Section Delete.
Context {P R J : Type} `{RedisLaws R}.
Abbreviation W := (World P R J).
Abbreviation rview w := (redis_view (w_rd w)).

(** Deleting a session. *)
Lemma DeleteSession_spec k h sid Q (w : W) :
  rwithin (plus (S k) h) (w_rd w) ->
  (forall w', rd_only w w' -> rwithin (plus k h) (w_rd w') ->
     ((exists d, 0 <= d /\ forall key, live_get (rview w') key =
         if bool_decide (key = session_key sid /\ sid <> "") then None
         else live_get (advance d (rview w)) key) -> Q None w') /\
     (forall e, h = None -> redis_fault e = true -> Q (Some e) w')) ->
  wp (DeleteSession sid) Q w.
Proof.
  intros Hw HQ. unfold DeleteSession. destruct (bool_decide (sid = "")) eqn:Es; bool_hyps.
  - apply wp_ret, HQ; [done|by apply rwithin_mono|]. exists 0. split; [lia|]. intros key.
    rewrite bool_decide_eq_false_2 by naive_solver.
    destruct (rview w). unfold advance. simpl. by rewrite Z.add_0_r.
  - apply wp_bind, (rdel_spec k h); [done|]. intros w' Hrd Hw'.
    destruct (HQ w' Hrd Hw') as [HQ1 HQ2]. split.
    + intros x (d & Hd & Hl). apply wp_ret, HQ1. exists d. split; [done|]. intros key.
      rewrite Hl. do 2 case_bool_decide; naive_solver.
    + intros e Hn He. by apply wp_ret, HQ2.
Qed.
End Delete.
