(* ===== verification/Account.v ===== *)
(** * services/account-service: profile, balance, lookup, admin pages

    The handlers of handlers.go and admin.go, statement by statement, with
    [paginate] and [resolveUserNames]. The text of a timestamp ([fmt_time])
    depends on the time zone of the process. *)

From S2P Require Import Prelude GoStrings GoScan Json Tables Sql Servers Db Logging.
From S2P Require Import RedisClient Consumer.

(** ** handlers.go *)

(** userToAdminView, of admin.go. *)
Definition userToAdminView (u : User) : json :=
  JMap [("id", JInt (u_id u)); ("phone", JStr (mask_phone (u_phone u)));
        ("account_number", JStr (u_account_number u)); ("username", JStr (u_username u));
        ("balance", JInt (u_balance u)); ("is_admin", JBool (u_is_admin u))].

Record lookupPayload := MkLookup { l_AccountNumber : string; l_Phone : string; l_Username : string }.

Definition lookupPayload_fields : list (string * setter lookupPayload) :=
  [("account_number", set_string (fun s p => MkLookup s (l_Phone p) (l_Username p)));
   ("phone", set_string (fun s p => MkLookup (l_AccountNumber p) s (l_Username p)));
   ("username", set_string (fun s p => MkLookup (l_AccountNumber p) (l_Phone p) s))].

Definition decode_lookupPayload : json -> result lookupPayload goerr :=
  unmarshal_struct lookupPayload_fields (MkLookup "" "" "").

Definition maxPage : Z := 200.

(** The value of a query parameter that [ok] accepts, or the default. *)
Definition page_param (s : string) (default : Z) (ok : Z -> bool) : Z :=
  match Atoi s with
  | Ok v => if (0 <? v) && ok v then v else default
  | Err _ => default
  end.

Definition paginate (raw : option json) : Z * Z :=
  match unmarshal_raw unmarshal_map raw with
  | Err _ => (1, 20)
  | Ok m =>
      let page := page_param (map_get m "page") 1 (fun _ => true) in
      let size := page_param (map_get m "size") 20 (fun v => v <=? 100) in
      (if maxPage <? page then maxPage else page, size)
  end.

(** [(total + size - 1) / size]. *)
Definition page_count (total size : Z) : Z := Z.quot (wrap64 (total + size - 1)) size.

(** The search term: decoded into a struct of its own, errors ignored. *)
Definition search_term (raw : option json) : string :=
  match unmarshal_raw (unmarshal_struct [("search", set_string (fun s _ => s))] "") raw with
  | Ok s => TrimSpace s
  | Err _ => ""
  end.

Definition search_where (search : string) : option (sexpr user_col) :=
  if negb (bool_decide (search = "")) then
    let pattern := "%" +:+ search +:+ "%" in
    Some (EOr (EOr (EILike (ECol CUsername) pattern) (EILike (ECol CPhone) pattern))
              (EILike (ECol CAccountNumber) pattern))
  else None.

(** Deduplication that keeps the first occurrences. *)
Fixpoint unique_from (seen : list Z) (ids : list Z) : list Z :=
  match ids with
  | [] => []
  | id :: ids' =>
      if bool_decide (id ∈ seen) then unique_from seen ids'
      else id :: unique_from (id :: seen) ids'
  end.

Definition unique_ids (ids : list Z) : list Z := unique_from [] ids.

(** A row of [SELECT COUNT] with a [SUM] that is NUMERIC in the database is
    scanned into an [int64]. *)
Definition scan_sum (r : result (Z * Z) goerr) : result (Z * Z) goerr :=
  match r with
  | Ok (n, s) => if decide (in_int64 s) then Ok (n, s) else Err (EOther "scan: value out of range")
  | Err e => Err e
  end.

Record adminStats := MkStats {
  s_users : Z; s_total_balance : Z; s_transfers : Z; s_volume : Z; s_notifications : Z;
}.

Definition read_only_opts : TxOptions := {| tx_serializable := false; tx_read_only := true |}.

Section Stats.
Context {P R J : Type} `{PgServer P}.

(** The callback of the transaction [tx], with the captured variables. *)
Definition stats_queries {X} (tx : forall A, (P -> A * P) -> M X A)
    : M (adminStats * X) (option goerr) :=
  let* r := in_tx (tx _ (pg_one SumUsers)) in
  match scan_sum r with
  | Err err => ret (Some (EWrap "query user stats" err))
  | Ok (count, total) =>
      let* _ := assign (fun st =>
        MkStats count total (s_transfers st) (s_volume st) (s_notifications st)) in
      let* r := in_tx (tx _ (pg_one SumTransfers)) in
      match scan_sum r with
      | Err err => ret (Some (EWrap "query transfer stats" err))
      | Ok (count, volume) =>
          let* _ := assign (fun st =>
            MkStats (s_users st) (s_total_balance st) count volume (s_notifications st)) in
          let* r := in_tx (tx _ (pg_one CountNotifications)) in
          match r with
          | Err err => ret (Some err)
          | Ok n =>
              let* _ := assign (fun st =>
                MkStats (s_users st) (s_total_balance st) (s_transfers st) (s_volume st) n) in
              ret None
          end
      end
  end.
End Stats.

Section Handlers.
Context {P R J : Type} `{PgServer P} `{RedisServer R}.
Abbreviation W := (World P R J).
Context (fmt_time : Z -> string).

Definition handleMe : Handler W :=
  fun ctx _ _ _ =>
    let '(userID, _) := UserIDFromContext ctx in
    let* r := on_pg (QueryUser CId (SInt userID)) in
    match r with
    | Err err =>
        if IsNotFound err then ret (Ok (Reply 404 (detail "User not found")))
        else ret (Err (EWrap "query user" err))
    | Ok u => ret (Ok (Reply 200 (userToAdminView u)))
    end.

Definition queryBalanceFromDB (userID : Z) : M W (result Z goerr) :=
  let* r := on_pg (pg_one (users_where [CBalance] CId (SInt userID) false)) in
  ret (rmap u_balance r).

Definition handleBalance : Handler W :=
  fun ctx _ _ _ =>
    let '(userID, _) := UserIDFromContext ctx in
    let* r := GetBalance userID in
    match r with
    | Err err => ret (Err (EWrap "get balance" err))
    | Ok (Some balance) => ret (Ok (Reply 200 (JMap [("balance", JInt balance)])))
    | Ok None =>
        let* r := queryBalanceFromDB userID in
        match r with
        | Err err =>
            if IsNotFound err then ret (Ok (Reply 404 (detail "User not found")))
            else ret (Err (EWrap "get balance" err))
        | Ok balance =>
            let* _ := SetBalance userID balance in
            ret (Ok (Reply 200 (JMap [("balance", JInt balance)])))
        end
    end.

Definition handleLookup : Handler W :=
  fun _ _ raw _ =>
    match unmarshal_raw decode_lookupPayload raw with
    | Err _ => ret (Ok (Reply 400 (detail "invalid payload")))
    | Ok p0 =>
        let p := MkLookup (TrimSpace (l_AccountNumber p0)) (TrimSpace (l_Phone p0))
                   (TrimSpace (l_Username p0)) in
        if bool_decide (l_AccountNumber p = "") && bool_decide (l_Phone p = "") &&
           bool_decide (l_Username p = "")
        then ret (Ok (Reply 400 (detail "provide account_number, phone, or username")))
        else
          let '(col, val) := UserIdentifierCol (l_AccountNumber p) (l_Phone p) (l_Username p) in
          let* r := on_pg (QueryUser col (SText val)) in
          match r with
          | Err err =>
              if IsNotFound err then ret (Ok (Reply 404 (detail "User not found")))
              else ret (Err (EWrap "lookup user" err))
          | Ok u =>
              ret (Ok (Reply 200 (JMap [("id", JInt (u_id u));
                                        ("account_number", JStr (u_account_number u));
                                        ("username", JStr (u_username u))])))
          end
    end.

(** ** admin.go *)

Definition stats_answer (st : adminStats) : result goany goerr :=
  Ok (Reply 200 (JMap [("user_count", JInt (s_users st)); ("transfer_count", JInt (s_transfers st));
                       ("total_balance", JInt (s_total_balance st));
                       ("total_transfer_amount", JInt (s_volume st));
                       ("total_notifications", JInt (s_notifications st))])).

Definition handleAdminStats : Handler W :=
  fun _ _ _ _ =>
    let* (err, st) := RunInTx read_only_opts (fun X tx => stats_queries tx) (MkStats 0 0 0 0 0) in
    match err with
    | Some err => ret (Err (EWrap "query admin stats" err))
    | None => ret (stats_answer st)
    end.

(** The reply of the three paginated lists. *)
Definition page_reply (name : string) (rows : list json) (total page size : Z) : goany :=
  Reply 200 (JMap [(name, JArr rows); ("total", JInt total); ("page", JInt page);
                   ("size", JInt size); ("pages", JInt (page_count total size))]).

Definition handleAdminUsers : Handler W :=
  fun _ _ raw _ =>
    let '(page, size) := paginate raw in
    let w := search_where (search_term raw) in
    let* r := on_pg (pg_all (SelectUsers UserCols
                (MkQuery w (Some (CId, true)) (Some size) ((page - 1) * size) false))) in
    match r with
    | Err err => ret (Err (EWrap "query users" err))
    | Ok rows =>
        let* t := on_pg (pg_one (CountUsers w)) in
        match t with
        | Err err => ret (Err (EWrap "count users" err))
        | Ok total =>
            ret (Ok (page_reply "users" (map userToAdminView rows) total page size))
        end
    end.

Definition resolveUserNames (ids : list Z) : M W (result (gmap Z string) goerr) :=
  if bool_decide (ids = []) then ret (Ok ∅)
  else
    let unique := unique_ids ids in
    let* r := on_pg (pg_all (SelectUsers [CId; CUsername]
                (MkQuery (Some (EAny (ECol CId) unique)) None None 0 false))) in
    match r with
    | Err err => ret (Err (EWrap "query usernames" err))
    | Ok rows => ret (Ok (fold_left (fun m u => <[u_id u := u_username u]> m) rows ∅))
    end.

(** transferResponse: a struct, so its fields keep their order. *)
Definition transferResponse (names : gmap Z string) (t : Transfer) : json :=
  JObj [("id", JInt (t_id t)); ("from_user", JInt (t_from_user t));
        ("to_user", JInt (t_to_user t));
        ("from_username", JStr (default "" (names !! t_from_user t)));
        ("to_username", JStr (default "" (names !! t_to_user t)));
        ("amount", JInt (t_amount t)); ("created_at", JStr (fmt_time (t_created_at t)))].

Definition handleAdminTransfers : Handler W :=
  fun _ _ raw _ =>
    let '(page, size) := paginate raw in
    let* t := on_pg (pg_one CountTransfers) in
    match t with
    | Err err => ret (Err (EWrap "count transfers" err))
    | Ok total =>
        let offset := (page - 1) * size in
        let* found := (if offset <? total then
          let* r := on_pg (pg_all (SelectTransfers
                      (MkQuery None (Some (TId, true)) (Some size) offset false))) in
          match r with
          | Err err => ret (Err (EWrap "query transfers" err))
          | Ok transfers =>
              let ids := concat (map (fun t => [t_from_user t; t_to_user t]) transfers) in
              let* names := resolveUserNames ids in
              match names with
              | Err err => ret (Err err)
              | Ok names => ret (Ok (transfers, names))
              end
          end
        else ret (Ok ([], ∅))) in
        match found with
        | Err err => ret (Err err)
        | Ok (transfers, names) =>
            ret (Ok (page_reply "transfers" (map (transferResponse names) transfers)
                       total page size))
        end
    end.

Definition handleAdminNotifications : Handler W :=
  fun _ _ raw _ =>
    let '(page, size) := paginate raw in
    let* r := on_pg (pg_all (SelectNotifications
                (MkQuery None (Some (NId, true)) (Some size) ((page - 1) * size) false))) in
    match r with
    | Err err => ret (Err (EWrap "query notifications" err))
    | Ok notifs =>
        let* t := on_pg (pg_one CountNotifications) in
        match t with
        | Err err => ret (Err (EWrap "count notifications" err))
        | Ok total =>
            ret (Ok (page_reply "notifications" (map (NotificationToMap fmt_time) notifs)
                       total page size))
        end
    end.

Definition handleAdminUserDetail : Handler W :=
  fun _ _ raw _ =>
    match unmarshal_raw unmarshal_map raw with
    | Err _ => ret (Ok (Reply 400 (detail "invalid payload")))
    | Ok params =>
        let userIDStr := TrimSpace (map_get params "user_id") in
        if bool_decide (userIDStr = "")
        then ret (Ok (Reply 400 (detail "user_id is required")))
        else
          match Sscan_int userIDStr with
          | Err _ => ret (Ok (Reply 400 (detail "user_id must be a positive integer")))
          | Ok targetID =>
              if targetID <=? 0
              then ret (Ok (Reply 400 (detail "user_id must be a positive integer")))
              else
                let* r := on_pg (QueryUser CId (SInt targetID)) in
                match r with
                | Err err =>
                    if IsNotFound err then ret (Ok (Reply 404 (detail "User not found")))
                    else ret (Err (EWrap "query user detail" err))
                | Ok u => ret (Ok (Reply 200 (userToAdminView u)))
                end
          end
    end.
End Handlers.
