(* ===== verification/AccountFacts.v ===== *)
(** * account-service: specification and proofs *)

From S2P Require Import Prelude GoStrings GoScan Json Tables Sql SqlFacts Servers Db PgFacts.
From S2P Require Import TxFacts ReadFacts Logging RedisClient RedisFacts Consumer Account.

(** ** Pagination *)

Lemma page_param_cases s d ok :
  page_param s d ok = d \/ (0 < page_param s d ok /\ ok (page_param s d ok) = true).
Proof.
  unfold page_param. destruct (Atoi s) as [v|]; [|by left].
  destruct ((0 <? v) && ok v) eqn:E; [|by left]. bool_hyps. right. split; [lia|done].
Qed.

Lemma paginate_range raw :
  1 <= (paginate raw).1 <= maxPage /\ 1 <= (paginate raw).2 <= 100.
Proof.
  unfold paginate, maxPage. destruct (unmarshal_raw unmarshal_map raw) as [m|]; [|simpl; lia].
  pose proof (page_param_cases (map_get m "page") 1 (fun _ => true)) as Hp.
  pose proof (page_param_cases (map_get m "size") 20 (fun v => v <=? 100)) as Hs.
  simpl. destruct (200 <? _) eqn:E; simpl; lia.
Qed.

Lemma page_count_ceil total size :
  0 <= total <= int64_max - 100 -> 1 <= size <= 100 ->
  page_count total size = (total + size - 1) / size /\
  (page_count total size - 1) * size < total + size /\ total <= page_count total size * size.
Proof.
  intros Ht Hs. unfold page_count.
  rewrite wrap64_id by (unfold in_int64, int64_min, int64_max in *; lia).
  rewrite Z.quot_div_nonneg by lia. split; [done|].
  pose proof (Z.div_mod (total + size - 1) size ltac:(lia)).
  pose proof (Z.mod_pos_bound (total + size - 1) size ltac:(lia)). nia.
Qed.

(** One page of a listing, and all its pages. *)
Definition page_of {A} (page size : Z) (l : list A) : list A :=
  take (Z.to_nat size) (drop (Z.to_nat ((page - 1) * size)) l).

Lemma pages_prefix {A} (size : Z) (n : nat) (l : list A) :
  1 <= size ->
  concat (map (fun p => page_of (Z.of_nat p) size l) (seq 1 n)) = take (n * Z.to_nat size) l.
Proof.
  intros Hs. induction n as [|n IH]; [done|].
  rewrite seq_S, map_app, concat_app, IH. cbn [map concat]. rewrite app_nil_r.
  unfold page_of. replace (Z.to_nat ((Z.of_nat (1 + n) - 1) * size)) with (n * Z.to_nat size)%nat
    by lia.
  replace (S n * Z.to_nat size)%nat with (n * Z.to_nat size + Z.to_nat size)%nat by lia.
  apply take_take_drop.
Qed.

Definition searched (ilike : string -> string -> bool) (search : string) (u : User) : bool :=
  bool_decide (search = "") ||
  (let pattern := "%" +:+ search +:+ "%" in
   ilike (u_username u) pattern || ilike (u_phone u) pattern || ilike (u_account_number u) pattern).

Lemma matches_search ilike search u :
  matches ilike get_user (search_where search) u = Ok (searched ilike search u).
Proof.
  unfold search_where, searched. destruct (bool_decide (search = "")); [done|]. simpl.
  by repeat match goal with |- context [ilike ?a ?b] => destruct (ilike a b) end.
Qed.

(** ** The statements of the administrator pages *)

Section Statements.
Context (ilike : string -> string -> bool).

(** The users that a search finds. *)
Definition found (search : string) (T : Tables) : list User :=
  List.filter (searched ilike search) (users T).

Lemma found_perm search T1 T2 : T1 ≡ T2 -> found search T1 ≡ₚ found search T2.
Proof. intros (E & _ & _). by apply filter_perm. Qed.

Lemma filter_search search rs :
  filter_rows ilike get_user (search_where search) rs =
    Ok (List.filter (searched ilike search) rs).
Proof. apply filter_rows_pure. intros u. apply matches_search. Qed.

Lemma found_ids search T : schema_ok T -> NoDup (map u_id (found search T)).
Proof. intros Hok. apply NoDup_map_filter, Hok. Qed.

Lemma run_users_page search page size env T T0 :
  schema_ok T0 -> T0 ≡ T ->
  stmt_run ilike (SelectUsers UserCols
    (MkQuery (search_where search) (Some (CId, true)) (Some size) ((page - 1) * size) false)) env T
  = Ok (page_of page size (newest u_id (found search T0)), T).
Proof.
  intros Hok E. rewrite E in Hok. simpl. unfold run_query. cbn [q_where q_order q_limit q_offset].
  rewrite filter_search. cbn [rmap].
  rewrite (order_rows_newest get_user CId u_id) by (done || by apply (found_ids search T)).
  rewrite map_project_user_cols. do 2 f_equal. unfold limit_rows, page_of. do 2 f_equal.
  apply newest_perm; [by apply (found_ids search T)|]. by apply (found_perm search T T0).
Qed.

Lemma run_count_users search env T T0 :
  T0 ≡ T ->
  stmt_run ilike (CountUsers (search_where search)) env T
  = Ok ([Z.of_nat (length (found search T0))], T).
Proof. intros E. simpl. rewrite filter_search. cbn [rmap]. by rewrite (found_perm search T0 T). Qed.

Lemma run_transfers_page page size env T T0 :
  schema_ok T0 -> T0 ≡ T ->
  stmt_run ilike (SelectTransfers
    (MkQuery None (Some (TId, true)) (Some size) ((page - 1) * size) false)) env T
  = Ok (page_of page size (newest t_id (transfers T0)), T).
Proof.
  intros Hok E. rewrite E in Hok. simpl. unfold run_query. cbn [q_where q_order q_limit q_offset].
  rewrite (filter_rows_pure _ _ _ (fun _ => true)) by done. cbn [rmap].
  rewrite filter_true. rewrite (order_rows_newest get_transfer TId t_id) by (done || by apply Hok).
  do 2 f_equal. unfold limit_rows, page_of. do 2 f_equal.
  apply newest_perm; [by apply Hok|]. symmetry. apply E.
Qed.

Lemma run_notifications_page page size env T T0 :
  schema_ok T0 -> T0 ≡ T ->
  stmt_run ilike (SelectNotifications
    (MkQuery None (Some (NId, true)) (Some size) ((page - 1) * size) false)) env T
  = Ok (page_of page size (newest n_id (notifications T0)), T).
Proof.
  intros Hok E. rewrite E in Hok. simpl. unfold run_query. cbn [q_where q_order q_limit q_offset].
  rewrite (filter_rows_pure _ _ _ (fun _ => true)) by done. cbn [rmap].
  rewrite filter_true.
  rewrite (order_rows_newest get_notification NId n_id) by (done || by apply Hok).
  do 2 f_equal. unfold limit_rows, page_of. do 2 f_equal.
  apply newest_perm; [by apply Hok|]. symmetry. apply E.
Qed.
End Statements.

(** ** Usernames *)

Lemma unique_from_spec seen ids :
  NoDup (unique_from seen ids) /\
  forall i, i ∈ unique_from seen ids <-> i ∈ ids /\ i ∉ seen.
Proof.
  revert seen. induction ids as [|x ids IH]; intros seen; simpl.
  - split; [constructor|]. set_solver.
  - destruct (IH seen) as [Hn1 He1]. destruct (IH (x :: seen)) as [Hn2 He2].
    case_bool_decide as Hx; [split; [done|]; set_solver|]. split.
    + constructor; [|done]. rewrite He2. set_solver.
    + intros i. rewrite elem_of_cons, He2. destruct (decide (i = x)) as [->|]; set_solver.
Qed.

Lemma unique_ids_spec ids : NoDup (unique_ids ids) /\ forall i, i ∈ unique_ids ids <-> i ∈ ids.
Proof. destruct (unique_from_spec [] ids) as [Hn He]. split; [done|]. set_solver. Qed.

(** The map that the rows of the batch query fill. *)
Definition names_of (rows : list User) : gmap Z string :=
  fold_left (fun m u => <[u_id u := u_username u]> m) rows ∅.

(** The usernames of all users. *)
Definition usernames (T : Tables) : gmap Z string := names_of (users T).

Lemma names_from rows (m : gmap Z string) i n :
  NoDup (map u_id rows) ->
  fold_left (fun m u => <[u_id u := u_username u]> m) rows m !! i = Some n <->
  (exists u, u ∈ rows /\ u_id u = i /\ u_username u = n) \/
  (i ∉ map u_id rows /\ m !! i = Some n).
Proof.
  revert m. induction rows as [|u rows IH]; intros m; simpl.
  - intros _. split; [intros E; right; split; [set_solver|done]|].
    intros [(u & Hu & _)|[_ E]]; [set_solver|done].
  - intros [Hu Hn]%NoDup_cons. rewrite IH by done. split.
    + intros [(v & Hv & <- & <-)|[Hi E]]; [left; exists v; by split; [right|]|].
      destruct (decide (u_id u = i)) as [<-|Hne].
      * rewrite lookup_insert_eq in E. injection E as <-. left. exists u. by split; [left|].
      * rewrite lookup_insert_ne in E by done. right. split; [|done].
        rewrite elem_of_cons. by intros [->|?].
    + intros [(v & [->|Hv]%elem_of_cons & <- & <-)|[Hi E]].
      * right. split; [done|]. by rewrite lookup_insert_eq.
      * left. by exists v.
      * rewrite elem_of_cons in Hi. right. split; [tauto|].
        rewrite lookup_insert_ne; [done|]. intros E'. apply Hi. by left.
Qed.

Lemma names_of_spec rows i n :
  NoDup (map u_id rows) ->
  names_of rows !! i = Some n <-> exists u, u ∈ rows /\ u_id u = i /\ u_username u = n.
Proof.
  intros Hn. unfold names_of. rewrite names_from by done. rewrite lookup_empty. naive_solver.
Qed.

Lemma run_usernames ilike ids env T :
  stmt_run ilike (SelectUsers [CId; CUsername]
    (MkQuery (Some (EAny (ECol CId) ids)) None None 0 false)) env T
  = Ok (map (project_user [CId; CUsername])
          (List.filter (fun u => bool_decide (u_id u ∈ ids)) (users T)), T).
Proof.
  simpl. unfold run_query. cbn [q_where q_order q_limit q_offset].
  by rewrite (filter_rows_pure _ _ _ (fun u => bool_decide (u_id u ∈ ids)))
    by (intros u; simpl; by destruct (bool_decide _)).
Qed.

Lemma map_id_project (l : list User) :
  map u_id (map (project_user [CId; CUsername]) l) = map u_id l.
Proof. rewrite map_map. by apply map_ext. Qed.

(** ** The batch lookup *)

Section BatchLookup.
Context {P R J : Type} `{PgLaws P}.
Abbreviation W := (World P R J).

(** The batch lookup answers for exactly the identifiers it is given. *)
Lemma resolveUserNames_spec ids k h (w : W) Q :
  schema_ok (tables_of w) -> within (plus (S k) h) (w_pg w) ->
  (forall m w', unchanged w w' -> within (plus k h) (w_pg w') ->
     (forall i, i ∈ ids -> m !! i = usernames (tables_of w) !! i) -> Q (Ok m) w') ->
  (forall e w', h = None -> foreign e = true -> unchanged w w' -> Q (Err e) w') ->
  wp (resolveUserNames ids) Q w.
Proof.
  intros Hok Hp Hyes Hno. unfold resolveUserNames. case_bool_decide as Hids.
  { apply wp_ret, Hyes; [done| |].
    - destruct h as [n|]; [|done]. simpl in *. by apply pg_healthy_mono.
    - subst. by intros i ?%not_elem_of_nil. }
  apply wp_bind, wp_on_pg. intros r p' E.
  pose proof (pg_all_reads _ _ _ _ (eq_refl : reads (SelectUsers _ _) = true) E) as Hv.
  destruct (all_bounded _ _ _ _ _ _ Hp E) as [Ho Hp'].
  destruct r as [rows|e]; apply wp_ret.
  - apply bounded_ok in Ho as (env & T0 & T1 & E0 & _ & Er & _).
    apply all_run_all in Er. rewrite run_usernames in Er. injection Er as <- <-.
    apply Hyes; [done..|]. intros i Hi.
    apply option_eq. intros n. change (fold_left _ _ _) with
      (names_of (map (project_user [CId; CUsername])
         (List.filter (fun u => bool_decide (u_id u ∈ unique_ids ids)) (users T0)))).
    pose proof (ok_user_ids _ Hok) as Hn. unfold tables_of in *.
    assert (NoDup (map u_id (users T0))) as Hn0.
    { destruct E0 as (E0 & _ & _). by rewrite <- E0. }
    rewrite names_of_spec by (rewrite map_id_project; by apply NoDup_map_filter).
    unfold usernames. rewrite names_of_spec by done. destruct E0 as (E0 & _ & _).
    setoid_rewrite E0. split.
    + intros (v & Hv' & <- & <-). apply list_elem_of_fmap in Hv' as (u & -> & Hu).
      apply elem_of_filter_bool in Hu as [Hu _]. by exists u.
    + intros (u & Hu & <- & <-). exists (project_user [CId; CUsername] u). split; [|done].
      apply list_elem_of_fmap_2, elem_of_filter_bool. split; [done|].
      apply bool_decide_eq_true. by apply unique_ids_spec.
  - apply bounded_err in Ho as [Hfo [(env & T0 & x & E0 & _ & Er & _)|[Hh _]]].
    + unfold all_run in Er. by rewrite run_usernames in Er.
    + by apply Hno.
Qed.
End BatchLookup.

(** ** The statistics transaction *)

Definition stats_of (T : Tables) : adminStats :=
  MkStats (Z.of_nat (length (users T))) (total_balance T)
    (Z.of_nat (length (transfers T))) (sumZ (map t_amount (transfers T)))
    (Z.of_nat (length (notifications T))).

(** The sums fit the Go fields they are scanned into. *)
Definition sums_fit (T : Tables) : Prop :=
  in_int64 (total_balance T) /\ in_int64 (sumZ (map t_amount (transfers T))).

Lemma stats_of_proper T1 T2 : T1 ≡ T2 -> stats_of T1 = stats_of T2.
Proof.
  intros E. unfold stats_of. rewrite (total_balance_proper _ _ E).
  destruct E as (E1 & E2 & E3). by rewrite E1, E2, E3.
Qed.

#[global] Instance sums_fit_proper : Proper ((≡) ==> iff) sums_fit.
Proof. intros T1 T2 E. unfold sums_fit.
  rewrite (total_balance_proper _ _ E). destruct E as (_ & E2 & _). by rewrite E2. Qed.

Section StatsTx.
Context {P : Type} `{PgLaws P}.

Lemma sum_users_run env T0 T :
  T0 ≡ T -> stmt_run pg_ilike SumUsers env T =
    Ok ([(Z.of_nat (length (users T0)), total_balance T0)], T).
Proof. intros (E & _ & _). simpl. by rewrite <- E. Qed.

Lemma sum_transfers_run env T0 T :
  T0 ≡ T -> stmt_run pg_ilike SumTransfers env T =
    Ok ([(Z.of_nat (length (transfers T0)), sumZ (map t_amount (transfers T0)))], T).
Proof. intros (_ & E & _). simpl. by rewrite <- E. Qed.

Lemma count_notifications_run env T0 T :
  T0 ≡ T -> stmt_run pg_ilike CountNotifications env T =
    Ok ([Z.of_nat (length (notifications T0))], T).
Proof. intros (_ & _ & E). simpl. by rewrite <- E. Qed.

End StatsTx.

(** ** The names of a page of transfers *)

Lemma usernames_proper T1 T2 i :
  schema_ok T1 -> T1 ≡ T2 -> usernames T1 !! i = usernames T2 !! i.
Proof.
  intros Hok (E & _ & _). pose proof (ok_user_ids _ Hok) as Hn. unfold user_ids in Hn.
  assert (NoDup (map u_id (users T2))) as Hn2 by by rewrite <- E.
  apply option_eq. intros n. unfold usernames. rewrite !names_of_spec by done.
  by setoid_rewrite E.
Qed.

Lemma usernames_total T i :
  schema_ok T -> i ∈ user_ids T -> is_Some (usernames T !! i).
Proof.
  intros Hok (u & -> & Hu)%list_elem_of_fmap. exists (u_username u).
  apply names_of_spec; [apply Hok|]. by exists u.
Qed.

Lemma transfer_names T :
  schema_ok T -> forall t, t ∈ transfers T ->
  is_Some (usernames T !! t_from_user t) /\ is_Some (usernames T !! t_to_user t).
Proof.
  intros Hok t Ht. pose proof (ok_transfer_from _ Hok) as Hf.
  pose proof (ok_transfer_to _ Hok) as Hto. rewrite Forall_forall in Hf, Hto.
  split; apply usernames_total; auto.
Qed.

Lemma ids_of_transfers (ts : list Transfer) t :
  t ∈ ts ->
  t_from_user t ∈ concat (map (fun t => [t_from_user t; t_to_user t]) ts) /\
  t_to_user t ∈ concat (map (fun t => [t_from_user t; t_to_user t]) ts).
Proof.
  intros Ht. rewrite !list_elem_of_In, !in_concat.
  split; (eexists; split; [apply in_map, list_elem_of_In, Ht|simpl; auto]).
Qed.

(** ** The statistics handler *)

Section StatsHandler.
Context {P R J : Type} `{PgLaws P}.
Abbreviation W := (World P R J).

Lemma stats_queries_spec h st (w : W) Q :
  within (plus 4 h) (w_pg w) ->
  (forall w', unchanged w w' -> within (plus 1 h) (w_pg w') -> sums_fit (tables_of w) ->
     Q (None, stats_of (tables_of w)) w') ->
  (forall e st' w', unchanged w w' -> h = None \/ ~ sums_fit (tables_of w) -> Q (Some e, st') w') ->
  wp (with_vars (stats_queries (fun A f => on_pg f)) st) Q w.
Proof.
  intros Hp Hyes Hno. apply wp_with_vars. unfold stats_queries.
  apply wp_bind, wp_tx_stmt, (wp_one_pure _ (Z.of_nat (length (users (tables_of w))), total_balance (tables_of w)) 3 h);
    [done|intros env; by apply sum_users_run|done| |].
  2: { intros e w1 Hh _ E1. apply wp_ret, Hno; [done|by left]. }
  intros w1 U1 Hp1. unfold scan_sum at 1. case_decide as D1.
  2: { apply wp_ret, Hno; [done|]. right. intros [HT _]. by apply D1. }
  apply wp_bind, wp_assign, wp_bind, wp_tx_stmt, (wp_one_pure _ (Z.of_nat (length (transfers (tables_of w))),
                                 sumZ (map t_amount (transfers (tables_of w)))) 2 h);
    [done|intros env T ET; apply sum_transfers_run; transitivity (tables_of w1); [apply U1|done]|done| |].
  2: { intros e w2 Hh _ U2. apply wp_ret, Hno; [by transitivity w1|by left]. }
  intros w2 U2 Hp2. unfold scan_sum. case_decide as D2.
  2: { apply wp_ret, Hno; [by transitivity w1|]. right. intros [_ HT]. by apply D2. }
  assert (unchanged w w2) as U by by transitivity w1.
  apply wp_bind, wp_assign, wp_bind, wp_tx_stmt, (wp_one_pure _ (Z.of_nat (length (notifications (tables_of w)))) 1 h);
    [done|intros env T ET; apply count_notifications_run; transitivity (tables_of w2); [apply U|done]|done| |].
  2: { intros e w3 Hh _ U3. apply wp_ret, Hno; [by transitivity w2|by left]. }
  intros w3 U3 Hp3. apply wp_bind, wp_assign, wp_ret, Hyes; [by transitivity w2|done|done].
Qed.

Lemma stats_run (o : TxOptions) (h : budget) st (w : W) Q :
  tx_serializable o = false -> within (plus 5 h) (w_pg w) ->
  (forall w', unchanged w w' -> sums_fit (tables_of w) ->
     Q (None, stats_of (tables_of w)) w') ->
  (forall e st' w', unchanged w w' -> h = None \/ ~ sums_fit (tables_of w) ->
     Q (Some e, st') w') ->
  wp (RunInTx o (fun X tx => stats_queries tx) st) Q w.
Proof.
  intros Ho Hp Hyes Hno. unfold RunInTx. rewrite Ho. apply wp_bind, (wp_begin o 4 h); [done| |].
  2: { intros e w1 Hh U1. apply wp_ret, Hno; [done|by left]. }
  intros w1 U1 Hp1.
  assert (tables_of w ≡ tables_of w1) as E1 by apply U1.
  rewrite (stats_of_proper _ _ E1) in Hyes. pose proof (sums_fit_proper _ _ E1) as Efit.
  apply wp_bind, (stats_queries_spec h); [done|..].
  - intros w2 U2 Hp2 Hfit. apply wp_bind, (wp_end None 0 h); [done|..].
    + intros w3 U3 _. apply wp_ret, Hyes; [|by apply Efit]. transitivity w1; [done|by transitivity w2].
    + intros e w3 Hh U3. apply wp_ret, Hno; [|left; by apply Hh]. transitivity w1; [done|by transitivity w2].
  - intros e st' w2 U2 Hfit. apply wp_bind, (wp_end (Some e) 0 h); [done|done|].
    intros e' w3 _ U3. apply wp_ret, Hno; [|by rewrite Efit]. transitivity w1; [done|by transitivity w2].
Qed.
End StatsHandler.
