(* ===== verification/Notification.v ===== *)
(** * services/notification-service: list and acknowledge

    handlers.go as handlers of the RPC layer. *)

From S2P Require Import Prelude GoStrings Json Tables Sql Servers Db RedisClient Consumer.

(** ** handlers.go *)

Record ackPayload := MkAck { a_ID : Z }.

Definition decode_ackPayload : json -> result ackPayload goerr :=
  unmarshal_struct [("id", set_int (fun z _ => MkAck z))] (MkAck 0).

Section Handlers.
Context {P R J : Type} `{PgServer P} `{RedisServer R}.
Abbreviation W := (World P R J).
Context (fmt_time : Z -> string).

Definition own_notifications (userID : Z) : Stmt Notification :=
  SelectNotifications (MkQuery (Some (EEq (ECol NUserId) (EArg (SInt userID))))
                         (Some (NCreatedAt, true)) (Some 50) 0 false).

Definition notifications_reply (notifs : list Notification) : goany :=
  Reply 200 (JMap [("notifications", JArr (map (NotificationToMap fmt_time) notifs))]).

Definition handleNotifications : Handler W :=
  fun ctx _ _ _ =>
    let '(userID, _) := UserIDFromContext ctx in
    let* r := on_pg (pg_all (own_notifications userID)) in
    match r with
    | Err err =>
        if IsNotFound err then ret (Ok (notifications_reply []))
        else ret (Err (EWrap "query notifications" err))
    | Ok notifs => ret (Ok (notifications_reply notifs))
    end.

(** [UPDATE notifications SET is_read = true WHERE id = ? AND user_id = ?]. *)
Definition ack_update (id userID : Z) : Cmd :=
  UpdateNotifications true (EAnd (EEq (ECol NId) (EArg (SInt id)))
                                 (EEq (ECol NUserId) (EArg (SInt userID)))).

Definition handleAck : Handler W :=
  fun ctx _ raw _ =>
    let '(userID, _) := UserIDFromContext ctx in
    let bad := Ok (Reply 400 (detail "invalid payload: id required")) in
    match unmarshal_raw decode_ackPayload raw with
    | Err _ => ret bad
    | Ok p =>
        if a_ID p =? 0 then ret bad
        else
          let* r := on_pg (pg_exec (ack_update (a_ID p) userID)) in
          match r with
          | Err err => ret (Err (EWrap "ack notification" err))
          | Ok n =>
              if n =? 0 then ret (Ok (Reply 404 (detail "notification not found")))
              else ret (Ok (Reply 200 (JMap [("status", JStr "ok")])))
          end
    end.
End Handlers.
