(* ===== verification/NotificationFacts.v ===== *)
(** * Notifications: specification

    The rows that belong to a user, the acknowledgement as a function on the
    tables, and the statements that compute them. *)

From S2P Require Import Prelude GoStrings Json Tables Sql SqlFacts Servers Db PgFacts.
From S2P Require Import RedisClient Consumer Notification.

(** ** What the handlers compute *)

Definition own (userID : Z) (n : Notification) : bool := n_user_id n =? userID.

Definition owned (id userID : Z) (n : Notification) : bool :=
  (n_id n =? id) && (n_user_id n =? userID).

(** The tables with the notification [id] of [userID] read. *)
Definition flagged (id userID : Z) (T : Tables) : Tables :=
  with_notifications T
    (map (fun n => if owned id userID n then set_is_read n true else n) (notifications T)).

(** The identifier that an acknowledgement names. *)
Definition ack_request (raw : option json) : option Z :=
  match unmarshal_raw decode_ackPayload raw with
  | Ok p => if a_ID p =? 0 then None else Some (a_ID p)
  | Err _ => None
  end.

Lemma matches_own ilike userID n :
  matches ilike get_notification (Some (EEq (ECol NUserId) (EArg (SInt userID)))) n =
    Ok (own userID n).
Proof. unfold own. simpl. by destruct (n_user_id n =? userID). Qed.

Lemma ack_run ilike id userID env T :
  exec_run ilike (ack_update id userID) env T =
    Ok (Z.of_nat (length (List.filter (owned id userID) (notifications T))), flagged id userID T).
Proof.
  unfold exec_run. simpl.
  rewrite (update_notifications_total _ _ _ (owned id userID)); [done|].
  intros n. unfold owned. simpl. by destruct (n_id n =? id), (n_user_id n =? userID).
Qed.

Lemma flagged_proper id userID T1 T2 : T1 ≡ T2 -> flagged id userID T1 ≡ flagged id userID T2.
Proof.
  intros (E1 & E2 & E3). split_and!; [done|done|]. by apply Permutation_map.
Qed.
