(* ===== verification/WebSocket.v ===== *)
(** * services/notification-service: the WebSocket feed

    ws.go and [redis.Subscribe]. What happens before the upgrade is a program
    ([ws_authenticate]); an open connection is three goroutines that share
    the state [Conn]: the forwarder of [Subscribe], which moves messages into
    a channel of 16, the pump of [wsHandler], which writes them as frames, and
    the heartbeat, which keeps the presence key alive. [own_step] is what one
    of them does next; [ws_step] adds the client that leaves, the ticker, new
    messages and other users of Redis. Any interleaving is a run. *)

From S2P Require Import Prelude GoStrings Json Tables Sql Servers RedisClient Consumer.

Section WebSocket.
Context {P R J : Type} `{RedisServer R}.
Abbreviation W := (World P R J).

(** A third of the presence TTL; [time.NewTicker] panics unless it is
    positive. *)
Definition presenceHeartbeatInterval : M W Z :=
  let* ttl := PresenceTTL in ret (Z.quot ttl 3).

(** What the HTTP request is answered before the upgrade: a status, or the
    user of the session. *)
Definition ws_authenticate (sid : string) : M W (result Z (Z * string)) :=
  if bool_decide (sid = "") then ret (Err (401, "missing session"))
  else
    let* r := GetUserIDFromSession sid in
    match r with
    | Err err =>
        if errors_Is err ErrUnauthorized then ret (Err (401, "Unauthorized"))
        else ret (Err (500, "session error"))
    | Ok userID => ret (Ok userID)
    end.

(** The frame for a published message: the JSON value itself, or the text
    as a string when it is no JSON. *)
Definition ws_frame (msg : string) : json :=
  JObj [("event", match Unmarshal msg with Some v => v | None => JStr msg end)].

(** ** The goroutines of a connection *)

(** The forwarder: at [range sub.Channel()], with a message at the [select],
    returned (its channel is closed). *)
Inductive fwd_phase : Type := FRange | FSelect (msg : string) | FClosed.

(** The pump: at the [select], at [wsjson.Write], in [disconnect], returned. *)
Inductive pump_phase : Type := PSelect | PWrite (msg : string) | PDisconnect | PReturned.

(** The heartbeat: at [SetPresence], at the [select], returned. *)
Inductive beat_phase : Type := BSet | BSelect | BReturned.

(** [cn_published]: what go-redis has put into the channel of the
    subscription, in order, and [cn_channel] what is still there; [cn_buf]:
    the channel of [Subscribe]; [cn_sent]: the messages written as frames;
    [cn_done]: wsCtx is cancelled; [cn_unsub]: the subscription is closed. *)
Record Conn := MkConn {
  cn_published : list string;
  cn_channel : list string;
  cn_fwd : fwd_phase;
  cn_buf : list string;
  cn_pump : pump_phase;
  cn_sent : list string;
  cn_beat : beat_phase;
  cn_done : bool;
  cn_unsub : bool;
}.

Definition ws_opened : Conn := MkConn [] [] FRange [] PSelect [] BSet false false.

(** [make(chan string, 16)]. *)
Definition notify_buffer : nat := 16.

(** Subscribe: the loop of its goroutine. *)
Inductive fwd_step : Conn -> Conn -> Prop :=
| fwd_receive pub m ch buf pump sent beat dn un :
    fwd_step (MkConn pub (m :: ch) FRange buf pump sent beat dn un)
             (MkConn pub ch (FSelect m) buf pump sent beat dn un)
| fwd_send pub ch m buf pump sent beat dn un :
    (length buf < notify_buffer)%nat ->
    fwd_step (MkConn pub ch (FSelect m) buf pump sent beat dn un)
             (MkConn pub ch FRange (buf ++ [m]) pump sent beat dn un)
| fwd_cancelled pub ch m buf pump sent beat un :
    fwd_step (MkConn pub ch (FSelect m) buf pump sent beat true un)
             (MkConn pub ch FClosed buf pump sent beat true un)
| fwd_unsubscribed pub buf pump sent beat dn :
    fwd_step (MkConn pub [] FRange buf pump sent beat dn true)
             (MkConn pub [] FClosed buf pump sent beat dn true).

(** wsHandler: the loop of the pump. [disconnect] ends with the DEL of the
    presence key; when the handler returns, the deferred [unsub] closes the
    subscription and the server cancels the context of the request. *)
Inductive pump_step (userID : Z) : Conn * W -> Conn * W -> Prop :=
| pump_cancelled pub ch fwd buf sent beat un w :
    pump_step userID (MkConn pub ch fwd buf PSelect sent beat true un, w)
                     (MkConn pub ch fwd buf PDisconnect sent beat true un, w)
| pump_receive pub ch fwd m buf sent beat dn un w :
    pump_step userID (MkConn pub ch fwd (m :: buf) PSelect sent beat dn un, w)
                     (MkConn pub ch fwd buf (PWrite m) sent beat dn un, w)
| pump_drained pub ch sent beat dn un w :
    pump_step userID (MkConn pub ch FClosed [] PSelect sent beat dn un, w)
                     (MkConn pub ch FClosed [] PDisconnect sent beat dn un, w)
| pump_written pub ch fwd m buf sent beat dn un w :
    pump_step userID (MkConn pub ch fwd buf (PWrite m) sent beat dn un, w)
                     (MkConn pub ch fwd buf PSelect (sent ++ [m]) beat dn un, w)
| pump_write_failed pub ch fwd m buf sent beat dn un w :
    pump_step userID (MkConn pub ch fwd buf (PWrite m) sent beat dn un, w)
                     (MkConn pub ch fwd buf PDisconnect sent beat dn un, w)
| pump_disconnect pub ch fwd buf sent beat dn un w :
    pump_step userID
      (MkConn pub ch fwd buf PDisconnect sent beat dn un, w)
      (MkConn pub ch fwd buf PReturned sent beat true true, (SetPresence userID false w).2).

(** wsHandler: the goroutine of the heartbeat; a call that is under way when
    the context ends may still reach Redis. *)
Inductive beat_step (userID : Z) : Conn * W -> Conn * W -> Prop :=
| beat_set pub ch fwd buf pump sent dn un w :
    beat_step userID (MkConn pub ch fwd buf pump sent BSet dn un, w)
      (MkConn pub ch fwd buf pump sent BSelect dn un, (SetPresence userID true w).2)
| beat_cut pub ch fwd buf pump sent un w :
    beat_step userID (MkConn pub ch fwd buf pump sent BSet true un, w)
                     (MkConn pub ch fwd buf pump sent BSelect true un, w)
| beat_cancelled pub ch fwd buf pump sent un w :
    beat_step userID (MkConn pub ch fwd buf pump sent BSelect true un, w)
                     (MkConn pub ch fwd buf pump sent BReturned true un, w).

Inductive own_step (userID : Z) : Conn * W -> Conn * W -> Prop :=
| own_fwd c c' w : fwd_step c c' -> own_step userID (c, w) (c', w)
| own_pump s s' : pump_step userID s s' -> own_step userID s s'
| own_beat s s' : beat_step userID s s' -> own_step userID s s'.

(** What comes from outside. *)
Inductive env_step : Conn * W -> Conn * W -> Prop :=
| env_leave pub ch fwd buf pump sent beat dn un w :
    env_step (MkConn pub ch fwd buf pump sent beat dn un, w)
             (MkConn pub ch fwd buf pump sent beat true un, w)
| env_tick pub ch fwd buf pump sent dn un w :
    env_step (MkConn pub ch fwd buf pump sent BSelect dn un, w)
             (MkConn pub ch fwd buf pump sent BSet dn un, w)
| env_publish pub ch fwd buf pump sent beat dn w m :
    env_step (MkConn pub ch fwd buf pump sent beat dn false, w)
             (MkConn (pub ++ [m]) (ch ++ [m]) fwd buf pump sent beat dn false, w)
| env_other c w w' : env_step (c, w) (c, w').

Definition ws_step (userID : Z) (s s' : Conn * W) : Prop := own_step userID s s' \/ env_step s s'.

(** The frames that the client has received. *)
Definition ws_frames (c : Conn) : list json := map ws_frame (cn_sent c).
End WebSocket.
