(* ===== verification/Events.v ===== *)
(** * internal/nats/jetstream.go and the balance projection

    The durable event of a transfer: its publication with a deduplication
    header, the delivery to the projection of account-service, and the
    acknowledgement that the projection gives. *)

From S2P Require Import Prelude GoStrings Json Tables Sql Servers RedisClient.

Definition StreamName : string := "BANKING_EVENTS".
Definition SubjectTransferCompleted : string := "banking.events.transfer.completed".
Definition ConsumerBalanceProjection : string := "account-service-balance".

(** Five minutes, in nanoseconds. *)
Definition streamDuplicateWindow : Z := 5 * Minute.

(** The settings of the stream that [InitStream] creates or updates; times in
    nanoseconds. *)
Record StreamConfig := MkStreamConfig {
  sc_name : string;
  sc_subjects : list string;
  sc_max_age : Z;
  sc_replicas : Z;
  sc_duplicates : Z;
}.

Definition InitStream : StreamConfig :=
  MkStreamConfig StreamName ["banking.events.>"] (30 * 24 * Hour) 1 streamDuplicateWindow.

(** The settings of the durable consumer; times in seconds. *)
Record ConsumerConfig := MkConsumerConfig {
  cc_durable : string;
  cc_filter_subject : string;
  cc_ack_wait : Z;
  cc_max_ack_pending : Z;
  cc_max_deliver : Z;
  cc_back_off : list Z;
}.

Definition NewBalanceConsumer : ConsumerConfig :=
  MkConsumerConfig ConsumerBalanceProjection SubjectTransferCompleted 10 100 5 [2; 10; 30].

Section Publish.
Context {P R J : Type} `{JetStream J}.
Abbreviation W := (World P R J).

Definition PublishTransferEvent (evt : TransferCompleted) : M W (option goerr) :=
  let data := Marshal (encode_TransferCompleted evt) in
  let* r := on_js (js_publish SubjectTransferCompleted (Itoa (TransferID evt)) data) in
  match r with
  | Some err => ret (Some (EWrap "publish transfer event" err))
  | None => ret None
  end.
End Publish.

(** What the projection tells the server about a delivered message. *)
Inductive verdict : Type :=
| VAck
| VNak
| VNakWithDelay (seconds : Z).

Section Projection.
Context {P R J : Type} `{RedisServer R}.
Abbreviation W := (World P R J).

(** The callback of [cons.Consume] in [runBalanceProjection]. *)
Definition project_message (data : string) : M W verdict :=
  match unmarshal_text decode_TransferCompleted data with
  | Err _ => ret VNak
  | Ok evt =>
      let* r := SetBalanceBatch (SenderID evt) (SenderBalance evt) (ReceiverID evt)
                  (ReceiverBalance evt) in
      match r with
      | Some _ => ret (VNakWithDelay 5)
      | None => ret VAck
      end
  end.

(** Deliveries in the given order. *)
Fixpoint project_all (msgs : list string) : M W (list verdict) :=
  match msgs with
  | [] => ret []
  | m :: msgs' =>
      let* v := project_message m in
      let* vs := project_all msgs' in
      ret (v :: vs)
  end.
End Projection.
