(* ===== verification/Health.v ===== *)
(** * internal/health/health.go *)

From S2P Require Import Prelude GoStrings Json Tables Sql Servers RedisClient Consumer.

Definition healthTimeout : Z := 3 * Second.

Definition statusStr (ok : bool) : string := if ok then "ok" else "error".

Section Health.
Context {P R J : Type} `{RedisServer R}.
Abbreviation W := (World P R J).
(** [Pinger.Ping]. *)
Context (ping : P -> option goerr * P).

Definition checkHealth : M W (bool * bool) :=
  let* d := on_pg ping in
  let* r := rdo RPing in
  ret (match d with None => true | Some _ => false end, is_ok r).

Definition NATSHandler (serviceName : string) : Handler W :=
  fun _ _ _ _ =>
    let* (dbOK, redisOK) := checkHealth in
    if dbOK && redisOK
    then ret (Ok (Reply 200 (JMap [("status", JStr "healthy"); ("service", JStr serviceName);
                                   ("database", JStr "ok"); ("redis", JStr "ok")])))
    else ret (Ok (Reply 503 (JMap [("status", JStr "unhealthy"); ("service", JStr serviceName);
                                   ("database", JStr (statusStr dbOK));
                                   ("redis", JStr (statusStr redisOK))]))).

(** Status code and the fields of the JSON body; the service names are
    plain ASCII, for which the format verb %q prints a JSON string. *)
Definition HTTPHandler (serviceName : string) : M W (Z * json) :=
  let* (dbOK, redisOK) := checkHealth in
  if dbOK && redisOK
  then ret (200, JObj [("status", JStr "healthy"); ("service", JStr serviceName);
                       ("database", JStr "ok"); ("redis", JStr "ok")])
  else ret (503, JObj [("status", JStr "unhealthy"); ("service", JStr serviceName);
                       ("database", JStr (statusStr dbOK)); ("redis", JStr (statusStr redisOK))]).
End Health.
