(* ===== verification/Producer.v ===== *)
(** * producer: the HTTP gateway

    handlers.go, rpc.go and the route table of main.go. A request of a browser
    becomes the payload of a NATS request ([parsePayload]), goes out with the
    two auth headers ([call]) and comes back as status and body
    ([proxyHandler]). Bodies are decoded into Go's [any] and marshalled again:
    [any_of] is that round trip, in which every number passes through a
    float64. The bus ([Nats]) and chi's path parameters are not part of the
    repository: the first is a class, the second a field of the request. Spans
    and the sampled trace header are left out: no reply depends on them. The
    instruments are in Metrics. *)

From S2P Require Import Prelude GoStrings GoScan GoFloat Json Servers Consumer.

(** ** Requests and replies *)

(** The parts of [*http.Request] the gateway reads: [hr_query] is
    [r.URL.Query()], [hr_path] is [r.URL.Path], [hr_params] what chi.URLParam gives, [hr_ctx] the state
    of the request's context, [hr_body] the body's text ([None]: no body). *)
Record HttpRequest := {
  hr_method : string;
  hr_path : string;
  hr_query : gmap string (list string);
  hr_params : gmap string string;
  hr_header : gmap string string;
  hr_body : option string;
  hr_ctx : option ctx_cause;
}.

Record HttpReply := { http_status : Z; http_body : option string }.

Definition writeRawJSON (status : Z) (body : string) : HttpReply :=
  {| http_status := status; http_body := Some body |}.

(** The payloads the gateway writes itself always marshal. *)
Definition writeJSON (status : Z) (payload : json) : HttpReply :=
  writeRawJSON status (Marshal payload).

(** ** Values of type [any] *)

(** What [json.Marshal] gives for a value: its tree, or the error for an
    unsupported value (an infinity or NaN). *)
Abbreviation goval := (result json goerr).

Definition err_EOF : goerr := ELib "EOF".

(** [json.NewDecoder(r).Decode]: the first value of the text; what follows it
    is not read. *)
Definition decode_first (s : string) : result json goerr :=
  let l := runes s in
  match skip_ws l with
  | [] => Err err_EOF
  | _ =>
      match pvalue (S (length l)) l with
      | Some (v, _) => if json_depth v <=? max_nesting_depth then Ok v else Err err_json_syntax
      | None => Err err_json_syntax
      end
  end.

(** The members of a [map[string]any]: the last one of a key stays. *)
Definition map_of {A} (kvs : list (string * A)) : gmap string A :=
  fold_left (fun m kv => <[kv.1 := kv.2]> m) kvs ∅.

(** A Go map is marshalled with its keys in byte order. *)
Definition JGo (m : gmap string json) : json := JMap (map_to_list m).

Fixpoint all_ok {A E} (l : list (result A E)) : result (list A) E :=
  match l with
  | [] => Ok []
  | Err e :: _ => Err e
  | Ok a :: l' => rmap (cons a) (all_ok l')
  end.

Definition member_ok {A E} (kv : string * result A E) : result (string * A) E :=
  rmap (pair kv.1) kv.2.

(** A value decoded into [any] and marshalled again. *)
Fixpoint any_of (v : json) : result json goerr :=
  match v with
  | JNum lit => rmap JNum (float_literal lit)
  | JArr l => rmap JArr (all_ok (map any_of l))
  | JObj kvs =>
      rmap (fun kvs' => JGo (map_of kvs'))
           (all_ok (map (fun kv => member_ok (kv.1, any_of kv.2)) kvs))
  | _ => Ok v
  end.

Definition decode_any (s : string) : result json goerr :=
  rbind (decode_first s) any_of.

(** Decoding into a [map[string]any]. *)
Definition decode_any_map (s : string) : result (gmap string json) goerr :=
  rbind (decode_first s) (fun v =>
    match v with
    | JNull => Ok ∅
    | JObj kvs =>
        rmap map_of (all_ok (map (fun kv => member_ok (kv.1, any_of kv.2)) kvs))
    | _ => Err err_json_type
    end).

(** ** Payloads *)

Definition queryValue (s : string) : goval :=
  match ParseInt s with
  | Ok n => Ok (JInt n)
  | Err _ =>
      match ParseFloat s with
      | Ok f => rmap JNum (float_text f)
      | Err _ => Ok (JStr s)
      end
  end.

(** The first value of each key. *)
Definition query_map {A} (f : string -> A) (q : gmap string (list string)) : gmap string A :=
  omap (fun vs => match vs with v :: _ => Some (f v) | [] => None end) q.

(** A map marshals when all its values do. *)
Definition marshal_map (m : gmap string goval) : goval :=
  rmap (fun kvs => JMap kvs) (all_ok (map member_ok (map_to_list m))).

(** The outer error is the one of [parsePayload], the inner one that of a
    value that cannot be marshalled. *)
Definition parsePayload (r : HttpRequest) : result goval goerr :=
  if bool_decide (hr_method r = "POST") || bool_decide (hr_method r = "PUT") then
    match hr_body r with
    | None => Ok (Ok (JObj []))
    | Some text =>
        match decode_any text with
        | Err err => if errors_Is err err_EOF then Ok (Ok (JObj [])) else Err err
        | Ok JNull => Ok (Ok (JObj []))
        | Ok payload => Ok (Ok payload)
        end
    end
  else if bool_decide (hr_method r = "PATCH") then
    let merged := query_map queryValue (hr_query r) in
    match hr_body r with
    | None => Ok (marshal_map merged)
    | Some text =>
        match decode_any_map text with
        | Ok body => Ok (marshal_map ((Ok <$> body) ∪ merged))
        | Err _ => Ok (marshal_map merged)
        end
    end
  else if bool_decide (hr_method r = "GET") then
    Ok (Ok (JGo (query_map JStr (hr_query r))))
  else Ok (Ok (JObj [])).

(** [injectPathParam]: [q.Set(queryKey, id)] when the parameter is not
    empty. *)
Definition injectPathParam (paramName queryKey : string) (r : HttpRequest) : HttpRequest :=
  let id := default "" (hr_params r !! paramName) in
  if bool_decide (id = "") then r
  else {| hr_method := hr_method r; hr_path := hr_path r; hr_query := <[queryKey := [id]]> (hr_query r);
          hr_params := hr_params r; hr_header := hr_header r; hr_body := hr_body r;
          hr_ctx := hr_ctx r |}.

(** ** Calls *)

Definition errServiceUnavailable : goerr := EApp "service unavailable: no responders".

(** [nats.ErrNoResponders]. *)
Definition ErrNoResponders : goerr := ELib "nats: no responders available for request".

(** [nc.RequestMsgWithContext]: subject, data and headers of the message; the
    data of the reply. [nats_up w]: the next request is delivered and its
    reply arrives in time. *)
Class Nats (W : Type) := {
  nats_request : string -> string -> Headers -> M W (result string goerr);
  nats_up : W -> Prop;
}.

Definition rpcRequest_json (payload : json) : json := JObj [("payload", payload)].

(** The response of an endpoint as the gateway decodes it; an absent body is
    empty. *)
Record GwResponse := { gw_status : Z; gw_body : option json }.

Definition rpcResponse_fields : list (string * setter GwResponse) :=
  [("status", set_int (fun z s => {| gw_status := z; gw_body := gw_body s |}));
   ("body", set_raw (fun v s => {| gw_status := gw_status s; gw_body := Some v |}))].

Definition decode_rpcResponse : json -> result GwResponse goerr :=
  unmarshal_struct rpcResponse_fields {| gw_status := 0; gw_body := None |}.

Definition request_headers (session adminSecret : string) : Headers :=
  <["x-session" := session]> (<["x-admin-secret" := adminSecret]> ∅).

Section Gateway.
Context {W : Type} `{Nats W}.

Definition call (ctx : option ctx_cause) (subject : string) (payload : goval)
    (session adminSecret : string) : M W (result GwResponse goerr) :=
  match ctx with
  | Some c => ret (Err (EWrap "call: context already done" (ctx_error c)))
  | None =>
      match payload with
      | Err err => ret (Err (EWrap "marshal rpc request" err))
      | Ok v =>
          let* r := nats_request subject (Marshal (rpcRequest_json v))
                      (request_headers session adminSecret) in
          match r with
          | Err err =>
              if errors_Is err ErrNoResponders then ret (Err errServiceUnavailable)
              else ret (Err (EWrap "nats request" err))
          | Ok data =>
              match unmarshal_text decode_rpcResponse data with
              | Err err => ret (Err (EWrap "unmarshal reply" err))
              | Ok resp => ret (Ok resp)
              end
          end
      end
  end.

(** The status and the detail of an error of [call]. *)
Definition error_reply (err : goerr) : HttpReply :=
  if errors_Is err errServiceUnavailable
  then writeJSON 503 (detail "Service unavailable")
  else if errors_Is err (ctx_error DeadlineExceeded) || errors_Is err (ctx_error Canceled)
  then writeJSON 504 (detail "Gateway timeout")
  else writeJSON 502 (detail (err_text err)).

(** The body is written as it came: the tree of a compact text prints as
    that text. *)
Definition proxyHandler (subject : string) (r : HttpRequest) : M W HttpReply :=
  match parsePayload r with
  | Err _ => ret (writeJSON 400 (detail "Invalid JSON body"))
  | Ok payload =>
      let session := default "" (hr_header r !! "X-Session") in
      let adminSecret := default "" (hr_header r !! "X-Admin-Secret") in
      let* c := call (hr_ctx r) subject payload session adminSecret in
      match c with
      | Err err => ret (error_reply err)
      | Ok resp =>
          if gw_status resp =? 204 then ret {| http_status := 204; http_body := None |}
          else
            let body := match gw_body resp with Some v => Marshal v | None => "{}" end in
            ret (writeRawJSON (gw_status resp) body)
      end
  end.

(** [healthHandler]: [connected] says whether [nc.Status()] is CONNECTED. *)
Definition healthHandler (connected : bool) : HttpReply :=
  let fields status nats := JMap [("status", JStr status); ("service", JStr "api-producer");
                                  ("nats", JStr nats)] in
  if connected then writeJSON 200 (fields "healthy" "ok")
  else writeJSON 503 (fields "unhealthy" "disconnected").
End Gateway.

(** ** Routes *)

(** A route of main.go: method, pattern, subject, and the path parameter with
    the query key it is injected under, if any. *)
Record Route := MkRoute {
  rt_method : string;
  rt_pattern : string;
  rt_subject : string;
  rt_inject : option (string * string);
}.

Definition routes : list Route := [
  MkRoute "POST" "/api/users" "banking.auth.register" None;
  MkRoute "POST" "/api/sessions" "banking.auth.login" None;
  MkRoute "DELETE" "/api/sessions" "banking.auth.logout" None;
  MkRoute "GET" "/api/users/me/balance" "banking.account.balance" None;
  MkRoute "GET" "/api/users/me" "banking.account.me" None;
  MkRoute "GET" "/api/users" "banking.account.lookup" None;
  MkRoute "POST" "/api/transfers" "banking.transfer.transfer" None;
  MkRoute "GET" "/api/notifications" "banking.notification.notifications" None;
  MkRoute "PATCH" "/api/notifications/{id}/ack" "banking.notification.ack" (Some ("id", "id"));
  MkRoute "GET" "/api/admin/stats" "banking.account.stats" None;
  MkRoute "GET" "/api/admin/users" "banking.account.users" None;
  MkRoute "GET" "/api/admin/users/{id}" "banking.account.user-detail" (Some ("id", "user_id"));
  MkRoute "GET" "/api/admin/transfers" "banking.account.transfers" None;
  MkRoute "GET" "/api/admin/notifications" "banking.account.notifications" None;
  MkRoute "GET" "/api/health/auth" "banking.auth.health" None;
  MkRoute "GET" "/api/health/account" "banking.account.health" None;
  MkRoute "GET" "/api/health/transfer" "banking.transfer.health" None;
  MkRoute "GET" "/api/health/notifications" "banking.notification.health" None
].

(** The handler registered for a route. *)
Definition route_handler {W} `{Nats W} (rt : Route) (r : HttpRequest) : M W HttpReply :=
  match rt_inject rt with
  | Some (param, key) => proxyHandler (rt_subject rt) (injectPathParam param key r)
  | None => proxyHandler (rt_subject rt) r
  end.

Definition serverAddr (port : string) : string :=
  if String.prefix ":" port then port else ":" +:+ port.
