(* ===== verification/ProducerFacts.v ===== *)
(** * Lemmas on the gateway

    When a JSON value passes unchanged through Go's [any] ([json_plain]), what
    reaches the endpoint, and what comes back. *)

From S2P Require Import Prelude GoStrings GoScan GoFloat Json JsonFacts Servers Consumer Producer.
From Stdlib Require Import Sorting.Sorted.

(** ** Maps as Go marshals them *)

#[global] Instance key_le_trans : Transitive key_le.
Proof. intros a b c. unfold key_le. by etransitivity. Qed.

#[global] Instance key_le_total : Total key_le.
Proof. intros a b. unfold key_le. apply (total String.le). Qed.

Lemma map_of_reverse {A} (kvs : list (string * A)) : map_of kvs = list_to_map (reverse kvs).
Proof.
  unfold map_of. rewrite <- (reverse_involutive kvs) at 1.
  generalize (reverse kvs). intros l. unfold reverse at 1. rewrite rev_append_rev, app_nil_r.
  rewrite <- fold_left_rev_right, rev_involutive.
  by induction l as [|[k v] l IH]; simpl; [|rewrite IH].
Qed.

Lemma map_of_perm {A} (kvs : list (string * A)) :
  NoDup kvs.*1 -> map_to_list (map_of kvs) ≡ₚ kvs.
Proof.
  intros Hn. rewrite map_of_reverse, map_to_list_to_map; [apply reverse_Permutation|].
  by rewrite reverse_Permutation.
Qed.

(** The keys of a member list, in byte order and each once. *)
Definition keys_ordered {A} (kvs : list (string * A)) : Prop :=
  StronglySorted String.le kvs.*1 /\ NoDup kvs.*1.

Lemma sorted_members (kvs : list (string * json)) :
  StronglySorted String.le kvs.*1 -> StronglySorted key_le kvs.
Proof.
  induction kvs as [|kv kvs IH]; [constructor|]. simpl. inversion 1 as [|? ? Hs Hf]; subst.
  constructor; [by apply IH|]. rewrite List.Forall_forall in *.
  intros x Hx. apply Hf. apply list_elem_of_In, list_elem_of_fmap_2. by apply list_elem_of_In.
Qed.

Lemma same_key_same_member {A} (kvs : list (string * A)) x y :
  NoDup kvs.*1 -> x ∈ kvs -> y ∈ kvs -> x.1 = y.1 -> x = y.
Proof.
  intros Hn Hx Hy E. apply list_elem_of_lookup in Hx as [i Hi]. apply list_elem_of_lookup in Hy as [j Hj].
  assert (i = j) as ->.
  { eapply (NoDup_lookup kvs.*1 i j x.1); [done|by rewrite list_lookup_fmap, Hi|].
    by rewrite list_lookup_fmap, Hj, E. }
  congruence.
Qed.

Lemma JMap_ordered (kvs l : list (string * json)) :
  keys_ordered kvs -> l ≡ₚ kvs -> JMap l = JObj kvs.
Proof.
  intros [Hs Hn] Hp. unfold JMap. f_equal.
  eapply (StronglySorted_unique_strong key_le).
  - intros x y Hx Hy Hxy Hyx. apply (same_key_same_member kvs); [done| |done|].
    + by rewrite merge_sort_Permutation, Hp in Hx.
    + by apply (anti_symm String.le).
  - apply StronglySorted_merge_sort; apply _.
  - by apply sorted_members.
  - by rewrite merge_sort_Permutation.
Qed.

(** ** Values that pass through [any] unchanged *)

(** The integers are exact in a float64 and the members of the objects are
    in the order of a marshalled map: what the services' own clients send. *)
Inductive json_plain : json -> Prop :=
| plain_null : json_plain JNull
| plain_bool b : json_plain (JBool b)
| plain_int z : - 2 ^ 53 <= z <= 2 ^ 53 -> json_plain (JInt z)
| plain_str s : utf8_valid s = true -> json_plain (JStr s)
| plain_arr l : Forall json_plain l -> json_plain (JArr l)
| plain_obj kvs :
    keys_ordered kvs ->
    Forall (fun kv => utf8_valid kv.1 = true /\ json_plain kv.2) kvs -> json_plain (JObj kvs).

Lemma json_plain_wf v : json_plain v -> json_wf v.
Proof.
  induction v as [|b| |s|l IH|kvs IH] using json_ind'; intros H;
    inversion H as [| |z Hz| |l' Hl|kvs' Hk Hkvs]; subst; try by constructor.
  - constructor. rewrite List.Forall_forall in *. auto.
  - constructor. rewrite List.Forall_forall in *. intros kv Hkv.
    destruct (Hkvs kv Hkv) as [? ?]. split; [done|]. by apply IH.
Qed.

Lemma all_ok_map {A B E} (f : A -> result B E) (g : A -> B) l :
  (forall x, x ∈ l -> f x = Ok (g x)) -> all_ok (map f l) = Ok (map g l).
Proof.
  induction l as [|x l IH]; intros H; simpl; [done|].
  rewrite H by set_solver. rewrite IH by set_solver. done.
Qed.

Lemma any_of_plain v : json_plain v -> any_of v = Ok v.
Proof.
  induction v as [|b| |s|l IH|kvs IH] using json_ind'; intros H; inversion H as
    [| |z Hz| |l' Hl|kvs' Hk Hkvs]; subst; try done.
  - unfold JInt. cbn [any_of]. by rewrite float_literal_int.
  - cbn [any_of]. rewrite (all_ok_map any_of id).
    + by rewrite map_id.
    + rewrite List.Forall_forall in IH, Hl. intros x Hx%list_elem_of_In. by apply IH, Hl.
  - cbn [any_of]. rewrite (all_ok_map _ id).
    + rewrite map_id. simpl. f_equal. apply JMap_ordered; [done|]. by apply map_of_perm, Hk.
    + rewrite List.Forall_forall in IH, Hkvs. intros [k x] Hx%list_elem_of_In.
      unfold member_ok. cbn [fst snd]. pose proof (IH (k, x) Hx) as E. cbn [snd] in E.
      rewrite E; [done|]. by apply (Hkvs (k, x)).
Qed.

(** ** Bodies *)

Lemma decode_first_Unmarshal s v : Unmarshal s = Some v -> decode_first s = Ok v.
Proof.
  unfold Unmarshal, decode_first. destruct (skip_ws (runes s)) as [|t l] eqn:E.
  - destruct (pvalue _ _) as [[v' rest]|] eqn:Ep; [|done]. intros _. exfalso.
    cbn [pvalue] in Ep. by rewrite E in Ep.
  - destruct (pvalue _ _) as [[v' rest]|]; [|done]. destruct (skip_ws rest); [|done].
    case_match; [|done]. by intros [= ->].
Qed.

Lemma decode_any_plain v :
  json_plain v -> json_depth v <= max_nesting_depth -> decode_any (Marshal v) = Ok v.
Proof.
  intros Hv Hd. unfold decode_any.
  rewrite (decode_first_Unmarshal _ v); [by apply any_of_plain|].
  apply parse_print; [by apply json_plain_wf|done].
Qed.

(** ** The request and the reply as texts *)

Lemma decode_rpcRequest_json v :
  json_wf v -> json_depth v < max_nesting_depth ->
  unmarshal_text decode_rpcRequest (Marshal (rpcRequest_json v)) = Ok (Some v).
Proof.
  intros Hv Hd. unfold unmarshal_text. rewrite parse_print; [done| |].
  - constructor. repeat constructor; done.
  - unfold rpcRequest_json, max_nesting_depth in *. cbn [json_depth foldr snd]. lia.
Qed.

Lemma json_depth_nonneg v : 0 <= json_depth v.
Proof.
  induction v as [| | | |l IH|kvs IH] using json_ind'; cbn [json_depth]; try lia.
  - enough (0 <= foldr (fun x d => Z.max (json_depth x) d) 0 l) by lia.
    induction IH; simpl; lia.
  - enough (0 <= foldr (fun kv d => Z.max (json_depth kv.2) d) 0 kvs) by lia.
    induction IH; simpl; lia.
Qed.

(** The strings of the body arrive cleaned. *)
Lemma decode_rpcResponse_clean r :
  in_int64 (rpc_status r) -> json_ints (rpc_body r) -> json_depth (rpc_body r) < max_nesting_depth ->
  unmarshal_text decode_rpcResponse (Marshal (encode_rpcResponse r)) =
    Ok {| gw_status := rpc_status r; gw_body := Some (clean (rpc_body r)) |}.
Proof.
  intros Hs Hv Hd. unfold unmarshal_text. rewrite parse_print_clean.
  - unfold decode_rpcResponse, encode_rpcResponse, unmarshal_struct, JInt.
    cbn [clean map fst snd]. rewrite !clean_string_id by reflexivity.
    cbn [fold_left]. unfold decode_member.
    change (find_field rpcResponse_fields (_, JNum (Itoa (rpc_status r))).1) with
      (Some (set_int (fun z s => {| gw_status := z; gw_body := gw_body s |}))).
    change (find_field rpcResponse_fields (_, clean (rpc_body r)).1) with
      (Some (set_raw (fun v s => {| gw_status := gw_status s; gw_body := Some v |}))).
    unfold set_int. cbn [fst snd]. by rewrite ParseInt_Itoa.
  - constructor. repeat constructor; done.
  - pose proof (json_depth_nonneg (rpc_body r)).
    unfold encode_rpcResponse, JInt, max_nesting_depth in *. cbn [json_depth foldr snd]. lia.
Qed.

Lemma decode_rpcResponse_json r :
  in_int64 (rpc_status r) -> json_wf (rpc_body r) -> json_depth (rpc_body r) < max_nesting_depth ->
  unmarshal_text decode_rpcResponse (Marshal (encode_rpcResponse r)) =
    Ok {| gw_status := rpc_status r; gw_body := Some (rpc_body r) |}.
Proof.
  intros Hs [Hv E]%json_wf_clean Hd. by rewrite decode_rpcResponse_clean, E.
Qed.

(** ** Path parameters *)

Lemma query_map_lookup {A} (f : string -> A) q k :
  query_map f q !! k = match q !! k with Some (v :: _) => Some (f v) | _ => None end.
Proof. unfold query_map. rewrite lookup_omap. by destruct (q !! k) as [[|]|]. Qed.
