(* ===== verification/Metrics.v ===== *)
(** * Metrics: internal/metrics and the instruments of the gateway

    A [Registry] of Prometheus collectors, the collectors that producer and
    services register, and the instrumented versions of [call],
    [proxyHandler] and [dispatch]: the same calls with every operation on an
    instrument, in a monad in which such an operation may panic. The
    client library panics on a second collector of a name, on a wrong number
    of label values and on a label value that is not UTF-8. Of a histogram the
    number of observations is kept, the durations depend on the clock. *)

From S2P Require Import Prelude GoStrings Json JsonFacts Servers Consumer Producer.

(** ** The registry *)

Inductive Kind : Type := KCounter | KGauge | KHistogram.

(** [col_const]: the constant labels; [col_values]: the value of each child,
    by its label values. *)
Record Collector := MkCollector {
  col_kind : Kind;
  col_const : list (string * string);
  col_labels : list string;
  col_values : gmap (list string) Z;
}.

Definition new_collector (kind : Kind) (const : list (string * string)) (labels : list string)
    : Collector := MkCollector kind const labels ∅.

Abbreviation Registry := (gmap string Collector).

(** [None]: panic. *)
Fixpoint MustRegister (cs : list (string * Collector)) (reg : Registry) : option Registry :=
  match cs with
  | [] => Some reg
  | (name, c) :: cs' =>
      match reg !! name with
      | Some _ => None
      | None => MustRegister cs' (<[name := c]> reg)
      end
  end.

(** The value of an instrument under label values. *)
Definition value (reg : Registry) (name : string) (labels : list string) : Z :=
  default 0 (reg !! name ≫= fun c => col_values c !! labels).

Definition add_value (n : Z) (labels : list string) (c : Collector) : Collector :=
  MkCollector (col_kind c) (col_const c) (col_labels c)
    (<[labels := default 0 (col_values c !! labels) + n]> (col_values c)).

(** [WithLabelValues(labels...)] and an operation on the child. *)
Definition add_to (name : string) (labels : list string) (n : Z) (reg : Registry) : option Registry :=
  c ← reg !! name;
  if (length labels =? length (col_labels c))%nat && forallb utf8_valid labels
  then Some (<[name := add_value n labels c]> reg) else None.

(** ** The instruments *)

(** newMetrics of producer/metrics.go. *)
Definition newMetrics : Registry -> option Registry :=
  MustRegister [
    ("http_requests_total", new_collector KCounter [] ["method"; "route"; "status"]);
    ("http_request_duration_seconds", new_collector KHistogram [] ["method"; "route"]);
    ("rpc_requests_total", new_collector KCounter [] ["queue"; "status"]);
    ("rpc_roundtrip_duration_seconds", new_collector KHistogram [] ["queue"]);
    ("rpc_timeouts_total", new_collector KCounter [] []);
    ("rpc_publish_errors_total", new_collector KCounter [] []);
    ("rpc_inflight_requests", new_collector KGauge [] []);
    ("nats_connected", new_collector KGauge [] [])].

(** NewConsumerMetrics of internal/metrics. *)
Definition NewConsumerMetrics (service : string) : Registry -> option Registry :=
  let labels := [("service", service)] in
  MustRegister [
    ("nats_messages_total", new_collector KCounter labels ["action"; "status"]);
    ("nats_handler_duration_seconds", new_collector KHistogram labels ["action"]);
    ("nats_reconnects_total", new_collector KCounter labels [])].

(** ** Code that counts *)

Section Metered.
Context {W : Type}.

(** [None]: a panic that unwinds to the server of the request. *)
Definition Metered (A : Type) : Type := M (W * Registry) (option A).

Definition yield {A} (a : A) : Metered A := ret (Some a).

Definition after {A B} (m : Metered A) (k : A -> Metered B) : Metered B :=
  let* r := m in
  match r with Some a => k a | None => ret None end.

(** Code without instruments. *)
Definition lift {A} (m : M W A) : Metered A :=
  fun '(w, reg) => let '(a, w') := m w in (Some a, (w', reg)).

Definition count (name : string) (labels : list string) (n : Z) : Metered unit :=
  fun '(w, reg) =>
    match add_to name labels n reg with
    | Some reg' => (Some tt, (w, reg'))
    | None => (None, (w, reg))
    end.

(** [defer d] before the rest [m] of a function. *)
Definition deferred {A} (d : Metered unit) (m : Metered A) : Metered A :=
  let* r := m in
  let* u := d in
  ret (match u with Some _ => r | None => None end).
End Metered.

Declare Scope metered_scope.
Notation "'let?' x ':=' m 'in' k" := (after m (fun x => k))
  (at level 10, x name, m at level 100, k at level 200,
   format "'[v' 'let?'  x  ':='  m  'in' '/' k ']'") : metered_scope.
Local Open Scope metered_scope.

Section Gateway.
Context {W : Type} `{Nats W}.

Definition call_metered (ctx : option ctx_cause) (subject : string) (payload : goval)
    (session adminSecret : string) : Metered (W:=W) (result GwResponse goerr) :=
  match ctx with
  | Some c => yield (Err (EWrap "call: context already done" (ctx_error c)))
  | None =>
      match payload with
      | Err err => yield (Err (EWrap "marshal rpc request" err))
      | Ok v =>
          let? _ := count "rpc_inflight_requests" [] 1 in
          deferred (count "rpc_inflight_requests" [] (-1)) (
            let? r := lift (nats_request subject (Marshal (rpcRequest_json v))
                              (request_headers session adminSecret)) in
            match r with
            | Err err =>
                if errors_Is err ErrNoResponders then
                  let? _ := count "rpc_publish_errors_total" [] 1 in
                  yield (Err errServiceUnavailable)
                else
                  let? _ := count "rpc_publish_errors_total" [] 1 in
                  yield (Err (EWrap "nats request" err))
            | Ok data =>
                match unmarshal_text decode_rpcResponse data with
                | Err err =>
                    let? _ := count "rpc_publish_errors_total" [] 1 in
                    yield (Err (EWrap "unmarshal reply" err))
                | Ok resp =>
                    let? _ := count "rpc_roundtrip_duration_seconds" [subject] 1 in
                    let? _ := count "rpc_requests_total" [subject; Itoa (gw_status resp)] 1 in
                    yield (Ok resp)
                end
            end)
      end
  end.

Definition proxyHandler_metered (subject : string) (r : HttpRequest) : Metered (W:=W) HttpReply :=
  let path := hr_path r in
  deferred (count "http_request_duration_seconds" [hr_method r; path] 1)
    match parsePayload r with
    | Err _ =>
        let? _ := count "http_requests_total" [hr_method r; path; "400"] 1 in
        yield (writeJSON 400 (detail "Invalid JSON body"))
    | Ok payload =>
        let session := default "" (hr_header r !! "X-Session") in
        let adminSecret := default "" (hr_header r !! "X-Admin-Secret") in
        let? c := call_metered (hr_ctx r) subject payload session adminSecret in
        match c with
        | Err err =>
            let rep := error_reply err in
            let? _ := count "http_requests_total" [hr_method r; path; Itoa (http_status rep)] 1 in
            yield rep
        | Ok resp =>
            let? _ := count "http_requests_total" [hr_method r; path; Itoa (gw_status resp)] 1 in
            if gw_status resp =? 204 then yield {| http_status := 204; http_body := None |}
            else
              let body := match gw_body resp with Some v => Marshal v | None => "{}" end in
              yield (writeRawJSON (gw_status resp) body)
        end
    end.

(** The route of main.go, with its middleware. *)
Definition route_metered (rt : Route) (r : HttpRequest) : Metered (W:=W) HttpReply :=
  match rt_inject rt with
  | Some (param, key) => proxyHandler_metered (rt_subject rt) (injectPathParam param key r)
  | None => proxyHandler_metered (rt_subject rt) r
  end.
End Gateway.

Section Service.
Context {W : Type}.

(** [enabled]: WithMetrics was given. *)
Definition dispatch_metered (enabled shutdown : bool) (reqData : string) (reqHeaders : Headers)
    (action : string) (h : Handler W) : Metered (W:=W) (option RpcReply) :=
  if shutdown then yield None
  else
    match unmarshal_text decode_rpcRequest reqData with
    | Err _ => yield (Some (RespondError "400" "invalid request body"))
    | Ok payload =>
        let headers : Headers :=
          <["x-session" := header reqHeaders "x-session"]>
            (<["x-admin-secret" := header reqHeaders "x-admin-secret"]> ∅) in
        let? result := lift (h {| ctx_user := None |} action payload headers) in
        let resp := response_of result in
        let? _ := (if enabled then
                     let? _ := count "nats_handler_duration_seconds" [action] 1 in
                     count "nats_messages_total" [action; Itoa (rpc_status resp)] 1
                   else yield tt) in
        yield (Some (Respond (Marshal (encode_rpcResponse resp))))
    end.
End Service.

(** ** What an operation does *)

(** A collector of this name is registered, with so many labels. *)
Definition shaped (reg : Registry) (nk : string * nat) : Prop :=
  exists c, reg !! nk.1 = Some c /\ length (col_labels c) = nk.2.

Definition provides (l : list (string * nat)) (reg : Registry) : Prop := Forall (shaped reg) l.

(** The sum of the operations on one child. *)
Definition Op : Type := string * list string * Z.

Definition total (ops : list Op) (name : string) (labels : list string) : Z :=
  foldr (fun op n => if decide (op.1 = (name, labels)) then op.2 + n else n) 0 ops.

(** The registry after the operations. *)
Definition counted (ops : list Op) (reg reg' : Registry) : Prop :=
  (forall name labels, value reg' name labels = value reg name labels + total ops name labels) /\
  (forall nk, shaped reg nk -> shaped reg' nk).

Lemma counted_nil reg : counted [] reg reg.
Proof. split; [intros; simpl; lia|done]. Qed.

Lemma total_app ops ops' name labels :
  total (ops ++ ops') name labels = total ops name labels + total ops' name labels.
Proof. induction ops as [|op ops IH]; simpl; [done|]. case_decide; lia. Qed.

Lemma counted_app ops ops' reg1 reg2 reg3 :
  counted ops reg1 reg2 -> counted ops' reg2 reg3 -> counted (ops ++ ops') reg1 reg3.
Proof.
  intros [H1 S1] [H2 S2]. split; [|auto]. intros name labels. rewrite H2, H1, total_app. lia.
Qed.

Lemma counted_provides ops reg reg' l : counted ops reg reg' -> provides l reg -> provides l reg'.
Proof. intros [_ Hs] Hl. eapply Forall_impl; [exact Hl|]. exact Hs. Qed.

Lemma add_to_spec name labels n reg :
  shaped reg (name, length labels) -> forallb utf8_valid labels = true ->
  exists reg', add_to name labels n reg = Some reg' /\ counted [(name, labels, n)] reg reg'.
Proof.
  intros (c & Hc & Hl) Hu. cbn [fst snd] in *. unfold add_to. rewrite Hc. cbn [mbind option_bind].
  rewrite Hl, Nat.eqb_refl, Hu. cbn [andb]. eexists. split; [done|]. split.
  - intros name' labels'. unfold value. simpl. case_decide as Ed.
    + injection Ed as <- <-. rewrite Hc, lookup_insert_eq. simpl. rewrite lookup_insert_eq. simpl. lia.
    + destruct (decide (name = name')) as [<-|Hn]; [|by rewrite lookup_insert_ne; [lia|done]].
      rewrite Hc, lookup_insert_eq. simpl. rewrite lookup_insert_ne by congruence. lia.
  - intros [name' k] (c' & Hc' & Hk). unfold shaped. cbn [fst snd] in *.
    destruct (decide (name = name')) as [<-|Hn].
    + exists (add_value n labels c). rewrite lookup_insert_eq. split; [done|]. simpl. congruence.
    + exists c'. by rewrite lookup_insert_ne.
Qed.

Lemma add_to_panics name labels n reg :
  forallb utf8_valid labels = false -> add_to name labels n reg = None.
Proof.
  intros Hu. unfold add_to. destruct (reg !! name); [|done]. cbn [mbind option_bind].
  by rewrite Hu, andb_false_r.
Qed.

(** ** What code that counts does *)

Section Facts.
Context {W : Type}.

(** No panic, and the result satisfies [post]. *)
Definition runs {A} (m : Metered (W:=W) A) (post : A -> W -> Registry -> Prop) (w : W) (reg : Registry)
    : Prop :=
  exists a w' reg', m (w, reg) = (Some a, (w', reg')) /\ post a w' reg'.

Lemma runs_mono {A} (m : Metered A) (post post' : A -> W -> Registry -> Prop) w reg :
  runs m post w reg -> (forall a w' reg', post a w' reg' -> post' a w' reg') -> runs m post' w reg.
Proof. intros (a & w' & reg' & E & Hp) Hi. exists a, w', reg'. auto. Qed.

Lemma runs_yield {A} (a : A) (post : A -> W -> Registry -> Prop) w reg :
  post a w reg -> runs (yield a) post w reg.
Proof. intros Hp. by exists a, w, reg. Qed.

Lemma runs_after {A B} (m : Metered A) (k : A -> Metered B) post w reg :
  runs m (fun a => runs (k a) post) w reg -> runs (after m k) post w reg.
Proof.
  intros (a & w' & reg' & E & b & w2 & reg2 & E2 & Hp). exists b, w2, reg2. split; [|done].
  unfold after, bind. by rewrite E, E2.
Qed.

Lemma runs_lift {A} (m : M W A) (post : A -> W -> Registry -> Prop) w reg :
  wp m (fun a w' => post a w' reg) w -> runs (lift m) post w reg.
Proof.
  unfold wp, runs, lift. destruct (m w) as [a w']. intros Hp. by exists a, w', reg.
Qed.

Lemma runs_count name labels n w reg :
  shaped reg (name, length labels) -> forallb utf8_valid labels = true ->
  runs (count name labels n) (fun _ w' reg' => w' = w /\ counted [(name, labels, n)] reg reg') w reg.
Proof.
  intros Hs Hu. destruct (add_to_spec name labels n reg Hs Hu) as (reg' & E & Hc).
  exists tt, w, reg'. unfold count. by rewrite E.
Qed.

Lemma runs_deferred {A} (d : Metered unit) (m : Metered A) post w reg :
  runs m (fun a => runs d (fun _ => post a)) w reg -> runs (deferred d m) post w reg.
Proof.
  intros (a & w' & reg' & E & u & w2 & reg2 & E2 & Hp). exists a, w2, reg2. split; [|done].
  unfold deferred, bind. by rewrite E, E2.
Qed.
End Facts.

(** ** Registration *)

Lemma MustRegister_lookup cs reg reg' :
  MustRegister cs reg = Some reg' ->
  (forall name c, (name, c) ∈ cs -> reg' !! name = Some c) /\
  (forall name c, reg !! name = Some c -> reg' !! name = Some c).
Proof.
  revert reg. induction cs as [|[name c] cs IH]; intros reg; cbn [MustRegister].
  - intros [= <-]. split; [by intros ? ? ?%not_elem_of_nil|done].
  - destruct (reg !! name) eqn:En; [done|]. intros [Hcs Hreg]%IH. split.
    + intros name' c' [[= -> ->]|Hin]%elem_of_cons; [|by apply Hcs].
      apply Hreg. by rewrite lookup_insert_eq.
    + intros name' c' Hc. apply Hreg. rewrite lookup_insert_ne by congruence. done.
Qed.

Lemma MustRegister_total cs reg :
  NoDup cs.*1 -> Forall (fun name => reg !! name = None) cs.*1 -> is_Some (MustRegister cs reg).
Proof.
  revert reg. induction cs as [|[name c] cs IH]; intros reg; cbn [MustRegister fmap list_fmap fst].
  - eauto.
  - intros [Hn Hd]%NoDup_cons [Hr Hf]%Forall_cons. rewrite Hr. apply IH; [done|].
    rewrite Forall_forall in Hf |- *. intros name' Hin. rewrite lookup_insert_ne; [by apply Hf|].
    intros ->. by apply Hn.
Qed.

Definition gateway_instruments : list (string * nat) :=
  [("http_requests_total", 3); ("http_request_duration_seconds", 2); ("rpc_requests_total", 2);
   ("rpc_roundtrip_duration_seconds", 1); ("rpc_publish_errors_total", 0);
   ("rpc_inflight_requests", 0)]%nat.

Definition service_instruments : list (string * nat) :=
  [("nats_messages_total", 2); ("nats_handler_duration_seconds", 1)]%nat.

Ltac find_instrument E :=
  eexists; split; [eapply (proj1 (MustRegister_lookup _ _ _ E)); repeat first [by left | right]|done].

Lemma newMetrics_provides reg reg' : newMetrics reg = Some reg' -> provides gateway_instruments reg'.
Proof.
  intros E. unfold newMetrics in E. unfold provides, gateway_instruments. rewrite !Forall_cons.
  split_and!; try (by apply Forall_nil); find_instrument E.
Qed.

Lemma NewConsumerMetrics_provides service reg reg' :
  NewConsumerMetrics service reg = Some reg' -> provides service_instruments reg'.
Proof.
  intros E. unfold NewConsumerMetrics in E. unfold provides, service_instruments. rewrite !Forall_cons.
  split_and!; try (by apply Forall_nil); find_instrument E.
Qed.
