(* ===== verification/Services.v ===== *)
(** * The four services and the bus between them and the gateway

    The consumers as the [run] functions of the services' main.go build them:
    which handler serves which subject, under which guard. [bus_outcome] is
    what NATS documents for a request to a queue group: at most one
    subscriber handles it, and the caller gets its reply, an error, or the
    notice that nobody subscribes. *)

From S2P Require Import Prelude GoStrings Json Tables Sql Servers RedisClient Consumer.
From S2P Require Import Transfer Auth Account Notification Events Health Producer.

Inductive Service : Type := SAuth | SAccount | STransfer | SNotification.

Section Services.
Context {P R J : Type} `{PgServer P} `{RedisServer R} `{JetStream J} `{Bcrypt}.
Abbreviation W := (World P R J).
(** How times are printed, the ping of the pool, the ADMIN_SECRET of
    account-service, and whether its JetStream initialisation let
    transfer-service publish events. *)
Context (fmt_time : Z -> string) (ping : P -> option goerr * P).
Context (adminSecret : string) (jetstream : bool).

Definition auth_consumer : Consumer W :=
  NewConsumer "auth-service" "banking.auth" [
    WithHandler "register" handleRegister;
    WithHandler "login" handleLogin;
    WithHandler "logout" (SessionMiddleware handleLogout);
    WithHandler "health" (NATSHandler ping "auth-service")].

Definition account_consumer : Consumer W :=
  let requireSession := SessionMiddleware in
  let requireAdmin := AdminMiddleware adminSecret in
  NewConsumer "account-service" "banking.account" [
    WithHandler "me" (requireSession handleMe);
    WithHandler "balance" (requireSession handleBalance);
    WithHandler "lookup" (requireSession handleLookup);
    WithHandler "stats" (requireAdmin handleAdminStats);
    WithHandler "users" (requireAdmin handleAdminUsers);
    WithHandler "transfers" (requireAdmin (handleAdminTransfers fmt_time));
    WithHandler "notifications" (requireAdmin (handleAdminNotifications fmt_time));
    WithHandler "user-detail" (requireAdmin handleAdminUserDetail);
    WithHandler "health" (NATSHandler ping "account-service")].

(** [publishEvent] stays nil when the stream could not be set up. *)
Definition transfer_publisher : option (TransferCompleted -> M W (option goerr)) :=
  if jetstream then Some PublishTransferEvent else None.

Definition transfer_consumer : Consumer W :=
  NewConsumer "transfer-service" "banking.transfer" [
    WithHandler "transfer" (SessionMiddleware (handleTransfer transfer_publisher));
    WithHandler "health" (NATSHandler ping "transfer-service")].

Definition notification_consumer : Consumer W :=
  NewConsumer "notification-service" "banking.notification" [
    WithHandler "notifications" (SessionMiddleware (handleNotifications fmt_time));
    WithHandler "ack" (SessionMiddleware handleAck);
    WithHandler "health" (NATSHandler ping "notification-service")].

Definition services : list (Consumer W) :=
  [auth_consumer; account_consumer; transfer_consumer; notification_consumer].

Definition consumer (s : Service) : Consumer W :=
  match s with
  | SAuth => auth_consumer
  | SAccount => account_consumer
  | STransfer => transfer_consumer
  | SNotification => notification_consumer
  end.

Lemma services_consumer c : c ∈ services <-> exists s, c = consumer s.
Proof.
  split.
  - intros Hc. unfold services in Hc.
    repeat apply elem_of_cons in Hc as [->|Hc]; [by exists SAuth|by exists SAccount
      |by exists STransfer|by exists SNotification|by apply not_elem_of_nil in Hc].
  - intros [s ->]. unfold services. destruct s; cbn [consumer]; set_solver.
Qed.
End Services.

(** ** The bus *)

(** The data of a reply message; an error of the micro framework travels in
    headers, which the gateway does not read. *)
Definition reply_data (rep : RpcReply) : string :=
  match rep with Respond data => data | RespondError _ _ => "" end.

(** A timeout, a cancelled context, a lost connection. *)
Definition bus_fault (e : goerr) : bool := foreign e && negb (errors_Is e ErrNoResponders).

Section Bus.
Context {W : Type}.

(** The consumer and the action that answer a subject. *)
Definition answers (cs : list (Consumer W)) (subject : string) (c : Consumer W)
    (action : string) : Prop :=
  c ∈ cs /\ endpoint_subject c action = subject /\ is_Some (c_handlers c !! action).

Inductive bus_outcome (cs : list (Consumer W)) (subject data : string) (hdrs : Headers) (w : W)
  : result string goerr -> W -> Prop :=
| bus_reply c action rep w' :
    answers cs subject c action ->
    serve c false action data hdrs w = (Some rep, w') ->
    bus_outcome cs subject data hdrs w (Ok (reply_data rep)) w'
| bus_lost c action shutdown x e w' :
    answers cs subject c action ->
    serve c shutdown action data hdrs w = (x, w') -> bus_fault e = true ->
    bus_outcome cs subject data hdrs w (Err e) w'
| bus_silent e :
    bus_fault e = true -> bus_outcome cs subject data hdrs w (Err e) w
| bus_nobody :
    bus_outcome cs subject data hdrs w (Err ErrNoResponders) w.

Class NatsLaws `{Nats W} (cs : list (Consumer W)) : Prop := {
  nats_law : forall subject data hdrs w r w',
    nats_request subject data hdrs w = (r, w') -> bus_outcome cs subject data hdrs w r w';
  nats_up_law : forall subject data hdrs c action w,
    nats_up w -> answers cs subject c action ->
    exists c' action' rep w', answers cs subject c' action' /\
      serve c' false action' data hdrs w = (Some rep, w') /\
      nats_request subject data hdrs w = (Ok (reply_data rep), w');
}.

(** A bus that delivers every request at once: the first matching endpoint
    of the list answers. *)
Fixpoint find_endpoint (subject : string) (cs : list (Consumer W)) : option (Consumer W * string) :=
  match cs with
  | [] => None
  | c :: cs' =>
      match List.find (fun a => bool_decide (endpoint_subject c a = subject))
              (map_to_list (c_handlers c)).*1 with
      | Some a => Some (c, a)
      | None => find_endpoint subject cs'
      end
  end.

Definition direct_request (cs : list (Consumer W)) (subject data : string) (hdrs : Headers)
    : M W (result string goerr) :=
  match find_endpoint subject cs with
  | Some (c, action) =>
      let* r := serve c false action data hdrs in
      ret (match r with Some rep => Ok (reply_data rep) | None => Err (ELib "nats: timeout") end)
  | None => ret (Err ErrNoResponders)
  end.
End Bus.
