(* ===== verification/Ledger.v ===== *)
(** * The bank as an abstract ledger

    What the system promises as a whole: a bank is the balance of every
    account and the journal of the transfers that were made. It changes in
    two ways only: an account is opened with the opening balance, or an
    amount that the payer has moves between two accounts and into the
    journal. [bank_of] reads the bank off the three tables; SystemCorrect
    shows that every request performs at most one of the two steps. *)

From S2P Require Import Prelude Tables Sql.
From stdpp Require Import gmultiset.
#[local] Open Scope Z_scope.

(** ** The abstract machine *)

(** Journal entries: payer, payee, amount. *)
Record Bank := MkBank { accounts : gmap Z Z; journal : gmultiset (Z * Z * Z) }.

Definition opened (i : Z) (b : Bank) : Bank :=
  MkBank (<[i := default_balance]> (accounts b)) (journal b).

Definition moved (i j amount : Z) (bi bj : Z) (b : Bank) : Bank :=
  MkBank (<[i := bi - amount]> (<[j := bj + amount]> (accounts b)))
    ({[+ (i, j, amount) +]} ⊎ journal b).

Inductive bank_step (b : Bank) : Bank -> Prop :=
| step_open i :
    accounts b !! i = None -> bank_step b (opened i b)
| step_move i j amount bi bj :
    i <> j -> accounts b !! i = Some bi -> accounts b !! j = Some bj ->
    0 < amount <= bi -> bank_step b (moved i j amount bi bj b).

(** At most one step, as one request performs. *)
Definition bank_step0 (b b' : Bank) : Prop := b' = b \/ bank_step b b'.

(** ** Invariants *)

Definition received (i : Z) (e : Z * Z * Z) : Z := if e.1.2 =? i then e.2 else 0.
Definition sent (i : Z) (e : Z * Z * Z) : Z := if e.1.1 =? i then e.2 else 0.

(** What the journal says account [i] has gained. *)
Definition net (i : Z) (js : gmultiset (Z * Z * Z)) : Z :=
  sumZ (map (fun e => received i e - sent i e) (elements js)).

(** Every balance is at least 0 and is the opening balance plus what was
    received minus what was sent, and the parties of every entry have
    accounts. *)
Record bank_ok (b : Bank) : Prop := {
  bank_solvent : map_Forall (fun _ bal => 0 <= bal) (accounts b);
  bank_explained : map_Forall (fun i bal => bal = default_balance + net i (journal b)) (accounts b);
  bank_parties : forall e, e ∈ journal b ->
    is_Some (accounts b !! e.1.1) /\ is_Some (accounts b !! e.1.2) /\ 0 < e.2;
}.

Lemma net_entry i e js :
  net i ({[+ e +]} ⊎ js) = received i e - sent i e + net i js.
Proof.
  unfold net. rewrite gmultiset_elements_disj_union, gmultiset_elements_singleton. reflexivity.
Qed.

Lemma net_fresh i js :
  (forall e, e ∈ js -> e.1.1 <> i /\ e.1.2 <> i) -> net i js = 0.
Proof.
  intros H. unfold net. rewrite (sumZ_map_ext _ (fun _ => 0)).
  - unfold sumZ. by induction (elements js).
  - intros e He%gmultiset_elem_of_elements. destruct (H e He) as [H1 H2].
    unfold received, sent. replace (e.1.2 =? i) with false by lia.
    by replace (e.1.1 =? i) with false by lia.
Qed.

Lemma bank_step_ok b b' : bank_step b b' -> bank_ok b -> bank_ok b'.
Proof.
  intros Hs [Hsol Hexp Hpar]. destruct Hs as [i Hi|i j amount bi bj Hij Hbi Hbj Ham]; constructor;
    unfold opened, moved; cbn [accounts journal].
  - apply map_Forall_insert_2; [done|exact Hsol].
  - apply map_Forall_insert_2; [|exact Hexp]. rewrite net_fresh; [lia|].
    intros e He. destruct (Hpar e He) as (H1 & H2 & _).
    split; intros <-; [rewrite Hi in H1; by destruct H1|rewrite Hi in H2; by destruct H2].
  - intros e He. destruct (Hpar e He) as (H1 & H2 & H3).
    split_and!; [by apply lookup_insert_is_Some'; right ..|done].
  - pose proof (Hsol _ _ Hbj) as H0. cbn beta in H0.
    apply map_Forall_insert_2; [lia|]. apply map_Forall_insert_2; [lia|done].
  - intros k bal Hk. rewrite net_entry. unfold received, sent. cbn [fst snd].
    pose proof (Hexp _ _ Hbi) as Ei. pose proof (Hexp _ _ Hbj) as Ej. cbn beta in Ei, Ej.
    destruct (decide (k = i)) as [->|Hki].
    + rewrite lookup_insert_eq in Hk. injection Hk as <-.
      replace (j =? i) with false by lia. rewrite Z.eqb_refl. lia.
    + rewrite lookup_insert_ne in Hk by done. replace (i =? k) with false by lia.
      destruct (decide (k = j)) as [->|Hkj].
      * rewrite lookup_insert_eq in Hk. injection Hk as <-. rewrite Z.eqb_refl. lia.
      * rewrite lookup_insert_ne in Hk by done. replace (j =? k) with false by lia.
        rewrite (Hexp _ _ Hk). lia.
  - intros e [->%gmultiset_elem_of_singleton|He]%gmultiset_elem_of_disj_union; cbn [fst snd].
    + split_and!; [| |lia]; apply lookup_insert_is_Some'; [by left|right].
      apply lookup_insert_is_Some'; by left.
    + destruct (Hpar e He) as (H1 & H2 & H3).
      split_and!; [..|done]; apply lookup_insert_is_Some'; right; apply lookup_insert_is_Some';
        by right.
Qed.

Lemma bank_steps_ok b b' : rtc bank_step b b' -> bank_ok b -> bank_ok b'.
Proof. intros Hs. induction Hs; [done|]. eauto using bank_step_ok. Qed.

(** The money in all accounts. *)
Definition money (b : Bank) : Z := map_fold (fun _ bal acc => bal + acc) 0 (accounts b).

Lemma money_insert i bal m :
  m !! i = None ->
  map_fold (fun _ bal acc => bal + acc) 0 (<[i := bal]> m) =
    bal + map_fold (fun (_ : Z) bal acc => bal + acc) 0 m.
Proof. intros Hi. apply map_fold_insert_L; [|done]. intros; lia. Qed.

Lemma money_update i bal bal' m :
  m !! i = Some bal ->
  map_fold (fun _ bal acc => bal + acc) 0 (<[i := bal']> m) =
    bal' - bal + map_fold (fun (_ : Z) bal acc => bal + acc) 0 m.
Proof.
  intros Hi. rewrite <- insert_delete_eq, money_insert by apply lookup_delete_eq.
  rewrite <- (insert_delete_id m i bal Hi) at 2. rewrite money_insert by apply lookup_delete_eq. lia.
Qed.

(** Opening adds the opening balance; a transfer moves money and makes
    none. *)
Lemma money_step b b' :
  bank_step b b' ->
  money b' - default_balance * Z.of_nat (size (accounts b')) =
    money b - default_balance * Z.of_nat (size (accounts b)).
Proof.
  intros [i Hi|i j amount bi bj Hij Hbi Hbj _]; unfold money, opened, moved; cbn [accounts].
  - rewrite money_insert, map_size_insert_None by done. lia.
  - assert (<[j := bj + amount]> (accounts b) !! i = Some bi) as Hi
      by by rewrite lookup_insert_ne.
    rewrite (money_update _ bi), (money_update _ bj) by done.
    rewrite !map_size_insert_Some by eauto. lia.
Qed.

(** ** The bank in the tables *)

Definition entry_of (t : Transfer) : Z * Z * Z := (t_from_user t, t_to_user t, t_amount t).

Definition bank_of (T : Tables) : Bank :=
  MkBank (list_to_map (map (fun u => (u_id u, u_balance u)) (users T)))
    (list_to_set_disj (map entry_of (transfers T))).

Lemma account_ids us : (map (fun u => (u_id u, u_balance u)) us).*1 = map u_id us.
Proof. induction us as [|u us IH]; [done|]. cbn [map]. rewrite fmap_cons. by f_equal. Qed.

Lemma bank_of_equiv T T' : NoDup (user_ids T) -> T ≡ T' -> bank_of T = bank_of T'.
Proof.
  intros Hn (Hu & Ht & _). unfold bank_of. f_equal.
  - apply list_to_map_proper; [by rewrite account_ids|]. by rewrite Hu.
  - by rewrite Ht.
Qed.

Lemma bank_account T u :
  NoDup (user_ids T) -> u ∈ users T -> accounts (bank_of T) !! u_id u = Some (u_balance u).
Proof.
  intros Hn Hu. cbn [accounts bank_of]. apply elem_of_list_to_map; [by rewrite account_ids|].
  apply list_elem_of_fmap. by exists u.
Qed.

Lemma bank_no_account T i : i ∉ user_ids T <-> accounts (bank_of T) !! i = None.
Proof. cbn [accounts bank_of]. rewrite <- not_elem_of_list_to_map. by rewrite account_ids. Qed.

(** What account [i] received less what it sent, as rows of transfers. *)
Definition net_transfers (i : Z) (T : Tables) : Z :=
  sumZ (map t_amount (List.filter (fun t => t_to_user t =? i) (transfers T))) -
  sumZ (map t_amount (List.filter (fun t => t_from_user t =? i) (transfers T))).

Lemma net_of_tables i T : net i (journal (bank_of T)) = net_transfers i T.
Proof.
  unfold net, net_transfers. cbn [journal bank_of].
  assert (elements (list_to_set_disj (map entry_of (transfers T)) : gmultiset _) ≡ₚ
          map entry_of (transfers T)) as ->.
  { induction (transfers T) as [|t ts IH]; [done|]. cbn [map list_to_set_disj].
    by rewrite gmultiset_elements_disj_union, gmultiset_elements_singleton, IH. }
  unfold received, sent. induction (transfers T) as [|t ts IH]; [done|]. cbn [map List.filter].
  unfold sumZ in *. cbn [foldr fst snd entry_of].
  destruct (t_to_user t =? i), (t_from_user t =? i); cbn [map foldr]; lia.
Qed.

(** The books of the users, read off a bank that is in order. *)
Lemma books_of_bank T :
  NoDup (user_ids T) -> bank_ok (bank_of T) ->
  forall u, u ∈ users T ->
    0 <= u_balance u /\ u_balance u = default_balance + net_transfers (u_id u) T.
Proof.
  intros Hn Hb u Hu. pose proof (bank_account _ u Hn Hu) as Ha.
  pose proof (bank_solvent _ Hb _ _ Ha) as Hs. pose proof (bank_explained _ Hb _ _ Ha) as He.
  cbn beta in *. by rewrite net_of_tables in He.
Qed.
