(* ===== verification/SystemFacts.v ===== *)
(** * What one request does to the bank

    Each handler, run with any request and under any fault, leaves the tables
    as they are or performs one step of the ledger; a guard adds nothing. *)

From S2P Require Import Prelude GoStrings Json Tables Sql SqlFacts Servers Db PgFacts TxFacts.
From S2P Require Import RedisClient RedisFacts Consumer Transfer TransferFacts ReadFacts.
From S2P Require Import Auth AuthFacts Account AccountFacts Notification Events Health.
From S2P Require Import Producer Services Ledger.

(** ** Steps of the tables as steps of the bank *)

Lemma account_lookup T k :
  NoDup (user_ids T) ->
  (exists u, u ∈ users T /\ u_id u = k /\ accounts (bank_of T) !! k = Some (u_balance u)) \/
  (k ∉ user_ids T /\ accounts (bank_of T) !! k = None).
Proof.
  intros Hn. destruct (decide (k ∈ user_ids T)) as [Hk|Hk].
  - left. pose proof Hk as (u & -> & Hu)%list_elem_of_fmap. exists u.
    split_and!; [done|done|by apply bank_account].
  - right. split; [done|]. by apply bank_no_account.
Qed.

Lemma opened_equiv T T' u :
  schema_ok T' -> users T' ≡ₚ u :: users T -> transfers T' ≡ₚ transfers T ->
  u_balance u = default_balance -> u_id u ∉ user_ids T ->
  bank_of T' = opened (u_id u) (bank_of T).
Proof.
  intros Hok Hu Ht Hb Hi.
  assert (user_ids T' ≡ₚ u_id u :: user_ids T) as Hids by (unfold user_ids; by rewrite Hu).
  pose proof (ok_user_ids _ Hok) as Hn. pose proof Hn as Hn'. rewrite Hids in Hn'.
  apply NoDup_cons in Hn' as [_ Hn'].
  unfold bank_of at 1, opened. f_equal; [|cbn [journal bank_of]; by rewrite Ht].
  change (accounts (bank_of T') = <[u_id u := default_balance]> (accounts (bank_of T))).
  apply map_eq. intros k. destruct (decide (k = u_id u)) as [->|Hk].
  - rewrite lookup_insert_eq, bank_account; [by rewrite Hb|done|rewrite Hu; by left].
  - rewrite lookup_insert_ne by done. destruct (account_lookup T k Hn') as [(v & Hv & <- & ->)|[Hni ->]].
    + apply bank_account; [done|]. rewrite Hu. by right.
    + apply bank_no_account. rewrite Hids. set_solver.
Qed.

Lemma move_id s r amount u : u_id (move s r amount u) = u_id u.
Proof. unfold move. by repeat case_match. Qed.

Lemma moved_equiv T T' sender receiver amount tid now :
  schema_ok T -> sender ∈ users T -> receiver ∈ users T -> u_id receiver <> u_id sender ->
  users T' ≡ₚ map (move (u_id sender) (u_id receiver) amount) (users T) ->
  transfers T' ≡ₚ MkTransfer tid (u_id sender) (u_id receiver) amount now :: transfers T ->
  bank_of T' = moved (u_id sender) (u_id receiver) amount (u_balance sender) (u_balance receiver)
                 (bank_of T).
Proof.
  intros Hok Hs Hr Hne Hu Ht. pose proof (ok_user_ids _ Hok) as Hn.
  assert (user_ids T' ≡ₚ user_ids T) as Hids.
  { unfold user_ids. rewrite Hu, map_map. by rewrite (map_ext _ u_id) by (intros; apply move_id). }
  assert (NoDup (user_ids T')) as Hn' by by rewrite Hids.
  assert (forall u, u ∈ users T -> accounts (bank_of T') !! u_id u =
            Some (u_balance (move (u_id sender) (u_id receiver) amount u))) as Hacc.
  { intros u Hin. rewrite <- (move_id (u_id sender) (u_id receiver) amount u) at 1.
    apply bank_account; [done|]. rewrite Hu. by apply list_elem_of_fmap_2. }
  unfold bank_of at 1, moved. f_equal; [|cbn [journal bank_of]; by rewrite Ht].
  change (accounts (bank_of T') = <[u_id sender := u_balance sender - amount]>
            (<[u_id receiver := u_balance receiver + amount]> (accounts (bank_of T)))).
  apply map_eq. intros k. destruct (decide (k = u_id sender)) as [->|Hks].
  { rewrite lookup_insert_eq, Hacc by done. unfold move. by rewrite Z.eqb_refl. }
  rewrite lookup_insert_ne by done. destruct (decide (k = u_id receiver)) as [->|Hkr].
  { rewrite lookup_insert_eq, Hacc by done. unfold move.
    replace (u_id receiver =? u_id sender) with false by lia. by rewrite Z.eqb_refl. }
  rewrite lookup_insert_ne by done.
  destruct (account_lookup T k Hn) as [(v & Hv & <- & ->)|[Hni ->]].
  - rewrite Hacc by done. unfold move. replace (u_id v =? u_id sender) with false by lia.
    by replace (u_id v =? u_id receiver) with false by lia.
  - apply bank_no_account. by rewrite Hids.
Qed.

(** The tables of one request: the constraints hold again, and the bank made
    at most one step. *)
Definition bank_request (T T' : Tables) : Prop :=
  schema_ok T' /\ bank_step0 (bank_of T) (bank_of T').

Lemma request_same T T' : schema_ok T -> T ≡ T' -> bank_request T T'.
Proof.
  intros Hok E. split; [by rewrite <- E|]. left. symmetry.
  exact (bank_of_equiv T T' (ok_user_ids _ Hok) E).
Qed.

Lemma request_registered `{Bcrypt} phone username password T u T' :
  schema_ok T' -> registered phone username password T u T' -> bank_request T T'.
Proof.
  intros Hok Hr. revert Hok. destruct Hr as [id acct hash T2 _ _ _ _ Hid _ _ v _ Hu Ht _].
  intros Hok. split; [done|]. right.
  rewrite (opened_equiv T T2 v) by done. apply step_open. by apply bank_no_account.
Qed.

Lemma request_transferred senderID p T res T' :
  schema_ok T -> schema_ok T' -> 0 < p_Amount p -> transferred senderID p T res T' ->
  bank_request T T'.
Proof.
  intros Hok Hok' Ha Htr. revert Hok'.
  destruct Htr as [s r tid n1 n2 now1 now2 T2 Hs Hr Es Hne _ Hb _ _ Hu Ht _].
  intros Hok'. split; [done|]. right. rewrite <- Es in *. rewrite (moved_equiv T T2 s r (p_Amount p) tid now1) by done.
  apply step_move; [congruence| | |lia]; apply bank_account; try done; apply (ok_user_ids _ Hok).
Qed.

(** ** Handlers *)

Section Handlers.
Context {P R J : Type} `{PgLaws P} `{RedisServer R} `{JetStream J} `{Bcrypt} `{!BcryptLaws}.
Abbreviation W := (World P R J).

(** The handler never touches the tables. *)
Definition reads_only (h : Handler W) : Prop :=
  forall ctx action raw headers, keeps (on_tables (≡)) (h ctx action raw headers).

Definition ledger_handler (h : Handler W) : Prop :=
  forall ctx action raw headers (w : W), schema_ok (tables_of w) ->
    wp (h ctx action raw headers) (fun _ w' => bank_request (tables_of w) (tables_of w')) w.

Lemma reads_ledger h : reads_only h -> ledger_handler h.
Proof.
  intros Hh ctx action raw headers w Hok. eapply wp_mono; [apply keeps_wp, Hh|].
  intros r w' E. by apply request_same.
Qed.

Ltac keeps_reads :=
  repeat first
    [ apply keeps_pg_one; [apply _|]; apply one_respects_reads; [apply _|reflexivity]
    | apply keeps_pg_all; [apply _|]; apply all_respects_reads; [apply _|reflexivity]
    | apply keeps_on_rd; apply _ | apply keeps_on_host; apply _ | apply keeps_getenv; apply _
    | apply keeps_ret; apply _ | apply keeps_bind; [apply _| |intros ?]
    | progress cbn zeta beta | case_match ].

Lemma handleMe_reads : reads_only handleMe.
Proof. intros ctx action raw headers. unfold handleMe, QueryUser. keeps_reads. Qed.

Lemma handleBalance_reads : reads_only handleBalance.
Proof.
  intros ctx action raw headers.
  unfold handleBalance, GetBalance, SetBalance, queryBalanceFromDB, rdo. keeps_reads.
Qed.

Lemma handleLookup_reads : reads_only handleLookup.
Proof. intros ctx action raw headers. unfold handleLookup, QueryUser. keeps_reads. Qed.

Lemma handleAdminStats_reads : reads_only handleAdminStats.
Proof.
  intros ctx action raw headers. unfold handleAdminStats. apply keeps_bind; [apply _| |].
  - apply wp_keeps. intros w. apply (stats_run _ None); [done|done| |].
    + by intros w' [_ E] _.
    + by intros e st' w' [_ E] _.
  - intros [[e|] st]; apply keeps_ret; apply _.
Qed.

Lemma handleAdminUsers_reads : reads_only handleAdminUsers.
Proof. intros ctx action raw headers. unfold handleAdminUsers. keeps_reads. Qed.

Lemma handleAdminTransfers_reads fmt : reads_only (handleAdminTransfers fmt).
Proof.
  intros ctx action raw headers. unfold handleAdminTransfers, resolveUserNames. keeps_reads.
Qed.

Lemma handleAdminNotifications_reads fmt : reads_only (handleAdminNotifications fmt).
Proof. intros ctx action raw headers. unfold handleAdminNotifications. keeps_reads. Qed.

Lemma handleAdminUserDetail_reads : reads_only handleAdminUserDetail.
Proof. intros ctx action raw headers. unfold handleAdminUserDetail, QueryUser. keeps_reads. Qed.

Lemma handleNotifications_reads fmt : reads_only (handleNotifications fmt).
Proof. intros ctx action raw headers. unfold handleNotifications, own_notifications. keeps_reads. Qed.

Lemma handleLogin_reads : reads_only handleLogin.
Proof.
  intros ctx action raw headers.
  unfold handleLogin, login_user, GetUserCacheByPhone, GetUserCacheByUsername, GetUserCache,
    SetUserCache, userCacheTTL, CreateSession, sessionTTL, new_uuid, QueryUser, rdo. keeps_reads.
Qed.

Lemma handleLogout_reads : reads_only handleLogout.
Proof. intros ctx action raw headers. unfold handleLogout, DeleteSession, rdo. keeps_reads. Qed.

(** The ping of the pool leaves the tables alone. *)
Context (ping : P -> option goerr * P).
Hypothesis ping_view : forall p, pg_view p ≡ pg_view (ping p).2.

Lemma NATSHandler_reads name : reads_only (NATSHandler ping name).
Proof.
  intros ctx action raw headers. unfold NATSHandler, checkHealth, rdo.
  assert (keeps (on_tables (≡)) (on_pg (R:=R) (J:=J) ping)) as Hping.
  { intros w. unfold on_pg, on_tables, tables_of. pose proof (ping_view (w_pg w)).
    by destruct (ping (w_pg w)). }
  repeat first [ exact Hping | progress keeps_reads ].
Qed.

(** ** Handlers that write *)

Lemma handleRegister_request : ledger_handler handleRegister.
Proof.
  intros ctx action raw headers w Hok. eapply wp_mono; [apply wp_and|].
  - by apply (handleRegister_spec None ctx action raw headers).
  - apply keeps_wp, (handleRegister_schema (P:=P) (R:=R) (J:=J) ctx action raw headers).
  - intros r w' [(_ & _ & _ & Ha) Hs]. specialize (Hs Hok).
    destruct (register_request raw) as [[[phone username] password]|].
    + destruct Ha as [u Hr|_ E|E|e E|e u Hr];
        try (by eapply request_registered); by apply request_same.
    + destruct Ha as [E _]. apply request_same; [done|]. unfold tables_of. by rewrite E.
Qed.

Lemma handleTransfer_request publishEvent :
  publisher_ok publishEvent -> ledger_handler (handleTransfer publishEvent).
Proof.
  intros Hpub ctx action raw headers w Hok. eapply wp_mono; [apply wp_and|].
  - by apply handleTransfer_answer.
  - apply keeps_wp, (handleTransfer_schema (P:=P) (R:=R) (J:=J) _ _ _ _ _ Hpub).
  - intros r w' [Ha Hs]. specialize (Hs Hok).
    destruct Ha as [msg _ ->|p res Hacc Ht _ _|p e st msg _ _ _ E _|p msg _ E _
                   |p e _ E _|p e res Hacc _ Ht _];
      try (by apply request_same); eapply request_transferred; eauto using accepts_amount.
Qed.

Lemma ack_keeps_bank id uid env T n T' :
  exec_run pg_ilike (ack_update id uid) env T = Ok (n, T') ->
  users T' = users T /\ transfers T' = transfers T.
Proof.
  intros Er. unfold exec_run, cmd_run, ack_update in Er.
  destruct (update_notifications _ _ _ _) as [[ns k]|]; simpl in Er; [|done].
  by injection Er as <- <-.
Qed.

Lemma request_notifications T T' :
  schema_ok T -> schema_ok T' -> users T' ≡ₚ users T -> transfers T' ≡ₚ transfers T ->
  bank_request T T'.
Proof.
  intros Hok Hok' Hu Ht. split; [done|]. left.
  change (bank_of (with_notifications T' []) = bank_of (with_notifications T [])).
  apply bank_of_equiv; [apply (ok_user_ids _ Hok')|done].
Qed.

Lemma handleAck_request : ledger_handler handleAck.
Proof.
  intros ctx action raw headers w Hok. unfold handleAck.
  destruct (UserIDFromContext ctx) as [userID b].
  destruct (unmarshal_raw decode_ackPayload raw) as [p|e].
  2: { by apply wp_ret, request_same. }
  destruct (a_ID p =? 0); [by apply wp_ret, request_same|].
  apply wp_bind, wp_on_pg. intros r p' E.
  assert (bank_request (tables_of w) (pg_view p')) as Hreq.
  { apply pg_exec_law in E.
    assert (schema_ok (pg_view p')) as Hok'
      by (by eapply (outcome_rel schema_kept); [apply exec_respects_schema|exact E|]).
    inversion E as [env T0 n T1 T2 (Eu & Et & _) He Er (Eu1 & Et1 & _)|? ? ? ? ? ? ? ? ? Es
                   |? ? ? Es|env T0 n T1 e T2 Hl (Eu & Et & _) He Er (Eu1 & Et1 & _)]; subst;
      try (by apply request_same);
      destruct (ack_keeps_bank _ _ _ _ _ _ Er) as [Hu Ht];
      (apply request_notifications; [done|done| |]; unfold tables_of;
       [by rewrite <- Eu1, Hu, Eu|by rewrite <- Et1, Ht, Et]). }
  destruct r as [n|]; [destruct (n =? 0)|]; by apply wp_ret.
Qed.

(** ** Guards and services *)

Lemma RequireSession_request next : ledger_handler next -> ledger_handler (RequireSession next).
Proof.
  intros Hn ctx action raw headers w Hok. unfold RequireSession. apply wp_bind.
  assert (wp (GetUserIDFromSession (P:=P) (J:=J) (header headers "x-session"))
            (fun _ w' => w_pg w' = w_pg w) w) as Hg.
  { unfold GetUserIDFromSession. case_match; [done|]. apply wp_bind. unfold rdo. apply wp_on_rd.
    intros x rd' _. repeat case_match; done. }
  eapply wp_mono; [exact Hg|]. intros r w' E. unfold tables_of. rewrite <- E.
  assert (schema_ok (tables_of w')) as Hok' by (unfold tables_of; by rewrite E).
  destruct r as [id|e]; [by apply Hn|]. case_match; by apply wp_ret, request_same.
Qed.

Lemma RequireAdmin_request secret next :
  ledger_handler next -> ledger_handler (RequireAdmin secret next).
Proof.
  intros Hn ctx action raw headers w Hok. unfold wp. rewrite RequireAdmin_session.
  case_bool_decide; [by apply RequireSession_request|by apply request_same].
Qed.

Context (fmt_time : Z -> string) (adminSecret : string) (jetstream : bool).

(** Every endpoint of the four services. *)
Lemma services_request c action h :
  @publisher_ok P R J (transfer_publisher jetstream) ->
  c ∈ services fmt_time ping adminSecret jetstream -> c_handlers c !! action = Some h ->
  ledger_handler h.
Proof.
  intros Hpub Hc Hh. unfold services in Hc.
  repeat first
    [ apply elem_of_cons in Hc as [->|Hc] | by apply not_elem_of_nil in Hc ];
    cbn -[lookup insert empty] in Hh;
    repeat (apply lookup_insert_Some in Hh as [[<- <-]|[_ Hh]]);
    try (by rewrite lookup_empty in Hh);
    unfold SessionMiddleware, AdminMiddleware;
    try first [apply RequireSession_request|apply RequireAdmin_request];
    first
      [ apply handleRegister_request | apply handleAck_request
      | by apply handleTransfer_request
      | apply reads_ledger;
        first [ apply handleMe_reads | apply handleBalance_reads | apply handleLookup_reads
              | apply handleAdminStats_reads | apply handleAdminUsers_reads
              | apply handleAdminTransfers_reads | apply handleAdminNotifications_reads
              | apply handleAdminUserDetail_reads | apply handleNotifications_reads
              | apply handleLogin_reads | apply handleLogout_reads | apply NATSHandler_reads ] ].
Qed.
End Handlers.
