(* ===== verification/Api.v ===== *)
(** * The types of the replies

    [api] lists for every endpoint the statuses it answers with and the type
    of the body that comes with each; [has_type] is the typing of JSON
    values. Every reply is typed, whatever the servers do. *)

From S2P Require Import Prelude GoStrings Json JsonFacts Tables Sql Servers Db Logging RedisClient Consumer.
From S2P Require Import Transfer Auth Account Notification Events Health Producer Services.

(** ** Types *)

(** [TMasked]: a text that shows at most its two first and its two last
    bytes, and stars for the rest ([hidden]). An object has
    exactly the listed members in this order. *)
Inductive jtype : Type :=
| TNull | TBool | TInt | TStr | TMasked
| TArr (t : jtype)
| TObj (fields : list (string * jtype)).

Inductive has_type : json -> jtype -> Prop :=
| ty_null : has_type JNull TNull
| ty_bool b : has_type (JBool b) TBool
| ty_int z : has_type (JInt z) TInt
| ty_str s : has_type (JStr s) TStr
| ty_masked s : hidden s -> has_type (JStr s) TMasked
| ty_arr t l : has_types l t -> has_type (JArr l) (TArr t)
| ty_obj kvs fields : has_fields kvs fields -> has_type (JObj kvs) (TObj fields)
with has_types : list json -> jtype -> Prop :=
| tys_nil t : has_types [] t
| tys_cons v l t : has_type v t -> has_types l t -> has_types (v :: l) t
with has_fields : list (string * json) -> list (string * jtype) -> Prop :=
| tyf_nil : has_fields [] []
| tyf_cons k v kvs t fields :
    has_type v t -> has_fields kvs fields -> has_fields ((k, v) :: kvs) ((k, t) :: fields).

Create HintDb typing.
#[export] Hint Constructors has_type has_types has_fields : typing.

Lemma has_types_map {A} (f : A -> json) t l :
  (forall a, has_type (f a) t) -> has_types (map f l) t.
Proof. intros Hf. induction l; simpl; auto with typing. Qed.
#[export] Hint Resolve has_types_map : typing.

Lemma JMap_type kvs fields : has_fields (merge_sort key_le kvs) fields -> has_type (JMap kvs) (TObj fields).
Proof. apply ty_obj. Qed.

(** Keeps the type of a value and forgets the value, so that the sorting of
    an object of [JMap] can be computed. *)
Ltac hide_value v H := generalize H; generalize v; intros.

Ltac type_JMap :=
  apply JMap_type;
  repeat match goal with
  | |- has_fields (merge_sort _ ?kvs) _ =>
      match kvs with
      | context [JArr (map ?f ?l)] =>
          let H := fresh in
          eassert (has_type (JArr (map f l)) (TArr _)) as H
            by (apply ty_arr, has_types_map; intros ?; by auto with typing);
          revert H; generalize (JArr (map f l)); intros
      | context [JInt ?z] => hide_value (JInt z) (ty_int z)
      | context [JBool ?b] => hide_value (JBool b) (ty_bool b)
      | context [JStr (mask_phone ?p)] => hide_value (JStr (mask_phone p)) (ty_masked _ (mask_phone_hidden p))
      | context [JStr ?s] => hide_value (JStr s) (ty_str s)
      end
  end;
  vm_compute; auto 20 with typing.

Definition TDetail : jtype := TObj [("detail", TStr)].

Definition TUser : jtype :=
  TObj [("account_number", TStr); ("balance", TInt); ("id", TInt); ("is_admin", TBool);
        ("phone", TMasked); ("username", TStr)].

Definition TTransfer : jtype :=
  TObj [("id", TInt); ("from_user", TInt); ("to_user", TInt); ("from_username", TStr);
        ("to_username", TStr); ("amount", TInt); ("created_at", TStr)].

Definition TNotification : jtype :=
  TObj [("created_at", TStr); ("id", TInt); ("is_read", TBool); ("message", TStr); ("user_id", TInt)].

Lemma detail_type msg : has_type (detail msg) TDetail.
Proof. unfold detail. type_JMap. Qed.

Lemma userToAdminView_type u : has_type (userToAdminView u) TUser.
Proof. unfold userToAdminView. type_JMap. Qed.

Lemma transferResponse_type fmt_time names t : has_type (transferResponse fmt_time names t) TTransfer.
Proof. unfold transferResponse, TTransfer. auto 20 with typing. Qed.

Lemma NotificationToMap_type fmt_time n : has_type (NotificationToMap fmt_time n) TNotification.
Proof. unfold NotificationToMap. type_JMap. Qed.
#[export] Hint Resolve detail_type userToAdminView_type transferResponse_type NotificationToMap_type : typing.

(** How deep the values of a type are nested. *)
Fixpoint type_depth (t : jtype) : Z :=
  match t with
  | TArr t => 1 + Z.max 0 (type_depth t)
  | TObj fields => 1 + foldr (fun f d => Z.max (type_depth f.2) d) 0 fields
  | _ => 0
  end.

(** A typed value has integers for numbers. *)
Lemma has_type_ints v t : has_type v t -> json_ints v /\ json_depth v <= type_depth t.
Proof.
  revert t. induction v as [| | | |l IH|kvs IH] using json_ind'; intros t Ht; inversion Ht as
    [| | | | |t0 l0 Hl|kvs0 fields Hf]; subst; try (by split; [constructor|]).
  - clear Ht. cbn [json_depth type_depth]. set (d := Z.max 0 (type_depth t0)).
    enough (Forall json_ints l /\ foldr (fun x d => Z.max (json_depth x) d) 0 l <= d) as [? ?]
      by (split; [by constructor|lia]).
    induction IH as [|x l Hx _ IHl]; [by split; [|unfold d; simpl; lia]|].
    inversion Hl as [|? ? ? Hx' Hl']; subst. destruct (Hx _ Hx'), (IHl Hl').
    split; [by constructor|unfold d in *; simpl; lia].
  - clear Ht. cbn [json_depth type_depth].
    enough (Forall (fun kv => json_ints kv.2) kvs /\
            foldr (fun kv d => Z.max (json_depth kv.2) d) 0 kvs <=
            foldr (fun f d => Z.max (type_depth f.2) d) 0 fields) as [? ?]
      by (split; [by constructor|lia]).
    revert fields Hf. induction IH as [|x kvs Hx _ IHl]; intros fields Hf;
      inversion Hf as [|k v kvs' t fields' Hv Hf']; subst; [done|].
    destruct (Hx _ Hv), (IHl _ Hf'). split; [by constructor|simpl in *; lia].
Qed.

(** ** The replies of the endpoints *)

Definition THealth : jtype :=
  TObj [("database", TStr); ("redis", TStr); ("service", TStr); ("status", TStr)].

Definition Replies : Type := list (Z * jtype).

Definition refusals (l : list Z) : Replies := map (fun status => (status, TDetail)) l.

(** What a guard adds, and what a failure of a handler becomes. *)
Definition session_replies (t : Replies) : Replies := t ++ refusals [401; 500].
Definition admin_replies (t : Replies) : Replies := t ++ refusals [401; 403; 500].

Definition health_replies : Replies := [(200, THealth); (503, THealth)].

Definition api (s : Service) (action : string) : Replies :=
  match s, action with
  | SAuth, "register" =>
      (201, TObj [("account_number", TStr); ("balance", TInt); ("id", TInt); ("phone", TMasked);
                  ("username", TStr)]) :: refusals [400; 409; 503; 500]
  | SAuth, "login" =>
      (200, TObj [("account_number", TStr); ("balance", TInt); ("is_admin", TBool);
                  ("phone", TMasked); ("session", TStr); ("username", TStr)])
        :: refusals [400; 401; 500]
  | SAuth, "logout" => session_replies [(204, TNull)]
  | SAccount, "me" => session_replies ((200, TUser) :: refusals [404])
  | SAccount, "balance" => session_replies ((200, TObj [("balance", TInt)]) :: refusals [404])
  | SAccount, "lookup" =>
      session_replies ((200, TObj [("account_number", TStr); ("id", TInt); ("username", TStr)])
                         :: refusals [400; 404])
  | SAccount, "stats" =>
      admin_replies [(200, TObj [("total_balance", TInt); ("total_notifications", TInt);
        ("total_transfer_amount", TInt); ("transfer_count", TInt); ("user_count", TInt)])]
  | SAccount, "users" =>
      admin_replies [(200, TObj [("page", TInt); ("pages", TInt); ("size", TInt); ("total", TInt);
        ("users", TArr TUser)])]
  | SAccount, "transfers" =>
      admin_replies [(200, TObj [("page", TInt); ("pages", TInt); ("size", TInt); ("total", TInt);
        ("transfers", TArr TTransfer)])]
  | SAccount, "notifications" =>
      admin_replies [(200, TObj [("notifications", TArr TNotification); ("page", TInt);
        ("pages", TInt); ("size", TInt); ("total", TInt)])]
  | SAccount, "user-detail" => admin_replies ((200, TUser) :: refusals [400; 404])
  | STransfer, "transfer" =>
      session_replies ((200, TObj [("amount", TInt); ("transfer_id", TInt)])
                         :: refusals [400; 404; 503])
  | SNotification, "notifications" =>
      session_replies [(200, TObj [("notifications", TArr TNotification)])]
  | SNotification, "ack" =>
      session_replies ((200, TObj [("status", TStr)]) :: refusals [400; 404])
  | _, "health" => health_replies
  | _, _ => []
  end.

(** ** Handlers *)

(** A response that the list allows. *)
Definition allowed (t : Replies) (resp : rpcResponse) : Prop :=
  exists ty, (rpc_status resp, ty) ∈ t /\ has_type (rpc_body resp) ty.

(** Membership in a list that is written out. *)
Ltac in_list := first [by left | right; in_list].

Section Typing.
Context {P R J : Type} `{PgServer P} `{RedisServer R} `{JetStream J} `{Bcrypt}.
Abbreviation W := (World P R J).

(** Every result is allowed, whatever the calls answer. *)
Definition yields (m : M W (result goany goerr)) (t : Replies) : Prop :=
  forall w, wp m (fun r _ => allowed t (response_of r)) w.

Lemma yields_ret r t : allowed t (response_of r) -> yields (ret r) t.
Proof. intros Hr w. by apply wp_ret. Qed.

Lemma yields_bind {A} (m : M W A) (k : A -> M W (result goany goerr)) t :
  (forall a, yields (k a) t) -> yields (bind m k) t.
Proof. intros Hk w. apply wp_bind. unfold wp. destruct (m w) as [a w']. apply Hk. Qed.

Lemma yields_weaken m t t' : t ⊆ t' -> yields m t -> yields m t'.
Proof.
  intros Ht Hm w. eapply wp_mono; [apply Hm|]. intros r w' (ty & Hin & Hty). exists ty. auto.
Qed.

Lemma allowed_err e t : (500, TDetail) ∈ t -> allowed t (response_of (Err e)).
Proof. intros Ht. exists TDetail. split; [done|apply detail_type]. Qed.

Lemma allowed_detail status msg t :
  (status, TDetail) ∈ t -> allowed t (response_of (Ok (Reply status (detail msg)))).
Proof. intros Ht. exists TDetail. split; [done|apply detail_type]. Qed.

Lemma allowed_body status body ty t :
  (status, ty) ∈ t -> has_type body ty -> allowed t (response_of (Ok (Reply status body))).
Proof. intros Ht Hty. by exists ty. Qed.

(** Along the structure of a handler; the replies with a body of their own
    are left. *)
Ltac build_yields :=
  repeat
    match goal with
    | |- yields (ret (Err _)) _ => apply yields_ret, allowed_err; in_list
    | |- yields (ret (Ok (Reply _ (detail _)))) _ => apply yields_ret, allowed_detail; in_list
    | |- yields (ret (Ok _)) _ =>
        apply yields_ret; eapply allowed_body; [in_list|]; first [by auto with typing | type_JMap]
    | |- yields (bind _ _) _ => apply yields_bind; intros ?
    | |- yields _ _ => first [progress cbn zeta beta | case_match]
    end.

Definition handler_yields (h : Handler W) (t : Replies) : Prop :=
  forall ctx action raw headers, yields (h ctx action raw headers) t.

Ltac list_replies :=
  intros ctx action raw headers;
  match goal with
  | |- yields _ (api ?s ?a) =>
      let t := eval cbv [api session_replies admin_replies health_replies refusals map app] in (api s a) in
      change (api s a) with t
  end.

Lemma handleLogin_yields : handler_yields handleLogin (api SAuth "login").
Proof. list_replies. unfold handleLogin, login_reply. build_yields. Qed.

Lemma register_loop_yields n phone username pwHash :
  yields (register_loop n phone username pwHash) (api SAuth "register").
Proof.
  induction n as [|n IH]; cbn [register_loop]; [apply yields_ret, allowed_detail; in_list|].
  apply yields_bind; intros acct. apply yields_bind; intros [row|e].
  - apply yields_ret. eapply allowed_body; [by left|]. type_JMap.
  - destruct (IsUniqueViolation e); [apply yields_ret, allowed_detail; in_list|].
    destruct (IsNotFound e); [done|]. apply yields_ret, allowed_err; in_list.
Qed.

Lemma handleRegister_yields : handler_yields handleRegister (api SAuth "register").
Proof.
  intros ctx action raw headers. unfold handleRegister.
  destruct (unmarshal_raw decode_credentials raw) as [p|e];
    [|apply yields_ret, allowed_detail; in_list].
  cbn zeta. destruct (negb _); [apply yields_ret, allowed_detail; in_list|].
  apply yields_bind; intros [pwHash|e]; [apply register_loop_yields|].
  apply yields_ret, allowed_err; in_list.
Qed.

Lemma handleLogout_yields : handler_yields handleLogout (api SAuth "logout").
Proof. list_replies. unfold handleLogout. build_yields. Qed.

Lemma handleMe_yields : handler_yields handleMe (api SAccount "me").
Proof. list_replies. unfold handleMe. build_yields. Qed.

Lemma handleBalance_yields : handler_yields handleBalance (api SAccount "balance").
Proof. list_replies. unfold handleBalance. build_yields. Qed.

Lemma handleLookup_yields : handler_yields handleLookup (api SAccount "lookup").
Proof. list_replies. unfold handleLookup. build_yields. Qed.

Lemma handleAdminStats_yields : handler_yields handleAdminStats (api SAccount "stats").
Proof. list_replies. unfold handleAdminStats, stats_answer. build_yields. Qed.

Lemma handleAdminUsers_yields : handler_yields handleAdminUsers (api SAccount "users").
Proof. list_replies. unfold handleAdminUsers, page_reply. build_yields. Qed.

Lemma handleAdminTransfers_yields fmt :
  handler_yields (handleAdminTransfers fmt) (api SAccount "transfers").
Proof. list_replies. unfold handleAdminTransfers, page_reply. build_yields. Qed.

Lemma handleAdminNotifications_yields fmt :
  handler_yields (handleAdminNotifications fmt) (api SAccount "notifications").
Proof. list_replies. unfold handleAdminNotifications, page_reply. build_yields. Qed.

Lemma handleAdminUserDetail_yields : handler_yields handleAdminUserDetail (api SAccount "user-detail").
Proof. list_replies. unfold handleAdminUserDetail. build_yields. Qed.

Lemma handleTransfer_yields publish : handler_yields (handleTransfer publish) (api STransfer "transfer").
Proof. list_replies. unfold handleTransfer. build_yields. Qed.

Lemma handleNotifications_yields fmt :
  handler_yields (handleNotifications fmt) (api SNotification "notifications").
Proof. list_replies. unfold handleNotifications, notifications_reply. build_yields. Qed.

Lemma handleAck_yields : handler_yields handleAck (api SNotification "ack").
Proof. list_replies. unfold handleAck. build_yields. Qed.

Lemma NATSHandler_yields ping name : handler_yields (NATSHandler ping name) health_replies.
Proof.
  intros ctx action raw headers. unfold NATSHandler, health_replies, THealth. build_yields.
Qed.

(** ** The services *)

Lemma RequireSession_yields next t :
  refusals [401; 500] ⊆ t -> handler_yields next t -> handler_yields (RequireSession next) t.
Proof.
  intros Ht Hn ctx action raw headers. unfold RequireSession. apply yields_bind. intros [id|e].
  - apply Hn.
  - destruct (errors_Is _ _); apply yields_ret, allowed_detail, Ht; in_list.
Qed.

Lemma RequireAdmin_yields secret next t :
  refusals [401; 403; 500] ⊆ t -> handler_yields next t -> handler_yields (RequireAdmin secret next) t.
Proof.
  intros Ht Hn ctx action raw headers. unfold RequireAdmin.
  destruct (negb _); [apply yields_ret, allowed_detail, Ht; in_list|].
  apply (RequireSession_yields next t); [|done].
  intros x Hx. apply Ht. simpl in Hx. set_solver.
Qed.

Definition handlers_yield (hs : gmap string (Handler W)) (t : string -> Replies) : Prop :=
  forall action h, hs !! action = Some h -> handler_yields h (t action).

Lemma handlers_yield_insert a h hs t :
  handler_yields h (t a) -> handlers_yield hs t -> handlers_yield (<[a := h]> hs) t.
Proof.
  intros Hh Hhs action h' [[<- <-]|[_ E]]%lookup_insert_Some; [done|by apply Hhs].
Qed.

Context (fmt_time : Z -> string) (ping : P -> option goerr * P).
Context (adminSecret : string) (jetstream : bool).

Lemma handlers_yield_empty t : handlers_yield ∅ t.
Proof. by intros action h ?%lookup_empty_Some. Qed.

Lemma session_subseteq t : refusals [401; 500] ⊆ session_replies t.
Proof. intros x Hx. apply elem_of_app. by right. Qed.

Lemma admin_subseteq t : refusals [401; 403; 500] ⊆ admin_replies t.
Proof. intros x Hx. apply elem_of_app. by right. Qed.

Lemma consumer_yields s :
  handlers_yield (c_handlers (consumer (R:=R) fmt_time ping adminSecret jetstream s)) (api s).
Proof.
  destruct s; repeat (apply handlers_yield_insert; [|]);
    try match goal with |- handlers_yield _ _ => apply handlers_yield_empty end;
    first [ apply NATSHandler_yields | apply handleRegister_yields | apply handleLogin_yields
          | apply RequireSession_yields; [apply session_subseteq|]
          | apply RequireAdmin_yields; [apply admin_subseteq|] ];
    first [ apply handleLogout_yields | apply handleMe_yields | apply handleBalance_yields
          | apply handleLookup_yields | apply handleAdminStats_yields | apply handleAdminUsers_yields
          | apply handleAdminTransfers_yields | apply handleAdminNotifications_yields
          | apply handleAdminUserDetail_yields | apply handleTransfer_yields
          | apply handleNotifications_yields | apply handleAck_yields ].
Qed.

(** C12. Every reply of every service has the type of its endpoint, for every
    request, every state and every answer of the servers: a request that is
    no JSON envelope is answered with the error 400 of the framework, any
    other with a status that [api] lists for the endpoint and a body of the
    type listed with it. So a number is a number in every reply, a list is
    never null, a telephone number is masked, and no reply has a member for
    the hash of a password. *)
Theorem replies_typed s action data hdrs (w : W) :
  let c := consumer (R:=R) fmt_time ping adminSecret jetstream s in
  match (serve c false action data hdrs w).1 with
  | None => c_handlers c !! action = None
  | Some (RespondError code msg) =>
      code = "400" /\ msg = "invalid request body" /\
      exists e, unmarshal_text decode_rpcRequest data = Err e
  | Some (Respond text) => exists resp ty,
      text = Marshal (encode_rpcResponse resp) /\
      (rpc_status resp, ty) ∈ api s action /\ has_type (rpc_body resp) ty
  end.
Proof.
  cbn zeta. pose proof (consumer_yields s action) as Hh. unfold serve, dispatch.
  destruct (c_handlers _ !! action) as [h|]; [|done].
  destruct (unmarshal_text _ data) as [payload|e]; [|by simpl; eauto].
  specialize (Hh h eq_refl {| ctx_user := None |} action payload
    (<["x-session" := header hdrs "x-session"]>
      (<["x-admin-secret" := header hdrs "x-admin-secret"]> ∅)) w).
  unfold bind, wp in *. destruct (h _ _ _ _ w) as [r w']. destruct Hh as (ty & Hin & Hty).
  simpl. eauto.
Qed.
End Typing.
