(* ===== verification/Claims.v ===== *)
(** * What a reply still means when other requests have run

    [grown] is what any request may do to the tables between two calls of
    another one: the constraints are kept, the bank moves along the ledger,
    and no row is lost ([rows_kept]). The claims of a successful reply
    ([transfer_claim], [register_claim], [ack_claim]) are stable under it. *)

From S2P Require Import Prelude GoStrings Json JsonFacts Tables Sql SqlFacts Servers Db PgFacts TxFacts.
From S2P Require Import RedisClient RedisFacts Consumer Transfer TransferFacts ReadFacts.
From S2P Require Import Auth AuthFacts Account AccountFacts Notification NotificationFacts.
From S2P Require Import Ledger SystemFacts.

(** ** Rows are never lost *)

(** Transfers stay as they are; of a user only the balance changes, of a
    notification only the mark, and only to read. *)
Record rows_kept (T T' : Tables) : Prop := {
  transfers_kept : forall t, t ∈ transfers T -> t ∈ transfers T';
  users_kept : forall u, u ∈ users T -> exists b, set_balance u b ∈ users T';
  notifications_kept : forall n, n ∈ notifications T -> exists n',
    n' ∈ notifications T' /\ n_id n' = n_id n /\ n_user_id n' = n_user_id n /\
    n_message n' = n_message n /\ (n_is_read n = true -> n_is_read n' = true);
}.

Lemma rows_kept_equiv T T' : T ≡ T' -> rows_kept T T'.
Proof.
  intros (Eu & Et & En). split.
  - intros t. by rewrite Et.
  - intros u Hu. exists (u_balance u). rewrite set_balance_id. by rewrite <- Eu.
  - intros n Hn. exists n. split_and!; [by rewrite <- En|done..].
Qed.

Lemma rows_kept_trans T1 T2 T3 : rows_kept T1 T2 -> rows_kept T2 T3 -> rows_kept T1 T3.
Proof.
  intros [Ht Hu Hn] [Ht' Hu' Hn']. split; [by auto| |].
  - intros u Hin. destruct (Hu u Hin) as [b Hb]. destruct (Hu' _ Hb) as [b' Hb']. by exists b'.
  - intros n Hin. destruct (Hn n Hin) as (n1 & Hin1 & ? & ? & ? & ?).
    destruct (Hn' n1 Hin1) as (n2 & Hin2 & ? & ? & ? & ?). exists n2. split_and!; [done|..]; try congruence.
    auto.
Qed.

Lemma move_set_balance s r amount u : exists b, move s r amount u = set_balance u b.
Proof.
  unfold move. repeat case_match; [by eexists..|]. exists (u_balance u). by rewrite set_balance_id.
Qed.

Lemma rows_transferred senderID p T res T' : transferred senderID p T res T' -> rows_kept T T'.
Proof.
  intros [s r tid n1 n2 now1 now2 T2 _ _ _ _ _ _ _ _ Hu Ht Hn]. split.
  - intros t Hin. rewrite Ht. by right.
  - intros u Hin. destruct (move_set_balance senderID (u_id r) (p_Amount p) u) as [b E].
    exists b. rewrite Hu, <- E. by apply list_elem_of_fmap_2.
  - intros n Hin. exists n. split_and!; [|done..]. rewrite Hn. by do 2 right.
Qed.

Lemma rows_inserted T u : rows_kept T (with_users T (users T ++ [u])).
Proof.
  split; cbn.
  - done.
  - intros v Hv. exists (u_balance v). rewrite set_balance_id. apply elem_of_app. by left.
  - intros n Hn. by exists n.
Qed.

Lemma rows_flagged id uid T : rows_kept T (flagged id uid T).
Proof.
  split; cbn.
  - done.
  - intros u Hu. exists (u_balance u). by rewrite set_balance_id.
  - intros n Hn. exists (if owned id uid n then set_is_read n true else n).
    split; [by apply (list_elem_of_fmap_2 (fun n => if owned id uid n then set_is_read n true else n))|].
    by destruct (owned id uid n).
Qed.

(** ** What a request does to the tables between the calls of others *)

Definition grown (T T' : Tables) : Prop :=
  schema_ok T -> schema_ok T' /\ rtc bank_step (bank_of T) (bank_of T') /\ rows_kept T T'.

Lemma request_grown T T' :
  (schema_ok T -> bank_request T T' /\ rows_kept T T') -> grown T T'.
Proof.
  intros H Hok. destruct (H Hok) as [[Hok' [->|Hs]] Hr]; (split_and!; [done| |done]);
    [apply rtc_refl|by apply rtc_once].
Qed.

#[global] Instance grown_rel : TableRel grown.
Proof.
  split; [split|].
  - intros T Hok. split_and!; [done|apply rtc_refl|by apply rows_kept_equiv].
  - intros T1 T2 T3 H12 H23 Hok. destruct (H12 Hok) as (Hok2 & Hb & Hr).
    destruct (H23 Hok2) as (Hok3 & Hb' & Hr'). split_and!; [done|by etransitivity|].
    by eapply rows_kept_trans.
  - intros T T' E. apply request_grown. intros Hok. split; [by apply request_same|].
    by apply rows_kept_equiv.
Qed.

Lemma grown_schema T T' : grown T T' -> schema_ok T -> schema_ok T'.
Proof. intros H Hok. by destruct (H Hok). Qed.

Lemma insert_user_grown ilike phone acct name hash cols :
  run_respects grown (one_run ilike (InsertUser phone acct name hash cols)).
Proof.
  intros env T u T' He Er. apply request_grown. intros Hok.
  pose proof (one_respects_schema ilike (InsertUser phone acct name hash cols) env T u T' He Er Hok)
    as Hok'.
  rewrite insert_user_run in Er. cbn zeta in Er.
  destruct (negb _); [done|]. destruct (bool_decide _); [done|].
  destruct (bool_decide _); [done|]. injection Er as _ <-.
  set (v := MkUser (nth_id (env_user_ids env) 0) phone acct name hash default_balance false) in *.
  split; [split; [done|]; right|apply rows_inserted].
  destruct (user_id_fresh env T He) as [_ Hid].
  rewrite (opened_equiv T (with_users T (users T ++ [v])) v); [| done | | done | done | exact Hid].
  - apply step_open. by apply bank_no_account.
  - cbn [users with_users]. by rewrite Permutation_app_comm.
Qed.

Lemma ack_grown ilike id uid : run_respects grown (exec_run ilike (ack_update id uid)).
Proof.
  intros env T n T' He Er. apply request_grown. intros Hok.
  pose proof (exec_respects_schema ilike (ack_update id uid) env T n T' He Er Hok) as Hok'.
  rewrite ack_run in Er. injection Er as _ <-.
  split; [by apply request_notifications|apply rows_flagged].
Qed.

(** ** Claims *)

(** A notification of the user with this message exists. *)
Definition notified (uid : Z) (msg : string) (T : Tables) : Prop :=
  exists n, n ∈ notifications T /\ n_user_id n = uid /\ n_message n = msg.

(** The transfer [tid] of [uid] as the payload [p] asked for it is entered,
    and both parties are told. *)
Definition recorded (uid : Z) (p : transferPayload) (tid : Z) (T : Tables) : Prop :=
  exists s r now, s ∈ users T /\ r ∈ users T /\ u_id s = uid /\ u_id r <> uid /\
    identifies p r = true /\ MkTransfer tid uid (u_id r) (p_Amount p) now ∈ transfers T /\
    notified uid (sender_msg r (p_Amount p)) T /\
    notified (u_id r) (receiver_msg s (p_Amount p)) T.

(** The account of [phone] was opened, under this name and password hash. *)
Definition account_opened (phone username hash : string) (u : User) (T : Tables) : Prop :=
  u_phone u = phone /\ u_username u = username /\ u_password_hash u = hash /\
  u_balance u = default_balance /\ u_is_admin u = false /\ exists b, set_balance u b ∈ users T.

(** The notification [id] of [uid] is read. *)
Definition marked_read (id uid : Z) (T : Tables) : Prop :=
  exists n, n ∈ notifications T /\ n_id n = id /\ n_user_id n = uid /\ n_is_read n = true.

Lemma identifies_set_balance p u b : identifies p (set_balance u b) = identifies p u.
Proof. unfold identifies, UserIdentifierCol. by repeat case_match; simplify_eq. Qed.

Lemma notified_kept uid msg T T' : rows_kept T T' -> notified uid msg T -> notified uid msg T'.
Proof.
  intros Hk (n & Hn & <- & <-). destruct (notifications_kept _ _ Hk n Hn) as (n' & Hn' & _ & ? & ? & _).
  by exists n'.
Qed.

Lemma recorded_kept uid p tid T T' : rows_kept T T' -> recorded uid p tid T -> recorded uid p tid T'.
Proof.
  intros Hk (s & r & now & Hs & Hr & Es & Hne & Hid & Ht & Hns & Hnr).
  destruct (users_kept _ _ Hk s Hs) as [bs Hbs]. destruct (users_kept _ _ Hk r Hr) as [br Hbr].
  exists (set_balance s bs), (set_balance r br), now.
  split_and!; [done..| | | |]; [by rewrite identifies_set_balance|by apply (transfers_kept _ _ Hk)
    |by eapply notified_kept|by eapply notified_kept].
Qed.

Lemma account_kept phone username hash u T T' :
  rows_kept T T' -> account_opened phone username hash u T -> account_opened phone username hash u T'.
Proof.
  intros Hk (? & ? & ? & ? & ? & b & Hb). destruct (users_kept _ _ Hk _ Hb) as [b' Hb'].
  split_and!; [done..|]. by exists b'.
Qed.

Lemma marked_kept id uid T T' : rows_kept T T' -> marked_read id uid T -> marked_read id uid T'.
Proof.
  intros Hk (n & Hn & <- & <- & Hr).
  destruct (notifications_kept _ _ Hk n Hn) as (n' & Hn' & ? & ? & _ & Hr').
  exists n'. split_and!; auto.
Qed.

Lemma transferred_recorded uid p T res T' :
  transferred uid p T res T' -> recorded uid p (r_transferID res) T'.
Proof.
  intros Htr. pose proof (rows_transferred _ _ _ _ _ Htr) as Hk.
  destruct Htr as [s r tid n1 n2 now1 now2 T2 Hs Hr Es Hne Hid _ _ _ Hu Ht Hn]. simpl.
  destruct (users_kept _ _ Hk s Hs) as [bs Hbs]. destruct (users_kept _ _ Hk r Hr) as [br Hbr].
  exists (set_balance s bs), (set_balance r br), now1.
  split_and!; [done..| | | |].
  - by rewrite identifies_set_balance.
  - rewrite Ht. by left.
  - eexists. split; [rewrite Hn; by left|done].
  - eexists. split; [rewrite Hn; right; by left|done].
Qed.

(** ** The claims of the replies

    Of a reply that is no success nothing is claimed; [uid] is the user whom
    the guard let in. *)

Definition receipt_reply (p : transferPayload) (tid : Z) : rpcResponse :=
  MkRpcResponse 200 (JMap [("transfer_id", JInt tid); ("amount", JInt (p_Amount p))]).

Definition transfer_claim (uid : Z) (raw : option json) (resp : rpcResponse) (T : Tables) : Prop :=
  rpc_status resp = 200 -> exists p tid,
    accepts raw = Some p /\ resp = receipt_reply p tid /\ recorded uid p tid T.

Definition register_claim `{Bcrypt} (raw : option json) (resp : rpcResponse) (T : Tables) : Prop :=
  rpc_status resp = 201 -> exists phone username password hash u,
    register_request raw = Some (phone, username, password) /\
    resp = response_of (Ok (register_reply u)) /\
    bcrypt_compare hash password = true /\ account_opened phone username hash u T.

Definition ack_claim (uid : Z) (raw : option json) (resp : rpcResponse) (T : Tables) : Prop :=
  rpc_status resp = 200 -> exists id, ack_request raw = Some id /\ marked_read id uid T.

(** ** A reply is known from its text *)

Definition not_comma (c : Ascii.ascii) : bool := negb (byte_val c =? 44).

Lemma digit_not_comma c : is_digit c = true -> not_comma c = true.
Proof. unfold is_digit, in_range, not_comma. lia. Qed.

Lemma Itoa_not_comma z : all_bytes not_comma (Itoa z) = true.
Proof.
  destruct (Itoa_shape z) as (sg & d & -> & Hs & _). rewrite all_bytes_app.
  apply andb_true_iff. split; [by destruct Hs as [->| ->]|].
  eapply all_bytes_impl; [apply digit_not_comma|apply string_of_uint_digits].
Qed.

Lemma comma_split a b s t :
  all_bytes not_comma a = true -> all_bytes not_comma b = true ->
  a +:+ "," +:+ s = b +:+ "," +:+ t -> a = b /\ s = t.
Proof.
  revert b. induction a as [|c a IH]; intros [|c' b]; cbn [all_bytes];
    intros Ha Hb E; simplify_eq/=; try done.
  apply andb_true_iff in Ha as [_ Ha], Hb as [_ Hb].
  by edestruct (IH b Ha Hb) as [-> ->]; [eassumption|].
Qed.

Lemma str_app_inj_r s s' t : s +:+ t = s' +:+ t -> s = s'.
Proof.
  revert s'. induction s as [|c s IH]; intros [|c' s'] E; [done| | |].
  - apply (f_equal String.length) in E. rewrite !str_app_length in E. simpl in E. lia.
  - apply (f_equal String.length) in E. rewrite !str_app_length in E. simpl in E. lia.
  - rewrite !str_app_cons in E. injection E as -> E. f_equal. by apply IH.
Qed.

(** The status of a response and the text of its body. *)
Lemma response_text_inj r r' :
  Marshal (encode_rpcResponse r) = Marshal (encode_rpcResponse r') ->
  rpc_status r = rpc_status r' /\ Marshal (rpc_body r) = Marshal (rpc_body r').
Proof.
  unfold encode_rpcResponse. cbn [Marshal map join fst snd]. rewrite !str_app_assoc. intros E.
  apply (inj _) in E. apply (inj _) in E. apply (inj _) in E.
  apply comma_split in E as [Es Eb]; [|apply Itoa_not_comma..].
  split; [by apply Itoa_inj|]. do 2 apply (inj _) in Eb. by apply str_app_inj_r in Eb.
Qed.

(** What the text of a response begins with. *)
Definition status_head (st : Z) : string :=
  "{" +:+ quote "status" +:+ ":" +:+ Itoa st +:+ ",".

Definition has_status (st : Z) (text : string) : bool := String.prefix (status_head st) text.

Lemma prefix_app s t : String.prefix s t = true -> exists u, t = s +:+ u.
Proof.
  revert t. induction s as [|c s IH]; intros t Hp; [by exists t|].
  destruct t as [|c' t]; simpl in Hp; [done|].
  destruct (Ascii.ascii_dec c c') as [->|]; [|done].
  destruct (IH t Hp) as [u ->]. exists u. by rewrite str_app_cons.
Qed.

Lemma prefix_of_app s u : String.prefix s (s +:+ u) = true.
Proof.
  induction s as [|c s IH]; [by destruct u|].
  rewrite str_app_cons. simpl. by destruct (Ascii.ascii_dec c c).
Qed.

Lemma has_status_response st r :
  has_status st (Marshal (encode_rpcResponse r)) = (rpc_status r =? st).
Proof.
  assert (Marshal (encode_rpcResponse r) =
            status_head (rpc_status r) +:+ quote "body" +:+ ":" +:+ Marshal (rpc_body r) +:+ "}") as ->.
  { unfold encode_rpcResponse, status_head. cbn [Marshal map join fst snd].
    by rewrite !str_app_assoc. }
  unfold has_status. destruct (rpc_status r =? st) eqn:Es.
  - apply Z.eqb_eq in Es as <-. apply prefix_of_app.
  - apply not_true_iff_false. intros Hp. apply prefix_app in Hp as [u E].
    unfold status_head in E. rewrite !str_app_assoc in E. do 3 apply (inj _) in E.
    apply comma_split in E as [E _]; [|apply Itoa_not_comma..]. apply Itoa_inj in E. lia.
Qed.

(** ** The effects of the requests

    What an endpoint that writes does to the tables, once. *)

Definition transfer_effect (uid : Z) (raw : option json) (T T' : Tables) : Prop :=
  exists p res, accepts raw = Some p /\ transferred uid p T res T'.

Definition register_effect `{Bcrypt} (raw : option json) (T T' : Tables) : Prop :=
  exists phone username password u, register_request raw = Some (phone, username, password) /\
    registered phone username password T u T'.

Definition ack_effect (uid : Z) (raw : option json) (T T' : Tables) : Prop :=
  exists id, ack_request raw = Some id /\ flagged id uid T ≡ T'.

(** The status codes after which nothing has been done: the request was
    refused, or gave up. *)
Definition refusal_codes : list Z := 503 :: seqZ 400 100.

Definition refuses (st : Z) : bool := bool_decide (st ∈ refusal_codes).

Lemma refuses_spec st : refuses st = true <-> st = 503 \/ 400 <= st < 500.
Proof.
  unfold refuses, refusal_codes. rewrite bool_decide_eq_true, elem_of_cons, elem_of_seqZ. lia.
Qed.

Definition refusal_text (text : string) : bool := existsb (fun st => has_status st text) refusal_codes.

Lemma refusal_text_response r :
  refusal_text (Marshal (encode_rpcResponse r)) = refuses (rpc_status r).
Proof.
  apply eq_true_iff_eq. unfold refusal_text, refuses.
  rewrite existsb_exists, bool_decide_eq_true. split.
  - intros (st & Hin & Hst). rewrite has_status_response in Hst.
    apply Z.eqb_eq in Hst as ->. by apply list_elem_of_In.
  - intros Hin. exists (rpc_status r). rewrite has_status_response. split; [by apply list_elem_of_In|lia].
Qed.
