(* ===== verification/Interleave.v ===== *)
(** * Requests that run at the same time

    The services handle every request in its own goroutine, so the calls of
    different requests to the servers interleave. [Prog] is a request as the
    tree of its calls, one constructor per kind of server operation; a
    SERIALIZABLE transaction is one call, the statements of a READ COMMITTED
    one are calls of their own. [ensures] is what a program establishes while
    others run, [once] that at most one of its calls has an effect on the
    tables, and [Steps n m] the tree of a program [m] of the state monad with
    both and with at most [n] calls, built along the structure of [m]. *)

From S2P Require Import Prelude GoStrings Json Tables Sql SqlFacts Servers Db PgFacts TxFacts.
From S2P Require Import RedisClient RedisFacts Consumer Transfer TransferFacts ReadFacts.
From S2P Require Import Auth AuthFacts Account AccountFacts Notification Events Health.
From S2P Require Import Producer Services Ledger SystemFacts.

(** ** Calls and programs *)

Section Programs.
Context {P R J : Type} `{PgServer P} `{RedisServer R} `{JetStream J}.
Abbreviation W := (World P R J).
Context (ping : P -> option goerr * P).

Inductive Call : Type -> Type :=
| CallOne {A} (s : Stmt A) : Call (result A goerr)
| CallAll {A} (s : Stmt A) : Call (result (list A) goerr)
| CallExec (c : Cmd) : Call (result Z goerr)
| CallTx {S} (fn : S * P -> option goerr * (S * P)) (o : TxOptions) (s : S) : Call (option goerr * S)
| CallBegin (o : TxOptions) : Call (option goerr)
| CallEnd (r : option goerr) : Call (option goerr)
| CallPing : Call (option goerr)
| CallRedis (c : RedisCmd) : Call (result RReply goerr)
| CallPipe (cs : list RedisCmd) : Call (option goerr)
| CallPublish (subject id data : string) : Call (option goerr)
| CallHost {A} (f : Host -> A) : Call A
| CallEnv (k : string) : Call string.

Definition run_call {A} (c : Call A) : M W A :=
  match c with
  | CallOne s => on_pg (pg_one s)
  | CallAll s => on_pg (pg_all s)
  | CallExec c => on_pg (pg_exec c)
  | CallTx fn o s => on_pg (with_vars (pg_tx o fn) s)
  | CallBegin o => on_pg (pg_begin o)
  | CallEnd r => on_pg (pg_end r)
  | CallPing => on_pg ping
  | CallRedis c => on_rd (redis_do c)
  | CallPipe cs => on_rd (redis_pipe cs)
  | CallPublish subject id data => on_js (js_publish subject id data)
  | CallHost f => on_host f
  | CallEnv k => getenv k
  end.

Inductive Prog (A : Type) : Type :=
| Return (a : A)
| Do {B} (c : Call B) (k : B -> Prog A).
Arguments Return {A} a.
Arguments Do {A B} c k.

(** The program on its own. *)
Fixpoint run {A} (p : Prog A) : M W A :=
  match p with
  | Return a => ret a
  | Do c k => bind (run_call c) (fun b => run (k b))
  end.

Fixpoint pbind {A B} (p : Prog A) (f : A -> Prog B) : Prog B :=
  match p with
  | Return a => f a
  | Do c k => Do c (fun b => pbind (k b) f)
  end.

Lemma run_pbind {A B} (p : Prog A) (f : A -> Prog B) w :
  run (pbind p f) w = bind (run p) (fun a => run (f a)) w.
Proof.
  revert w. induction p as [a|C c k IH]; intros w; simpl; [done|].
  unfold bind. destruct (run_call c w) as [b w']. rewrite IH. done.
Qed.

(** The result when the calls are made in the worlds [ws], whatever happened
    between them. *)
Fixpoint replay {A} (p : Prog A) (ws : list W) {struct p} : option A :=
  match p with
  | Return a => match ws with [] => Some a | _ :: _ => None end
  | Do c k => match ws with [] => None | w :: ws => replay (k (run_call c w).1) ws end
  end.

(** At most [n] calls, whatever they return. *)
Fixpoint bounded {A} (n : nat) (p : Prog A) {struct p} : Prop :=
  match p with
  | Return _ => True
  | Do c k => match n with O => False | S n => forall b, bounded n (k b) end
  end.

Lemma bounded_le {A} (p : Prog A) n n' : (n <= n')%nat -> bounded n p -> bounded n' p.
Proof.
  revert n n'. induction p as [a|B c k IH]; intros n n' Hle; simpl; [done|].
  destruct n as [|n]; [done|]. destruct n' as [|n']; [lia|]. intros Hk b. apply (IH b n); [lia|done].
Qed.

Lemma bounded_pbind {A B} (p : Prog A) (f : A -> Prog B) n n' :
  bounded n p -> (forall a, bounded n' (f a)) -> bounded (n + n') (pbind p f).
Proof.
  revert n. induction p as [a|C c k IH]; intros n; simpl.
  - intros _ Hf. by apply (bounded_le _ n'); [lia|].
  - destruct n as [|n]; [done|]. simpl. intros Hk Hf b. by apply IH.
Qed.

(** ** Programs all of whose calls keep a relation of the tables *)

Context (Q : Tables -> Tables -> Prop).

Fixpoint calls_keep {A} (p : Prog A) : Prop :=
  match p with
  | Return _ => True
  | Do c k => keeps (on_tables Q) (run_call c) /\ forall b, calls_keep (k b)
  end.

Lemma calls_keep_pbind {A B} (p : Prog A) (f : A -> Prog B) :
  calls_keep p -> (forall a, calls_keep (f a)) -> calls_keep (pbind p f).
Proof.
  intros Hp Hf. induction p as [a|C c k IH]; simpl in *; [by apply Hf|].
  destruct Hp as [Hc Hk]. split; [done|]. intros b. by apply IH.
Qed.

(** ** What a program ensures while others run

    Between two calls of a program the tables may change by [Q]. [ensures p
    post T]: started from the tables [T], or any later ones, the program
    ends with a result and tables that satisfy [post]. *)

Context `{!TableRel Q}.

Fixpoint ensures {A} (p : Prog A) (post : A -> Tables -> Prop) (T : Tables) : Prop :=
  match p with
  | Return a => post a T
  | Do c k => forall w, Q T (tables_of w) ->
      wp (run_call c) (fun b w' => ensures (k b) post (tables_of w')) w
  end.

(** [I] holds of the tables throughout. *)
Context (I : Tables -> Prop).
Hypothesis I_kept : forall T T', Q T T' -> I T -> I T'.

(** Others do not spoil it. *)
Definition stable {A} (post : A -> Tables -> Prop) : Prop :=
  forall a T T', I T -> Q T T' -> post a T -> post a T'.

Lemma ensures_later {A} (p : Prog A) post T T' :
  stable post -> I T -> Q T T' -> ensures p post T -> ensures p post T'.
Proof.
  intros Hs HI HQ. destruct p as [a|B c k]; simpl; [by apply Hs|].
  intros Hp w Hw. apply Hp. by etransitivity.
Qed.

Lemma ensures_mono {A} (p : Prog A) (post post' : A -> Tables -> Prop) T :
  calls_keep p -> ensures p post T -> (forall a T', Q T T' -> post a T' -> post' a T') ->
  ensures p post' T.
Proof.
  revert T. induction p as [a|B c k IH]; intros T; simpl.
  - intros _ Hp Hpost. by apply Hpost.
  - intros [Hc Hk] Hp Hpost w Hw. pose proof (keeps_wp _ _ w Hc) as Hcw.
    eapply wp_mono; [apply wp_and; [exact Hcw|by apply Hp]|].
    intros b w' [HQ He]. apply IH; [by apply Hk|done|]. intros a T' HT'. apply Hpost.
    etransitivity; [exact Hw|]. by etransitivity.
Qed.

Lemma ensures_pbind {A B} (p : Prog A) (f : A -> Prog B) mid post T :
  calls_keep p -> ensures p mid T ->
  (forall a T', Q T T' -> mid a T' -> ensures (f a) post T') -> ensures (pbind p f) post T.
Proof.
  revert T. induction p as [a|C c k IH]; intros T; simpl.
  - intros _ Hp Hf. by apply Hf.
  - intros [Hc Hk] Hp Hf w Hw. pose proof (keeps_wp _ _ w Hc) as Hcw.
    eapply wp_mono; [apply wp_and; [exact Hcw|by apply Hp]|].
    intros b w' [HQ He]. apply IH; [by apply Hk|done|]. intros a T' HT'. apply Hf.
    etransitivity; [exact Hw|]. by etransitivity.
Qed.

(** ** Programs with at most one effect

    [once V E p post]: run in worlds of [V], one call of the program at most
    takes the tables from one state to another related by [E], every other
    call leaves them as they are; [post used a]: the result, and whether that
    call has been made. *)

Definition still (w w' : W) : Prop := tables_of w ≡ tables_of w'.

Fixpoint once {A} (V : W -> Prop) (E : Tables -> Tables -> Prop) (p : Prog A)
    (post : bool -> A -> Prop) (used : bool) : Prop :=
  match p with
  | Return a => post used a
  | Do c k => forall w, I (tables_of w) -> V w ->
      wp (run_call c) (fun b w' =>
        (still w w' /\ once V E (k b) post used) \/
        (used = false /\ E (tables_of w) (tables_of w') /\ once V E (k b) post true)) w
  end.

Lemma once_mono {A} V E (p : Prog A) (post post' : bool -> A -> Prop) used :
  once V E p post used -> (forall u a, post u a -> post' u a) -> once V E p post' used.
Proof.
  revert used. induction p as [a|C c k IH]; intros used; simpl; [auto|].
  intros Hp Hi w HT HV. eapply wp_mono; [by apply Hp|].
  intros b w' [[Hs Hk]|(Hu & HE & Hk)]; [left|right]; auto.
Qed.

Lemma once_pbind {A B} V E (p : Prog A) (f : A -> Prog B) mid post used :
  once V E p mid used -> (forall u a, mid u a -> once V E (f a) post u) ->
  once V E (pbind p f) post used.
Proof.
  revert used. induction p as [a|C c k IH]; intros used; simpl; [auto|].
  intros Hp Hf w HT HV. eapply wp_mono; [by apply Hp|].
  intros b w' [[Hs Hk]|(Hu & HE & Hk)]; [left|right]; auto.
Qed.

(** What a program does to the tables, and what is known of its results, may
    depend on the worlds that it has seen. *)
Abbreviation Effect := ((W -> Prop) -> Tables -> Tables -> Prop).
Abbreviation Use A := ((W -> Prop) -> bool -> A -> Prop).

(** A program without effects. *)
Definition no_effect : Effect := fun _ _ _ => False.

Lemma once_quiet {A} V E (p : Prog A) (post : A -> Prop) used used' :
  once V (no_effect V) p (fun _ => post) used ->
  once V E p (fun u a => u = used' /\ post a) used'.
Proof.
  revert used. induction p as [a|C c k IH]; intros used; simpl; [done|].
  intros Hp w HT HV. eapply wp_mono; [by apply Hp|].
  intros b w' [[Hs Hk]|(_ & [] & _)]. left. split; [done|]. by apply (IH _ used).
Qed.

(** What is known of the result of a program whose calls were made in these
    worlds. *)
Lemma once_replay {A} V E (p : Prog A) post used ws a :
  once V E p post used -> Forall (fun w => I (tables_of w)) ws -> Forall V ws ->
  replay p ws = Some a -> exists u, post u a.
Proof.
  revert used ws. induction p as [x|B c k IH]; intros used [|w ws]; simpl; try done.
  - intros Hp _ _ [= ->]. by exists used.
  - intros Hp [HI HIs]%Forall_cons [HV HVs]%Forall_cons. specialize (Hp w HI HV).
    unfold wp in Hp. destruct (run_call c w) as [b w'].
    destruct Hp as [[_ Hk]|(_ & _ & Hk)]; by eapply IH.
Qed.

Lemma once_effect {A} V (E E' : Tables -> Tables -> Prop) (p : Prog A) post used :
  (forall T T', E T T' -> E' T T') -> once V E p post used -> once V E' p post used.
Proof.
  intros HE. revert used. induction p as [a|C c k IH]; intros used; simpl; [done|].
  intros Hp w HT HV. eapply wp_mono; [by apply Hp|].
  intros b w' [[Hs Hk]|(Hu & He & Hk)]; [left|right]; auto.
Qed.

(** The results that tell of the effect, and those that deny it. *)
Definition tells {A} (wins loses : A -> bool) (used : bool) (a : A) : Prop :=
  (wins a = true -> used = true) /\ (loses a = true -> used = false).

(** ** The tree of a program of the monad

    with a bound [n] of its calls, what it ensures from tables that satisfy
    [I], and its effect. *)

Record Steps (n : nat) (E : Effect) {A} (m : M W A) (use : Use A) (post : A -> Tables -> Prop) : Type := {
  st_prog : Prog A;
  st_run : forall w, run st_prog w = m w;
  st_keep : calls_keep st_prog;
  st_bound : bounded n st_prog;
  st_post : forall T, I T -> ensures st_prog post T;
  st_once : forall V, once V (E V) st_prog (use V) false;
}.

Definition steps_ret {n E A} (a : A) (use : Use A) (post : A -> Tables -> Prop) :
  (forall V, use V false a) -> (forall T, I T -> post a T) -> Steps n E (ret a) use post.
Proof. intros Hu Hp. refine {| st_prog := Return a |}; [done|done|done|exact Hp|exact Hu]. Defined.

(** A call, and what is known when it returns. *)
Definition steps_call {n} {E : Effect} {A} (c : Call A) (use : Use A) (post : A -> Tables -> Prop) :
  keeps (on_tables Q) (run_call c) ->
  (forall w, I (tables_of w) -> wp (run_call c) (fun a w' => post a (tables_of w')) w) ->
  (forall (V : W -> Prop) w, I (tables_of w) -> V w -> wp (run_call c) (fun a w' =>
     (still w w' /\ use V false a) \/ (E V (tables_of w) (tables_of w') /\ use V true a)) w) ->
  Steps (S n) E (run_call c) use post.
Proof.
  intros Hc Hp Hu. refine {| st_prog := Do c Return |}; [|done|done| |].
  - intros w. simpl. unfold bind. by destruct (run_call c w).
  - intros T HT w HQ. apply Hp. by eapply I_kept.
  - intros V w HT HV. eapply wp_mono; [by apply (Hu V)|].
    intros a w' [Hl|[Hl Hr]]; [by left|by right].
Defined.

Definition nothing {A} : A -> Tables -> Prop := fun _ _ => True.
Definition nothing_used {A} : Use A := fun _ _ _ => True.

(** A program that only reads. *)
Abbreviation Reads n m post := (Steps n no_effect m nothing_used post).

Definition steps_bind_with {n1 n2} {E E1 : Effect} {A B} {E2 : A -> Effect}
    (m : M W A) (k : A -> M W B) (use1 : Use A) (use2 : A -> Use B) (use : Use B)
    (mid : A -> Tables -> Prop) (post : B -> Tables -> Prop) (Hm : Steps n1 E1 m use1 mid)
    (Hk : forall a, Steps n2 (E2 a) (k a) (use2 a) (fun b T => mid a T -> post b T)) :
  stable mid ->
  (forall V, once V (E V) (pbind (st_prog _ _ _ _ _ Hm) (fun a => st_prog _ _ _ _ _ (Hk a))) (use V) false) ->
  Steps (n1 + n2) E (bind m k) use post.
Proof.
  intros Hs Ho.
  refine {| st_prog := pbind (st_prog _ _ _ _ _ Hm) (fun a => st_prog _ _ _ _ _ (Hk a)) |}; [| | | |exact Ho].
  - intros w. rewrite run_pbind. unfold bind. rewrite (st_run _ _ _ _ _ Hm). destruct (m w) as [a w'].
    apply (st_run _ _ _ _ _ (Hk a)).
  - apply calls_keep_pbind; [apply (st_keep _ _ _ _ _ Hm)|]. intros a. apply (st_keep _ _ _ _ _ (Hk a)).
  - apply bounded_pbind; [apply (st_bound _ _ _ _ _ Hm)|]. intros a. apply (st_bound _ _ _ _ _ (Hk a)).
  - intros T HT. apply (ensures_pbind _ _ mid); [apply (st_keep _ _ _ _ _ Hm)|by apply (st_post _ _ _ _ _ Hm)|].
    intros a T' HQ Ha. eapply ensures_mono; [apply (st_keep _ _ _ _ _ (Hk a))| |].
    + apply (st_post _ _ _ _ _ (Hk a)). by eapply I_kept.
    + intros b T2 HQ2 Hb. apply Hb. eapply Hs; [|exact HQ2|exact Ha]. by eapply I_kept.
Defined.

(** What the rest of a program is known to end with after its first part. *)
Abbreviation after use1 use a := (fun V (_ : bool) b => forall u, use1 V u a -> use V u b).

(** What the first part has established still holds at the end; after its
    effect the rest only reads. *)
Definition steps_bind (n1 n2 : nat) {E A B} (m : M W A) (k : A -> M W B) (use1 : Use A) (use : Use B)
    (mid : A -> Tables -> Prop) (post : B -> Tables -> Prop) :
  Steps n1 E m use1 mid -> stable mid ->
  (forall a, Steps n2 no_effect (k a) (after use1 use a) (fun b T => mid a T -> post b T)) ->
  Steps (n1 + n2) E (bind m k) use post.
Proof.
  intros Hm Hs Hk. apply (steps_bind_with (E2:=fun _ => no_effect) m k use1 _ use mid post Hm Hk Hs).
  intros V. eapply once_pbind; [apply (st_once _ _ _ _ _ Hm)|]. intros u a Hu.
  eapply once_mono; [apply (once_quiet _ _ _ (fun b => forall u, use1 V u a -> use V u b) false u),
    (st_once _ _ _ _ _ (Hk a))|].
  intros u' b [-> Hb]. by apply Hb.
Defined.

(** The first part only reads, and [fact] holds of its result. *)
Definition steps_seq (n1 n2 : nat) {E : Effect} {A B} (m : M W A) (k : A -> M W B) (fact : (W -> Prop) -> A -> Prop)
    (use : Use B) (mid : A -> Tables -> Prop) (post : B -> Tables -> Prop) :
  Steps n1 no_effect m (fun V _ => fact V) mid -> stable mid ->
  (forall a, Steps n2 (fun V T T' => fact V a -> E V T T') (k a) use (fun b T => mid a T -> post b T)) ->
  Steps (n1 + n2) E (bind m k) use post.
Proof.
  intros Hm Hs Hk.
  apply (steps_bind_with m k (fun V _ => fact V) (fun _ => use) use mid post Hm Hk Hs). intros V.
  eapply once_pbind; [apply (once_quiet _ _ _ (fact V) false false), (st_once _ _ _ _ _ Hm)|].
  intros u a [-> Ha]. eapply once_effect; [|apply (st_once _ _ _ _ _ (Hk a))]. auto.
Defined.

(** The rest may have the effect where the first part had none. *)
Definition steps_retry (n1 n2 : nat) {E A B} (m : M W A) (k : A -> M W B) (use1 : Use A) (use : Use B)
    (mid : A -> Tables -> Prop) (post : B -> Tables -> Prop) :
  Steps n1 E m use1 mid -> stable mid ->
  (forall a, Steps n2 E (k a) use (fun b T => mid a T -> post b T) * (forall V, use1 V true a -> False) +
             Steps n2 no_effect (k a) (after use1 use a) (fun b T => mid a T -> post b T)) ->
  Steps (n1 + n2) E (bind m k) use post.
Proof.
  intros Hm Hs Hk.
  set (E2 := fun a => match Hk a with inl _ => E | inr _ => no_effect end).
  set (use2 := fun a => match Hk a with inl _ => use | inr _ => after use1 use a end).
  assert (forall a, Steps n2 (E2 a) (k a) (use2 a) (fun b T => mid a T -> post b T)) as Hk'
    by (intros a; unfold E2, use2; destruct (Hk a) as [[Ha _]|Ha]; exact Ha).
  apply (steps_bind_with (E2:=E2) m k use1 use2 use mid post Hm Hk' Hs). intros V.
  eapply once_pbind; [apply (st_once _ _ _ _ _ Hm)|]. intros u a Hu.
  pose proof (st_once _ _ _ _ _ (Hk' a) V) as Ho. revert Ho. generalize (st_prog _ _ _ _ _ (Hk' a)).
  unfold E2, use2. destruct (Hk a) as [[_ Hn]|_]; intros p Ho.
  - destruct u; [by destruct (Hn V)|done].
  - eapply once_mono;
      [by apply (once_quiet _ _ _ (fun b => forall u, use1 V u a -> use V u b) false u)|].
    intros u' b [-> Hb]. by apply Hb.
Defined.

Definition steps_weaken {n n'} {E E' : Effect} {A} (m : M W A) (use use' : Use A)
    (post post' : A -> Tables -> Prop) :
  (n <= n')%nat -> Steps n E m use post -> (forall V T T', E V T T' -> E' V T T') ->
  (forall V u a, use V u a -> use' V u a) ->
  (forall a T, I T -> post a T -> post' a T) -> Steps n' E' m use' post'.
Proof.
  intros Hn Hm HE Hu Hp. refine {| st_prog := st_prog _ _ _ _ _ Hm |};
    [apply (st_run _ _ _ _ _ Hm)|apply (st_keep _ _ _ _ _ Hm)
    |eapply bounded_le; [exact Hn|apply (st_bound _ _ _ _ _ Hm)]| |].
  - intros T HT. eapply ensures_mono; [apply (st_keep _ _ _ _ _ Hm)|by apply (st_post _ _ _ _ _ Hm)|].
    intros a T' HQ. apply Hp. by eapply I_kept.
  - intros V. eapply once_effect; [exact (HE V)|].
    eapply once_mono; [apply (st_once _ _ _ _ _ Hm)|exact (Hu V)].
Defined.

Definition steps_effect {n} {E E' : Effect} {A} (m : M W A) use post :
  Steps n E m use post -> (forall V T T', E V T T' -> E' V T T') -> Steps n E' m use post.
Proof. intros Hm HE. by apply (steps_weaken m use use post post (Nat.le_refl n) Hm). Defined.

(** The rest makes no calls. *)
Definition steps_map {n E A B} (m : M W A) (k : A -> M W B) (use1 : Use A) (use : Use B)
    (mid : A -> Tables -> Prop) (post : B -> Tables -> Prop) :
  Steps n E m use1 mid -> stable mid ->
  (forall a, Steps 0 no_effect (k a) (after use1 use a) (fun b T => mid a T -> post b T)) ->
  Steps n E (bind m k) use post.
Proof.
  intros Hm Hs Hk.
  by apply (steps_weaken (bind m k) use use post post (Nat.eq_le_incl _ _ (Nat.add_0_r n))
              (steps_bind n 0 m k use1 use mid post Hm Hs Hk)).
Defined.

(** When nothing of the tables is needed from the first part, or nothing at
    all. *)
Definition steps_know (n1 n2 : nat) {E : Effect} {A B} (m : M W A) (k : A -> M W B) (fact : (W -> Prop) -> A -> Prop)
    (use : Use B) (post : B -> Tables -> Prop) :
  Steps n1 no_effect m (fun V _ => fact V) nothing ->
  (forall a, Steps n2 (fun V T T' => fact V a -> E V T T') (k a) use post) ->
  Steps (n1 + n2) E (bind m k) use post.
Proof.
  intros Hm Hk. apply (steps_seq n1 n2 m k fact use nothing post Hm); [done|]. intros a.
  by apply (steps_weaken (k a) use use post _ (Nat.le_refl n2) (Hk a)).
Defined.

Definition steps_then (n1 n2 : nat) {E A B} (m : M W A) (k : A -> M W B) use (post : B -> Tables -> Prop) :
  Reads n1 m nothing -> (forall a, Steps n2 E (k a) use post) -> Steps (n1 + n2) E (bind m k) use post.
Proof.
  intros Hm Hk. apply (steps_know n1 n2 m k (fun _ _ => True) use post Hm). intros a.
  by apply (steps_effect (k a) use post (Hk a)).
Defined.

(** The same program up to the extension of the monad's functions. *)
Definition steps_ext {n E A} (m m' : M W A) use post :
  (forall w, m w = m' w) -> Steps n E m use post -> Steps n E m' use post.
Proof.
  intros Heq Hm. refine {| st_prog := st_prog _ _ _ _ _ Hm |};
    [|apply (st_keep _ _ _ _ _ Hm)|apply (st_bound _ _ _ _ _ Hm)|apply (st_post _ _ _ _ _ Hm)
    |apply (st_once _ _ _ _ _ Hm)].
  intros w. by rewrite (st_run _ _ _ _ _ Hm).
Defined.

(** Sequences are associative, so that calls can be counted one by one. *)
Definition steps_assoc {n E A B C} (m : M W A) (k1 : A -> M W B) (k2 : B -> M W C) use post :
  Steps n E (bind m (fun a => bind (k1 a) k2)) use post -> Steps n E (bind (bind m k1) k2) use post.
Proof. apply steps_ext. intros w. unfold bind. by destruct (m w). Defined.

Definition steps_skip {n E A B} (a : A) (k : A -> M W B) use post :
  Steps n E (k a) use post -> Steps n E (bind (ret a) k) use post.
Proof. by apply steps_ext. Defined.

(** The callback of a READ COMMITTED transaction, statement by statement. *)
Definition steps_tx_stmt {n E S0 A B C} (f : M W A) (k : A -> M (S0 * W) B) s
    (k2 : B * S0 -> M W C) use post :
  Steps n E (bind f (fun a => bind (with_vars (k a) s) k2)) use post ->
  Steps n E (bind (with_vars (bind (in_tx f) k) s) k2) use post.
Proof. apply steps_ext. intros w. unfold with_vars, bind, in_tx. by destruct (f w). Defined.

Definition steps_tx_assign {n E S0 B C} (f : S0 -> S0) (k : unit -> M (S0 * W) B) s
    (k2 : B * S0 -> M W C) use post :
  Steps n E (bind (with_vars (k tt) (f s)) k2) use post ->
  Steps n E (bind (with_vars (bind (assign f) k) s) k2) use post.
Proof. by apply steps_ext. Defined.

Definition steps_tx_ret {n E S0 B C} (b : B) (s : S0) (k2 : B * S0 -> M W C) use post :
  Steps n E (k2 (b, s)) use post -> Steps n E (bind (with_vars (ret b) s) k2) use post.
Proof. by apply steps_ext. Defined.

(** One call, and the rest. *)
Definition steps_next {n E A B} (m : M W A) (k : A -> M W B) use (post : B -> Tables -> Prop) :
  Reads 1 m nothing -> (forall a, Steps n E (k a) use post) -> Steps (S n) E (bind m k) use post.
Proof. apply (steps_then 1 n). Defined.
End Programs.
