(* ===== verification/Pool.v ===== *)
(** * Any number of programs at once

    The pool of the programs that run ([Interleave.Prog]) and its steps: a
    program makes its next call, leaves with its reply or dies, new ones
    start, and what is not the database changes on its own. What a program
    ensures is kept while others run ([sys_steps_promised]); the calls stay
    within the bounds of the programs, which come to an end
    ([history_bounded], [work_steps_bounded]); and the effects of the programs happen one
    after the other, each at most once ([history_serial]). *)

From S2P Require Import Prelude GoStrings Json Tables Sql SqlFacts Servers Db PgFacts TxFacts.
From S2P Require Import RedisClient RedisFacts Consumer Transfer TransferFacts ReadFacts.
From S2P Require Import Auth AuthFacts Account AccountFacts Notification Events Health.
From S2P Require Import Producer Services Ledger SystemFacts Interleave.

(** ** Any number of programs at once *)

Section Pool.
Context {P R J : Type} `{PgServer P} `{RedisServer R} `{JetStream J}.
Abbreviation W := (World P R J).
(** [L]: what a program was started for. *)
Context (ping : P -> option goerr * P) {L A : Type}.
Abbreviation Prog' := (Prog (P:=P) A).
Abbreviation Pool := (list (L * Prog')).
Abbreviation run_call' := (run_call (R:=R) (J:=J) ping).

(** What runs may make the calls it has left, or leave: with its reply, or
    because its process died. *)
Inductive work_step : Pool * W -> Pool * W -> Prop :=
| work_call ps1 l {B} (c : Call B) k ps2 w b w' :
    run_call' c w = (b, w') ->
    work_step (ps1 ++ (l, Do A c k) :: ps2, w) (ps1 ++ (l, k b) :: ps2, w')
| work_leave ps1 p ps2 w : work_step (ps1 ++ p :: ps2, w) (ps1 ++ ps2, w).

(** New programs start, and what is not the database changes on its own:
    time passes, keys expire, other clients of Redis write. *)
Inductive sys_step (start : L -> Prog' -> Prop) : Pool * W -> Pool * W -> Prop :=
| sys_work s s' : work_step s s' -> sys_step start s s'
| sys_start l p ps w : start l p -> sys_step start (ps, w) ((l, p) :: ps, w)
| sys_other ps w w' : w_pg w' = w_pg w -> sys_step start (ps, w) (ps, w').

(** A program alone makes its calls in its own order. *)
Lemma work_alone m l (p : Prog') w a w' :
  bounded m p -> run ping p w = (a, w') ->
  exists n, (n <= m)%nat /\ nsteps work_step n ([(l, p)], w) ([(l, Return A a)], w').
Proof.
  revert m w. induction p as [x|B c k IH]; intros m w; simpl.
  - intros _ E. injection E as <- <-. exists 0%nat. split; [lia|apply nsteps_O].
  - destruct m as [|m]; [done|]. intros Hk. unfold bind.
    destruct (run_call' c w) as [b w1] eqn:Ec. intros E.
    destruct (IH b m w1 (Hk b) E) as (n & Hn & Hs). exists (Datatypes.S n). split; [lia|].
    eapply nsteps_l; [apply (work_call [] l c k []); exact Ec|done].
Qed.

Context (Q : Tables -> Tables -> Prop) `{!TableRel Q} (I : Tables -> Prop).
Hypothesis I_kept : forall T T', Q T T' -> I T -> I T'.
Context (post : L -> A -> Tables -> Prop).
Hypothesis post_stable : forall l, stable Q I (post l).

(** What is known of a running program at the tables [T]. *)
Definition promised (T : Tables) (lp : L * Prog') : Prop :=
  calls_keep ping Q lp.2 /\ ensures (R:=R) (J:=J) ping Q lp.2 (post lp.1) T.

Lemma promised_later T T' ps :
  I T -> Q T T' -> Forall (promised T) ps -> Forall (promised T') ps.
Proof.
  intros HI HQ Hps. eapply Forall_impl; [exact Hps|]. intros [l p] [Hk He]. split; [done|].
  by apply (ensures_later ping Q I _ _ T).
Qed.

Lemma sys_step_promised start s s' :
  (forall l p T, start l p -> I T -> promised T (l, p)) -> sys_step start s s' ->
  I (tables_of s.2) -> Forall (promised (tables_of s.2)) s.1 ->
  on_tables Q s.2 s'.2 /\ Forall (promised (tables_of s'.2)) s'.1.
Proof.
  intros Hstart Hs HI.
  destruct Hs as [s s' [ps1 l B c k ps2 w b w' Ec|ps1 p ps2 w]|l p ps w Hp|ps w w' E];
    cbn [fst snd] in *.
  - intros [Hps1 [[[Hc Hk] He] Hps2]%Forall_cons]%Forall_app.
    specialize (He w (reflexivity _)). unfold wp in He. rewrite Ec in He.
    specialize (Hc w). rewrite Ec in Hc. split; [done|]. unfold on_tables in Hc. cbn [snd] in Hc.
    apply Forall_app. split; [by apply (promised_later (tables_of w))|].
    apply Forall_cons. split; [split; [apply Hk|exact He]|by apply (promised_later (tables_of w))].
  - intros [Hps1 [_ Hps2]%Forall_cons]%Forall_app. split; [done|]. by apply Forall_app.
  - intros Hps. split; [done|]. apply Forall_cons. split; [by apply Hstart|done].
  - intros Hps. assert (tables_of w' = tables_of w) as ET by (unfold tables_of; by rewrite E).
    split; [|by rewrite ET]. unfold on_tables. by rewrite ET.
Qed.

Lemma sys_steps_promised start s s' :
  (forall l p T, start l p -> I T -> promised T (l, p)) -> rtc (sys_step start) s s' ->
  I (tables_of s.2) -> Forall (promised (tables_of s.2)) s.1 ->
  on_tables Q s.2 s'.2 /\ Forall (promised (tables_of s'.2)) s'.1.
Proof.
  intros Hstart Hs. induction Hs as [s|s1 s2 s3 H12 _ IH]; intros HI Hk; [done|].
  destruct (sys_step_promised _ _ _ Hstart H12 HI Hk) as [HQ Hk2].
  destruct IH as [HQ' Hk3]; [by eapply I_kept|done|]. split; [|done]. by etransitivity.
Qed.

(** ** Whatever the order, the work comes to an end

    [bs] bounds the calls that the programs of a pool have left. *)

Definition pool_bounded (ps : Pool) (bs : list nat) : Prop :=
  Forall2 (fun lp b => bounded b lp.2) ps bs.

Lemma pool_bounded_middle ps1 p ps2 bs :
  pool_bounded (ps1 ++ p :: ps2) bs ->
  exists bs1 b bs2, bs = bs1 ++ b :: bs2 /\ pool_bounded ps1 bs1 /\ bounded b p.2 /\ pool_bounded ps2 bs2.
Proof.
  intros (bs1 & bs' & F1 & F2 & ->)%Forall2_app_inv_l.
  apply Forall2_cons_inv_l in F2 as (b & bs2 & Hb & F2 & ->). by exists bs1, b, bs2.
Qed.

Lemma sum_list_middle bs1 b bs2 : sum_list (bs1 ++ b :: bs2) = (b + sum_list (bs1 ++ bs2))%nat.
Proof. rewrite !sum_list_with_app. simpl. lia. Qed.

(** A call uses up one of the calls of its program. *)
Lemma call_bounded ps1 l {B} (c : Call B) k ps2 b bs :
  pool_bounded (ps1 ++ (l, Do A c k) :: ps2) bs ->
  exists bs', pool_bounded (ps1 ++ (l, k b) :: ps2) bs' /\ sum_list bs = Datatypes.S (sum_list bs').
Proof.
  intros (bs1 & n & bs2 & -> & F1 & Hp & F2)%pool_bounded_middle. destruct n as [|n]; [by destruct Hp|].
  exists (bs1 ++ n :: bs2). rewrite !sum_list_middle. split; [|done].
  apply Forall2_app; [done|]. apply Forall2_cons. split; [apply Hp|done].
Qed.

Lemma leave_bounded ps1 p ps2 bs :
  pool_bounded (ps1 ++ p :: ps2) bs ->
  exists bs', pool_bounded (ps1 ++ ps2) bs' /\ (sum_list bs' <= sum_list bs)%nat.
Proof.
  intros (bs1 & n & bs2 & -> & F1 & _ & F2)%pool_bounded_middle. exists (bs1 ++ bs2).
  rewrite sum_list_middle. split; [by apply Forall2_app|lia].
Qed.

(** Every step uses up a call or a program. *)
Lemma work_bounded s s' bs :
  work_step s s' -> pool_bounded s.1 bs -> exists bs', pool_bounded s'.1 bs' /\
    (sum_list bs' + length s'.1 < sum_list bs + length s.1)%nat.
Proof.
  intros [ps1 l B c k ps2 w b w' _|ps1 p ps2 w]; cbn [fst]; intros Hb; rewrite !length_app; simpl.
  - destruct (call_bounded _ _ _ _ _ b _ Hb) as (bs' & Hb' & E). exists bs'. split; [done|]. lia.
  - destruct (leave_bounded _ _ _ _ Hb) as (bs' & Hb' & E). exists bs'. split; [done|]. lia.
Qed.

Lemma work_steps_bounded n s s' bs :
  nsteps work_step n s s' -> pool_bounded s.1 bs -> (n <= sum_list bs + length s.1)%nat.
Proof.
  intros Hs. revert bs. induction Hs as [s|n s1 s2 s3 H12 _ IH]; intros bs Hb; [lia|].
  destruct (work_bounded _ _ _ H12 Hb) as (bs' & Hb' & E). specialize (IH _ Hb'). lia.
Qed.

Lemma work_rest s : (forall s', ~ work_step s s') -> s.1 = [].
Proof.
  destruct s as [[|p ps] w]; intros Hs; [done|]. destruct (Hs (ps, w)). apply (work_leave [] p ps w).
Qed.
End Pool.

(** ** One effect per program, one after the other *)

(** The effects of [ls], in that order. *)
Inductive serial {L} (E : L -> Tables -> Tables -> Prop) : list L -> Tables -> Tables -> Prop :=
| serial_nil T T' : T ≡ T' -> serial E [] T T'
| serial_cons l ls T T1 T2 : E l T T1 -> serial E ls T1 T2 -> serial E (l :: ls) T T2.

Lemma serial_trans {L} (E : L -> Tables -> Tables -> Prop) ls ls' T T1 T2 :
  (forall l T0 T0' T0'', T0 ≡ T0' -> E l T0' T0'' -> E l T0 T0'') ->
  serial E ls T T1 -> serial E ls' T1 T2 -> serial E (ls ++ ls') T T2.
Proof.
  intros HE. induction 1 as [T T' Eq|l ls T T' T'' Hl _ IH]; intros Hls'.
  - destruct Hls' as [T1 T2 Eq'|l ls T1 T2 T3 Hl Hls]; [|by eapply serial_cons; [eapply HE|]].
    apply serial_nil. by etransitivity.
  - eapply serial_cons; [exact Hl|]. by apply IH.
Qed.

Lemma serial_mono {L} (E E' : L -> Tables -> Tables -> Prop) ls T T' :
  (forall l T0 T1, E l T0 T1 -> E' l T0 T1) -> serial E ls T T' -> serial E' ls T T'.
Proof. intros HE. induction 1; [by apply serial_nil|]. eapply serial_cons; eauto. Qed.

Section History.
Context {P R J : Type} `{PgServer P} `{RedisServer R} `{JetStream J}.
Abbreviation W := (World P R J).
Context (ping : P -> option goerr * P) {L A : Type}.
Abbreviation Prog' := (Prog (P:=P) A).
Abbreviation Pool := (list (L * Prog')).
Abbreviation run_call' := (run_call (R:=R) (J:=J) ping).
Context (start : L -> Prog' -> Prop).

(** [history w0 started answered seen s]: the runs of [sys_step] from the idle
    system [w0] to [s], with what was started, the replies received and the
    worlds in which calls were made. *)
Inductive history (w0 : W) : list L -> list (L * A) -> list W -> Pool * W -> Prop :=
| hist_idle : history w0 [] [] [] ([], w0)
| hist_start st an ws l p ps w :
    history w0 st an ws (ps, w) -> start l p -> history w0 (l :: st) an ws ((l, p) :: ps, w)
| hist_call st an ws ps1 l {B} (c : Call B) k ps2 w b w' :
    history w0 st an ws (ps1 ++ (l, Do A c k) :: ps2, w) -> run_call' c w = (b, w') ->
    history w0 st an (w :: ws) (ps1 ++ (l, k b) :: ps2, w')
| hist_reply st an ws ps1 l a ps2 w :
    history w0 st an ws (ps1 ++ (l, Return A a) :: ps2, w) ->
    history w0 st ((l, a) :: an) ws (ps1 ++ ps2, w)
| hist_death st an ws ps1 l p ps2 w :
    history w0 st an ws (ps1 ++ (l, p) :: ps2, w) -> history w0 st an ws (ps1 ++ ps2, w)
| hist_other st an ws ps w w' :
    history w0 st an ws (ps, w) -> w_pg w' = w_pg w -> history w0 st an ws (ps, w').

Lemma history_steps w0 st an ws s :
  history w0 st an ws s -> rtc (sys_step ping start) ([], w0) s.
Proof.
  induction 1 as [|st an ws l p ps w _ IH Hp|st an ws ps1 l B c k ps2 w b w' _ IH Ec
    |st an ws ps1 l a ps2 w _ IH|st an ws ps1 l p ps2 w _ IH|st an ws ps w w' _ IH Ew]; [apply rtc_refl|..];
    (eapply rtc_r; [exact IH|]).
  - by apply sys_start.
  - by apply sys_work, work_call.
  - by apply sys_work, work_leave.
  - by apply sys_work, work_leave.
  - by apply sys_other.
Qed.

(** The calls made so far and those that the running programs have left are
    within the budgets of the programs that were started. *)
Context (budget : L -> nat).

Lemma history_bounded w0 st an ws s :
  (forall l p, start l p -> bounded (budget l) p) -> history w0 st an ws s ->
  exists bs, pool_bounded s.1 bs /\
    (length ws + sum_list bs <= sum_list (map budget st))%nat /\ (length s.1 <= length st)%nat.
Proof.
  intros Hst. induction 1 as [|st an ws l p ps w _ IH Hp|st an ws ps1 l B c k ps2 w b w' _ IH Ec
    |st an ws ps1 l a ps2 w _ IH|st an ws ps1 l p ps2 w _ IH|st an ws ps w w' _ IH Ew]; cbn [fst] in *;
    [exists []; split_and!; [constructor|simpl; lia|done]|destruct IH as (bs & Hb & Hsum & Hlen)..].
  - exists (budget l :: bs). split; [by constructor; [apply Hst|]|]. simpl. lia.
  - destruct (call_bounded _ _ _ _ _ b _ Hb) as (bs' & Hb' & E). exists bs'.
    rewrite !length_app in *. simpl in *. split; [done|]. lia.
  - destruct (leave_bounded _ _ _ _ Hb) as (bs' & Hb' & E). exists bs'.
    rewrite !length_app in *. simpl in *. split; [done|]. lia.
  - destruct (leave_bounded _ _ _ _ Hb) as (bs' & Hb' & E). exists bs'.
    rewrite !length_app in *. simpl in *. split; [done|]. lia.
  - by exists bs.
Qed.

Context (Q : Tables -> Tables -> Prop) `{!TableRel Q} (I : Tables -> Prop).
Hypothesis I_kept : forall T T', Q T T' -> I T -> I T'.
(** The worlds of the run; the effect of a program in them, the results that
    tell of it, and those that deny it. *)
Context (V : W -> Prop).
Context (E : L -> Tables -> Tables -> Prop) (wins loses : L -> A -> bool).
Hypothesis E_equiv : forall l T T' T'', T ≡ T' -> E l T' T'' -> E l T T''.

Definition fair (lp : L * Prog') (used : bool) : Prop :=
  calls_keep (R:=R) (J:=J) ping Q lp.2 /\
  once (R:=R) (J:=J) ping I V (E lp.1) lp.2 (tells (wins lp.1) (loses lp.1)) used.

(** The programs of the pool that have made their effect, or have not. *)
Definition labels (used : bool) (gs : list ((L * Prog') * bool)) : list L :=
  (List.filter (fun g => Bool.eqb g.2 used) gs).*1.*1.

Lemma labels_middle used gs1 g gs2 :
  labels used (gs1 ++ g :: gs2) ≡ₚ
    (if Bool.eqb g.2 used then [g.1.1] else []) ++ labels used (gs1 ++ gs2).
Proof.
  unfold labels. rewrite !List.filter_app, !fmap_app. simpl.
  destruct (Bool.eqb g.2 used); simpl; [|done]. by rewrite <- Permutation_middle.
Qed.

(** Those whose answer is of a kind. *)
Definition answered (kind : L -> A -> bool) (an : list (L * A)) : list L :=
  (List.filter (fun la => kind la.1 la.2) an).*1.

Lemma answered_cons kind l a an :
  answered kind ((l, a) :: an) = (if kind l a then [l] else []) ++ answered kind an.
Proof. unfold answered. simpl. by destruct (kind l a). Qed.

(** [made] are the programs that have made their effect, in that order. *)
Record accounts (w0 : W) (st : list L) (an : list (L * A)) (s : Pool * W)
    (made : list L) (gs : list ((L * Prog') * bool)) : Prop := {
  acc_pool : gs.*1 = s.1;
  acc_fair : Forall (fun g => fair g.1 g.2) gs;
  acc_inv : I (tables_of s.2);
  acc_serial : serial E made (tables_of w0) (tables_of s.2);
  acc_started : made ++ labels false gs ++ answered loses an ⊆+ st;
  acc_answered : answered wins an ++ labels true gs ⊆+ made;
}.

Lemma pool_split (gs : list ((L * Prog') * bool)) ps1 p ps2 :
  gs.*1 = ps1 ++ p :: ps2 ->
  exists gs1 u gs2, gs = gs1 ++ (p, u) :: gs2 /\ gs1.*1 = ps1 /\ gs2.*1 = ps2.
Proof.
  intros (gs1 & gs' & E1 & E2 & Eg)%fmap_app_inv.
  symmetry in E2. apply fmap_cons_inv in E2 as ([p' u] & gs2 & Ep & E2 & ->).
  simpl in *. subst. by exists gs1, u, gs2.
Qed.

Lemma serial_still made T0 T T' : T ≡ T' -> serial E made T0 T -> serial E made T0 T'.
Proof.
  intros Hs Hm. rewrite <- (app_nil_r made). eapply serial_trans; [exact E_equiv|exact Hm|].
  by apply serial_nil.
Qed.

(** A call of a program leaves the tables as they are, or is its effect. *)
Lemma accounts_call w0 st an ps1 l {B} (c : Call B) k ps2 w b w' made gs :
  run_call' c w = (b, w') -> V w -> accounts w0 st an (ps1 ++ (l, Do A c k) :: ps2, w) made gs ->
  exists made' gs', accounts w0 st an (ps1 ++ (l, k b) :: ps2, w') made' gs'.
Proof.
  intros Ec HV [Hp Hf HI Hs Hst Han]. simpl in *.
  apply pool_split in Hp as (gs1 & u & gs2 & -> & <- & <-).
  apply Forall_app in Hf as [Hf1 [[[Hc Hk] Ho] Hf2]%Forall_cons]. cbn [fst snd] in *.
  specialize (Hc w). rewrite Ec in Hc. unfold on_tables in Hc. cbn [snd] in Hc.
  specialize (Ho w HI HV). unfold wp in Ho. rewrite Ec in Ho.
  rewrite labels_middle in Hst, Han. cbn [fst snd] in *.
  assert (forall u', once (R:=R) (J:=J) ping I V (E l) (k b) (tells (wins l) (loses l)) u' ->
            Forall (fun g => fair g.1 g.2) (gs1 ++ ((l, k b), u') :: gs2)) as Hfair.
  { intros u' Hu. apply Forall_app. split; [done|]. apply Forall_cons. split; [|done]. split; [apply Hk|exact Hu]. }
  assert (I (tables_of w')) as HI' by exact (I_kept _ _ Hc HI).
  destruct Ho as [[Ht Ho]|(-> & HE & Ho)].
  - exists made, (gs1 ++ ((l, k b), u) :: gs2). split; cbn [fst snd]; [|by apply Hfair|done| | |].
    + by rewrite fmap_app, fmap_cons.
    + by eapply serial_still.
    + by rewrite labels_middle.
    + by rewrite labels_middle.
  - exists (made ++ [l]), (gs1 ++ ((l, k b), true) :: gs2).
    split; cbn [fst snd]; [|by apply Hfair|done| | |].
    + by rewrite fmap_app, fmap_cons.
    + eapply serial_trans; [exact E_equiv|exact Hs|]. eapply serial_cons; [exact HE|by apply serial_nil].
    + rewrite labels_middle. simpl in *. by rewrite <- !app_assoc.
    + rewrite labels_middle. simpl in *. rewrite <- Permutation_middle, (Permutation_app_comm made).
      by apply submseteq_skip.
Qed.

(** A program leaves, and its reply is earned when it tells of the effect. *)
Lemma accounts_leave w0 st an ps1 l p ps2 w made gs an' :
  accounts w0 st an (ps1 ++ (l, p) :: ps2, w) made gs ->
  (an' = an \/ exists a, p = Return A a /\ an' = (l, a) :: an) ->
  exists gs', accounts w0 st an' (ps1 ++ ps2, w) made gs'.
Proof.
  intros [Hp Hf HI Hs Hst Han] Han'. simpl in *.
  apply pool_split in Hp as (gs1 & u & gs2 & -> & <- & <-).
  apply Forall_app in Hf as [Hf1 [[Hk Ho] Hf2]%Forall_cons]. cbn [fst snd] in *.
  rewrite labels_middle in Hst, Han. cbn [fst snd] in *.
  exists (gs1 ++ gs2). split; cbn [fst snd]; [by rewrite fmap_app|by apply Forall_app|done|done| |].
  - etransitivity; [|exact Hst]. apply submseteq_app; [done|].
    destruct Han' as [->|(a & -> & ->)]; [rewrite <- app_assoc; by apply submseteq_inserts_l|].
    rewrite answered_cons. destruct (loses l a) eqn:El; simpl.
    + destruct Ho as [_ Ho]. rewrite (Ho El). simpl. by rewrite <- Permutation_middle.
    + rewrite <- app_assoc. by apply submseteq_inserts_l.
  - destruct Han' as [->|(a & -> & ->)].
    + etransitivity; [|exact Han]. apply submseteq_app; [done|by apply submseteq_inserts_l].
    + rewrite answered_cons. destruct (wins l a) eqn:Ew; simpl.
      * destruct Ho as [Ho _]. rewrite (Ho Ew) in Han. simpl in Han.
        by rewrite <- Permutation_middle in Han.
      * etransitivity; [|exact Han]. apply submseteq_app; [done|by apply submseteq_inserts_l].
Qed.

Hypothesis start_fair : forall l p, start l p -> fair (l, p) false.

Lemma history_accounts w0 st an ws s :
  I (tables_of w0) -> history w0 st an ws s -> Forall V ws ->
  exists made gs, accounts w0 st an s made gs.
Proof.
  intros HI. induction 1 as [|st an ws l p ps w _ IH Hp|st an ws ps1 l B c k ps2 w b w' _ IH Ec
    |st an ws ps1 l a ps2 w _ IH|st an ws ps1 l p ps2 w _ IH|st an ws ps w w' _ IH Ew]; intros Hws;
    [|specialize (IH Hws)|apply Forall_cons in Hws as [Hw Hws]; specialize (IH Hws)
     |specialize (IH Hws)..].
  - exists [], []. split; try done. by apply serial_nil.
  - destruct IH as (made & gs & [Ep Hf HI' Hs Hst Han]). exists made, (((l, p), false) :: gs).
    split; cbn [fst snd] in *; [by subst|by apply Forall_cons; split; [apply start_fair|]|done|done| |done].
    cbn. rewrite <- Permutation_middle. by apply submseteq_skip.
  - destruct IH as (made & gs & Ha). by eapply accounts_call.
  - destruct IH as (made & gs & Ha). exists made. eapply accounts_leave; [exact Ha|eauto].
  - destruct IH as (made & gs & Ha). exists made. eapply accounts_leave; [exact Ha|eauto].
  - destruct IH as (made & gs & [Ep Hf HI' Hs Hst Han]). exists made, gs.
    assert (tables_of w' = tables_of w) as ET by (unfold tables_of; by rewrite Ew).
    split; cbn [fst snd] in *; rewrite ?ET; done.
Qed.

(** What a history did to the tables is the effects of programs that were
    started, each at most once, one after the other; among them those of all
    the replies that tell of an effect, and of none that denies it. *)
Lemma history_serial w0 st an ws s :
  I (tables_of w0) -> history w0 st an ws s -> Forall V ws ->
  exists made, serial E made (tables_of w0) (tables_of s.2) /\
    made ++ answered loses an ⊆+ st /\ answered wins an ⊆+ made.
Proof.
  intros HI Hh Hws. destruct (history_accounts _ _ _ _ _ HI Hh Hws) as (made & gs & [_ _ _ Hs Hst Han]).
  exists made. split_and!; [done| |].
  - etransitivity; [|exact Hst]. apply submseteq_app; [done|by apply submseteq_inserts_l].
  - etransitivity; [|exact Han]. by apply submseteq_inserts_r.
Qed.
End History.
