(* ===== verification/Concurrent.v ===== *)
(** * The requests of the services as interleavable programs

    Every endpoint as a tree of calls, each call of which the tables survive
    ([grown]) and whose number is bounded, with its [claim]: what a successful
    reply says of the tables, the one effect that the request may have on
    them, the answers that tell of it, and what an answer shows of the worlds
    that the request has seen; and the programs of the requests to the services
    ([request_prog]). *)

From S2P Require Import Prelude GoStrings Json Tables Sql SqlFacts Servers Db PgFacts TxFacts.
From S2P Require Import RedisClient RedisFacts Consumer Transfer TransferFacts ReadFacts.
From S2P Require Import Auth AuthFacts Account AccountFacts Notification NotificationFacts Events.
From S2P Require Import Health Producer Services Ledger SystemFacts Api Claims Interleave.

Section Calls.
Context {P R J : Type} `{PgLaws P} `{RedisServer R} `{JetStream J} `{Bcrypt} `{!BcryptLaws}.
Abbreviation W := (World P R J).

(** ** What one call may do to the tables, and what it establishes *)

Lemma insert_user_opens phone acct name hash (w : W) :
  wp (on_pg (pg_one (InsertUser phone acct name hash register_returning)))
    (fun r w' => forall row, r = Ok row -> exists u, register_reply row = register_reply u /\
       account_opened phone name hash u (tables_of w')) w.
Proof.
  apply wp_on_pg. intros r p' E row ->. apply pg_one_law in E.
  inversion E as [env T0 b T1 T' E0 He Er E1| | |]; subst. rewrite insert_user_run in Er. cbn zeta in Er.
  destruct (negb _); [done|]. destruct (bool_decide _); [done|].
  destruct (bool_decide _); [done|]. injection Er as <- <-.
  eexists. split; [apply register_reply_project|]. split_and!; [done..|].
  exists default_balance. destruct E1 as (Eu & _). unfold tables_of. cbn [w_pg set_pg]. rewrite <- Eu.
  cbn [users with_users]. apply elem_of_app. right. by left.
Qed.

Lemma ack_marks id uid (w : W) :
  wp (on_pg (pg_exec (ack_update id uid)))
    (fun r w' => forall n, r = Ok n -> n <> 0 -> marked_read id uid (tables_of w')) w.
Proof.
  apply wp_on_pg. intros r p' E n -> Hn. apply pg_exec_law in E.
  inversion E as [env T0 b T1 T' E0 He Er E1| | |]; subst. rewrite ack_run in Er.
  injection Er as <- <-. destruct E1 as (_ & _ & En). clear E.
  destruct (List.filter (owned id uid) (notifications T0)) as [|m ms] eqn:Ef; [by destruct Hn|].
  assert (m ∈ List.filter (owned id uid) (notifications T0)) as Hm by (rewrite Ef; by left).
  apply elem_of_filter_bool in Hm as [Hm Ho]. exists (set_is_read m true).
  split_and!; [|unfold owned in Ho; cbn; lia..|done].
  unfold tables_of. cbn [w_pg set_pg]. rewrite <- En. cbn.
  apply list_elem_of_fmap. exists m. by rewrite Ho.
Qed.

(** One transaction of a transfer. *)
Lemma transfer_tx_cases senderID pl res (w : W) :
  0 < p_Amount pl -> schema_ok (tables_of w) ->
  wp (RunInTx serializable_opts (transfer_code senderID pl) res)
    (fun '(err, res') w' =>
       (exists res1, transferred senderID pl (tables_of w) res1 (tables_of w') /\
          schema_ok (tables_of w') /\ (err = None -> res' = res1)) \/
       (err <> None /\ tables_of w ≡ tables_of w')) w.
Proof.
  intros Ha Hok. apply wp_on_pg. intros [err s'] p2 Etx.
  apply with_vars_inv, pg_tx_law in Etx; [|done].
  assert (forall p0 s1 p1, pg_view (w_pg w) ≡ pg_view p0 ->
            transfer_tx alone senderID pl (res, p0) = (None, (s1, p1)) -> pg_view p1 ≡ pg_view p2 ->
            transferred senderID pl (pg_view (w_pg w)) s1 (pg_view p2) /\ schema_ok (pg_view p2)) as Hrun.
  { intros p0 s1 p1 E0 Ef E1. assert (schema_ok (pg_view p0)) as Hok0 by by rewrite <- E0.
    pose proof (transfer_tx_spec senderID pl None res p0 Hok0 Ha I) as Hw.
    pose proof (transfer_tx_schema senderID pl (res, p0)) as Hs.
    unfold wp in Hw. rewrite Ef in Hw, Hs. unfold tx_tables in Hs. simpl in Hs.
    split; [|rewrite <- E1; by apply Hs].
    eapply transferred_equiv; [symmetry; exact E0|exact E1|done]. }
  inversion Etx as [p0 s1 p1 p3 E0 Ef E1|p0 e e1 s1 p1 p3 E0 Ef Ee E1|e s1 p3 Hf E1
    |p0 e s1 p1 p3 Hl E0 Ef E1]; subst.
  - destruct (Hrun _ _ _ E0 Ef E1). left. by eexists.
  - by right.
  - by right.
  - destruct (Hrun _ _ _ E0 Ef E1). left. by eexists.
Qed.

Lemma transfer_tx_grown senderID pl res :
  0 < p_Amount pl ->
  keeps (on_tables grown) (RunInTx (P:=P) (R:=R) (J:=J) serializable_opts (transfer_code senderID pl) res).
Proof.
  intros Ha. apply wp_keeps. intros w.
  destruct (RunInTx serializable_opts (transfer_code senderID pl) res w) as [[err res'] w'] eqn:E. unfold wp. rewrite E.
  unfold on_tables. apply request_grown. intros Hok.
  pose proof (transfer_tx_cases senderID pl res w Ha Hok) as Hc. unfold wp in Hc. rewrite E in Hc.
  destruct Hc as [(res1 & Htr & Hok' & _)|[_ E1]].
  - split; [by eapply request_transferred|by eapply rows_transferred].
  - split; [by apply request_same|by apply rows_kept_equiv].
Qed.

Lemma transfer_tx_records senderID pl res (w : W) :
  0 < p_Amount pl -> schema_ok (tables_of w) ->
  wp (RunInTx serializable_opts (transfer_code senderID pl) res)
    (fun r w' => r.1 = None -> recorded senderID pl (r_transferID r.2) (tables_of w')) w.
Proof.
  intros Ha Hok. eapply wp_mono; [by apply transfer_tx_cases|]. intros [err res'] w' Hc.
  cbn [fst snd]. intros ->. destruct Hc as [(res1 & Htr & _ & E)|[Hn _]]; [|done].
  rewrite (E eq_refl). by eapply transferred_recorded.
Qed.

(** ** The call that has the effect

    [denies e]: errors after which the call has left the tables as they
    were. *)

Definition denies (e : goerr) : bool :=
  IsSerializationFailure e || IsUniqueViolation e || IsNotFound e.

Definition is_ok {A} (r : result A goerr) : bool := match r with Ok _ => true | Err _ => false end.
Definition is_denied {A} (r : result A goerr) : bool :=
  match r with Ok _ => false | Err e => denies e end.

Lemma reply_lost_denies e : reply_lost e = true -> denies e = false.
Proof.
  intros Hl. destruct (reply_lost_code e Hl) as [Hs Hu]. unfold denies. rewrite Hs, Hu. simpl.
  unfold reply_lost in Hl. bool_hyps. by unfold IsNotFound.
Qed.

Lemma outcome_once {B} (run : SqlEnv -> Tables -> result (B * Tables) sqlfail) T r T' :
  outcome run T r T' ->
  (T ≡ T' /\ tells is_ok is_denied false r) \/
  (exists env T0 b T1, T ≡ T0 /\ env_ok env T0 /\ run env T0 = Ok (b, T1) /\ T1 ≡ T' /\
     (r = Ok b \/ is_ok r = false) /\ tells is_ok is_denied true r).
Proof.
  intros [env T0 b T1 T2 E0 He Er E1|env T0 f e T2 E0 He Er Hf E1|e T2 Hf E1
    |env T0 b T1 e T2 Hl E0 He Er E1].
  - right. exists env, T0, b, T1. split_and!; [done..|by left|done].
  - left. done.
  - left. done.
  - right. exists env, T0, b, T1. split_and!; [done..|by right|]. split; [done|].
    simpl. by rewrite (reply_lost_denies e).
Qed.

(** The account is opened, if the digits and the hash are as they should be. *)
Definition opens (phone acct name hash : string) (T T' : Tables) : Prop :=
  String.length acct = 12%nat -> all_bytes is_digit acct = true -> all_bytes is_ascii hash = true ->
  forall password, bcrypt_compare hash password = true ->
  exists u, registered phone name password T u T'.

Lemma insert_user_once phone acct name hash (w : W) :
  wp (on_pg (pg_one (InsertUser phone acct name hash register_returning)))
    (fun r w' => (still w w' /\ tells is_ok is_denied false r) \/
       (opens phone acct name hash (tables_of w) (tables_of w') /\ tells is_ok is_denied true r)) w.
Proof.
  apply wp_on_pg. intros r p' E. apply pg_one_law, outcome_once in E.
  destruct E as [[E Ht]|(env & T0 & b & T1 & E0 & He & Er & E1 & _ & Ht)]; [by left|right].
  split; [|done]. intros Hl Hd Ha password Hc.
  destruct (insert_user_ok None phone acct name hash password (w_pg w) p' b) as (u & Hu & _);
    [done..| |by exists u].
  by eapply bo_ok.
Qed.

Lemma flagged_none id uid T :
  List.filter (owned id uid) (notifications T) = [] -> flagged id uid T = T.
Proof.
  destruct T as [us ts ns]. unfold flagged, with_notifications. simpl. intros En. f_equal.
  induction ns as [|n ns IH]; simpl in *; [done|]. destruct (owned id uid n); [done|].
  by rewrite IH.
Qed.

Lemma ack_once id uid (w : W) :
  wp (on_pg (pg_exec (ack_update id uid)))
    (fun r w' => let marked := match r with Ok n => negb (n =? 0) | Err _ => false end in
       (still w w' /\ marked = false) \/
       (flagged id uid (tables_of w) ≡ tables_of w' /\ r <> Ok 0)) w.
Proof.
  apply wp_on_pg. intros r p' E. apply pg_exec_law, outcome_once in E.
  destruct E as [[E [Ht _]]|(env & T0 & b & T1 & E0 & He & Er & E1 & Hr & Ht)].
  - left. split; [done|]. destruct r; [by specialize (Ht eq_refl)|done].
  - rewrite ack_run in Er. injection Er as <- <-. cbn zeta.
    assert (flagged id uid (tables_of w) ≡ pg_view p') as Hf
      by (etransitivity; [by apply flagged_proper|done]).
    destruct (decide (List.filter (owned id uid) (notifications T0) = [])) as [En|En].
    + left. split.
      * unfold still, tables_of in *. cbn [w_pg set_pg] in *. etransitivity; [exact E0|].
        etransitivity; [|exact E1]. by rewrite (flagged_none id uid T0 En).
      * destruct Hr as [->|Hr]; [by rewrite En|by destruct r].
    + right. split; [exact Hf|]. destruct Hr as [->|Hr]; [|by intros ->].
      intros [= Hz]. apply En. by destruct (List.filter _ _).
Qed.

(** The results of one transaction of a transfer. *)
Definition tx_done {A} (r : option goerr * A) : bool := match r.1 with None => true | Some _ => false end.

Definition tx_denied {A} (r : option goerr * A) : bool :=
  match r.1 with
  | Some e => IsSerializationFailure e || errors_Is e errInsufficientFunds ||
      errors_Is e errReceiverNotFound || errors_Is e errSelfTransfer
  | None => false
  end.

Lemma transfer_tx_once senderID pl res (w : W) :
  0 < p_Amount pl -> schema_ok (tables_of w) ->
  wp (RunInTx serializable_opts (transfer_code senderID pl) res)
    (fun r w' => (still w w' /\ tells tx_done tx_denied false r) \/
       ((exists res1, transferred senderID pl (tables_of w) res1 (tables_of w')) /\
        tells tx_done tx_denied true r)) w.
Proof.
  intros Ha Hok. apply wp_on_pg. intros [err s'] p' Etx.
  apply with_vars_inv, pg_tx_law in Etx; [|done].
  assert (forall p0 s1 p1, pg_view (w_pg w) ≡ pg_view p0 ->
            transfer_tx alone senderID pl (res, p0) = (None, (s1, p1)) -> pg_view p1 ≡ pg_view p' ->
            transferred senderID pl (pg_view (w_pg w)) s1 (pg_view p')) as Hrun.
  { intros p0 s1 p1 E0 Ef E1. assert (schema_ok (pg_view p0)) as Hok0 by by rewrite <- E0.
    pose proof (transfer_tx_spec senderID pl None res p0 Hok0 Ha I) as Hw.
    unfold wp in Hw. rewrite Ef in Hw.
    eapply transferred_equiv; [symmetry; exact E0|exact E1|done]. }
  inversion Etx as [p0 s1 p1 p3 E0 Ef E1|p0 e e1 s1 p1 p3 E0 Ef Ee E1|e s1 p3 Hf E1
    |p0 e s1 p1 p3 Hl E0 Ef E1]; subst.
  - right. split; [exists s'; by eapply Hrun|done].
  - by left.
  - by left.
  - right. split; [exists s'; by eapply Hrun|]. split; [done|]. unfold tx_denied. simpl.
    destruct (reply_lost_code e Hl) as [-> _].
    apply reply_lost_foreign in Hl. unfold errInsufficientFunds, errReceiverNotFound, errSelfTransfer.
    by rewrite !foreign_not_app.
Qed.

Context (ping : P -> option goerr * P).
Hypothesis ping_view : forall p, pg_view p ≡ pg_view (ping p).2.

Lemma ping_still : keeps (on_tables (≡)) (on_pg (R:=R) (J:=J) ping).
Proof.
  intros w. unfold on_pg, on_tables, tables_of. pose proof (ping_view (w_pg w)) as Hv.
  by destruct (ping (w_pg w)).
Qed.

(** ** The endpoints as trees *)

Abbreviation S := (Steps (P:=P) (R:=R) (J:=J) ping grown schema_ok).
Abbreviation Reads n m post := (S n no_effect m nothing_used post).
Abbreviation call := (steps_call (P:=P) (R:=R) (J:=J) ping grown schema_ok grown_schema).
Abbreviation stable := (stable grown schema_ok).

(** A call that only reads, of which nothing needs to be known afterwards. *)
Definition steps_any {n A} (c : Call A) : keeps (on_tables (≡)) (run_call ping c) ->
  Reads (1 + n) (run_call ping c) nothing.
Proof.
  intros Hc. apply (call c nothing_used nothing).
  - intros w. apply (table_rel_equiv (R:=grown)), Hc.
  - intros w _. apply (keeps_wp _ _ w) in Hc. by eapply wp_mono.
  - intros V w _ _. apply (keeps_wp _ _ w) in Hc. eapply wp_mono; [exact Hc|]. intros a w' Hs. by left.
Defined.

Definition steps_one {n A} (s : Stmt A) : reads s = true -> Reads (1 + n) (on_pg (pg_one s)) nothing :=
  fun Hr => steps_any (CallOne s) (keeps_pg_one _ s (one_respects_reads _ s _ Hr)).
Definition steps_all {n A} (s : Stmt A) : reads s = true -> Reads (1 + n) (on_pg (pg_all s)) nothing :=
  fun Hr => steps_any (CallAll s) (keeps_pg_all _ s (all_respects_reads _ s _ Hr)).
Definition steps_insert_user phone acct name hash :
  S 1 (fun _ => opens phone acct name hash)
    (on_pg (pg_one (InsertUser phone acct name hash register_returning)))
    (fun _ => tells is_ok is_denied)
    (fun r T => forall row, r = Ok row -> exists u, register_reply row = register_reply u /\
       account_opened phone name hash u T) :=
  call (CallOne _) _ _ (keeps_pg_one _ _ (insert_user_grown _ phone acct name hash _))
    (fun w _ => insert_user_opens phone acct name hash w)
    (fun _ w _ _ => insert_user_once phone acct name hash w).
Definition steps_transfer senderID pl res :
  0 < p_Amount pl ->
  S 1 (fun _ T T' => exists res1, transferred senderID pl T res1 T')
    (RunInTx serializable_opts (transfer_code senderID pl) res) (fun _ => tells tx_done tx_denied)
    (fun r T => r.1 = None -> recorded senderID pl (r_transferID r.2) T) :=
  fun Ha => call (CallTx _ serializable_opts res) _ _ (transfer_tx_grown senderID pl res Ha)
    (fun w => transfer_tx_records senderID pl res w Ha)
    (fun _ w Hw _ => transfer_tx_once senderID pl res w Ha Hw).
Definition steps_begin {n} o : Reads (1 + n) (on_pg (pg_begin o)) nothing := steps_any (CallBegin o) (keeps_begin o).
Definition steps_end {n} r : Reads (1 + n) (on_pg (pg_end r)) nothing := steps_any (CallEnd r) (keeps_end r).
Definition steps_ping {n} : Reads (1 + n) (on_pg ping) nothing := steps_any CallPing ping_still.
Definition steps_redis {n} c : Reads (1 + n) (on_rd (redis_do c)) nothing :=
  steps_any (CallRedis c) (keeps_on_rd _ _).
Definition steps_pipe {n} cs : Reads (1 + n) (on_rd (redis_pipe cs)) nothing :=
  steps_any (CallPipe cs) (keeps_on_rd _ _).
Definition steps_publish {n} subject id data : Reads (1 + n) (on_js (js_publish subject id data)) nothing :=
  steps_any (CallPublish subject id data) (keeps_on_js _ _).
Definition steps_host {n A} (f : Host -> A) : Reads (1 + n) (on_host f) nothing :=
  steps_any (CallHost f) (keeps_on_host _ f).
Definition steps_env {n} k : Reads (1 + n) (getenv k) nothing := steps_any (CallEnv k) (keeps_getenv k).

Definition steps_ack id uid :
  S 1 (fun _ T T' => flagged id uid T ≡ T') (on_pg (pg_exec (ack_update id uid)))
    (fun _ => tells (fun r => match r with Ok n => negb (n =? 0) | Err _ => false end)
       (fun r => match r with Ok n => n =? 0 | Err _ => false end))
    (fun r T => forall n, r = Ok n -> n <> 0 -> marked_read id uid T).
Proof.
  apply (call (CallExec _)); [apply (keeps_pg_exec _ _ (ack_grown _ id uid))|intros w _; apply ack_marks|].
  intros V w _ _. eapply wp_mono; [apply ack_once|]. intros r w' [[Hs Hm]|[Hf Hr]]; [left|right].
  - split; [done|]. split; [|done]. cbn zeta in Hm. by rewrite Hm.
  - split; [done|]. split; [done|]. destruct r as [n|e]; [|done]. intros En. destruct Hr.
    f_equal. lia.
Defined.

Abbreviation steps_then := (steps_then (P:=P) (R:=R) (J:=J) ping grown schema_ok grown_schema).
Abbreviation steps_know := (steps_know (P:=P) (R:=R) (J:=J) ping grown schema_ok grown_schema).
Abbreviation steps_seq := (steps_seq (P:=P) (R:=R) (J:=J) ping grown schema_ok grown_schema).
Abbreviation steps_bind := (steps_bind (P:=P) (R:=R) (J:=J) ping grown schema_ok grown_schema).
Abbreviation steps_retry := (steps_retry (P:=P) (R:=R) (J:=J) ping grown schema_ok grown_schema).
Abbreviation steps_effect := (steps_effect (P:=P) (R:=R) (J:=J) ping grown schema_ok grown_schema).
Abbreviation steps_weaken := (steps_weaken (P:=P) (R:=R) (J:=J) ping grown schema_ok grown_schema).
Abbreviation steps_map := (steps_map (P:=P) (R:=R) (J:=J) ping grown schema_ok grown_schema).
Abbreviation steps_next := (steps_next (P:=P) (R:=R) (J:=J) ping grown schema_ok grown_schema).

(** One call that only reads. *)
Ltac step_call :=
  lazymatch goal with
  | |- Steps _ _ _ _ _ (on_pg (pg_one _)) _ _ => apply steps_one; reflexivity
  | |- Steps _ _ _ _ _ (on_pg (pg_all _)) _ _ => apply steps_all; reflexivity
  | |- Steps _ _ _ _ _ (on_pg ping) _ _ => apply steps_ping
  | |- Steps _ _ _ _ _ (on_pg (pg_begin _)) _ _ => apply steps_begin
  | |- Steps _ _ _ _ _ (on_pg (pg_end _)) _ _ => apply steps_end
  | |- Steps _ _ _ _ _ (on_rd (redis_do _)) _ _ => apply steps_redis
  | |- Steps _ _ _ _ _ (on_rd (redis_pipe _)) _ _ => apply steps_pipe
  | |- Steps _ _ _ _ _ (on_js (js_publish _ _ _)) _ _ => apply steps_publish
  | |- Steps _ _ _ _ _ (on_host _) _ _ => apply steps_host
  | |- Steps _ _ _ _ _ (getenv _) _ _ => apply steps_env
  end.

(** Along the structure of the program, which counts the calls; a call that
    is not in one of these shapes, and a claim about a result, is left to the
    caller. *)
Ltac build_steps :=
  repeat
    match goal with
    | |- Steps _ _ _ _ _ (ret _) _ _ => apply steps_ret; try done
    | |- Steps _ _ _ _ _ (bind (ret _) _) _ _ => apply steps_skip
    | |- Steps _ _ _ _ _ (bind (bind _ _) _) _ _ => apply steps_assoc
    | |- Steps _ _ _ _ _ (bind (with_vars (bind (in_tx _) _) _) _) _ _ => apply steps_tx_stmt
    | |- Steps _ _ _ _ _ (bind (with_vars (bind (assign _) _) _) _) _ _ => apply steps_tx_assign
    | |- Steps _ _ _ _ _ (bind (with_vars (ret _) _) _) _ _ => apply steps_tx_ret
    | |- Steps _ _ _ _ _ (bind _ _) _ _ => apply steps_next; [step_call|intros ?]
    | |- Steps _ _ _ _ _ _ _ _ => step_call
    | |- Steps _ _ _ _ _ _ _ _ => first [progress cbn zeta beta | case_match]
    end.

(** What a handler claims: of the tables when it has answered, what its one
    effect is, the status of the answer that tells of it, and of an endpoint
    that writes the types of its answers, and what an answer shows of the
    worlds that the program has seen. *)
Record claim : Type := {
  c_truth : Ctx -> option json -> rpcResponse -> Tables -> Prop;
  c_effect : (W -> Prop) -> Ctx -> Headers -> option json -> Tables -> Tables -> Prop;
  c_success : option Z;
  c_replies : option Replies;
  c_sees : (W -> Prop) -> rpcResponse -> Prop;
}.

Definition no_claim : claim :=
  {| c_truth _ _ _ _ := True; c_effect V _ _ _ := no_effect V; c_success := None; c_replies := None;
     c_sees _ _ := True |}.

Definition succeeds (c : claim) (st : Z) : bool :=
  match c_success c with Some st' => st =? st' | None => false end.

Definition typed (c : claim) (r : rpcResponse) : Prop :=
  match c_replies c with Some t => allowed t r | None => True end.

Definition handler_use (c : claim) : (W -> Prop) -> bool -> result goany goerr -> Prop :=
  fun V used r =>
    tells (fun r => succeeds c (rpc_status (response_of r)))
      (fun r => refuses (rpc_status (response_of r))) used r /\ typed c (response_of r) /\
    c_sees c V (response_of r).

(** A handler that makes at most [n] calls. *)
Definition handler_steps (n : nat) (h : Handler W) (c : claim) : Type :=
  forall ctx action raw headers,
    S n (fun V => c_effect c V ctx headers raw) (h ctx action raw headers) (handler_use c)
      (fun r => c_truth c ctx raw (response_of r)).

Definition handleMe_steps : handler_steps 1 handleMe no_claim.
Proof. intros ctx action raw headers. unfold no_claim, handleMe, QueryUser. build_steps. Defined.

Definition handleBalance_steps : handler_steps 3 handleBalance no_claim.
Proof.
  intros ctx action raw headers.
  unfold no_claim, handleBalance, GetBalance, SetBalance, queryBalanceFromDB, rdo. build_steps.
Defined.

Definition handleLookup_steps : handler_steps 1 handleLookup no_claim.
Proof. intros ctx action raw headers. unfold no_claim, handleLookup, QueryUser. build_steps. Defined.

Definition handleAdminUsers_steps : handler_steps 2 handleAdminUsers no_claim.
Proof. intros ctx action raw headers. unfold no_claim, handleAdminUsers. build_steps. Defined.

Definition handleAdminTransfers_steps fmt : handler_steps 3 (handleAdminTransfers fmt) no_claim.
Proof.
  intros ctx action raw headers. unfold no_claim, handleAdminTransfers, resolveUserNames. build_steps.
Defined.

Definition handleAdminNotifications_steps fmt : handler_steps 2 (handleAdminNotifications fmt) no_claim.
Proof. intros ctx action raw headers. unfold no_claim, handleAdminNotifications. build_steps. Defined.

Definition handleAdminUserDetail_steps : handler_steps 1 handleAdminUserDetail no_claim.
Proof. intros ctx action raw headers. unfold no_claim, handleAdminUserDetail, QueryUser. build_steps. Defined.

Definition handleNotifications_steps fmt : handler_steps 1 (handleNotifications fmt) no_claim.
Proof.
  intros ctx action raw headers. unfold no_claim, handleNotifications. build_steps.
Defined.

Definition NATSHandler_steps name : handler_steps 2 (NATSHandler ping name) no_claim.
Proof. intros ctx action raw headers. unfold no_claim, NATSHandler, checkHealth, rdo. build_steps. Defined.

Definition handleLogin_steps : handler_steps 8 handleLogin no_claim.
Proof.
  intros ctx action raw headers.
  unfold no_claim, handleLogin, login_user, GetUserCacheByPhone, GetUserCacheByUsername, GetUserCache,
    SetUserCache, userCacheTTL, CreateSession, sessionTTL, new_uuid, QueryUser, rdo. build_steps.
Defined.

Definition handleLogout_steps : handler_steps 1 handleLogout no_claim.
Proof. intros ctx action raw headers. unfold no_claim, handleLogout, DeleteSession, rdo. build_steps. Defined.

(** ** The endpoints that write *)

Definition ack_claims : claim :=
  {| c_truth ctx := ack_claim (UserIDFromContext ctx).1;
     c_effect _ ctx _ := ack_effect (UserIDFromContext ctx).1; c_success := Some 200;
     c_replies := Some (api SNotification "ack"); c_sees _ _ := True |}.
Definition register_claims : claim :=
  {| c_truth _ := register_claim; c_effect _ _ _ := register_effect; c_success := Some 201;
     c_replies := Some (api SAuth "register"); c_sees _ _ := True |}.
Definition transfer_claims : claim :=
  {| c_truth ctx := transfer_claim (UserIDFromContext ctx).1;
     c_effect _ ctx _ := transfer_effect (UserIDFromContext ctx).1; c_success := Some 200;
     c_replies := Some (api STransfer "transfer"); c_sees _ _ := True |}.

(** The types of the answers of the endpoints that write. *)
Ltac type_answer :=
  lazymatch goal with
  | |- typed _ (response_of (Err _)) => apply allowed_err; in_list
  | |- typed _ (response_of (Ok (Reply _ (detail _)))) => apply allowed_detail; in_list
  | |- typed _ (response_of (Ok _)) => eapply allowed_body; [in_list|type_JMap]
  end.

(** An answer without an effect. *)
Ltac plain_answer :=
  apply steps_ret; [intros ?; split; [done|split; [type_answer|done]]|try done].

(** An answer after a call that may have had it. *)
Ltac last_answer := apply steps_ret; [intros ? u Hu; split; [|split; [type_answer|done]]|try done].

Definition handleAck_steps : handler_steps 1 handleAck ack_claims.
Proof.
  intros ctx action raw headers. simpl. unfold ack_claim, ack_effect, ack_request, handleAck.
  destruct (UserIDFromContext ctx) as [uid b]. cbn [fst].
  destruct (unmarshal_raw decode_ackPayload raw) as [p|e]; [|by plain_answer]. cbn zeta.
  destruct (a_ID p =? 0); [by plain_answer|].
  eapply steps_map; [eapply steps_effect; [apply steps_ack|by eauto]|..].
  - intros r T T' Hok Hg Hm n -> Hn. apply (marked_kept _ _ T T'); [by apply Hg|by apply (Hm n)].
  - intros [n|e]; [|by last_answer]. destruct (n =? 0) eqn:En; last_answer.
    + destruct Hu as [_ Hu]. split; [done|]. by rewrite (Hu En).
    + destruct Hu as [Hu _]. split; [|done]. intros _. apply Hu. by rewrite En.
    + intros T _ Hm _. exists (a_ID p). split; [done|]. apply (Hm n eq_refl). lia.
Defined.

(** The hash of a password. *)
Definition hashes (pw : string) (r : result string goerr) : Prop :=
  forall h, r = Ok h -> bcrypt_compare h pw = true /\ all_bytes is_ascii h = true.

Definition HashPassword_steps pw :
  S 2 no_effect (HashPassword (P:=P) (R:=R) (J:=J) pw) (fun _ _ => hashes pw) (fun r _ => hashes pw r).
Proof.
  unfold HashPassword, bcryptRounds. apply steps_assoc, steps_next; [step_call|]. intros rounds.
  set (cost := bcrypt_rounds_value rounds). apply steps_skip, steps_next; [step_call|]. intros salt.
  assert (hashes pw (bcrypt_generate pw cost salt)) as Hh
    by (intros h E; split; [by eapply bcrypt_verifies|by eapply bcrypt_ascii]).
  revert Hh. destruct (bcrypt_generate pw cost salt) as [hash|e]; intros Hh; apply steps_ret; done.
Defined.

Definition digits (n : nat) (s : string) : Prop := String.length s = n /\ all_bytes is_digit s = true.

Definition rand_below_steps n :
  0 < n -> S 1 no_effect (rand_below (P:=P) (R:=R) (J:=J) n) (fun _ _ z => 0 <= z < n) nothing.
Proof.
  intros Hn. apply (call (CallHost _)); [apply (keeps_on_host grown)|by intros w _; apply wp_on_host|].
  intros V w _ _. apply wp_on_host. left. split; [done|]. by apply Z.mod_pos_bound.
Defined.

Definition randomDigits_steps n :
  S n no_effect (randomDigits (P:=P) (R:=R) (J:=J) n) (fun _ _ => digits n) nothing.
Proof.
  induction n as [|n IH]; simpl; [by apply steps_ret|].
  apply (steps_bind 1 _ _ _ _ _ nothing _ (rand_below_steps 10 ltac:(lia))); [done|]. intros idx.
  apply (steps_map _ _ _ _ nothing _ IH); [done|]. intros rest.
  apply steps_ret; [|done]. intros _ _ [Hl Hd] _ Hi. split; [simpl; by rewrite Hl|].
  cbn [all_bytes]. by rewrite digit_byte, Hd.
Defined.

(** What an insertion of the loop does. *)
Definition registers (phone name hash : string) (T T' : Tables) : Prop :=
  all_bytes is_ascii hash = true -> forall password, bcrypt_compare hash password = true ->
  exists u, registered phone name password T u T'.

(** Of the answers of the insertion loop: it is [register_reply] of an
    account that was opened, or no success. *)
Definition register_loop_steps n phone username pwHash :
  S (n * 13) (fun _ => registers phone username pwHash) (register_loop n phone username pwHash)
    (handler_use register_claims)
    (fun r T => rpc_status (response_of r) = 201 -> exists u,
       r = Ok (register_reply u) /\ account_opened phone username pwHash u T).
Proof.
  induction n as [|n IH]; cbn [register_loop]; [by plain_answer|].
  apply (steps_know 12 (1 + n * 13) _ _ (fun _ => digits 12) _ _ (randomDigits_steps 12)).
  intros acct. eapply (steps_retry 1 _); [eapply steps_effect; [apply steps_insert_user|]|..].
  - intros V T T' Ho [Hl Hd] Hh. by apply Ho.
  - intros r T T' Hok Hg Hr row Er. destruct (Hr row Er) as (u & Eu & Ha). exists u. split; [done|].
    eapply account_kept; [by apply Hg|done].
  - intros [row|e].
    + right. last_answer.
      * destruct Hu as [Hu _]. by rewrite (Hu eq_refl).
      * intros T _ Hr _. destruct (Hr row eq_refl) as (u & -> & Ha). by exists u.
    + destruct (IsUniqueViolation e) eqn:Eu; [|destruct (IsNotFound e) eqn:En].
      * right. last_answer. destruct Hu as [_ Hu]. split; [done|]. intros _. apply Hu.
        simpl. unfold denies. by rewrite Eu, orb_true_r.
      * left. split.
        -- apply (steps_weaken _ _ _ _ _ (Nat.le_refl _) IH); auto.
        -- intros V [_ Hu]. simpl in Hu. unfold denies in Hu. rewrite En, orb_true_r in Hu.
           by discriminate Hu.
      * right. by last_answer.
Defined.

Definition handleRegister_steps : handler_steps 262 handleRegister register_claims.
Proof.
  intros ctx action raw headers. simpl.
  unfold register_claim, register_effect, register_request, handleRegister.
  destruct (unmarshal_raw decode_credentials raw) as [p|e]; [|by plain_answer]. cbn zeta.
  destruct (isDigits (TrimSpace (cr_Phone p))); cbn [negb]; [|by plain_answer].
  apply (steps_seq 2 (20 * 13) _ _ (fun _ => hashes (cr_Password p)) _ _ _ (HashPassword_steps (cr_Password p)));
    [intros r T T' _ _ Hr; exact Hr|].
  intros [pwHash|e]; [|by plain_answer].
  apply (steps_weaken _ _ _ _ _ (Nat.le_refl _) (register_loop_steps _ _ _ _)); [|done|].
  - intros V T T' Hr Hh. destruct (Hh pwHash eq_refl) as [Hc Ha].
    destruct (Hr Ha _ Hc) as [u Hu]. by do 4 eexists.
  - intros r T _ Hr Hh Eb. destruct (Hr Eb) as (u & -> & Ha). do 5 eexists.
    split_and!; [done..|by apply Hh|done].
Defined.

(** The calls of the retry loop: the transactions, and between two of them
    the draw of the delay and the look at the context. *)
Fixpoint loop_calls (attempts : list nat) : nat :=
  match attempts with
  | [] => 0
  | _ :: rest => 1 + match rest with [] => 0 | _ :: _ => 2 + loop_calls rest end
  end.

(** The retry loop: a commit establishes what the transaction establishes,
    and a serialization failure that the transaction has not committed. The
    last attempt gives up, so the loop does not fall through. *)
Definition serializable_loop_steps {S0} (code : TxCode P S0) E attempts s
    (use : (W -> Prop) -> bool -> option goerr * S0 -> Prop) (post : option goerr * S0 -> Tables -> Prop) :
  last attempts = Some (maxSerializableRetries - 1)%nat -> stable post ->
  (forall e s' T, post (Some e, s') T) -> (forall V e s', use V false (Some e, s')) ->
  (forall V e s', IsSerializationFailure e = true -> use V true (Some e, s') -> False) ->
  (forall s', S 1 E (RunInTx serializable_opts code s') use post) ->
  S (loop_calls attempts) E (serializable_loop code attempts s) use post.
Proof.
  intros Hlast Hst Hfail Huse Hser Hfn. revert s Hlast.
  induction attempts as [|n attempts IH]; intros s Hlast; [done|]. cbn [serializable_loop loop_calls].
  apply (steps_retry 1 _ _ _ _ _ _ _ (Hfn _) Hst). intros [[err|] s']; [|right; by apply steps_ret].
  destruct (IsSerializationFailure err) eqn:Es; cbn [negb]; [|right; by apply steps_ret].
  left. split; [|intros V; by apply Hser].
  destruct (n =? maxSerializableRetries - 1)%nat eqn:En; [by apply steps_ret|].
  destruct attempts as [|n' rest]; [exfalso; simplify_eq/=; lia|].
  unfold rand_below, ctx_done. apply steps_next; [step_call|intros jitter].
  apply steps_next; [step_call|intros [cause|]]; [by apply steps_ret|].
  apply (steps_weaken _ _ _ _ _ (Nat.le_refl _) (IH s' Hlast)); auto.
Defined.

Definition publisher_steps (publishEvent : option (TransferCompleted -> M W (option goerr))) : Type :=
  forall publish evt, publishEvent = Some publish -> Reads 1 (publish evt) nothing.

Lemma tx_denied_answer {A} e (res : A) u :
  tells tx_done tx_denied u (Some e, res) ->
  (if errors_Is e errInsufficientFunds then True else
   if errors_Is e errReceiverNotFound then True else
   if errors_Is e errSelfTransfer then True else IsSerializationFailure e = true) -> u = false.
Proof.
  intros [_ Hu] He. apply Hu. unfold tx_denied. simpl.
  repeat case_match; rewrite ?orb_true_r; try done. by rewrite He.
Qed.

Definition handleTransfer_steps publishEvent :
  publisher_steps publishEvent -> handler_steps 15 (handleTransfer publishEvent) transfer_claims.
Proof.
  intros Hpub ctx action raw headers. simpl.
  unfold transfer_claim, transfer_effect, accepts, handleTransfer.
  destruct (UserIDFromContext ctx) as [senderID b]. cbn [fst].
  destruct (unmarshal_raw decode_transferPayload raw) as [p0|e]; [|by plain_answer].
  cbn zeta. destruct (_ && _ && _); [by plain_answer|].
  destruct (p_Amount (trim_payload p0) <=? 0) eqn:Ha; [by plain_answer|].
  set (p := trim_payload p0) in *.
  apply (steps_bind 13 2 _ _ (fun _ => tells tx_done tx_denied) _
           (fun r T => r.1 = None -> recorded senderID p (r_transferID r.2) T)).
  - unfold runTransferTx, SerializableTx.
    apply (serializable_loop_steps _ _ (seq 0 maxSerializableRetries)); [done| |done|done| |].
    + intros r T T' Hok Hg Hr E. eapply recorded_kept; [by apply Hg|by apply Hr].
    + intros V e s' Es [_ Hu]. unfold tx_denied in Hu. simpl in Hu. rewrite Es in Hu.
      by discriminate (Hu eq_refl).
    + intros s. eapply steps_effect; [apply steps_transfer; lia|].
      intros V T T' [res Ht]. by exists p, res.
  - intros r T T' Hok Hg Hr E. eapply recorded_kept; [by apply Hg|by apply Hr].
  - intros [[err|] res].
    + pose proof (tx_denied_answer err res) as Hd. repeat case_match; last_answer; try done;
        split; try done; intros _; by eapply Hd.
    + apply (steps_then 1 1); [unfold PublishTransferCompleted, rpipe; build_steps|intros _].
      apply (steps_then 1 0).
      { destruct publishEvent as [publish|]; [by apply Hpub|by apply steps_ret]. }
      intros _. last_answer.
      * destruct Hu as [Hu _]. by rewrite (Hu eq_refl).
      * intros T _ Hr _. exists p, (r_transferID res). auto.
Defined.

(** ** The statistics, query by query *)

(** The figures of the users, those of the transfers and the number of the
    notifications, each as the tables had them in a world of [V]. *)
Definition stats_seen (V : W -> Prop) (st : adminStats) : Prop :=
  exists w1 w2 w3, V w1 /\ V w2 /\ V w3 /\
    let st1 := stats_of (tables_of w1) in
    let st2 := stats_of (tables_of w2) in
    st = MkStats (s_users st1) (s_total_balance st1) (s_transfers st2) (s_volume st2)
           (s_notifications (stats_of (tables_of w3))).

Definition stats_claims : claim :=
  {| c_truth _ _ _ _ := True; c_effect V _ _ _ := no_effect V; c_success := None; c_replies := None;
     c_sees V resp := rpc_status resp = 200 -> exists st, stats_seen V st /\ resp = response_of (stats_answer st) |}.

(** A query that has one answer on each state of the tables. *)
Definition steps_one_seen {A} (s : Stmt A) (f : Tables -> A) :
  reads s = true ->
  (forall env T0 T, T0 ≡ T -> stmt_run pg_ilike s env T = Ok ([f T0], T)) ->
  S 1 no_effect (on_pg (pg_one s))
    (fun V _ r => forall a, r = Ok a -> exists w, V w /\ a = f (tables_of w)) nothing.
Proof.
  intros Hr Hf. apply (call (CallOne s)); [|by intros w _; apply wp_on_pg|].
  - intros w. apply (table_rel_equiv (R:=grown)), (keeps_pg_one _ s (one_respects_reads _ s _ Hr)).
  - intros V w _ HV. apply (wp_one_pure s (f (tables_of w)) 0 None); [done|auto|done| |].
    + intros w' [_ E] _. left. split; [done|]. intros a [= <-]. by exists w.
    + intros e w' _ _ [_ E]. by left.
Defined.

(** The end of the transaction and the answer of the handler. *)
Definition stats_end_steps {n} r st (use : (W -> Prop) -> bool -> result goany goerr -> Prop)
    (post : result goany goerr -> Tables -> Prop) :
  (forall V e, use V false (Err e)) -> (r = None -> forall V, use V false (stats_answer st)) ->
  (forall a T, post a T) ->
  S (1 + n) no_effect (let* (err, st) := (let* err := on_pg (pg_end r) in ret (err, st)) in
                 match err with
                 | Some err => ret (Err (EWrap "query admin stats" err))
                 | None => ret (stats_answer st)
                 end) use post.
Proof.
  intros He Hr Hp. apply steps_assoc, (steps_map _ _ (fun _ u r' => u = false /\ end_outcome r r') _ nothing); [|done|].
  - apply (call (CallEnd r)); [|by intros w _; apply wp_on_pg|].
    + intros w. apply (table_rel_equiv (R:=grown)), keeps_end.
    + intros V w _ _. apply wp_on_pg. intros r' p' E. apply pg_end_law in E as [Hv Ho].
      left. by split.
  - intros [e|]; apply steps_skip, steps_ret; try (by intros; apply Hp).
    + intros V u [-> _]. apply He.
    + intros V u [-> Ho]. apply Hr. destruct r as [e|]; [|done]. by destruct Ho as [?|(er & _ & ?)].
Defined.

Lemma scan_sum_ok r v : scan_sum r = Ok v -> r = Ok v.
Proof. unfold scan_sum. by repeat case_match. Qed.

Definition handleAdminStats_steps : handler_steps 5 handleAdminStats stats_claims.
Proof.
  intros ctx action raw headers. unfold handleAdminStats, RunInTx. simpl. unfold stats_queries.
  assert (forall V u (e : goerr), handler_use stats_claims V u (Err e)) as Hno by done.
  apply steps_assoc, steps_next; [step_call|]. intros [err|]; [by apply steps_skip, steps_ret|].
  apply steps_assoc, steps_tx_stmt.
  apply (steps_bind 1 3 _ _ _ _ nothing _
    (steps_one_seen SumUsers (fun T => (Z.of_nat (length (users T)), total_balance T)) eq_refl sum_users_run));
    [done|intros r1].
  destruct (scan_sum r1) as [[n1 t1]|e1] eqn:E1; [|apply steps_tx_ret, stats_end_steps; by intros]. apply steps_tx_assign, steps_tx_stmt.
  apply (steps_bind 1 2 _ _ _ _ nothing _
    (steps_one_seen SumTransfers
       (fun T => (Z.of_nat (length (transfers T)), sumZ (map t_amount (transfers T))))
       eq_refl sum_transfers_run)); [done|intros r2].
  destruct (scan_sum r2) as [[n2 t2]|e2] eqn:E2; [|apply steps_tx_ret, stats_end_steps; by intros]. apply steps_tx_assign, steps_tx_stmt.
  apply (steps_bind 1 1 _ _ _ _ nothing _
    (steps_one_seen CountNotifications (fun T => Z.of_nat (length (notifications T)))
       eq_refl count_notifications_run)); [done|intros r3].
  destruct r3 as [n3|e3]; [|apply steps_tx_ret, stats_end_steps; by intros]. apply steps_tx_assign, steps_tx_ret.
  apply stats_end_steps; [by intros; apply Hno| |done].
  intros _ V u3 S3 u2 S2 u1 S1. split; [done|]. split; [done|]. intros _. eexists. split; [|reflexivity].
  destruct (S1 _ (scan_sum_ok _ _ E1)) as (w1 & V1 & [= -> ->]).
  destruct (S2 _ (scan_sum_ok _ _ E2)) as (w2 & V2 & [= -> ->]).
  destruct (S3 _ eq_refl) as (w3 & V3 & ->). by exists w1, w2, w3.
Defined.

(** ** The guards *)

(** Redis has answered that the session is this user's. *)
Definition vouches (V : W -> Prop) (sid : string) (uid : Z) : Prop :=
  exists w, V w /\ (GetUserIDFromSession sid w).1 = Ok uid.

Definition steps_redis_seen c :
  S 1 no_effect (on_rd (redis_do c)) (fun V _ r => exists w, V w /\ (on_rd (redis_do c) w).1 = r) nothing.
Proof.
  apply (call (CallRedis c)); [apply (keeps_on_rd grown)|by intros w _; apply wp_on_rd|].
  intros V w _ Hw. apply wp_on_rd. intros r p' E. left. split; [done|]. exists w. split; [done|].
  simpl. unfold on_rd. by rewrite E.
Defined.

Lemma session_seen sid v id (w : W) :
  sid <> "" -> (on_rd (redis_do (RGet (session_key sid))) w).1 = Ok (RBulk v) -> Atoi v = Ok id ->
  (GetUserIDFromSession sid w).1 = Ok id.
Proof.
  intros Hs Er Ev. unfold GetUserIDFromSession, rdo, bind. rewrite bool_decide_false by done.
  destruct (on_rd _ w) as [r w']. simpl in *. subst. by rewrite Ev.
Qed.

Definition GetUserIDFromSession_steps sid :
  S 1 no_effect (GetUserIDFromSession sid) (fun V _ r => forall uid, r = Ok uid -> vouches V sid uid) nothing.
Proof.
  unfold GetUserIDFromSession, rdo. destruct (bool_decide (sid = "")) eqn:Hs; [by apply steps_ret|].
  apply (steps_map _ _ _ _ nothing _ (steps_redis_seen _)); [done|]. intros r.
  repeat case_match; apply steps_ret; try done. intros V _ (w & Hw & Er) uid [= <-]. exists w.
  split; [done|]. eapply session_seen; [by apply bool_decide_eq_false in Hs|exact Er|done].
Defined.

(** A claim that says nothing of a refusal. *)
Definition of_success (c : claim) : Prop :=
  forall status, 400 <= status -> succeeds c status = false /\
    (forall ctx raw body T, c_truth c ctx raw (MkRpcResponse status body) T) /\
    forall V body, c_sees c V (MkRpcResponse status body).

(** The answers of the session guard are among those of the endpoint. *)
Definition lists_refusals (c : claim) : Prop :=
  forall status msg, status ∈ [401; 500] -> typed c (response_of (Ok (Reply status (detail msg)))).

Definition guarded (c : claim) : claim :=
  {| c_truth ctx raw r T := exists id, c_truth c (withUserID ctx id) raw r T;
     c_effect V ctx headers raw T T' := exists id, vouches V (header headers "x-session") id /\
       c_effect c V (withUserID ctx id) headers raw T T';
     c_success := c_success c; c_replies := c_replies c; c_sees := c_sees c |}.

(** The guard's own answers, before any call. *)
Definition refusal_steps {n E} (c : claim) ctx raw status msg :
  of_success c -> 400 <= status -> typed c (response_of (Ok (Reply status (detail msg)))) ->
  S n E (ret (Ok (Reply status (detail msg)))) (handler_use (guarded c))
    (fun r => c_truth (guarded c) ctx raw (response_of r)).
Proof.
  intros Hc Hs Ht. destruct (Hc status Hs) as (Hsucc & Htrue & Hsees). apply steps_ret.
  - intros V. split; [|split; [exact Ht|apply Hsees]]. split; [|done]. intros Hst. simpl in Hst. exfalso. revert Hst.
    change (succeeds (guarded c) status) with (succeeds c status). by rewrite Hsucc.
  - intros T _. exists 0. apply Htrue.
Defined.

Definition RequireSession_steps {n} next c :
  of_success c -> lists_refusals c -> handler_steps n next c ->
  handler_steps (1 + n) (RequireSession next) (guarded c).
Proof.
  intros Hc Hl Hn ctx action raw headers. unfold RequireSession.
  apply (steps_know 1 _ _ _ _ _ _ (GetUserIDFromSession_steps _)). intros [id|e].
  - apply (steps_weaken _ _ _ _ _ (Nat.le_refl n) (Hn _ _ _ _)); simpl; eauto.
  - destruct (errors_Is _ _); apply refusal_steps; try done; apply Hl; set_solver.
Defined.

Definition RequireAdmin_steps {n} secret next c :
  of_success c -> c_replies c = None -> handler_steps n next c ->
  handler_steps (1 + n) (RequireAdmin secret next) (guarded c).
Proof.
  intros Hc Hl Hn ctx action raw headers. unfold RequireAdmin.
  destruct (negb _); [apply refusal_steps; try done; unfold typed; by rewrite Hl|].
  apply (RequireSession_steps next c Hc); [|done].
  intros status msg _. unfold typed. by rewrite Hl.
Defined.

Lemma ack_success : of_success ack_claims.
Proof.
  intros status Hs. split_and!; [unfold succeeds; simpl; lia| |done]. intros ctx raw body T Es. simpl in Es. lia.
Qed.
Lemma transfer_success : of_success transfer_claims.
Proof.
  intros status Hs. split_and!; [unfold succeeds; simpl; lia| |done]. intros ctx raw body T Es. simpl in Es. lia.
Qed.
Lemma ack_refusals : lists_refusals ack_claims.
Proof.
  intros status msg Hs. apply allowed_detail, session_subseteq, list_elem_of_fmap. by exists status.
Qed.
Lemma transfer_refusals : lists_refusals transfer_claims.
Proof.
  intros status msg Hs. apply allowed_detail, session_subseteq, list_elem_of_fmap. by exists status.
Qed.
Lemma no_claim_success : of_success no_claim.
Proof. done. Qed.
Lemma stats_success : of_success stats_claims.
Proof. intros status Hs. split_and!; [done..|]. intros V body Es. simpl in Es. lia. Qed.

(** Behind a guard nothing is claimed of what claims nothing. *)
Definition unguarded {n} h : handler_steps n h (guarded no_claim) -> handler_steps n h no_claim.
Proof.
  intros Hh ctx action raw headers. apply (steps_weaken _ _ _ _ _ (Nat.le_refl n) (Hh _ _ _ _)); try done.
  by intros V T T' (_ & _ & []).
Defined.

Definition session_steps {n} next :
  handler_steps n next no_claim -> handler_steps (1 + n) (SessionMiddleware next) no_claim.
Proof. intros Hn. by apply unguarded, RequireSession_steps. Defined.

Definition admin_steps {n} secret next :
  handler_steps n next no_claim -> handler_steps (1 + n) (AdminMiddleware secret next) no_claim.
Proof. intros Hn. by apply unguarded, RequireAdmin_steps. Defined.

(** ** The services *)

(** The endpoints of a service, with the bounds of their calls and the claims
    by action. *)
Definition handlers_steps (hs : gmap string (Handler W)) (b : string -> nat) (c : string -> claim) : Type :=
  forall action h, hs !! action = Some h -> handler_steps (b action) h (c action).

Definition handlers_steps_empty b c : handlers_steps ∅ b c.
Proof. intros action h E. exfalso. by rewrite lookup_empty in E. Defined.

Definition handlers_steps_insert a h hs b c :
  handler_steps (b a) h (c a) -> handlers_steps hs b c -> handlers_steps (<[a := h]> hs) b c.
Proof.
  intros Hh Hhs action h' E. destruct (decide (a = action)) as [Ea|Ea].
  - intros ctx act raw headers.
    eapply (steps_ext _ _ _ (h ctx act raw headers));
      [|apply (steps_weaken _ _ _ _ _ (Nat.eq_le_incl _ _ (f_equal b Ea)) (Hh ctx act raw headers));
        by rewrite Ea].
    intros w. subst. rewrite lookup_insert_eq in E. by simplify_eq.
  - apply (Hhs action). by rewrite lookup_insert_ne in E.
Defined.

(** What the text of a reply to the request [data] says. *)
Definition told (c : claim) (data : string) (rep : option RpcReply) (T : Tables) : Prop :=
  match rep with
  | Some (Respond text) => exists payload resp,
      unmarshal_text decode_rpcRequest data = Ok payload /\
      text = Marshal (encode_rpcResponse resp) /\ c_truth c {| ctx_user := None |} payload resp T
  | _ => True
  end.

(** The headers that the dispatcher hands on. *)
Definition handed (hdrs : Headers) : Headers :=
  <["x-session" := header hdrs "x-session"]>
    (<["x-admin-secret" := header hdrs "x-admin-secret"]> ∅).

(** The effect of the request [data]. *)
Definition data_effect (c : claim) (data : string) (hdrs : Headers) (V : W -> Prop)
    (T T' : Tables) : Prop :=
  exists payload, unmarshal_text decode_rpcRequest data = Ok payload /\
    c_effect c V {| ctx_user := None |} (handed hdrs) payload T T'.

(** The reply says that the effect has been made, or that it has not. *)
Definition reply_success (c : claim) (rep : option RpcReply) : bool :=
  match rep, c_success c with
  | Some (Respond text), Some st => has_status st text
  | _, _ => false
  end.

Definition reply_refusal (rep : option RpcReply) : bool :=
  match rep with
  | Some (Respond text) => refusal_text text
  | Some (RespondError _ _) => true
  | None => false
  end.

Definition claim_stable (c : claim) : Prop :=
  forall ctx raw resp T T', grown T T' -> schema_ok T -> c_truth c ctx raw resp T ->
    c_truth c ctx raw resp T'.

(** The text of the reply is that of a response of the listed types. *)
Definition typed_reply (c : claim) (rep : option RpcReply) : Prop :=
  match rep with
  | Some (Respond text) => exists resp, text = Marshal (encode_rpcResponse resp) /\ typed c resp
  | _ => True
  end.

(** The text of the reply is that of a response that shows what has been
    seen. *)
Definition sees_reply (c : claim) (V : W -> Prop) (rep : option RpcReply) : Prop :=
  match rep with
  | Some (Respond text) => exists resp, text = Marshal (encode_rpcResponse resp) /\ c_sees c V resp
  | _ => True
  end.

Definition serve_use (c : claim) : (W -> Prop) -> bool -> option RpcReply -> Prop :=
  fun V used rep =>
    (tells (reply_success c) reply_refusal used rep /\ typed_reply c rep) /\ sees_reply c V rep.

Definition serve_steps (c : Consumer W) b cl shutdown action data hdrs :
  claim_stable (cl action) -> handlers_steps (c_handlers c) b cl ->
  S (b action) (data_effect (cl action) data hdrs) (serve c shutdown action data hdrs)
    (serve_use (cl action)) (told (cl action) data).
Proof.
  intros Hst Hc. unfold serve, dispatch. specialize (Hc action).
  destruct (c_handlers c !! action) as [h|]; [|by apply steps_ret]. specialize (Hc h eq_refl).
  destruct shutdown; [by apply steps_ret|].
  unfold told, data_effect. destruct (unmarshal_text _ data) as [payload|e]; [|by apply steps_ret].
  eapply steps_map;
    [eapply steps_effect; [apply Hc|by eauto]|intros r T T' Hok Hg; by apply Hst|].
  intros result. apply steps_ret.
  - intros V u (Hu & Ht & Hse). split; [|by exists (response_of result)].
    split; [|by exists (response_of result)].
    unfold tells, reply_success, reply_refusal. rewrite refusal_text_response.
    destruct (c_success (cl action)) as [st|] eqn:Es; [|by split; [|apply Hu]].
    rewrite has_status_response. destruct Hu as [Hu Hr]. split; [|done].
    unfold succeeds in Hu. by rewrite Es in Hu.
  - intros T _ Hr. by exists payload, (response_of result).
Defined.

Context (fmt_time : Z -> string) (adminSecret : string) (jetstream : bool).

Abbreviation consumer := (consumer (P:=P) (R:=R) (J:=J) fmt_time ping adminSecret jetstream).

(** The endpoints whose success claims something of the tables. *)
Definition claims (s : Service) (action : string) : claim :=
  if String.eqb action "register" then
    match s with SAuth => register_claims | _ => no_claim end
  else if String.eqb action "transfer" then
    match s with STransfer => guarded transfer_claims | _ => no_claim end
  else if String.eqb action "ack" then
    match s with SNotification => guarded ack_claims | _ => no_claim end
  else if String.eqb action "stats" then
    match s with SAccount => guarded stats_claims | _ => no_claim end
  else no_claim.

(** The most calls that the handler of an endpoint makes to the servers and
    to the process (a draw, a look at the context or the environment): a
    transfer reads the session, runs five transactions with a draw and a look
    at the context between them, sends a pipeline and publishes; a
    registration hashes and makes twenty attempts of twelve digits and an
    insertion. *)
Definition call_budget (s : Service) (action : string) : nat :=
  match s with
  | SAuth =>
      if String.eqb action "register" then 262
      else if String.eqb action "login" then 8
      else if String.eqb action "logout" then 2
      else if String.eqb action "health" then 2 else 0
  | SAccount =>
      if String.eqb action "me" then 2
      else if String.eqb action "balance" then 4
      else if String.eqb action "lookup" then 2
      else if String.eqb action "stats" then 6
      else if String.eqb action "users" then 3
      else if String.eqb action "transfers" then 4
      else if String.eqb action "notifications" then 3
      else if String.eqb action "user-detail" then 2
      else if String.eqb action "health" then 2 else 0
  | STransfer =>
      if String.eqb action "transfer" then 16
      else if String.eqb action "health" then 2 else 0
  | SNotification =>
      if String.eqb action "notifications" then 2
      else if String.eqb action "ack" then 2
      else if String.eqb action "health" then 2 else 0
  end.

Lemma claims_stable s action : claim_stable (claims s action).
Proof.
  intros ctx raw resp T T' Hg Hok. destruct (Hg Hok) as (_ & _ & Hk).
  unfold claims. repeat case_match; try done.
  - intros Hc Es. destruct (Hc Es) as (phone & name & pw & hash & u & Er & Ep & Hb & Ha).
    exists phone, name, pw, hash, u. split_and!; [done..|]. by eapply account_kept.
  - intros [id Hc]. exists id. intros Es. destruct (Hc Es) as (p & tid & Ea & Ep & Hr).
    exists p, tid. split_and!; [done..|]. by eapply recorded_kept.
  - intros [id Hc]. exists id. intros Es. destruct (Hc Es) as (n & Ea & Hm).
    exists n. split; [done|]. by eapply marked_kept.
Qed.

Definition consumer_steps s : handlers_steps (c_handlers (consumer s)) (call_budget s) (claims s).
Proof.
  assert (publisher_steps (transfer_publisher (R:=R) (P:=P) jetstream)) as Hpub.
  { intros publish evt E. unfold transfer_publisher in E. destruct jetstream; [|done].
    apply (steps_ext _ _ _ (PublishTransferEvent evt)); [|unfold PublishTransferEvent; build_steps].
    intros w. by injection E as <-. }
  destruct s; repeat (apply handlers_steps_insert; [|]);
    try match goal with |- handlers_steps _ _ _ => apply handlers_steps_empty end;
    cbv [claims call_budget String.eqb Ascii.eqb Bool.eqb];
    first
      [ apply handleRegister_steps
      | apply (RequireSession_steps _ _ transfer_success transfer_refusals (handleTransfer_steps _ Hpub))
      | apply (RequireSession_steps _ _ ack_success ack_refusals handleAck_steps)
      | apply (RequireAdmin_steps _ _ _ stats_success eq_refl handleAdminStats_steps)
      | apply handleLogin_steps | apply NATSHandler_steps
      | apply session_steps | apply admin_steps ];
    first
      [ apply handleLogout_steps
      | apply handleMe_steps | apply handleBalance_steps | apply handleLookup_steps
      | apply handleAdminUsers_steps
      | apply handleAdminTransfers_steps | apply handleAdminNotifications_steps
      | apply handleAdminUserDetail_steps | apply handleNotifications_steps ].
Defined.

(** The calls of a request to a service. *)
Definition request_steps (s : Service) (action data : string) (hdrs : Headers) :=
  serve_steps (consumer s) (call_budget s) (claims s) false action data hdrs (claims_stable s action)
    (consumer_steps s).

Definition request_prog (s : Service) (action data : string) (hdrs : Headers)
    : Prog (P:=P) (option RpcReply) :=
  st_prog _ _ _ _ _ _ _ _ (request_steps s action data hdrs).

Lemma request_prog_run s action data hdrs w :
  run ping (request_prog s action data hdrs) w = serve (consumer s) false action data hdrs w.
Proof. apply st_run. Qed.

Lemma request_prog_keep s action data hdrs :
  calls_keep (R:=R) (J:=J) ping grown (request_prog s action data hdrs).
Proof. apply (st_keep _ _ _ _ _ _ _ _ (request_steps s action data hdrs)). Qed.

Lemma request_prog_bounded s action data hdrs :
  bounded (call_budget s action) (request_prog s action data hdrs).
Proof. apply (st_bound _ _ _ _ _ _ _ _ (request_steps s action data hdrs)). Qed.

Lemma request_prog_told s action data hdrs T :
  schema_ok T ->
  ensures (R:=R) (J:=J) ping grown (request_prog s action data hdrs) (told (claims s action) data) T.
Proof. apply (st_post _ _ _ _ _ _ _ _ (request_steps s action data hdrs)). Qed.

Lemma request_prog_once s action data hdrs V :
  once (R:=R) (J:=J) ping schema_ok V (data_effect (claims s action) data hdrs V)
    (request_prog s action data hdrs) (serve_use (claims s action) V) false.
Proof. apply (st_once _ _ _ _ _ _ _ _ (request_steps s action data hdrs)). Qed.

Lemma data_effect_equiv s action data hdrs V T T' T'' :
  T ≡ T' -> data_effect (claims s action) data hdrs V T' T'' ->
  data_effect (claims s action) data hdrs V T T''.
Proof.
  intros E (payload & Ep & He). exists payload. split; [done|]. revert He.
  unfold claims. repeat case_match; simpl; try done.
  - intros (phone & name & pw & u & Er & Hr). exists phone, name, pw, u. split; [done|].
    by eapply registered_equiv; [symmetry; exact E|reflexivity|].
  - intros (id & Hv & p & res & Ea & Ht). exists id. split; [done|]. exists p, res. split; [done|].
    by eapply transferred_equiv; [symmetry; exact E|reflexivity|].
  - intros (id & Hv & n & Ea & Hf). exists id. split; [done|]. exists n. split; [done|].
    etransitivity; [|exact Hf]. by apply flagged_proper.
Qed.

Lemma told_stable s action data : stable (told (claims s action) data).
Proof.
  intros [[text|]|] T T' Hok Hg; simpl; [|done..].
  intros (payload & resp & Ep & Et & Hc). exists payload, resp. split_and!; [done..|].
  by eapply claims_stable.
Qed.
End Calls.
