(* ===== verification/RefServers.v ===== *)
(** * Reference servers

    Executable instances of the server interfaces, which satisfy the laws:
    they show that the laws can hold together, and every witness runs on
    them. A plan lists the faults that the next operations meet: [None] for
    none, [Some (lost, e)] for the error [e], after the operation was applied
    when [lost] is set. *)

From S2P Require Import Prelude GoStrings JsonFacts Tables Sql SqlFacts Servers Db PgFacts.

Definition plan : Type := list (option (bool * goerr)).

Definition pop (l : plan) : option (bool * goerr) * plan :=
  match l with [] => (None, []) | x :: l' => (x, l') end.

Definition plan_clear (n : nat) (l : plan) : Prop := Forall (fun x => x = None) (take n l).

Lemma plan_clear_pop n l : plan_clear (S n) l -> exists l', pop l = (None, l') /\ plan_clear n l'.
Proof.
  unfold plan_clear, pop. destruct l as [|x l]; simpl.
  - exists []. by rewrite take_nil.
  - intros [-> H]%Forall_cons. by exists l.
Qed.

Lemma plan_clear_mono n l : plan_clear (S n) l -> plan_clear n l.
Proof.
  unfold plan_clear. revert l. induction n as [|n IH]; intros [|x l]; simpl; try done.
  intros [-> H]%Forall_cons. constructor; [done|]. by apply IH.
Qed.

(** ** PostgreSQL *)

Record RefPg := { rp_tables : Tables; rp_now : Z; rp_plan : plan; rp_tx_plan : plan }.

Definition all_ids (T : Tables) : list Z :=
  user_ids T ++ map t_id (transfers T) ++ map n_id (notifications T).

(** An upper bound of what the three sequences hand out next. *)
Definition fresh_id (T : Tables) : Z := 1 + foldr Z.max 0 (all_ids T).

(** Each table numbers its rows by itself. *)
Definition next_id (used : list Z) : Z := 1 + foldr Z.max 0 used.

Definition ref_env (p : RefPg) : SqlEnv :=
  let n := next_id (map n_id (notifications (rp_tables p))) in
  {| env_user_ids := [next_id (user_ids (rp_tables p))];
     env_transfer_ids := [next_id (map t_id (transfers (rp_tables p)))];
     env_notification_ids := [n; n + 1]; env_now := rp_now p |}.

Definition report (f : sqlfail) : goerr :=
  match f with FNoRows => ErrNoRows | FState c => EPg c "statement failed" end.

Definition ref_set (p : RefPg) (T : Tables) (l : plan) : RefPg :=
  {| rp_tables := T; rp_now := rp_now p + 1; rp_plan := l; rp_tx_plan := rp_tx_plan p |}.

(** ASCII ILIKE without wildcards but with [%] at both ends, enough to run
    the searches of the admin pages. *)
Fixpoint has_prefix (a s : list Z) : bool :=
  match a, s with
  | [], _ => true
  | x :: a', y :: s' => (x =? y) && has_prefix a' s'
  | _, _ => false
  end.
Fixpoint has_infix (a s : list Z) : bool :=
  has_prefix a s || match s with [] => false | _ :: s' => has_infix a s' end.
Definition ref_ilike (s pat : string) : bool :=
  has_infix (filter (fun r => r <> 37) (fold_name pat)) (fold_name s).

Definition ref_do {B} (run : SqlEnv -> Tables -> result (B * Tables) sqlfail) (p : RefPg)
    : result B goerr * RefPg :=
  let T := rp_tables p in
  let '(x, l) := pop (rp_plan p) in
  if int64_max <? fresh_id T + 1
  then (Err (EPg "2200H" "sequence exhausted"), ref_set p T l)
  else
    match run (ref_env p) T with
    | Err f => (Err (report f), ref_set p T l)
    | Ok (b, T') =>
        match x with
        | Some (false, e) =>
            if server_fault e then (Err e, ref_set p T l) else (Ok b, ref_set p T' l)
        | Some (true, e) =>
            if reply_lost e then (Err e, ref_set p T' l) else (Ok b, ref_set p T' l)
        | None => (Ok b, ref_set p T' l)
        end
    end.

Definition set_tx_plan (p : RefPg) (l : plan) : RefPg :=
  {| rp_tables := rp_tables p; rp_now := rp_now p; rp_plan := rp_plan p; rp_tx_plan := l |}.

Definition rollback_to (T : Tables) (p : RefPg) : RefPg :=
  {| rp_tables := T; rp_now := rp_now p; rp_plan := rp_plan p; rp_tx_plan := rp_tx_plan p |}.

Definition ref_tx {S} (o : TxOptions) (fn : S * RefPg -> option goerr * (S * RefPg))
    (sp : S * RefPg) : option goerr * (S * RefPg) :=
  let '(s, p) := sp in
  let '(x, l) := pop (rp_tx_plan p) in
  let '(r, (s', p1)) := fn (s, set_tx_plan p l) in
  let back := rollback_to (rp_tables p) p1 in
  match r with
  | Some e => (Some e, (s', back))
  | None =>
      match x with
      | Some (false, e) =>
          if server_fault e then (Some e, (s', back)) else (None, (s', p1))
      | Some (true, e) =>
          if reply_lost e then (Some e, (s', p1)) else (None, (s', p1))
      | None => (None, (s', p1))
      end
  end.

Definition ref_begin (_ : TxOptions) (p : RefPg) : option goerr * RefPg :=
  let '(x, l) := pop (rp_tx_plan p) in
  (match x with
   | Some (_, e) => if server_fault e then Some e else None
   | None => None
   end, set_tx_plan p l).

Definition ref_healthy (n : nat) (p : RefPg) : Prop :=
  plan_clear n (rp_plan p) /\ plan_clear n (rp_tx_plan p) /\
  fresh_id (rp_tables p) + 2 * Z.of_nat n <= int64_max.

#[export] Instance RefPg_server : PgServer RefPg := {|
  pg_view := rp_tables;
  pg_ilike := ref_ilike;
  pg_one A s := ref_do (one_run ref_ilike s);
  pg_all A s := ref_do (all_run ref_ilike s);
  pg_exec c := ref_do (exec_run ref_ilike c);
  pg_tx S o fn := ref_tx o fn;
  pg_begin := ref_begin;
  pg_end r p := (r, p);
  pg_healthy := ref_healthy;
|}.

(** ** Redis *)

Record RefRedis := { rr_state : RedisState; rr_plan : plan }.

Definition ref_redis_do (c : RedisCmd) (r : RefRedis) : result RReply goerr * RefRedis :=
  let '(x, l) := pop (rr_plan r) in
  let '(v, s') := redis_run c (rr_state r) in
  match x with
  | Some (lost, e) =>
      if redis_fault e
      then (Err e, {| rr_state := if lost then s' else rr_state r; rr_plan := l |})
      else (v, {| rr_state := s'; rr_plan := l |})
  | None => (v, {| rr_state := s'; rr_plan := l |})
  end.

Definition ref_redis_pipe (cs : list RedisCmd) (r : RefRedis) : option goerr * RefRedis :=
  let '(x, l) := pop (rr_plan r) in
  let s' := redis_run_all cs (rr_state r) in
  match x with
  | Some (lost, e) =>
      if redis_fault e
      then (Some e, {| rr_state := if lost then s' else rr_state r; rr_plan := l |})
      else (None, {| rr_state := s'; rr_plan := l |})
  | None => (None, {| rr_state := s'; rr_plan := l |})
  end.

#[export] Instance RefRedis_server : RedisServer RefRedis := {|
  redis_view := rr_state;
  redis_do := ref_redis_do;
  redis_pipe := ref_redis_pipe;
  redis_healthy n r := plan_clear n (rr_plan r);
|}.

(** ** JetStream, bcrypt *)

Record RefJs := { rj_state : JsState; rj_plan : plan }.

Definition ref_window : Z := 300 * 1000000000.

Definition ref_js_publish (subject id data : string) (j : RefJs) : option goerr * RefJs :=
  let '(x, l) := pop (rj_plan j) in
  let s' := js_append ref_window subject id data (rj_state j) in
  match x with
  | Some (lost, e) =>
      (Some e, {| rj_state := if lost then s' else rj_state j; rj_plan := l |})
  | None => (None, {| rj_state := s'; rj_plan := l |})
  end.

#[export] Instance RefJs_stream : JetStream RefJs := {|
  js_view := rj_state;
  js_window := ref_window;
  js_publish := ref_js_publish;
|}.

(** Two letters per byte. *)
Fixpoint hex_text (s : string) : string :=
  match s with
  | EmptyString => ""
  | String c t =>
      String (byte_chr (97 + byte_val c / 16))
        (String (byte_chr (97 + byte_val c mod 16)) (hex_text t))
  end.

Definition ref_hash (cost : Z) (pw : string) : string :=
  "$2a$" +:+ Itoa cost +:+ "$" +:+ hex_text pw.

(** A cost below 4 means the default cost 10, one above 31 is an error. *)
#[export] Instance RefBcrypt : Bcrypt := {|
  bcrypt_generate pw cost salt :=
    if (72 <? String.length pw)%nat then Err (EOther "bcrypt: password length exceeds 72 bytes")
    else
      let cost := if cost <? 4 then 10 else cost in
      if 31 <? cost then Err (EOther "crypto/bcrypt: cost is outside allowed inclusive range")
      else Ok (ref_hash cost pw);
  bcrypt_compare h pw :=
    existsb (fun cost => bool_decide (h = ref_hash cost pw)) (seqZ 4 28);
|}.

(** ** The laws *)

Lemma foldr_max_ge x l : x ∈ l -> x <= foldr Z.max 0 l.
Proof. induction l as [|y l IH]; [set_solver|]. simpl. intros [->|H]%elem_of_cons; [lia|]. specialize (IH H). lia. Qed.

Lemma foldr_max_app l1 l2 :
  foldr Z.max 0 (l1 ++ l2) = Z.max (foldr Z.max 0 l1) (foldr Z.max 0 l2).
Proof.
  induction l1 as [|x l1 IH]; simpl; [|lia].
  enough (0 <= foldr Z.max 0 l2) by lia. induction l2; simpl; lia.
Qed.

Lemma fresh_id_pos T : 1 <= fresh_id T.
Proof. unfold fresh_id. induction (all_ids T); simpl; lia. Qed.

Lemma fresh_id_above T i : i ∈ all_ids T -> i < fresh_id T.
Proof. intros H. apply foldr_max_ge in H. unfold fresh_id. lia. Qed.

Lemma next_id_bounds used T :
  (forall i, i ∈ used -> i ∈ all_ids T) -> 1 <= next_id used <= fresh_id T.
Proof.
  intros Hi. split; [unfold next_id; clear Hi; induction used; simpl; lia|].
  assert (Forall (fun i => i <= fresh_id T - 1) used) as Hu.
  { apply Forall_forall. intros i H. apply Hi, fresh_id_above in H. lia. }
  unfold next_id. pose proof (fresh_id_pos T). clear Hi.
  induction Hu; simpl; lia.
Qed.

Lemma user_ids_all T i : i ∈ user_ids T -> i ∈ all_ids T.
Proof. unfold all_ids. set_solver. Qed.
Lemma transfer_ids_all T i : i ∈ map t_id (transfers T) -> i ∈ all_ids T.
Proof. unfold all_ids. set_solver. Qed.
Lemma notification_ids_all T i : i ∈ map n_id (notifications T) -> i ∈ all_ids T.
Proof. unfold all_ids. set_solver. Qed.

Lemma next_id_fresh used k i :
  0 <= k -> i = next_id used + k -> i ∉ used.
Proof. intros Hk -> Hi. apply foldr_max_ge in Hi. unfold next_id in Hi. lia. Qed.

Lemma ref_env_ok p :
  fresh_id (rp_tables p) + 1 <= int64_max -> env_ok (ref_env p) (rp_tables p).
Proof.
  intros H. pose proof (next_id_bounds _ _ (user_ids_all (rp_tables p))).
  pose proof (next_id_bounds _ _ (transfer_ids_all (rp_tables p))).
  pose proof (next_id_bounds _ _ (notification_ids_all (rp_tables p))).
  unfold env_ok, seq_ok, ref_env, in_int64, int64_min. simpl.
  split_and!; repeat constructor; try lia; try set_solver by lia;
    first [apply (next_id_fresh _ 0); lia|apply (next_id_fresh _ 1); lia].
Qed.

Lemma fresh_id_bound T k :
  0 <= k -> fresh_id T <= 1 + k <-> Forall (fun i => i <= k) (all_ids T).
Proof.
  intros Hk. unfold fresh_id. induction (all_ids T) as [|x l IH]; simpl.
  - split; [constructor|lia].
  - rewrite Forall_cons, <- IH. lia.
Qed.

(** A statement hands out at most two identifiers. *)
Lemma fresh_id_grows T T' :
  (forall i, i ∈ all_ids T' -> i ∈ all_ids T \/ i <= fresh_id T + 1) ->
  fresh_id T' <= fresh_id T + 2.
Proof.
  intros H. pose proof (fresh_id_pos T).
  replace (fresh_id T + 2) with (1 + (fresh_id T + 1)) by lia.
  apply fresh_id_bound; [lia|]. apply Forall_forall. intros i Hi.
  destruct (H i Hi) as [Hi'|Hi']; [apply fresh_id_above in Hi'|]; lia.
Qed.

Lemma stmt_run_ids ilike {A} (s : Stmt A) p l T' :
  stmt_run ilike s (ref_env p) (rp_tables p) = Ok (l, T') ->
  fresh_id T' <= fresh_id (rp_tables p) + 2.
Proof.
  intros E. apply fresh_id_grows.
  pose proof (next_id_bounds _ _ (user_ids_all (rp_tables p))) as Hu.
  pose proof (next_id_bounds _ _ (transfer_ids_all (rp_tables p))) as Ht.
  destruct s; cbn [stmt_run] in E; unfold rmap in E; repeat case_match; simplify_eq; auto;
    intros i; unfold all_ids; rewrite !elem_of_app; unfold user_ids in *; simpl in *;
    rewrite !map_app, !elem_of_app; simpl; rewrite list_elem_of_singleton; unfold nth_id; simpl;
    intuition lia.
Qed.

Lemma cmd_run_ids ilike c p n T' :
  cmd_run ilike c (ref_env p) (rp_tables p) = Ok (n, T') ->
  fresh_id T' <= fresh_id (rp_tables p) + 2.
Proof.
  intros E. apply fresh_id_grows.
  assert (forall i, i ∈ env_notification_ids (ref_env p) -> i <= fresh_id (rp_tables p) + 1) as Hids.
  { pose proof (next_id_bounds _ _ (notification_ids_all (rp_tables p))). simpl.
    intros i [->|[->|[]%not_elem_of_nil]%elem_of_cons]%elem_of_cons; lia. }
  destruct (ref_env p) as [uids tids ids now]; simpl in Hids.
  destruct c; cbn [cmd_run env_notification_ids env_now] in E; unfold rmap in E.
  - destruct (update_users _ _ _ _ _) as [[us m]|] eqn:Eu; simplify_eq.
    apply update_users_shape in Eu. unfold all_ids, user_ids. simpl.
    erewrite (Forall2_map_eq _ u_id) by (try exact Eu; by intros u u' [->|(z & _ & _ & ->)]).
    auto.
  - destruct (length ids <? length rows)%nat eqn:El; [done|].
    apply Nat.ltb_ge in El. repeat case_match; simplify_eq.
    unfold all_ids, user_ids. cbn [users transfers notifications with_notifications].
    rewrite map_app, (proj1 (number_notifications_spec _ _ _ El)).
    intros i Hi. assert (i ∈ ids \/ i ∈ all_ids (rp_tables p)) as [Hi'|Hi'].
    { assert (i ∈ take (length rows) ids -> i ∈ ids)
        by (intros (k & Hk & _)%elem_of_take; by eapply list_elem_of_lookup_2).
      unfold all_ids, user_ids. set_solver. }
    + right. auto.
    + by left.
  - destruct (update_notifications _ _ _ _) as [[ns m]|] eqn:Eu; simplify_eq.
    apply update_notifications_shape in Eu. unfold all_ids. simpl.
    erewrite (Forall2_map_eq _ n_id) by (try exact Eu; by intros x x' [->| ->]).
    auto.
Qed.

Lemma report_reports f : reports f (report f) = true.
Proof. destruct f; [done|]. unfold reports. simpl. by rewrite bool_decide_eq_true_2. Qed.

Lemma ref_do_law {B} (run : SqlEnv -> Tables -> result (B * Tables) sqlfail) p r p' :
  ref_do run p = (r, p') -> outcome run (rp_tables p) r (rp_tables p').
Proof.
  unfold ref_do. destruct (pop (rp_plan p)) as [x l].
  destruct (int64_max <? fresh_id (rp_tables p) + 1) eqn:Ef.
  { intros [= <- <-]. by apply out_fault. }
  pose proof (ref_env_ok p ltac:(lia)) as He.
  destruct (run (ref_env p) (rp_tables p)) as [[b T']|f] eqn:Er.
  - destruct x as [[[] e]|]; repeat case_match; intros [= <- <-]; simpl;
      first [by eapply out_ok|by eapply out_fault|by eapply out_lost].
  - intros [= <- <-]. eapply out_fail; try done. apply report_reports.
Qed.

Lemma ref_do_sound {B} (run : SqlEnv -> Tables -> result (B * Tables) sqlfail) n p r p' :
  (forall b T', run (ref_env p) (rp_tables p) = Ok (b, T') ->
                fresh_id T' <= fresh_id (rp_tables p) + 2) ->
  ref_healthy (S n) p -> ref_do run p = (r, p') ->
  sound_outcome run (rp_tables p) r (rp_tables p') /\ ref_healthy n p'.
Proof.
  intros Hids (Hp & Htx & Hf). unfold ref_do, ref_healthy.
  destruct (plan_clear_pop _ _ Hp) as (l & -> & Hl). apply plan_clear_mono in Htx.
  destruct (int64_max <? fresh_id (rp_tables p) + 1) eqn:Ef; [lia|].
  pose proof (ref_env_ok p ltac:(lia)) as He.
  destruct (run (ref_env p) (rp_tables p)) as [[b T']|f] eqn:Er; intros [= <- <-]; simpl.
  - specialize (Hids _ _ eq_refl). split; [by eapply snd_ok|]. split_and!; try done. lia.
  - split; [eapply snd_fail; try done; apply report_reports|]. split_and!; try done. lia.
Qed.

#[export] Instance RefPg_laws : PgLaws RefPg.
Proof.
  split.
  - intros A s p r p'. apply ref_do_law.
  - intros A s p r p'. apply ref_do_law.
  - intros c p r p'. apply ref_do_law.
  - intros S o fn s p r s' p' _. simpl. unfold ref_tx.
    destruct (pop (rp_tx_plan p)) as [x l].
    destruct (fn (s, set_tx_plan p l)) as [[e|] [s1 p1]] eqn:Ef.
    + intros [= <- <- <-]. eapply tx_aborted; [|exact Ef|by left|]; done.
    + destruct x as [[[] e]|]; repeat case_match; intros [= <- <- <-];
        first [by eapply tx_committed; [|exact Ef|]
              |by eapply tx_lost; [|..|exact Ef|]
              |by eapply tx_fault].
  - intros o p r p'. simpl. unfold ref_begin. destruct (pop (rp_tx_plan p)) as [x l]. intros [= <- <-].
    split; [done|]. destruct x as [[b e]|]; [|by left]. destruct (server_fault e) eqn:Ee; eauto.
  - intros r p r' p' [= <- <-]. split; [done|]. destruct r; by left.
  - intros n p (Hp & Ht & Hf). split_and!; [by apply plan_clear_mono..|lia].
  - intros o n p r p' (Hp & Ht & Hf). simpl. unfold ref_begin.
    destruct (plan_clear_pop _ _ Ht) as (l & -> & Hl). intros [= <- <-]. split; [done|].
    split_and!; [by apply plan_clear_mono|done|simpl; lia].
  - intros n p r' p' (Hp & Ht & Hf) [= <- <-]. split; [done|].
    split_and!; [by apply plan_clear_mono..|lia].
  - intros A s n p r p'. apply ref_do_sound. intros b T' E.
    apply one_run_all in E as [l E]. by eapply stmt_run_ids.
  - intros A s n p r p'. apply ref_do_sound. intros b T' E.
    apply all_run_all in E. by eapply stmt_run_ids.
  - intros c n p r p'. apply ref_do_sound. intros b T' E.
    apply exec_run_all in E. by eapply cmd_run_ids.
  - intros S o fn n s p _ (Hp & Ht & Hf). simpl. unfold ref_tx.
    destruct (plan_clear_pop _ _ Ht) as (l & -> & Hl).
    exists (set_tx_plan p l). split; [|split; [done|]].
    + split_and!; [by apply plan_clear_mono|done|simpl; lia].
    + destruct (fn (s, set_tx_plan p l)) as [[e|] [s1 p1]]; eauto.
Qed.

Lemma advance_0 s : advance 0 s = s.
Proof. destruct s. unfold advance. simpl. by rewrite Z.add_0_r. Qed.

Lemma reply_eq_refl c s : reply_eq c (redis_run c s).1 (redis_run c s).1.
Proof. by destruct c. Qed.

#[export] Instance RefRedis_laws : RedisLaws RefRedis.
Proof.
  split.
  - intros c r x r'. simpl. unfold ref_redis_do.
    pose proof (reply_eq_refl c (rr_state r)) as Heq.
    destruct (pop (rr_plan r)) as [y l].
    destruct (redis_run c (rr_state r)) as [v s'] eqn:E.
    assert (redis_run c (advance 0 (rr_state r)) = (v, s')) as E0 by by rewrite advance_0.
    destruct y as [[[] e]|]; repeat case_match; intros [= <- <-]; simpl;
      first [by eapply (ro_done c _ 0); [|exact E0|]
            |by eapply (ro_lost c _ 0); [..|exact E0]
            |rewrite <- (advance_0 (rr_state r)) at 2; by apply ro_fault].
  - intros cs r x r'. simpl. unfold ref_redis_pipe.
    destruct (pop (rr_plan r)) as [y l].
    pose proof (fun e k H => po_fault cs (rr_state r) 0 e k (Z.le_refl 0) H) as Hf.
    pose proof (po_done cs (rr_state r) 0 (Z.le_refl 0)) as Hd.
    rewrite advance_0 in *.
    destruct y as [[[] e]|]; repeat case_match; intros [= <- <-]; simpl; try done.
    + specialize (Hf e (length cs) ltac:(done)). by rewrite firstn_all in Hf.
    + by apply (Hf e 0%nat).
  - intros n r. simpl. apply plan_clear_mono.
  - intros c n r x r'. simpl. intros Hp. unfold ref_redis_do.
    destruct (plan_clear_pop _ _ Hp) as (l & -> & Hl).
    pose proof (reply_eq_refl c (rr_state r)) as Heq.
    destruct (redis_run c (rr_state r)) as [v s'] eqn:E. intros [= <- <-]. simpl.
    split; [|done]. exists 0, v. by rewrite advance_0.
  - intros cs n r x r'. simpl. intros Hp. unfold ref_redis_pipe.
    destruct (plan_clear_pop _ _ Hp) as (l & -> & Hl). by intros [= <- <-].
Qed.

#[export] Instance RefJs_laws : JetStreamLaws RefJs.
Proof.
  split. intros subject id data j r j'. simpl. unfold ref_js_publish.
  destruct (pop (rj_plan j)) as [y l].
  assert (js_advance 0 (rj_state j) = rj_state j) as E
    by (destruct (rj_state j); unfold js_advance; simpl; by rewrite Z.add_0_r).
  destruct y as [[[] e]|]; intros [= <- <-]; exists 0; rewrite E; simpl; (split; [lia|]); auto.
Qed.

Lemma hex_text_ascii s : all_bytes is_ascii (hex_text s) = true.
Proof.
  induction s as [|c s IH]; [done|]. cbn [hex_text all_bytes]. rewrite IH.
  assert (forall z, 0 <= z < 16 -> is_ascii (byte_chr (97 + z)) = true) as Hz.
  { intros z Hz. assert (z ∈ seqZ 0 16) as Hin by (apply elem_of_seqZ; lia).
    assert (Forall (fun z => is_ascii (byte_chr (97 + z)) = true) (seqZ 0 16)) as Hall
      by (apply (bool_decide_unpack _); by vm_compute).
    rewrite Forall_forall in Hall. auto. }
  pose proof (byte_val_range c) as Hc.
  pose proof (Z.mod_pos_bound (byte_val c) 16).
  rewrite !Hz; [done|lia|].
  split; [by apply Z.div_pos; lia|apply Z.div_lt_upper_bound; lia].
Qed.

#[export] Instance RefBcrypt_laws : BcryptLaws.
Proof.
  split; intros pw cost salt h; unfold bcrypt_generate, bcrypt_compare, RefBcrypt;
    (destruct (72 <? String.length pw)%nat; [done|]);
    set (c := if cost <? 4 then 10 else cost);
    assert (4 <= c) by (unfold c; destruct (cost <? 4) eqn:E; lia);
    destruct (31 <? c) eqn:E; try done; intros [= <-].
  - apply existsb_exists. exists c. split; [|by apply bool_decide_eq_true].
    apply list_elem_of_In, elem_of_seqZ. lia.
  - unfold ref_hash. by rewrite !all_bytes_app, Itoa_ascii, hex_text_ascii.
Qed.

(** A process without cancellation, whose draws are zero. *)
Definition ref_host (env : gmap string string) (uuid : nat -> string) : Host :=
  {| h_entropy := fun n => Z.of_nat n; h_uuid := uuid; h_done := fun _ => None;
     h_env := env; h_pos := 0 |}.
