(* ===== verification/Demo.v ===== *)
(** * A small concrete world

    Three users, empty Redis and JetStream, the reference servers of
    RefServers. The witnesses of the theorems run on it. *)

From S2P Require Import Prelude GoStrings Json Tables Sql Servers Db RedisClient Consumer.
From S2P Require Import Transfer RefServers.

Definition alice : User := MkUser 1 "0901000001" "100000000001" "alice" (ref_hash 10 "pw1") 500 false.
Definition bob : User := MkUser 2 "0901000002" "100000000002" "bob" (ref_hash 10 "pw2") 70 false.
Definition carol : User := MkUser 3 "0901000003" "100000000003" "carol" (ref_hash 10 "pw3") 0 false.

Definition demo_tables : Tables := MkTables [alice; bob; carol] [] [].

Definition demo_pg : RefPg :=
  {| rp_tables := demo_tables; rp_now := 1000; rp_plan := []; rp_tx_plan := [] |}.

Definition demo_redis_state : RedisState :=
  {| rs_now := 0; rs_kv := ∅; rs_hash := ∅; rs_pub := [] |}.

Definition demo_redis : RefRedis := {| rr_state := demo_redis_state; rr_plan := [] |}.

Definition demo_js : RefJs := {| rj_state := {| js_now := 0; js_log := [] |}; rj_plan := [] |}.

(** Fresh identifiers: "sid0", "sid1", ... *)
Definition demo_host : Host := ref_host ∅ (fun n => "sid" +:+ Itoa (Z.of_nat n)).

Definition demo : World RefPg RefRedis RefJs := MkWorld demo_pg demo_redis demo_js demo_host.

Lemma demo_schema : schema_ok demo_tables.
Proof. apply (bool_decide_unpack _). vm_compute. exact I. Defined.

Lemma demo_healthy n : Z.of_nat n <= 1000 -> ref_healthy n demo_pg.
Proof.
  intros Hn. unfold ref_healthy, plan_clear. simpl. rewrite take_nil. split_and!; [done..|].
  change (fresh_id demo_tables) with 4. unfold int64_max. lia.
Defined.

(** A request of alice to send 200 to bob's account. *)
Definition pay_bob : option json :=
  Some (JObj [("account_number", JStr "100000000002"); ("amount", JInt 200)]).

Definition pay_bob_payload : transferPayload := MkTransferPayload "100000000002" "" "" 200.

Definition as_alice : Ctx := {| ctx_user := Some 1 |}.

(** Tests of the model. *)
Example demo_transfer_runs :
  let '(r, w) := handleTransfer None as_alice "transfer" pay_bob ∅ demo in
  r = Ok (Reply 200 (JObj [("amount", JInt 200); ("transfer_id", JInt 1)])) /\
  map u_balance (users (rp_tables (w_pg w))) = [300; 270; 0] /\
  hash_get (rr_state (w_rd w)) "balance" "2" = Some "270".
Proof. vm_compute. auto. Qed.
