(* ===== verification/TransferCorrect.v ===== *)
(** * Theorems on the balance transfer *)

From S2P Require Import Prelude GoStrings Json Tables Sql SqlFacts Servers Db PgFacts TxFacts.
From S2P Require Import RedisClient RedisFacts Consumer Transfer TransferFacts RefServers Demo.

Section Transfer.
Context {P R J : Type} `{PgLaws P} `{RedisLaws R}.
Abbreviation W := (World P R J).

(** C6. The transfer handler is atomic under every fault of the database:
    a 200 means that exactly the transfer happened (the sender debited and
    the receiver credited, one transfer row and two notifications added,
    the batch of cache and read-model commands sent); a 400, 404 or 503
    means that neither database changed, with the reason that the status
    stands for; an internal error leaves the tables unchanged, or applied
    the transfer when the reply of the server was lost. *)
Theorem handleTransfer_correct publishEvent ctx action raw headers (w : W) :
  schema_ok (tables_of w) -> publisher_ok publishEvent ->
  wp (handleTransfer publishEvent ctx action raw headers)
    (fun r w' => transfer_answer publishEvent (UserIDFromContext ctx).1 raw w w' r) w.
Proof. apply handleTransfer_answer. Qed.

(** Money is neither created nor lost, and no constraint is broken,
    whatever the request, the faults and the outcome: the sum of all
    balances stays the same and the constraints of the schema, a balance
    of at least 0 among them, still hold. *)
Theorem handleTransfer_conserves publishEvent ctx action raw headers (w : W) :
  schema_ok (tables_of w) -> publisher_ok publishEvent ->
  wp (handleTransfer publishEvent ctx action raw headers)
    (fun _ w' => total_balance (tables_of w') = total_balance (tables_of w) /\
                 schema_ok (tables_of w')) w.
Proof.
  intros Hok Hpub. eapply wp_mono; [apply wp_and|].
  - by apply handleTransfer_answer.
  - apply keeps_wp, (handleTransfer_schema (P:=P) (R:=R) (J:=J) _ _ _ _ _ Hpub).
  - intros r w' [Ha Hs]. split; [|by apply Hs].
    destruct Ha as [msg _ ->|p res _ Ht _ _|p e st msg _ _ _ Hsame _|p msg _ Hsame _
                   |p e _ Hsame _|p e res _ _ Ht _];
      try done; try (by rewrite Hsame); by eapply transferred_total.
Qed.

(** C16. Without faults the handler decides: a valid request is executed,
    or refused for a reason that the data give, with the answer that
    belongs to the reason. *)
Theorem handleTransfer_without_faults publishEvent ctx action raw headers p (w : W) :
  schema_ok (tables_of w) -> publisher_ok publishEvent -> pg_healthy 6 (w_pg w) ->
  accepts raw = Some p ->
  wp (handleTransfer publishEvent ctx action raw headers)
    (fun r w' =>
       (exists res, r = Ok (Reply 200 (receipt p res)) /\
          transferred (UserIDFromContext ctx).1 p (tables_of w) res (tables_of w'))
       \/ (exists e, r = refusal e /\ tables_of w ≡ tables_of w' /\
             refused (UserIDFromContext ctx).1 p (tables_of w) e)) w.
Proof. apply handleTransfer_decides. Qed.

(** A request that names one other user, for an amount that the sender
    has and that keeps the receiver's balance a BIGINT, succeeds when no
    fault occurs. *)
Theorem handleTransfer_completes publishEvent ctx action raw headers p sender receiver (w : W) :
  schema_ok (tables_of w) -> publisher_ok publishEvent -> pg_healthy 6 (w_pg w) ->
  accepts raw = Some p ->
  sender ∈ users (tables_of w) -> u_id sender = (UserIDFromContext ctx).1 ->
  receiver ∈ users (tables_of w) -> u_id receiver <> u_id sender ->
  identifies p receiver = true ->
  (forall u, u ∈ users (tables_of w) -> identifies p u = true -> u = receiver) ->
  p_Amount p <= u_balance sender -> u_balance receiver + p_Amount p <= int64_max ->
  wp (handleTransfer publishEvent ctx action raw headers)
    (fun r w' => exists res, r = Ok (Reply 200 (receipt p res)) /\
       transferred (u_id sender) p (tables_of w) res (tables_of w')) w.
Proof.
  intros Hok Hpub Hh Hacc Hs Es Hr Hne Hid Huniq Hb Hmax.
  pose proof (accepts_amount _ _ Hacc) as Ha.
  rewrite Es in *. eapply wp_mono; [by apply handleTransfer_decides|].
  intros r w' [?|(e & _ & _ & Href)]; [done|].
  by destruct (refused_excluded _ _ _ _ _ _ Hok Ha Hs Es Hr Hne Hid Huniq Hb Hmax Href).
Qed.

(** C17. After a 200 whose batch reached Redis, the balance read model holds
    the committed balances of both parties, and their entries in the user
    cache by phone are gone. *)
Theorem transfer_read_model publishEvent ctx action raw headers (w : W) :
  schema_ok (tables_of w) -> publisher_ok publishEvent ->
  wp (handleTransfer publishEvent ctx action raw headers)
    (fun r w' => forall body, r = Ok (Reply 200 body) ->
       exists p res,
         let batch := transfer_completed_batch (event_of p res) (r_senderPhone res)
                        (r_receiverPhone res) in
         body = receipt p res /\ w_rd w' = (redis_pipe batch (w_rd w)).2 /\
         ((redis_pipe batch (w_rd w)).1 = None ->
          forall u, u ∈ users (tables_of w') ->
            u_id u = r_senderID res \/ u_id u = r_receiverID res ->
            hash_get (redis_view (w_rd w')) "balance" (Itoa (u_id u)) = Some (Itoa (u_balance u)) /\
            live_get (redis_view (w_rd w')) (phone_cache_key (u_phone u)) = None)) w.
Proof.
  intros Hok Hpub. eapply wp_mono; [by apply handleTransfer_answer|].
  intros r w' Ha body ->. inversion Ha as [|p res Hacc Ht Hrd _| | | |]; subst;
    [|set_solver].
  exists p, res. intros batch. split; [done|]. split; [done|]. intros Hpipe u Hu Hid.
  destruct (redis_pipe batch (w_rd w)) as [x rd'] eqn:Ep. simpl in Hpipe. subst x.
  fold batch in Hrd. rewrite Ep in Hrd. simpl in Hrd.
  apply redis_pipe_law in Ep. destruct (pipe_outcome_done _ _ _ _ Ep eq_refl) as (d & _ & Hs).
  rewrite Hrd, Hs. unfold batch. rewrite batch_hash, batch_live.
  rewrite bool_decide_eq_true_2 by done.
  clear batch Hrd Ep Hs. destruct (transferred_parties _ _ _ _ _ Hok Ht) as (_ & Hne & Hps & Hpr).
  unfold event_of. cbn [SenderID ReceiverID SenderBalance ReceiverBalance].
  destruct (decide (u_id u = r_receiverID res)) as [Er|Er].
  - destruct (Hpr u Hu Er) as [-> ->]. rewrite Er, bool_decide_eq_true_2 by done.
    split; [done|]. by rewrite bool_decide_eq_true_2 by auto.
  - destruct Hid as [Es|?]; [|done]. destruct (Hps u Hu Es) as [-> ->].
    rewrite bool_decide_eq_false_2 by (intros E; by apply Itoa_inj in E).
    rewrite Es, bool_decide_eq_true_2 by done.
    split; [done|]. by rewrite bool_decide_eq_true_2 by auto.
Qed.

(** The batch does not delete the entry of the user cache under a
    username: a login by username can be answered from an entry that still
    holds the balance before the transfer. *)
Theorem transfer_keeps_username_cache evt senderPhone receiverPhone name (r : R) r' :
  redis_pipe (transfer_completed_batch evt senderPhone receiverPhone) r = (None, r') ->
  rs_kv (redis_view r') !! username_cache_key name =
    rs_kv (redis_view r) !! username_cache_key name.
Proof.
  intros E. apply redis_pipe_law in E.
  destruct (pipe_outcome_done _ _ _ _ E eq_refl) as (d & _ & ->).
  rewrite batch_kv, bool_decide_eq_false_2; [done|].
  intros [Hk|Hk]; symmetry in Hk; by apply phone_not_username in Hk.
Qed.

(** The guard of [updateBalances] is not the one its comment describes:
    for a sender without the funds the CASE expression yields NULL, the
    statement fails as a NOT NULL violation (23502) with nothing updated,
    and the error is not [errInsufficientFunds]. *)
Theorem updateBalances_guard sender receiver amount res (p : P) :
  schema_ok (pg_view p) -> pg_healthy 1 p ->
  sender ∈ users (pg_view p) -> receiver ∈ users (pg_view p) ->
  u_id sender <> u_id receiver -> 0 < amount -> u_balance sender < amount ->
  u_balance receiver + amount <= int64_max ->
  wp (updateBalances alone (u_id sender) (u_id receiver) amount)
    (fun r '(res', p') => pg_view p ≡ pg_view p' /\
       exists e, r = Some (EWrap "update balances" e) /\ pgErrCode e = "23502" /\
                 errors_Is (EWrap "update balances" e) errInsufficientFunds = false) (res, p).
Proof.
  intros Hok Hh Hs Hr Hne Ha Hb Hmax. unfold updateBalances.
  apply wp_bind, wp_in_tx. intros r p' E.
  destruct (pg_exec_healthy _ _ _ _ _ Hh E) as [Ho _].
  assert (forall T env, pg_view p ≡ T ->
    exec_run pg_ilike (update_both (u_id sender) (u_id receiver) amount) env T
      = Err (FState c_not_null)) as Hrun.
  { intros T env E0. rewrite E0 in Hok, Hs, Hr. unfold exec_run. simpl.
    destruct (update_users _ _ _ _ _) as [[us n]|c] eqn:Eu; simpl.
    - exfalso. apply (update_users_ok _ _ _ _ (id_is (u_id sender) (u_id receiver))
        (fun u => default u (match assign_row pg_ilike CBalance
           (balance_case (u_id sender) (u_id receiver) amount) u with
           Ok u' => Some u' | Err _ => None end))) in Eu as (_ & _ & Hall);
        [|apply matches_id_in|intros u u' _ _ Eu'; cbn beta; by rewrite Eu'].
      specialize (Hall sender Hs ltac:(unfold id_is; lia)).
      by rewrite assign_row_null in Hall by done.
    - apply (update_users_err _ _ _ _ (id_is (u_id sender) (u_id receiver))) in Eu
        as (u & Hu & Hf & Eu); [|apply matches_id_in].
      pose proof (ok_user_rows _ Hok) as Hrows. rewrite Forall_forall in Hrows.
      unfold id_is in Hf. destruct (decide (u_id u = u_id sender)) as [Eid|Eid].
      + assert (u = sender) as -> by (by apply (user_by_id T)).
        rewrite assign_row_null in Eu by done. by injection Eu as <-.
      + assert (u = receiver) as -> by (apply (user_by_id T); (done || lia)).
        rewrite assign_row_receiver in Eu by (auto; lia).
        by rewrite (proj2 (Z.leb_le _ _) Hmax) in Eu. }
  inversion Ho as [env T0 b T1 T2 E0 He Er E1|env T0 f e T2 E0 He Er Hrep E1]; subst;
    rewrite (Hrun _ _ E0) in Er; [done|]. injection Er as <-.
  apply wp_ret. split; [done|]. exists e. split; [done|].
  destruct (reports_state _ _ Hrep) as [_ ->]. split; [done|]. simpl.
  apply (foreign_not_app e "insufficient funds"). by eapply reports_foreign.
Qed.
End Transfer.

(** C7. [SerializableTx] refines a single transaction: whatever the faults and
    however often it retries, its result is that of one run of the callback
    on the initial tables, committed or rolled back, or a fault; a commit
    that is reported as an error carries no SQLSTATE. Redis, JetStream and
    the environment are not touched. *)
Theorem SerializableTx_refines {P R J S : Type} `{PgLaws P}
    (code : TxCode P S) s (w : World P R J) :
  wp (SerializableTx code s)
    (fun '(r, s') w' => stx_outcome (code P alone) (w_pg w) r s' (w_pg w') /\ db_only w w') w.
Proof. apply SerializableTx_outcome. Qed.

(** The waits between attempts: each of the four that can occur is drawn
    from a range that is not empty and ends at most at 16 ms, so the cap of
    100 ms in the code is never reached. *)
Theorem backoff_bounds (attempt : nat) :
  (attempt < maxSerializableRetries - 1)%nat ->
  0 < backoff_max attempt <= 16 * 1000000 /\
  backoff_max attempt = 2 ^ (Z.of_nat attempt + 1) * 1000000.
Proof.
  intros Ha. rewrite backoff_max_attempt by exact Ha. split; [|done].
  change (maxSerializableRetries - 1)%nat with 4%nat in Ha.
  pose proof (Z.pow_le_mono_r 2 (Z.of_nat attempt + 1) 4). lia.
Qed.

(** ** Witnesses *)

Lemma no_publisher_ok {P R J} : publisher_ok (P:=P) (R:=R) (J:=J) None.
Proof. intros f evt [=]. Defined.

Lemma handleTransfer_correct_witness :
  wp (handleTransfer None as_alice "transfer" pay_bob ∅)
    (fun r w' => transfer_answer None (UserIDFromContext as_alice).1 pay_bob demo w' r) demo.
Proof.
  apply (handleTransfer_correct None as_alice "transfer" pay_bob ∅ demo).
  - exact demo_schema.
  - exact no_publisher_ok.
Defined.

Lemma handleTransfer_conserves_witness :
  wp (handleTransfer None as_alice "transfer" pay_bob ∅)
    (fun _ w' => total_balance (tables_of w') = total_balance (tables_of demo) /\ schema_ok (tables_of w')) demo.
Proof.
  apply (handleTransfer_conserves None as_alice "transfer" pay_bob ∅ demo).
  - exact demo_schema.
  - exact no_publisher_ok.
Defined.

Lemma handleTransfer_without_faults_witness :
  wp (handleTransfer None as_alice "transfer" pay_bob ∅)
    (fun r w' =>
       (exists res, r = Ok (Reply 200 (receipt pay_bob_payload res)) /\
          transferred (UserIDFromContext as_alice).1 pay_bob_payload (tables_of demo) res (tables_of w'))
       \/ (exists e, r = refusal e /\ tables_of demo ≡ tables_of w' /\
             refused (UserIDFromContext as_alice).1 pay_bob_payload (tables_of demo) e)) demo.
Proof.
  apply (handleTransfer_without_faults None as_alice "transfer" pay_bob ∅ pay_bob_payload demo).
  - exact demo_schema.
  - exact no_publisher_ok.
  - apply demo_healthy. lia.
  - vm_compute. reflexivity.
Defined.

Lemma handleTransfer_completes_witness :
  wp (handleTransfer None as_alice "transfer" pay_bob ∅)
    (fun r w' => exists res, r = Ok (Reply 200 (receipt pay_bob_payload res)) /\
       transferred (u_id alice) pay_bob_payload (tables_of demo) res (tables_of w')) demo.
Proof.
  apply (handleTransfer_completes None as_alice "transfer" pay_bob ∅ pay_bob_payload alice bob demo).
  - exact demo_schema.
  - exact no_publisher_ok.
  - apply demo_healthy. lia.
  - vm_compute. reflexivity.
  - left.
  - reflexivity.
  - right. left.
  - simpl. lia.
  - vm_compute. reflexivity.
  - simpl. intros u [->|[->|[->|[]%not_elem_of_nil]%elem_of_cons]%elem_of_cons]%elem_of_cons;
      vm_compute; congruence.
  - simpl. lia.
  - simpl. unfold int64_max. lia.
Defined.

Lemma transfer_read_model_witness :
  wp (handleTransfer None as_alice "transfer" pay_bob ∅)
    (fun r w' => forall body, r = Ok (Reply 200 body) ->
       exists p res,
         let batch := transfer_completed_batch (event_of p res) (r_senderPhone res)
                        (r_receiverPhone res) in
         body = receipt p res /\ w_rd w' = (redis_pipe batch (w_rd demo)).2 /\
         ((redis_pipe batch (w_rd demo)).1 = None ->
          forall u, u ∈ users (tables_of w') ->
            u_id u = r_senderID res \/ u_id u = r_receiverID res ->
            hash_get (redis_view (w_rd w')) "balance" (Itoa (u_id u)) = Some (Itoa (u_balance u)) /\
            live_get (redis_view (w_rd w')) (phone_cache_key (u_phone u)) = None)) demo.
Proof.
  apply (transfer_read_model None as_alice "transfer" pay_bob ∅ demo).
  - exact demo_schema.
  - exact no_publisher_ok.
Defined.

Definition demo_event : TransferCompleted := MkTransferCompleted 4 200 1 300 2 270.

Lemma transfer_keeps_username_cache_witness :
  exists r', redis_pipe (transfer_completed_batch demo_event "0901000001" "0901000002") demo_redis
               = (None, r') /\
    rs_kv (redis_view r') !! username_cache_key "alice" =
      rs_kv (redis_view demo_redis) !! username_cache_key "alice".
Proof.
  eexists. split; [reflexivity|].
  apply (transfer_keeps_username_cache demo_event "0901000001" "0901000002" "alice" demo_redis).
  reflexivity.
Defined.

Lemma updateBalances_guard_witness :
  wp (updateBalances alone (u_id carol) (u_id bob) 10)
    (fun r '(res', p') => pg_view demo_pg ≡ pg_view p' /\
       exists e, r = Some (EWrap "update balances" e) /\ pgErrCode e = "23502" /\
                 errors_Is (EWrap "update balances" e) errInsufficientFunds = false)
    (transferResult_zero, demo_pg).
Proof.
  apply (updateBalances_guard carol bob 10 transferResult_zero demo_pg).
  - exact demo_schema.
  - apply demo_healthy. lia.
  - do 2 right. left.
  - right. left.
  - simpl. lia.
  - lia.
  - simpl. lia.
  - simpl. unfold int64_max. lia.
Defined.

Lemma backoff_bounds_witness :
  0 < backoff_max 3 <= 16 * 1000000 /\ backoff_max 3 = 2 ^ (3 + 1) * 1000000.
Proof. apply (backoff_bounds 3). unfold maxSerializableRetries. lia. Defined.

Lemma SerializableTx_refines_witness :
  wp (SerializableTx (transfer_code 1 pay_bob_payload) transferResult_zero)
    (fun '(r, s') w' =>
       stx_outcome (transfer_tx alone 1 pay_bob_payload) (w_pg demo) r s' (w_pg w') /\ db_only demo w')
    demo.
Proof.
  apply (SerializableTx_refines (transfer_code 1 pay_bob_payload) transferResult_zero demo).
Defined.
