(* ===== verification/AuthCorrect.v ===== *)
(** * Theorems on sessions, register, login and logout *)

From S2P Require Import Prelude GoStrings Json JsonFacts Tables Sql SqlFacts Servers Db.
From S2P Require Import PgFacts TxFacts Logging RedisClient RedisFacts Consumer Auth AuthFacts.
From S2P Require Import RefServers Demo.

(** ** Facts shared by the theorems *)

Lemma digits_utf8 s : isDigits s = true -> utf8_valid s = true /\ s <> "".
Proof.
  unfold isDigits, utf8_valid. destruct (bool_decide (s = "")) eqn:E; [done|]. bool_hyps.
  rewrite !forallb_forall. intros Hd. split; [|done]. intros [r b] Hin.
  specialize (Hd _ Hin). simpl in Hd. unfold is_bad. simpl.
  unfold rune_error. destruct (r =? 65533) eqn:Er; [|done]. lia.
Qed.

Lemma registered_text_ok `{Bcrypt} phone username password T u T' :
  registered phone username password T u T' -> text_ok T ->
  utf8_valid phone = true -> utf8_valid username = true -> text_ok T'.
Proof.
  intros [id acct hash T2 Hl Hd _ Hasc _ _ _ v _ Hu _ _] Ht Hp Hn w Hw.
  rewrite Hu in Hw. apply elem_of_cons in Hw as [->|Hw]; [|by apply Ht].
  simpl. split_and!; try done; apply utf8_valid_ascii; [|done].
  eapply all_bytes_impl; [apply digit_ascii|done].
Qed.

Lemma registered_coherent `{Bcrypt} phone username password T u T' s :
  registered phone username password T u T' -> cache_coherent T s -> cache_coherent T' s.
Proof.
  intros [id acct hash T2 _ _ _ _ _ _ _ v _ Hu _ _]. apply cache_coherent_mono.
  intros w Hw. exists w. split; [rewrite Hu; by right|].
  exists (u_balance w). by rewrite set_balance_id.
Qed.

Lemma register_login_request raw phone username password :
  register_request raw = Some (phone, username, password) ->
  login_request raw = Some (phone, username, password) /\ isDigits phone = true.
Proof.
  unfold register_request, login_request. destruct (unmarshal_raw _ raw) as [p|]; [|done].
  destruct (isDigits (TrimSpace (cr_Phone p))) eqn:Ed; [|done]. intros [= <- <- <-].
  destruct (digits_utf8 _ Ed) as [_ Hne]. by rewrite Ed, (bool_decide_eq_false_2 _ Hne).
Qed.

(** The ledger: every account was opened with the default balance and money
    only moves. *)
Definition funded (T : Tables) : Prop :=
  total_balance T = default_balance * Z.of_nat (length (users T)).

#[global] Instance funded_proper : Proper ((≡) ==> iff) funded.
Proof. intros T1 T2 E. unfold funded. by rewrite E. Qed.

Lemma registered_funded `{Bcrypt} phone username password T u T' :
  registered phone username password T u T' -> funded T -> funded T'.
Proof. intros Hr Hf. destruct (registered_total _ _ _ _ _ _ Hr). unfold funded in *. lia. Qed.

Lemma register_answer_cases `{Bcrypt} phone username password T T' r (Q : Tables -> Prop)
    `{!Proper ((≡) ==> iff) Q} :
  register_answer phone username password T T' r ->
  (forall u, registered phone username password T u T' -> Q T') -> Q T -> Q T'.
Proof. intros [u Hr|_ E|E|e E|e u Hr] Hq HT; eauto; by rewrite <- E. Qed.

Section Guards.
Context {P R J : Type} `{RedisLaws R}.
Abbreviation W := (World P R J).

(** C11. [RequireSession] runs the handler exactly for a live session, with
    the user whom the session was created for in the context, and after
    nothing but a read; otherwise it answers 401, or 500 on a fault of
    Redis. *)
Theorem RequireSession_guards next ctx action payload headers (w : W) :
  exists w1, waited w w1 /\
    (RequireSession next ctx action payload headers w =
       match session_of (redis_view (w_rd w1)) (header headers "x-session") with
       | Some id => next (withUserID ctx id) action payload headers w1
       | None => (Ok (Reply 401 (detail "Unauthorized")), w1)
       end
     \/ RequireSession next ctx action payload headers w =
          (Ok (Reply 500 (detail "session error")), w1)).
Proof.
  destruct (RequireSession_cases 0 None next ctx action payload headers w I)
    as (w1 & Hw & _ & [E|[_ E]]); eauto.
Qed.

(** [RequireAdmin] adds the comparison of the secret, before anything
    else happens: with another secret the answer is 403 and the world is
    untouched; with the right one it is [RequireSession], so any live
    session passes, whether or not its user is an administrator. *)
Theorem RequireAdmin_guards secret next ctx action payload headers (w : W) :
  RequireAdmin secret next ctx action payload headers w =
    if bool_decide (header headers "x-admin-secret" = secret)
    then RequireSession next ctx action payload headers w
    else (Ok (Reply 403 (detail "Forbidden")), w).
Proof. apply RequireAdmin_session. Qed.

(** The life of a session: from its creation until its TTL has passed
    the token stands for the user, and for nobody afterwards. *)
Theorem session_lifetime userID d (w : W) :
  in_int64 userID -> 0 < session_ttl w -> 0 <= d ->
  wp (CreateSession userID)
    (fun r w' => forall sid, r = Ok sid -> sid <> "" ->
       session_of (advance d (redis_view (w_rd w'))) sid =
         if d <? session_ttl w then Some userID else None) w.
Proof.
  intros Hid Httl Hd. apply (CreateSession_spec 0 None); [done|]. intros w' _ _.
  split; [|by intros]. intros Hs sid [= <-] Hne.
  pose proof (was_set_until _ _ _ _ _ d Hs Httl Hd) as Hlive.
  destruct (d <? session_ttl w); [by apply session_of_live_id|].
  unfold session_of. rewrite Hlive. by case_bool_decide.
Qed.

(** C25. A logout that answers 204 ends the session and no other. *)
Theorem logout_ends_session ctx action payload headers (w : W) :
  wp (handleLogout ctx action payload headers)
    (fun r w' => rd_only w w' /\
       (r = Ok (Reply 204 JNull) ->
        session_of (redis_view (w_rd w')) (header headers "x-session") = None /\
        exists d, 0 <= d /\ forall sid, sid <> header headers "x-session" ->
          session_of (redis_view (w_rd w')) sid =
            session_of (advance d (redis_view (w_rd w))) sid)) w.
Proof.
  unfold handleLogout. apply wp_bind, (DeleteSession_spec 0 None); [done|].
  intros w' Hrd _. split; [|intros e _ _; by apply wp_ret].
  intros (d & Hd & Hl). apply wp_ret. split; [done|]. intros _. split.
  - unfold session_of. rewrite Hl. case_bool_decide as Hs; [done|].
    by rewrite bool_decide_eq_true_2.
  - exists d. split; [done|]. intros sid Hne. apply session_of_live. rewrite Hl.
    rewrite bool_decide_eq_false_2; [done|]. intros [E _].
    by apply session_key_inj in E.
Qed.
End Guards.

Section Accounts.
Context {P R J : Type} `{PgLaws P} `{RedisLaws R} `{BcryptLaws}.
Abbreviation W := (World P R J).

(** C9. Registration: 201 means that exactly one user was added, with a
    fresh 12-digit account number, a hash that verifies the password, the
    opening balance and no administrator rights; 409 means that the phone
    is taken; every other answer leaves the tables as they were, unless
    the reply of the server was lost; Redis is never touched. *)
Theorem handleRegister_correct ctx action raw headers (w : W) :
  wp (handleRegister ctx action raw headers)
    (fun r w' =>
       w_rd w' = w_rd w /\ w_js w' = w_js w /\ h_env (w_host w') = h_env (w_host w) /\
       match register_request raw with
       | None => w_pg w' = w_pg w /\ exists msg, r = Ok (Reply 400 (detail msg))
       | Some (phone, username, password) =>
           register_answer phone username password (tables_of w) (tables_of w') r
       end) w.
Proof. by apply (handleRegister_spec None). Qed.

(** Whatever the request and the faults, registration keeps the
    constraints of the schema and the ledger equation: the balances add up
    to the opening balance times the number of users. *)
Theorem handleRegister_ledger ctx action raw headers (w : W) :
  schema_ok (tables_of w) -> funded (tables_of w) ->
  wp (handleRegister ctx action raw headers)
    (fun _ w' => schema_ok (tables_of w') /\ funded (tables_of w')) w.
Proof.
  intros Hok Hf. eapply wp_mono; [apply wp_and|].
  - by apply (handleRegister_spec None ctx action raw headers).
  - apply keeps_wp, (handleRegister_schema (P:=P) (R:=R) (J:=J) ctx action raw headers).
  - intros r w' [(_ & _ & _ & Ha) Hs]. split; [by apply Hs|].
    destruct (register_request raw) as [[[phone username] password]|].
    + eapply register_answer_cases; [apply _|exact Ha| |done].
      intros u Hr. by eapply registered_funded.
    + destruct Ha as [E _]. unfold tables_of. by rewrite E.
Qed.

(** C8. Login, under every fault: 200 hands out a session of a user whom
    the request names and whose stored hash verifies the password, even
    when the answer comes from the cache; 401 means that nobody is named
    or the password does not verify; the tables do not change and the
    cache stays coherent with them. *)
Theorem handleLogin_correct ctx action raw headers (w : W) :
  schema_ok (tables_of w) -> text_ok (tables_of w) ->
  cache_coherent (tables_of w) (redis_view (w_rd w)) ->
  wp (handleLogin ctx action raw headers)
    (fun r w' => tables_of w ≡ tables_of w' /\
       cache_coherent (tables_of w) (redis_view (w_rd w')) /\
       login_answer raw (tables_of w) (redis_view (w_rd w')) r) w.
Proof.
  intros Hok Ht Hc. eapply wp_mono; [by apply (handleLogin_spec 0 None)|].
  intros r w' (Hs & _ & Hc' & _ & Ha & _). done.
Qed.

(** Login completes: without faults, a user whom alone the request
    names, with the right password, gets a session, provided that no cache
    entry of that user exceeds the 512 bytes of the read buffer. *)
Theorem handleLogin_completes ctx action raw headers phone username password u (w : W) :
  schema_ok (tables_of w) -> text_ok (tables_of w) ->
  cache_coherent (tables_of w) (redis_view (w_rd w)) ->
  pg_healthy 1 (w_pg w) -> redis_healthy 4 (w_rd w) ->
  login_request raw = Some (phone, username, password) ->
  u ∈ users (tables_of w) -> login_names phone username u = true ->
  (forall v, v ∈ users (tables_of w) -> login_names phone username v = true -> v = u) ->
  bcrypt_compare (u_password_hash u) password = true ->
  (forall b, in_int64 b -> ~ oversized u b) ->
  wp (handleLogin ctx action raw headers)
    (fun r w' => exists sid b, r = Ok (login_reply sid (cached_of (set_balance u b))) /\
       live_get (redis_view (w_rd w')) (session_key sid) = Some (Itoa (u_id u))) w.
Proof.
  intros Hok Ht Hc Hpg Hrd Hreq Hu Hn Huniq Hpw Hsize.
  eapply wp_mono; [by apply (handleLogin_spec 0 (Some 0%nat))|].
  intros r w' (_ & _ & _ & _ & Ha & He).
  destruct Ha as [msg Hr|p n pw Hr Hd|p n pw v b sid Hr Hv Hnv Hpv Hl|e].
  - congruence.
  - rewrite Hreq in Hr. injection Hr as <- <- <-.
    destruct Hd as [Hd|(v & Hv & Hnv & Hpv)]; [by rewrite Hd in Hn|].
    rewrite (Huniq v Hv Hnv) in Hpv. congruence.
  - rewrite Hreq in Hr. injection Hr as <- <- <-. rewrite (Huniq v Hv Hnv) in *. eauto.
  - destruct (He e eq_refl) as [?|(p & n & pw & v & b & Hr & Hv & Hnv & Hb & Hov)]; [done|].
    rewrite Hreq in Hr. injection Hr as <- <- <-. rewrite (Huniq v Hv Hnv) in Hov. by apply Hsize in Hov.
Qed.

(** C24. Register, then log in: after a 201 the same request, sent to the
    login endpoint of servers that meet no fault, opens a session of the
    new user. *)
Theorem register_then_login ctx action action' raw headers headers' phone username password
    (w : W) :
  schema_ok (tables_of w) -> text_ok (tables_of w) ->
  cache_coherent (tables_of w) (redis_view (w_rd w)) ->
  register_request raw = Some (phone, username, password) -> utf8_valid username = true ->
  wp (handleRegister ctx action raw headers)
    (fun r w1 => forall body, r = Ok (Reply 201 body) ->
       pg_healthy 1 (w_pg w1) -> redis_healthy 4 (w_rd w1) ->
       (forall u b, u ∈ users (tables_of w1) -> u_phone u = phone -> ~ oversized u b) ->
       exists u, registered phone username password (tables_of w) u (tables_of w1) /\
         wp (handleLogin ctx action' raw headers')
           (fun r' w2 => exists sid b, r' = Ok (login_reply sid (cached_of (set_balance u b))) /\
              live_get (redis_view (w_rd w2)) (session_key sid) = Some (Itoa (u_id u))) w1) w.
Proof.
  intros Hok Ht Hc Hreq Hname. eapply wp_mono; [apply wp_and|].
  - by apply (handleRegister_spec None ctx action raw headers).
  - apply keeps_wp, (handleRegister_schema (P:=P) (R:=R) (J:=J) ctx action raw headers).
  - intros r w1 [(Erd & _ & _ & Ha) Hs] body Hr Hpg Hrd Hsize. rewrite Hreq in Ha.
    inversion Ha as [u Hreg| | | |]; subst; try discriminate.
    exists u. split; [done|].
    destruct (register_login_request _ _ _ _ Hreq) as [Hlog Hdig].
    destruct (digits_utf8 _ Hdig) as [Hutf Hne].
    assert (schema_ok (tables_of w1)) as Hok1 by by apply Hs.
    assert (u ∈ users (tables_of w1) /\ u_phone u = phone /\
            bcrypt_compare (u_password_hash u) password = true) as (Hu & Hph & Hpw).
    { destruct Hreg as [id acct hash T2 _ _ Hb _ _ _ _ v _ Hus _ _].
      split_and!; try done. rewrite Hus. left. }
    eapply wp_mono; [eapply (handleLogin_spec 0 (Some 0%nat)); try done|].
    + by eapply registered_text_ok.
    + rewrite Erd. by eapply registered_coherent.
    + intros r' w2 (_ & _ & _ & _ & Hans & Herr). cbn beta.
      assert (forall v, v ∈ users (tables_of w1) -> login_names phone username v = true -> v = u)
        as Huniq.
      { intros v Hv Hnv. unfold login_names in Hnv.
        rewrite bool_decide_eq_false_2 in Hnv by done. bool_hyps.
        apply (user_by_phone _ _ _ Hok1 Hv Hu). congruence. }
      assert (login_names phone username u = true) as Hnu.
      { unfold login_names. rewrite bool_decide_eq_false_2 by done.
        by apply bool_decide_eq_true. }
      destruct Hans as [msg Hx|p n pw Hx Hd|p n pw v b sid Hx Hv Hnv Hpv Hl|e].
      * congruence.
      * rewrite Hlog in Hx. injection Hx as <- <- <-.
        destruct Hd as [Hd|(v & Hv & Hnv & Hpv)]; [by rewrite Hd in Hnu|].
        rewrite (Huniq v Hv Hnv) in Hpv. congruence.
      * rewrite Hlog in Hx. injection Hx as <- <- <-. rewrite (Huniq v Hv Hnv) in *. eauto.
      * destruct (Herr e eq_refl) as [?|(p & n & pw & v & b & Hx & Hv & Hnv & Hb & Hov)]; [done|].
        rewrite Hlog in Hx. injection Hx as <- <- <-. rewrite (Huniq v Hv Hnv) in Hov.
        by destruct (Hsize u b Hu Hph Hov).
Qed.
End Accounts.

(** ** Witnesses *)

Lemma demo_coherent : cache_coherent demo_tables demo_redis_state.
Proof. intros k data exp [=]. Defined.

Lemma demo_text : text_ok demo_tables.
Proof.
  intros u Hu. apply elem_of_cons in Hu as [->|Hu]; [by vm_compute|].
  apply elem_of_cons in Hu as [->|Hu]; [by vm_compute|].
  apply list_elem_of_singleton in Hu as ->. by vm_compute.
Defined.

Definition alice_login : option json :=
  Some (JObj [("phone", JStr "0901000001"); ("password", JStr "pw1")]).

Definition dave_register : option json :=
  Some (JObj [("phone", JStr "0901000004"); ("username", JStr "dave"); ("password", JStr "pw4")]).

Definition nobody : Ctx := {| ctx_user := None |}.

(** Evaluates the lengths of closed strings. *)
Ltac closed_lengths :=
  repeat match goal with
  | |- context [String.length ?s] =>
      let n := eval vm_compute in (String.length s) in change (String.length s) with n
  end.

Lemma alice_fits b : in_int64 b -> ~ oversized alice b.
Proof.
  intros Hb. unfold oversized, go_len, encode_CachedUser, cached_of, JInt.
  cbn [Marshal map join fst snd cu_id cu_phone cu_username cu_account_number cu_password_hash
       cu_balance cu_is_admin set_balance alice u_id u_phone u_username u_account_number
       u_password_hash u_balance u_is_admin].
  rewrite !str_app_length. pose proof (Itoa_length_any b Hb) as Hl. revert Hl.
  generalize (String.length (Itoa b)). intros n Hl.
  closed_lengths. lia.
Qed.

Lemma session_lifetime_witness :
  wp (CreateSession 7)
    (fun r w' => forall sid, r = Ok sid -> sid <> "" ->
       session_of (advance (2 * Hour) (redis_view (w_rd w'))) sid =
         if 2 * Hour <? session_ttl demo then Some 7 else None) demo.
Proof.
  apply (session_lifetime 7 (2 * Hour) demo).
  - unfold in_int64, int64_min, int64_max. lia.
  - vm_compute. reflexivity.
  - vm_compute. discriminate.
Defined.

Lemma handleRegister_ledger_witness :
  let w := set_pg demo {| rp_tables := MkTables [set_balance alice default_balance] [] [];
                          rp_now := 0; rp_plan := []; rp_tx_plan := [] |} in
  wp (handleRegister nobody "register" dave_register ∅)
    (fun _ w' => schema_ok (tables_of w') /\ funded (tables_of w')) w.
Proof.
  intros w. apply (handleRegister_ledger nobody "register" dave_register ∅ w).
  - apply (bool_decide_unpack _). vm_compute. exact I.
  - vm_compute. reflexivity.
Defined.

Lemma handleLogin_correct_witness :
  wp (handleLogin nobody "login" alice_login ∅)
    (fun r w' => tables_of demo ≡ tables_of w' /\
       cache_coherent (tables_of demo) (redis_view (w_rd w')) /\
       login_answer alice_login (tables_of demo) (redis_view (w_rd w')) r) demo.
Proof.
  apply (handleLogin_correct nobody "login" alice_login ∅ demo).
  - exact demo_schema.
  - exact demo_text.
  - exact demo_coherent.
Defined.

Lemma handleLogin_completes_witness :
  wp (handleLogin nobody "login" alice_login ∅)
    (fun r w' => exists sid b, r = Ok (login_reply sid (cached_of (set_balance alice b))) /\
       live_get (redis_view (w_rd w')) (session_key sid) = Some (Itoa (u_id alice))) demo.
Proof.
  apply (handleLogin_completes nobody "login" alice_login ∅ "0901000001" "" "pw1" alice demo).
  - exact demo_schema.
  - exact demo_text.
  - exact demo_coherent.
  - apply demo_healthy. lia.
  - unfold redis_healthy, plan_clear. simpl. constructor.
  - vm_compute. reflexivity.
  - left.
  - vm_compute. reflexivity.
  - simpl. intros u [->|[->|[->|[]%not_elem_of_nil]%elem_of_cons]%elem_of_cons]%elem_of_cons;
      vm_compute; congruence.
  - vm_compute. reflexivity.
  - exact alice_fits.
Defined.

Lemma register_then_login_witness :
  wp (handleRegister nobody "register" dave_register ∅)
    (fun r w1 => forall body, r = Ok (Reply 201 body) ->
       pg_healthy 1 (w_pg w1) -> redis_healthy 4 (w_rd w1) ->
       (forall u b, u ∈ users (tables_of w1) -> u_phone u = "0901000004" -> ~ oversized u b) ->
       exists u, registered "0901000004" "dave" "pw4" (tables_of demo) u (tables_of w1) /\
         wp (handleLogin nobody "login" dave_register ∅)
           (fun r' w2 => exists sid b, r' = Ok (login_reply sid (cached_of (set_balance u b))) /\
              live_get (redis_view (w_rd w2)) (session_key sid) = Some (Itoa (u_id u))) w1) demo.
Proof.
  apply (register_then_login nobody "register" "login" dave_register ∅ ∅ "0901000004" "dave" "pw4"
           demo).
  - exact demo_schema.
  - exact demo_text.
  - exact demo_coherent.
  - vm_compute. reflexivity.
  - vm_compute. reflexivity.
Defined.

(** A handler that answers with the user of its context. *)
Definition echo : Handler (World RefPg RefRedis RefJs) :=
  fun ctx _ _ _ => ret (Ok (Reply 200 (JInt (UserIDFromContext ctx).1))).

Definition sid_headers : Headers := <["x-session" := "sid0"]> ∅.

Lemma RequireSession_guards_witness :
  exists w1, waited demo w1 /\
    (RequireSession echo nobody "me" None sid_headers demo =
       match session_of (redis_view (w_rd w1)) (header sid_headers "x-session") with
       | Some id => echo (withUserID nobody id) "me" None sid_headers w1
       | None => (Ok (Reply 401 (detail "Unauthorized")), w1)
       end
     \/ RequireSession echo nobody "me" None sid_headers demo =
          (Ok (Reply 500 (detail "session error")), w1)).
Proof. apply (RequireSession_guards echo nobody "me" None sid_headers demo). Defined.

Lemma logout_ends_session_witness :
  wp (handleLogout nobody "logout" None sid_headers)
    (fun r w' => rd_only demo w' /\
       (r = Ok (Reply 204 JNull) ->
        session_of (redis_view (w_rd w')) (header sid_headers "x-session") = None /\
        exists d, 0 <= d /\ forall sid, sid <> header sid_headers "x-session" ->
          session_of (redis_view (w_rd w')) sid =
            session_of (advance d (redis_view (w_rd demo))) sid)) demo.
Proof. apply (logout_ends_session nobody "logout" None sid_headers demo). Defined.

Lemma handleRegister_correct_witness :
  wp (handleRegister nobody "register" dave_register ∅)
    (fun r w' =>
       w_rd w' = w_rd demo /\ w_js w' = w_js demo /\ h_env (w_host w') = h_env (w_host demo) /\
       match register_request dave_register with
       | None => w_pg w' = w_pg demo /\ exists msg, r = Ok (Reply 400 (detail msg))
       | Some (phone, username, password) =>
           register_answer phone username password (tables_of demo) (tables_of w') r
       end) demo.
Proof. apply (handleRegister_correct nobody "register" dave_register ∅ demo). Defined.
