(* ===== verification/AccountCorrect.v ===== *)
(** * Theorems on account-service: balance, profile, administrator pages *)

From S2P Require Import Prelude GoStrings GoScan Json Tables Sql SqlFacts Servers Db PgFacts.
From S2P Require Import TxFacts ReadFacts Logging RedisClient RedisFacts Consumer Account AccountFacts.
From S2P Require Import RefServers Demo.

(** The query string that asks for one page. *)
Definition page_request (page size : Z) : option json :=
  Some (JObj [("page", JStr (Itoa page)); ("size", JStr (Itoa size))]).

Lemma paginate_request page size :
  1 <= page <= maxPage -> 1 <= size <= 100 -> paginate (page_request page size) = (page, size).
Proof.
  unfold maxPage. intros Hp Hs.
  assert (in_int64 page /\ in_int64 size) as [Ip Is]
    by (unfold in_int64, int64_min, int64_max; lia).
  unfold paginate, page_request. simpl. unfold map_get.
  rewrite lookup_insert_ne, lookup_insert_eq, lookup_insert_eq by done. simpl.
  unfold page_param, Atoi. rewrite !ParseInt_Itoa by done.
  replace (0 <? page) with true by lia. replace (0 <? size) with true by lia.
  replace (size <=? 100) with true by lia. simpl. unfold maxPage.
  by replace (200 <? page) with false by lia.
Qed.

Section Pages.
Context {P R J : Type} `{PgLaws P}.
Abbreviation W := (World P R J).
Context (fmt_time : Z -> string).

(** The user list: the requested page of all users that match the
    search, newest first, phones masked, with the number of matches; the
    tables do not change and only a fault makes the request fail. *)
Theorem handleAdminUsers_page h ctx action raw headers (w : W) :
  schema_ok (tables_of w) -> within (plus 2 h) (w_pg w) ->
  wp (handleAdminUsers ctx action raw headers)
    (fun r w' => unchanged w w' /\
       or_fault h r
         (let (page, size) := paginate raw in
          let all := newest u_id (found pg_ilike (search_term raw) (tables_of w)) in
          r = Ok (page_reply "users" (map userToAdminView (page_of page size all))
                    (Z.of_nat (length all)) page size))) w.
Proof.
  intros Hok Hp. unfold handleAdminUsers. destruct (paginate raw) as [page size].
  apply wp_bind. eapply (wp_all_pure _ _ 1 h); [done| |done| |].
  { intros env T. by apply run_users_page. }
  2: { intros e w' Hh He Hw. apply wp_ret. split; [done|]. right. by eauto. }
  intros w1 Hw1 Hp1. apply wp_bind. eapply (wp_one_pure _ _ 0 h); [done| |done| |].
  { intros env T ET. apply run_count_users. etransitivity; [apply Hw1|exact ET]. }
  2: { intros e w' Hh He Hw. apply wp_ret. split; [by etransitivity|]. right. by eauto. }
  intros w2 Hw2 Hp2. apply wp_ret. split; [by etransitivity|]. left. by rewrite newest_length.
Qed.

(** C28. The transfer list equals its reference: the page of all transfers,
    newest first, each with the usernames of both parties, even though the
    handler skips the query for pages past the end and resolves the names
    of a page by one deduplicated batch; the constraints of the schema give
    every transfer both names. *)
Theorem handleAdminTransfers_page h ctx action raw headers (w : W) :
  schema_ok (tables_of w) -> within (plus 3 h) (w_pg w) ->
  wp (handleAdminTransfers fmt_time ctx action raw headers)
    (fun r w' => unchanged w w' /\
       or_fault h r
         (let (page, size) := paginate raw in
          let all := newest t_id (transfers (tables_of w)) in
          r = Ok (page_reply "transfers"
                    (map (transferResponse fmt_time (usernames (tables_of w)))
                       (page_of page size all))
                    (Z.of_nat (length all)) page size))) w
  /\ forall t, t ∈ transfers (tables_of w) ->
       is_Some (usernames (tables_of w) !! t_from_user t) /\
       is_Some (usernames (tables_of w) !! t_to_user t).
Proof.
  intros Hok Hp. split; [|by apply transfer_names].
  pose proof (paginate_range raw) as Hrange.
  unfold handleAdminTransfers. destruct (paginate raw) as [page size]. simpl in Hrange.
  set (T := tables_of w) in *.
  apply wp_bind. apply (wp_one_pure _ (Z.of_nat (length (transfers T))) 2 h); [done| |done| |].
  { intros env T1 (_ & E & _). simpl. by rewrite <- E. }
  2: { intros e w' Hh He Hw. apply wp_ret. split; [done|]. right. by eauto. }
  intros w1 Hw1 Hp1. apply wp_bind. case_match eqn:Eoff.
  2: { apply wp_ret, wp_ret. split; [done|]. left. rewrite newest_length.
       unfold page_of. rewrite drop_ge by (rewrite newest_length; lia). by rewrite take_nil. }
  apply wp_bind. eapply (wp_all_pure _ _ 1 h); [done| |done| |].
  { intros env T1 ET. apply run_transfers_page; [done|]. etransitivity; [apply Hw1|exact ET]. }
  2: { intros e w' Hh He Hw. apply wp_ret, wp_ret. split; [by etransitivity|]. right. by eauto. }
  intros w2 Hw2 Hp2. apply wp_bind.
  assert (unchanged w w2) as Hw02 by by etransitivity.
  apply (resolveUserNames_spec _ 0 h); [by rewrite <- (proj2 Hw02)|done| |].
  2: { intros e w' Hh He Hw. apply wp_ret, wp_ret. split; [by etransitivity|]. right. by eauto. }
  intros m w3 Hw3 _ Hm. apply wp_ret, wp_ret. split; [by etransitivity|]. left.
  rewrite newest_length. 
  rewrite (map_ext_in _ (transferResponse fmt_time (usernames T))); [done|].
  intros t Ht%list_elem_of_In.
  unfold transferResponse. rewrite !Hm, <- !(usernames_proper T _ _ Hok (proj2 Hw02)).
  - done.
  - by apply (ids_of_transfers _ t).
  - by apply (ids_of_transfers _ t).
Qed.

(** The notification list, likewise. *)
Theorem handleAdminNotifications_page h ctx action raw headers (w : W) :
  schema_ok (tables_of w) -> within (plus 2 h) (w_pg w) ->
  wp (handleAdminNotifications fmt_time ctx action raw headers)
    (fun r w' => unchanged w w' /\
       or_fault h r
         (let (page, size) := paginate raw in
          let all := newest n_id (notifications (tables_of w)) in
          r = Ok (page_reply "notifications"
                    (map (NotificationToMap fmt_time) (page_of page size all))
                    (Z.of_nat (length all)) page size))) w.
Proof.
  intros Hok Hp. unfold handleAdminNotifications. destruct (paginate raw) as [page size].
  apply wp_bind. eapply (wp_all_pure _ _ 1 h); [done| |done| |].
  { intros env T. by apply run_notifications_page. }
  2: { intros e w' Hh He Hw. apply wp_ret. split; [done|]. right. by eauto. }
  intros w1 Hw1 Hp1. apply wp_bind. eapply (wp_one_pure _ _ 0 h); [done| |done| |].
  { intros env T ET. apply count_notifications_run. etransitivity; [apply Hw1|exact ET]. }
  2: { intros e w' Hh He Hw. apply wp_ret. split; [by etransitivity|]. right. by eauto. }
  intros w2 Hw2 Hp2. apply wp_ret. split; [by etransitivity|]. left. by rewrite newest_length.
Qed.

(** The statistics of a request that runs alone are those of the tables: the
    numbers of rows and the exact sums, which must fit an [int64]. *)
Theorem handleAdminStats_correct h ctx action raw headers (w : W) :
  within (plus 5 h) (w_pg w) ->
  wp (handleAdminStats ctx action raw headers)
    (fun r w' => unchanged w w' /\
       ((r = (let st := stats_of (tables_of w) in
              Ok (Reply 200 (JMap [("user_count", JInt (s_users st));
                                   ("transfer_count", JInt (s_transfers st));
                                   ("total_balance", JInt (s_total_balance st));
                                   ("total_transfer_amount", JInt (s_volume st));
                                   ("total_notifications", JInt (s_notifications st))])))
         /\ sums_fit (tables_of w))
        \/ (is_ok r = false /\ (h = None \/ ~ sums_fit (tables_of w))))) w.
Proof.
  intros Hp. unfold handleAdminStats. apply wp_bind, (stats_run _ h); [done|done| |].
  - intros w' Hw Hfit. apply wp_ret. split; [done|]. by left.
  - intros e st w' Hw Hno. apply wp_ret. split; [done|]. by right.
Qed.
End Pages.

(** The pages of a listing of at most 20,000 / 200 * [size] rows,
    requested one after the other up to the page count that every reply
    carries, are the whole listing, each row once. *)
Theorem pages_cover {A} (size : Z) (all : list A) :
  1 <= size <= 100 -> Z.of_nat (length all) <= maxPage * size ->
  let pages := page_count (Z.of_nat (length all)) size in
  pages <= maxPage /\
  concat (map (fun n => let (page, size) := paginate (page_request (Z.of_nat n) size) in
                        page_of page size all)
            (seq 1 (Z.to_nat pages))) = all.
Proof.
  intros Hs Hl. unfold maxPage in Hl. intros pages.
  destruct (page_count_ceil (Z.of_nat (length all)) size) as (Hq & Hlo & Hhi);
    [unfold int64_max; lia|lia|]. fold pages in Hq, Hlo, Hhi.
  assert (pages <= maxPage) as Hmax.
  { rewrite Hq. apply Z.lt_succ_r, Z.div_lt_upper_bound; unfold maxPage; lia. }
  assert (0 <= pages) as H0 by (rewrite Hq; apply Z.div_pos; lia).
  split; [done|].
  rewrite (map_ext_in _ (fun n => page_of (Z.of_nat n) size all)).
  - rewrite pages_prefix by lia. apply take_ge. nia.
  - intros n Hn%in_seq. by rewrite paginate_request by lia.
Qed.

(** C29. No request reaches further than page 200 or more than 100 rows, and a
    size above 100 is replaced by the default of 20, not by 100. *)
Theorem paginate_bounds (raw : option json) (page size : Z) :
  in_int64 page -> in_int64 size ->
  1 <= (paginate raw).1 <= maxPage /\ 1 <= (paginate raw).2 <= 100 /\
  paginate (page_request page size) =
    (if page <=? 0 then 1 else Z.min page maxPage,
     if (size <=? 0) || (100 <? size) then 20 else size).
Proof.
  intros Ip Is. destruct (paginate_range raw) as [H1 H2]. split; [done|]. split; [done|].
  unfold paginate, page_request. simpl. unfold map_get.
  rewrite lookup_insert_ne, lookup_insert_eq, lookup_insert_eq by done. simpl.
  unfold page_param, Atoi, maxPage. rewrite !ParseInt_Itoa by done.
  f_equal; repeat case_match; lia.
Qed.

Section Balance.
Context {P R J : Type} `{PgLaws P} `{RedisLaws R}.
Abbreviation W := (World P R J).

(** What a balance request ends in. *)
Definition balance_answer (h : option nat) (id : Z) (w : W) (r : result goany goerr) (w' : W)
    : Prop :=
  tables_of w ≡ tables_of w' /\
  balance_coherent (tables_of w) (redis_view (w_rd w')) /\
  or_fault h r
    ((exists u, u ∈ users (tables_of w) /\ u_id u = id /\
        r = Ok (Reply 200 (JMap [("balance", JInt (u_balance u))])) /\
        (h <> None -> balance_of (redis_view (w_rd w')) id = Some (Itoa (u_balance u))))
     \/ (r = Ok (Reply 404 (detail "User not found")) /\
         forall u, u ∈ users (tables_of w) -> u_id u <> id)).

(** A miss of the read model. *)
Lemma balance_miss h id (w w1 : W) :
  rd_only w w1 -> balance_coherent (tables_of w) (redis_view (w_rd w1)) ->
  within (plus 1 h) (w_pg w) -> rwithin (plus 1 h) (w_rd w1) ->
  wp (let* b := queryBalanceFromDB id in
      match b with
      | Err err =>
          if IsNotFound err then ret (Ok (Reply 404 (detail "User not found")))
          else ret (Err (EWrap "get balance" err))
      | Ok balance =>
          let* _ := SetBalance id balance in
          ret (Ok (Reply 200 (JMap [("balance", JInt balance)])))
      end) (balance_answer h id w) w1.
Proof.
  intros (Epg & _) Hc1 Hp Hr1. assert (tables_of w1 = tables_of w) as ET1
    by (unfold tables_of; by rewrite Epg).
  apply wp_bind. unfold queryBalanceFromDB. apply wp_bind, (wp_query_user _ _ _ _ 0 h);
    [done|by rewrite Epg| | |].
  - intros u w2 [(Erd & _ & _) E2] _ Hu Hv. apply wp_ret. rewrite ET1 in Hu, E2.
    unfold has_val in Hv. apply bool_decide_eq_true in Hv. simpl in Hv. injection Hv as Hid.
    simpl. apply wp_bind. apply (SetBalance_spec 0 h); [by rewrite Erd|].
    intros w3 (Epg3 & _ & _) _.
    assert (tables_of w ≡ tables_of w3) as E3 by (unfold tables_of in *; by rewrite Epg3).
    rewrite Erd in *. subst id. split.
    + intros Hs. apply wp_ret. split; [done|]. split; [by apply (balance_coherent_set _ _ _ u Hu Hs)|].
      left. left. exists u. split_and!; try done. intros _.
      rewrite (balance_was_set_get _ _ _ _ _ Hs). by rewrite bool_decide_eq_true_2.
    + intros e Hh _ [Hs|(d3 & _ & Ev3)]; apply wp_ret; (split; [done|]).
      * split; [by apply (balance_coherent_set _ _ _ u Hu Hs)|]. left. left. exists u. by split_and!.
      * split; [rewrite Ev3; by apply balance_coherent_waited|]. left. left. exists u. by split_and!.
  - intros e w2 [(Erd & _) E2] Hf Hn Hall. apply wp_ret. simpl. rewrite Hn. apply wp_ret.
    unfold balance_answer. rewrite ET1 in *. rewrite Erd. split; [done|]. split; [done|].
    left. right. split; [done|]. intros u Hu Hid. specialize (Hall u Hu).
    unfold has_val in Hall. apply bool_decide_eq_false in Hall. apply Hall. simpl. by rewrite Hid.
  - intros e w2 [(Erd & _) E2] Hf Hh Hn. apply wp_ret. simpl. rewrite Hn. apply wp_ret.
    unfold balance_answer. rewrite ET1 in *. rewrite Erd. split; [done|]. split; [done|].
    right. by eauto.
Qed.

(** C14. Balance reads: as long as the read model only holds committed
    balances, the answer is the balance of the row, whether it comes from
    Redis or from the table; a miss back-fills the read model, which stays
    coherent; 404 means that the user does not exist; the tables do not
    change. *)
Theorem handleBalance_correct h ctx action raw headers (w : W) :
  schema_ok (tables_of w) -> balance_coherent (tables_of w) (redis_view (w_rd w)) ->
  within (plus 1 h) (w_pg w) -> rwithin (plus 2 h) (w_rd w) ->
  let id := (UserIDFromContext ctx).1 in
  wp (handleBalance ctx action raw headers)
    (fun r w' =>
       tables_of w ≡ tables_of w' /\
       balance_coherent (tables_of w) (redis_view (w_rd w')) /\
       or_fault h r
         ((exists u, u ∈ users (tables_of w) /\ u_id u = id /\
             r = Ok (Reply 200 (JMap [("balance", JInt (u_balance u))])) /\
             (h <> None -> balance_of (redis_view (w_rd w')) id = Some (Itoa (u_balance u))))
          \/ (r = Ok (Reply 404 (detail "User not found")) /\
              forall u, u ∈ users (tables_of w) -> u_id u <> id))) w.
Proof.
  intros Hok Hc Hp Hr id. change (wp (handleBalance ctx action raw headers) (balance_answer h id w) w).
  unfold handleBalance. destruct (UserIDFromContext ctx) as [userID b]. simpl in id. subst id.
  apply wp_bind, (GetBalance_spec 1 h); [done|].
  intros w1 [Hrd1 (d & Hd & Ev1)] Hr1.
  assert (tables_of w1 = tables_of w) as ET1 by (unfold tables_of; by destruct Hrd1 as (-> & _)).
  assert (balance_coherent (tables_of w) (redis_view (w_rd w1))) as Hc1
    by (rewrite Ev1; by apply balance_coherent_waited).
  destruct (balance_of (redis_view (w_rd w)) userID) as [v|] eqn:Ebal;
    (split; [|intros e Hh He; apply wp_ret; split; [by rewrite ET1|]; split; [done|]; right;
              destruct (redis_fault_facts _ He); by eauto]).
  - destruct (Hc _ _ Ebal) as (u & Hu & Hid & ->).
    unfold Atoi. rewrite ParseInt_Itoa by by apply (user_balance_range (tables_of w)).
    apply wp_ret. split; [by rewrite ET1|]. split; [done|]. left. left. exists u.
    split_and!; [done..|]. intros _. by rewrite Ev1.
  - by apply balance_miss.
Qed.
End Balance.

(** What a lookup asks for: a column and the text it must hold; [None] for a
    request that is refused. *)
Definition lookup_request (raw : option json) : option (user_col * string) :=
  match unmarshal_raw decode_lookupPayload raw with
  | Err _ => None
  | Ok p =>
      let acct := TrimSpace (l_AccountNumber p) in
      let phone := TrimSpace (l_Phone p) in
      let name := TrimSpace (l_Username p) in
      if bool_decide (acct = "") && bool_decide (phone = "") && bool_decide (name = "") then None
      else Some (if negb (bool_decide (acct = "")) then (CAccountNumber, acct)
                 else if negb (bool_decide (phone = "")) then (CPhone, phone)
                 else (CUsername, name))
  end.

Section Profiles.
Context {P R J : Type} `{PgLaws P}.
Abbreviation W := (World P R J).

(** A lookup answers 200 with the public profile (id, account number
    and username; no balance, no phone) of a user who matches the first
    identifier of the request, 404 when nobody matches, 400 without a
    usable identifier; it changes nothing. *)
Theorem handleLookup_correct h ctx action raw headers (w : W) :
  within (plus 1 h) (w_pg w) ->
  wp (handleLookup ctx action raw headers)
    (fun r w' => unchanged w w' /\
       match lookup_request raw with
       | None => w' = w /\ exists msg, r = Ok (Reply 400 (detail msg))
       | Some (col, val) =>
           or_fault h r
             ((exists u, u ∈ users (tables_of w) /\ get_user col u = SText val /\
                 r = Ok (Reply 200 (JMap [("id", JInt (u_id u));
                                          ("account_number", JStr (u_account_number u));
                                          ("username", JStr (u_username u))])))
              \/ (r = Ok (Reply 404 (detail "User not found")) /\
                  forall u, u ∈ users (tables_of w) -> get_user col u <> SText val))
       end) w.
Proof.
  intros Hp. unfold handleLookup, lookup_request.
  destruct (unmarshal_raw decode_lookupPayload raw) as [p|e].
  2: { apply wp_ret. split; [done|]. split; [done|]. by eexists. }
  cbn [l_AccountNumber l_Phone l_Username]. case_match.
  { apply wp_ret. split; [done|]. split; [done|]. by eexists. }
  unfold UserIdentifierCol.
  assert (exists col val, UserIdentifierCol (TrimSpace (l_AccountNumber p))
            (TrimSpace (l_Phone p)) (TrimSpace (l_Username p)) = (col, val) /\
            typed col (SText val) = true) as (col & val & Ecv & Ht)
    by (unfold UserIdentifierCol; repeat case_match; eauto).
  unfold UserIdentifierCol in Ecv. rewrite Ecv.
  apply wp_bind, (wp_query_user _ _ _ _ 0 h); [done|done| | |].
  - intros u w' Hw _ Hu Hv. rewrite project_user_cols. apply wp_ret. split; [done|].
    left. left. exists u. unfold has_val in Hv. by apply bool_decide_eq_true in Hv.
  - intros e w' Hw Hf Hn Hall. rewrite Hn. apply wp_ret. split; [done|]. left. right.
    split; [done|]. intros u Hu. specialize (Hall u Hu). unfold has_val in Hall.
    by apply bool_decide_eq_false in Hall.
  - intros e w' Hw Hf Hh Hn. rewrite Hn. apply wp_ret. split; [done|]. right. by eauto.
Qed.

Definition detail_request (id : string) : option json :=
  Some (JObj [("user_id", JStr id)]).

(** The user detail page reads its identifier with [fmt.Sscan], which
    stops at the first character that is no digit and honours the prefixes
    of Go literals: texts that are no positive integer are not refused but
    answered with the profile of another identifier. *)
Theorem handleAdminUserDetail_lenient ctx action headers (w : W) :
  Forall (fun p => handleAdminUserDetail ctx action (detail_request p.1) headers w =
                   handleAdminUserDetail ctx action (detail_request p.2) headers w)
    [("12abc", "12"); ("12.9", "12"); ("12 13", "12"); ("010", "8"); ("0x1F", "31");
     ("1_0", "10")].
Proof. by repeat constructor. Qed.

(** The profile pages: a 200 is the masked profile of exactly the user
    of the session ([handleMe]) or of the identifier ([handleAdminUserDetail]),
    404 means that there is none. *)
Theorem profile_correct h ctx action headers id (w : W) :
  within (plus 1 h) (w_pg w) -> 0 < id <= int64_max ->
  let answer r w' := unchanged w w' /\
    or_fault h r
      ((exists u, u ∈ users (tables_of w) /\ u_id u = id /\
          r = Ok (Reply 200 (userToAdminView u)))
       \/ (r = Ok (Reply 404 (detail "User not found")) /\
           forall u, u ∈ users (tables_of w) -> u_id u <> id)) in
  wp (handleMe (withUserID ctx id) action None headers) answer w /\
  wp (handleAdminUserDetail ctx action (detail_request (Itoa id)) headers) answer w.
Proof.
  intros Hp Hid answer.
  assert (forall pre, wp (bind (on_pg (QueryUser CId (SInt id)))
            (fun r => match r with
               | Err err => if IsNotFound err then ret (Ok (Reply 404 (detail "User not found")))
                            else ret (Err (EWrap pre err))
               | Ok u => ret (Ok (Reply 200 (userToAdminView u))) end)) answer w) as Hq.
  { intros pre. unfold answer. apply wp_bind, (wp_query_user _ _ _ _ 0 h); [done|done| | |].
    - intros u w' Hw _ Hu Hv. rewrite project_user_cols. apply wp_ret. split; [done|].
      left. left. exists u. unfold has_val in Hv. apply bool_decide_eq_true in Hv.
      simpl in Hv. by injection Hv as ->.
    - intros e w' Hw Hf Hn Hall. rewrite Hn. apply wp_ret. split; [done|]. left. right.
      split; [done|]. intros u Hu Hi. specialize (Hall u Hu). unfold has_val in Hall.
      apply bool_decide_eq_false in Hall. apply Hall. simpl. by rewrite Hi.
    - intros e w' Hw Hf Hh Hn. rewrite Hn. apply wp_ret. split; [done|]. right. by eauto. }
  split; [apply Hq|].
  unfold handleAdminUserDetail, detail_request. simpl. unfold map_get.
  rewrite lookup_insert_eq. simpl.
  rewrite TrimSpace_digits by (apply Itoa_digits; lia).
  rewrite bool_decide_eq_false_2 by apply Itoa_nonempty.
  rewrite Sscan_Itoa by lia. replace (id <=? 0) with false by lia. apply Hq.
Qed.
End Profiles.

(** ** Witnesses *)

Definition as_admin : Ctx := {| ctx_user := Some 3 |}.

Lemma handleAdminUsers_page_witness :
  wp (handleAdminUsers as_admin "users" (page_request 1 2) ∅)
    (fun r w' => unchanged demo w' /\
       or_fault (Some 0%nat) r
         (let (page, size) := paginate (page_request 1 2) in
          let all := newest u_id (found pg_ilike (search_term (page_request 1 2)) (tables_of demo)) in
          r = Ok (page_reply "users" (map userToAdminView (page_of page size all))
                    (Z.of_nat (length all)) page size))) demo.
Proof.
  apply (handleAdminUsers_page (Some 0%nat) as_admin "users" (page_request 1 2) ∅ demo).
  - exact demo_schema.
  - apply demo_healthy. lia.
Defined.

Lemma handleAdminTransfers_page_witness :
  wp (handleAdminTransfers Itoa as_admin "transfers" (page_request 1 2) ∅)
    (fun r w' => unchanged demo w' /\
       or_fault (Some 0%nat) r
         (let (page, size) := paginate (page_request 1 2) in
          let all := newest t_id (transfers (tables_of demo)) in
          r = Ok (page_reply "transfers"
                    (map (transferResponse Itoa (usernames (tables_of demo)))
                       (page_of page size all))
                    (Z.of_nat (length all)) page size))) demo
  /\ forall t, t ∈ transfers (tables_of demo) ->
       is_Some (usernames (tables_of demo) !! t_from_user t) /\
       is_Some (usernames (tables_of demo) !! t_to_user t).
Proof.
  apply (handleAdminTransfers_page Itoa (Some 0%nat) as_admin "transfers" (page_request 1 2) ∅ demo).
  - exact demo_schema.
  - apply demo_healthy. lia.
Defined.

Lemma handleAdminNotifications_page_witness :
  wp (handleAdminNotifications Itoa as_admin "notifications" (page_request 1 2) ∅)
    (fun r w' => unchanged demo w' /\
       or_fault (Some 0%nat) r
         (let (page, size) := paginate (page_request 1 2) in
          let all := newest n_id (notifications (tables_of demo)) in
          r = Ok (page_reply "notifications"
                    (map (NotificationToMap Itoa) (page_of page size all))
                    (Z.of_nat (length all)) page size))) demo.
Proof.
  apply (handleAdminNotifications_page Itoa (Some 0%nat) as_admin "notifications"
           (page_request 1 2) ∅ demo).
  - exact demo_schema.
  - apply demo_healthy. lia.
Defined.

Lemma handleAdminStats_correct_witness :
  wp (handleAdminStats as_admin "stats" None ∅)
    (fun r w' => unchanged demo w' /\
       ((r = (let st := stats_of (tables_of demo) in
              Ok (Reply 200 (JMap [("user_count", JInt (s_users st));
                                   ("transfer_count", JInt (s_transfers st));
                                   ("total_balance", JInt (s_total_balance st));
                                   ("total_transfer_amount", JInt (s_volume st));
                                   ("total_notifications", JInt (s_notifications st))])))
         /\ sums_fit (tables_of demo))
        \/ (is_ok r = false /\ (Some 0%nat = None \/ ~ sums_fit (tables_of demo))))) demo.
Proof.
  apply (handleAdminStats_correct (Some 0%nat) as_admin "stats" None ∅ demo).
  apply demo_healthy. lia.
Defined.

Lemma pages_cover_witness :
  let pages := page_count (Z.of_nat (length [alice; bob; carol])) 2 in
  pages <= maxPage /\
  concat (map (fun n => let (page, size) := paginate (page_request (Z.of_nat n) 2) in
                        page_of page size [alice; bob; carol])
            (seq 1 (Z.to_nat pages))) = [alice; bob; carol].
Proof.
  apply (pages_cover 2 [alice; bob; carol]).
  - lia.
  - unfold maxPage. simpl. lia.
Defined.

Lemma paginate_bounds_witness :
  1 <= (paginate None).1 <= maxPage /\ 1 <= (paginate None).2 <= 100 /\
  paginate (page_request 500 101) =
    (if 500 <=? 0 then 1 else Z.min 500 maxPage,
     if (101 <=? 0) || (100 <? 101) then 20 else 101).
Proof.
  apply (paginate_bounds None 500 101); unfold in_int64, int64_min, int64_max; lia.
Defined.

Lemma handleBalance_correct_witness :
  let id := (UserIDFromContext as_alice).1 in
  wp (handleBalance as_alice "balance" None ∅)
    (fun r w' =>
       tables_of demo ≡ tables_of w' /\
       balance_coherent (tables_of demo) (redis_view (w_rd w')) /\
       or_fault (Some 0%nat) r
         ((exists u, u ∈ users (tables_of demo) /\ u_id u = id /\
             r = Ok (Reply 200 (JMap [("balance", JInt (u_balance u))])) /\
             (Some 0%nat <> None ->
              balance_of (redis_view (w_rd w')) id = Some (Itoa (u_balance u))))
          \/ (r = Ok (Reply 404 (detail "User not found")) /\
              forall u, u ∈ users (tables_of demo) -> u_id u <> id))) demo.
Proof.
  apply (handleBalance_correct (Some 0%nat) as_alice "balance" None ∅ demo).
  - exact demo_schema.
  - intros i v [=].
  - apply demo_healthy. lia.
  - unfold rwithin, redis_healthy, plan_clear. simpl. constructor.
Defined.

Definition lookup_bob : option json := Some (JObj [("username", JStr " bob ")]).

Lemma handleLookup_correct_witness :
  wp (handleLookup as_alice "lookup" lookup_bob ∅)
    (fun r w' => unchanged demo w' /\
       match lookup_request lookup_bob with
       | None => w' = demo /\ exists msg, r = Ok (Reply 400 (detail msg))
       | Some (col, val) =>
           or_fault (Some 0%nat) r
             ((exists u, u ∈ users (tables_of demo) /\ get_user col u = SText val /\
                 r = Ok (Reply 200 (JMap [("id", JInt (u_id u));
                                          ("account_number", JStr (u_account_number u));
                                          ("username", JStr (u_username u))])))
              \/ (r = Ok (Reply 404 (detail "User not found")) /\
                  forall u, u ∈ users (tables_of demo) -> get_user col u <> SText val))
       end) demo.
Proof.
  apply (handleLookup_correct (Some 0%nat) as_alice "lookup" lookup_bob ∅ demo).
  apply demo_healthy. lia.
Defined.

Lemma profile_correct_witness :
  let answer r w' := unchanged demo w' /\
    or_fault (Some 0%nat) r
      ((exists u, u ∈ users (tables_of demo) /\ u_id u = 2 /\
          r = Ok (Reply 200 (userToAdminView u)))
       \/ (r = Ok (Reply 404 (detail "User not found")) /\
           forall u, u ∈ users (tables_of demo) -> u_id u <> 2)) in
  wp (handleMe (withUserID as_admin 2) "me" None ∅) answer demo /\
  wp (handleAdminUserDetail as_admin "me" (detail_request (Itoa 2)) ∅) answer demo.
Proof.
  apply (profile_correct (Some 0%nat) as_admin "me" ∅ 2 demo).
  - apply demo_healthy. lia.
  - unfold int64_max. lia.
Defined.
