(* ===== verification/NotificationCorrect.v ===== *)
(** * Theorems on notification-service *)

From S2P Require Import Prelude GoStrings Json JsonFacts Tables Sql SqlFacts Servers Db PgFacts.
From S2P Require Import TxFacts RedisClient RedisFacts ReadFacts Consumer Notification NotificationFacts.
From S2P Require Import RefServers Demo.

Section Notifications.
Context {P R J : Type} `{PgLaws P}.
Abbreviation W := (World P R J).
Context (fmt_time : Z -> string).

(** C27. The list of notifications: at most 50, all of the user, the most
    recent ones, newest first; nothing changes and only a fault makes the
    request fail. *)
Theorem handleNotifications_own h ctx action raw headers (w : W) :
  within (plus 1 h) (w_pg w) ->
  let id := (UserIDFromContext ctx).1 in
  wp (handleNotifications fmt_time ctx action raw headers)
    (fun r w' => unchanged w w' /\
       or_fault h r
         (exists sorted, sorted ≡ₚ List.filter (own id) (notifications (tables_of w)) /\
            StronglySorted (key_ge n_created_at) sorted /\
            r = Ok (notifications_reply fmt_time (take 50 sorted)))) w.
Proof.
  intros Hp id. unfold handleNotifications. destruct (UserIDFromContext ctx) as [userID b].
  simpl in id. subst id. apply wp_bind, wp_on_pg. intros r p' E.
  pose proof (pg_all_reads _ _ _ _ (eq_refl : reads (own_notifications userID) = true) E) as Hv.
  destruct (all_bounded _ _ _ _ _ _ Hp E) as [Ho _].
  assert (forall env T, stmt_run pg_ilike (own_notifications userID) env T =
    Ok (take 50 (order_rows get_notification (Some (NCreatedAt, true))
                   (List.filter (own userID) (notifications T))), T)) as Hrun.
  { intros env T. unfold own_notifications. simpl. unfold run_query.
    cbn [q_where q_order q_limit q_offset].
    by rewrite (filter_rows_pure _ _ _ (own userID)) by (intros n; apply matches_own). }
  destruct r as [ns|e].
  - apply wp_ret. split; [done|]. left.
    apply bounded_ok in Ho as (env & T0 & T1 & (_ & _ & E0) & _ & Er & _).
    apply all_run_all in Er. rewrite Hrun in Er. injection Er as <- _.
    eexists. split; [|split; [by apply (order_rows_desc get_notification NCreatedAt)|done]].
    rewrite order_rows_perm. symmetry. by apply filter_perm.
  - apply bounded_err in Ho as [Hf [(env & T0 & x & _ & _ & Er & _)|[Hh Hn]]].
    + unfold all_run in Er. by rewrite Hrun in Er.
    + rewrite Hn. apply wp_ret. split; [done|]. right. by eauto.
Qed.

(** C26. An acknowledgement marks the named notification of the caller as read
    and touches no other row; 404 means that the caller has none of this
    identifier, whether or not somebody else has; an error leaves the tables
    as they were or, when the reply was lost, with the mark. *)
Theorem handleAck_correct h ctx action raw headers (w : W) :
  within (plus 1 h) (w_pg w) ->
  let T := tables_of w in
  let uid := (UserIDFromContext ctx).1 in
  wp (handleAck ctx action raw headers)
    (fun r w' => db_only w w' /\
       match ack_request raw with
       | None => w' = w /\ r = Ok (Reply 400 (detail "invalid payload: id required"))
       | Some id =>
           (r = Ok (Reply 200 (JMap [("status", JStr "ok")])) /\
            tables_of w' ≡ flagged id uid T /\
            exists n, n ∈ notifications T /\ owned id uid n = true)
           \/ (r = Ok (Reply 404 (detail "notification not found")) /\ tables_of w' ≡ T /\
               forall n, n ∈ notifications T -> owned id uid n = false)
           \/ (h = None /\ is_ok r = false /\
               (tables_of w' ≡ T \/ tables_of w' ≡ flagged id uid T))
       end) w.
Proof.
  intros Hp T uid. unfold handleAck, ack_request. destruct (UserIDFromContext ctx) as [userID b].
  simpl in uid. subst uid.
  destruct (unmarshal_raw decode_ackPayload raw) as [p|e]; [|by apply wp_ret].
  destruct (a_ID p =? 0); [by apply wp_ret|].
  apply wp_bind, wp_on_pg. intros r p' E.
  destruct (exec_bounded _ _ _ _ _ _ Hp E) as [Ho _]. unfold T, tables_of.
  inversion Ho as [env T0 n T1 T2 E0 He Er E1|env T0 f e T2 E0 He Er Hrep E1
    |e T2 Hh Hf E1|env T0 n T1 e T2 Hh Hl E0 He Er E1]; subst.
  - rewrite ack_run in Er. injection Er as <- <-.
    pose proof (filter_perm (owned (a_ID p) userID) _ _ (proj2 (proj2 E0))) as Hlen.
    apply Permutation_length in Hlen. rewrite <- Hlen.
    pose proof (flagged_proper (a_ID p) userID _ _ E0) as Hfl.
    destruct (List.filter (owned (a_ID p) userID) (notifications (pg_view (w_pg w))))
      as [|n ns] eqn:Ef; simpl.
    + apply wp_ret. split; [done|]. right. left. split; [done|].
      assert (forall n, n ∈ notifications (pg_view (w_pg w)) -> owned (a_ID p) userID n = false)
        as Hnone.
      { intros n Hn. destruct (owned _ _ n) eqn:En; [|done].
        assert (n ∈ List.filter (owned (a_ID p) userID) (notifications (pg_view (w_pg w)))) as Hin
          by by apply elem_of_filter_bool.
        rewrite Ef in Hin. by apply not_elem_of_nil in Hin. }
      split; [|done]. rewrite <- E1, <- Hfl. unfold flagged. split_and!; [done|done|]. simpl.
      rewrite (map_ext_in _ id); [by rewrite map_id|]. intros n Hn%list_elem_of_In.
      by rewrite (Hnone n Hn).
    + apply wp_ret. split; [done|]. left. split; [done|]. split; [by rewrite <- E1, <- Hfl|].
      exists n. apply elem_of_filter_bool. rewrite Ef. left.
  - by rewrite ack_run in Er.
  - apply wp_ret. split; [done|]. right. right. by auto.
  - rewrite ack_run in Er. injection Er as _ <-. apply wp_ret. split; [done|]. right. right.
    split; [done|]. split; [done|]. right. rewrite <- E1. symmetry. by apply flagged_proper.
Qed.
End Notifications.

(** ** Witnesses *)

Definition note1 : Notification := MkNotification 11 1 "You sent 5 to bob" false 10.
Definition note2 : Notification := MkNotification 12 2 "You received 5 from alice" false 10.

(** The demo world after a transfer, with a notification for each party. *)
Definition noted : World RefPg RefRedis RefJs :=
  set_pg demo {| rp_tables := with_notifications demo_tables [note1; note2]; rp_now := 1000;
                 rp_plan := []; rp_tx_plan := [] |}.

Lemma noted_healthy n : Z.of_nat n <= 1000 -> ref_healthy n (w_pg noted).
Proof.
  intros Hn. unfold ref_healthy, plan_clear. simpl. rewrite take_nil. split_and!; [done..|].
  change (fresh_id _) with 13. unfold int64_max. lia.
Defined.

Lemma handleNotifications_own_witness :
  let id := (UserIDFromContext as_alice).1 in
  wp (handleNotifications Itoa as_alice "notifications" None ∅)
    (fun r w' => unchanged noted w' /\
       or_fault (Some 0%nat) r
         (exists sorted, sorted ≡ₚ List.filter (own id) (notifications (tables_of noted)) /\
            StronglySorted (key_ge n_created_at) sorted /\
            r = Ok (notifications_reply Itoa (take 50 sorted)))) noted.
Proof.
  apply (handleNotifications_own Itoa (Some 0%nat) as_alice "notifications" None ∅ noted).
  apply noted_healthy. lia.
Defined.

Definition ack_11 : option json := Some (JObj [("id", JInt 11)]).

Lemma handleAck_correct_witness :
  let T := tables_of noted in
  let uid := (UserIDFromContext as_alice).1 in
  wp (handleAck as_alice "ack" ack_11 ∅)
    (fun r w' => db_only noted w' /\
       match ack_request ack_11 with
       | None => w' = noted /\ r = Ok (Reply 400 (detail "invalid payload: id required"))
       | Some id =>
           (r = Ok (Reply 200 (JMap [("status", JStr "ok")])) /\
            tables_of w' ≡ flagged id uid T /\
            exists n, n ∈ notifications T /\ owned id uid n = true)
           \/ (r = Ok (Reply 404 (detail "notification not found")) /\ tables_of w' ≡ T /\
               forall n, n ∈ notifications T -> owned id uid n = false)
           \/ (Some 0%nat = None /\ is_ok r = false /\
               (tables_of w' ≡ T \/ tables_of w' ≡ flagged id uid T))
       end) noted.
Proof.
  apply (handleAck_correct (Some 0%nat) as_alice "ack" ack_11 ∅ noted).
  apply noted_healthy. lia.
Defined.
