(* ===== verification/WebSocketCorrect.v ===== *)
(** * Theorems on the WebSocket feed

    Delivery in order, without loss and duplication, through the bounded
    channel ([ws_delivery], [ws_drains]), the end of the three goroutines
    ([ws_ends]), the presence key and the races on it. *)

From S2P Require Import Prelude GoStrings Json JsonFacts Tables Sql SqlFacts Servers Db PgFacts.
From S2P Require Import TxFacts RedisClient RedisFacts ReadFacts Consumer WebSocket.
From S2P Require Import RefServers Demo.

(** The TTL of the presence key. *)
Definition presence_ttl {P R J} (w : World P R J) : Z :=
  duration_value (default "" (h_env (w_host w) !! "PRESENCE_TTL_SECONDS")) (60 * Second).

(** ** Delivery *)

Section Feed.
Context {P R J : Type} `{RedisServer R}.
Abbreviation W := (World P R J).
Context (userID : Z).
Abbreviation step := (ws_step (P:=P) (R:=R) (J:=J) userID).

(** The message in the hand of a goroutine. *)
Definition in_fwd (p : fwd_phase) : list string := match p with FSelect m => [m] | _ => [] end.
Definition in_pump (p : pump_phase) : list string := match p with PWrite m => [m] | _ => [] end.

Definition is_open (c : Conn) : Prop :=
  match cn_pump c with PSelect | PWrite _ => True | _ => False end.

(** What has been taken out of the subscription and not been written. *)
Definition in_flight (c : Conn) : list string := in_pump (cn_pump c) ++ cn_buf c.

Record ws_inv (c : Conn) : Prop := {
  inv_buffer : (length (cn_buf c) <= notify_buffer)%nat;
  inv_prefix : cn_sent c `prefix_of` cn_published c;
  inv_order : is_open c -> cn_sent c ++ in_flight c `prefix_of` cn_published c;
  inv_whole : is_open c -> cn_fwd c <> FClosed ->
    cn_published c = cn_sent c ++ in_flight c ++ in_fwd (cn_fwd c) ++ cn_channel c;
  inv_closed : cn_fwd c = FClosed -> cn_done c = true;
  inv_unsub : cn_unsub c = true -> cn_done c = true;
  inv_returned : cn_pump c = PReturned -> cn_done c = true /\ cn_unsub c = true;
  inv_beat : cn_beat c = BReturned -> cn_done c = true;
}.

Lemma inv_opened : ws_inv ws_opened.
Proof. split; simpl; try done. unfold notify_buffer. lia. Qed.

Ltac inv_auto :=
  split; unfold is_open, in_flight in *; cbn in *; rewrite ?app_nil_r, <- ?app_assoc in *; auto;
    try done; try (rewrite ?length_app; simpl; lia).

Lemma inv_fwd c c' : fwd_step c c' -> ws_inv c -> ws_inv c'.
Proof.
  intros Hs [Hb Hp Ho Hw Hc Hu Hr Hbt].
  destruct Hs as [pub m ch buf pump sent beat dn un|pub ch m buf pump sent beat dn un Hlt
    |pub ch m buf pump sent beat un|pub buf pump sent beat dn]; inv_auto.
  intros Hopen. rewrite (Hw Hopen) by done. exists ch. by rewrite <- !app_assoc.
Qed.

Lemma inv_pump s s' : pump_step (P:=P) (R:=R) (J:=J) userID s s' -> ws_inv s.1 -> ws_inv s'.1.
Proof.
  intros Hs [Hb Hp Ho Hw Hc Hu Hr Hbt].
  destruct Hs; inv_auto.
  destruct (Ho I) as [l ->]. exists (buf ++ l). by rewrite <- !app_assoc.
Qed.

Lemma inv_beat_step s s' : beat_step (P:=P) (R:=R) (J:=J) userID s s' -> ws_inv s.1 -> ws_inv s'.1.
Proof.
  intros Hs [Hb Hp Ho Hw Hc Hu Hr Hbt]. destruct Hs; inv_auto.
Qed.

Lemma inv_env s s' : env_step (P:=P) (R:=R) (J:=J) s s' -> ws_inv s.1 -> ws_inv s'.1.
Proof.
  intros Hs Hi. destruct Hs; [destruct Hi as [Hb Hp Ho Hw Hc Hu Hr Hbt]..|exact Hi]; inv_auto.
  - intros E. split; [done|by apply Hr].
  - by apply prefix_app_r.
  - intros Hopen. apply prefix_app_r. auto.
  - intros Hopen Hf. rewrite (Hw Hopen Hf). by rewrite <- !app_assoc.
Qed.

Lemma inv_step s s' : step s s' -> ws_inv s.1 -> ws_inv s'.1.
Proof.
  intros [[c c' w Hs|s1 s2 Hs|s1 s2 Hs]|Hs]; [by apply inv_fwd|by apply inv_pump|
    by apply inv_beat_step|by apply inv_env].
Qed.

Lemma inv_steps s s' : rtc step s s' -> ws_inv s.1 -> ws_inv s'.1.
Proof. induction 1 as [|s1 s2 s3 Hs _ IH]; [done|]. intros Hi. apply IH. by eapply inv_step. Qed.

(** C20. The feed delivers what was published, in order: at every moment of
    every run what the client has received is a prefix of the messages that
    the subscription was handed, none twice and none left out in between;
    the channel holds at most 16; and as long as the connection is open and
    not cancelled no message is lost: each is written, in the hand of a
    goroutine, in the channel or still in the subscription. *)
Theorem ws_delivery (w : W) c w' :
  rtc step (ws_opened, w) (c, w') ->
  (length (cn_buf c) <= notify_buffer)%nat /\
  ws_frames c `prefix_of` map ws_frame (cn_published c) /\
  (is_open c -> cn_done c = false ->
   cn_published c = cn_sent c ++ in_flight c ++ in_fwd (cn_fwd c) ++ cn_channel c).
Proof.
  intros Hs. pose proof (inv_steps _ _ Hs inv_opened) as [Hb Hp _ Hw Hc _ _ _]. simpl in *.
  split_and!; [done| |].
  - destruct Hp as [l ->]. unfold ws_frames. rewrite map_app. by eexists.
  - intros Hopen Hd. apply Hw; [done|]. intros Hf. specialize (Hc Hf). congruence.
Qed.

(** ** The connection comes to rest *)

Definition fwd_weight (p : fwd_phase) : nat := match p with FRange => 1 | FSelect _ => 4 | FClosed => 0 end.
Definition pump_weight (p : pump_phase) : nat :=
  match p with PSelect => 4 | PWrite _ => 5 | PDisconnect => 2 | PReturned => 0 end.
Definition beat_weight (p : beat_phase) : nat := match p with BSet => 2 | BSelect => 1 | BReturned => 0 end.

Definition weight (c : Conn) : nat :=
  5 * length (cn_channel c) + fwd_weight (cn_fwd c) + 2 * length (cn_buf c) +
  pump_weight (cn_pump c) + beat_weight (cn_beat c).

Lemma own_weight s s' : own_step (P:=P) (R:=R) (J:=J) userID s s' -> (weight s'.1 < weight s.1)%nat.
Proof.
  intros [c c' w Hs|s1 s2 Hs|s1 s2 Hs]; destruct Hs; unfold weight; cbn;
    rewrite ?length_app; cbn; lia.
Qed.

Lemma own_acc (s : Conn * W) : Acc (fun y x => own_step userID x y) s.
Proof.
  remember (weight s.1) as n eqn:En. revert s En. induction (lt_wf n) as [n _ IH]. intros s ->.
  constructor. intros s' Hs. eapply IH; [by apply own_weight|done].
Qed.

Lemma own_done s s' :
  own_step (P:=P) (R:=R) (J:=J) userID s s' -> cn_done s.1 = true -> cn_done s'.1 = true.
Proof. intros [c c' w Hs|s1 s2 Hs|s1 s2 Hs]; by destruct Hs. Qed.

Definition all_returned (c : Conn) : Prop :=
  cn_fwd c = FClosed /\ cn_pump c = PReturned /\ cn_beat c = BReturned.

(** A cancelled connection always has something to do until all have
    returned. *)
Lemma own_progress c (w : W) :
  ws_inv c -> cn_done c = true -> all_returned c \/ exists s', own_step userID (c, w) s'.
Proof.
  intros [_ _ _ _ _ _ Hr _] Hd.
  destruct c as [pub ch fwd buf pump sent beat dn un]. cbn in *. subst dn.
  destruct beat; [right; eexists; apply own_beat, beat_set|right; eexists; apply own_beat, beat_cancelled|].
  destruct pump as [|m| |];
    [right; eexists; apply own_pump, pump_cancelled|right; eexists; apply own_pump, pump_written
    |right; eexists; apply own_pump, pump_disconnect|].
  destruct (Hr eq_refl) as [_ ->].
  destruct fwd as [|m|]; [right|right; eexists; apply own_fwd, fwd_cancelled|by left].
  destruct ch as [|m ch]; eexists; apply own_fwd; [apply fwd_unsubscribed|apply fwd_receive].
Qed.

(** C21. A connection that is cancelled, because the client left or the
    handler gave up, ends: without new messages and ticks its goroutines
    cannot run forever, whatever Redis answers and whether writes succeed,
    and when none of them can go on all three have returned; no goroutine is
    left behind. *)
Theorem ws_ends (w : W) s :
  rtc step (ws_opened, w) s -> cn_done s.1 = true ->
  Acc (fun y x => own_step userID x y) s /\
  forall s', rtc (own_step userID) s s' -> (forall s'', ~ own_step userID s' s'') -> all_returned s'.1.
Proof.
  intros Hs Hd. split; [apply own_acc|]. intros s' Hrun Hstop.
  pose proof (inv_steps _ _ Hs inv_opened) as Hi. clear Hs.
  induction Hrun as [s|s1 s2 s3 Hs12 _ IH].
  - destruct s as [c w0]. destruct (own_progress c w0 Hi Hd) as [Hall|[s' Hs']]; [done|].
    by apply Hstop in Hs'.
  - apply IH; [by eapply own_done|done|]. apply (inv_step s1 s2); [by left|done].
Qed.

(** The moves of an open connection that nothing disturbs: no write fails. *)
Definition deliver (s s' : Conn * W) : Prop :=
  (exists c c' w, s = (c, w) /\ s' = (c', w) /\ fwd_step c c') \/
  (pump_step userID s s' /\ is_open s'.1).

Lemma deliver_own s s' : deliver s s' -> own_step userID s s'.
Proof. intros [(c & c' & w & -> & -> & Hs)|[Hs _]]; by constructor. Qed.

Lemma deliver_open s s' :
  deliver s s' -> is_open s.1 -> cn_done s.1 = false ->
  is_open s'.1 /\ cn_done s'.1 = false /\ cn_published s'.1 = cn_published s.1.
Proof.
  intros [(c & c' & w & -> & -> & Hs)|[Hs Ho]]; [by destruct Hs|]. by destruct Hs.
Qed.

Lemma deliver_progress c (w : W) :
  ws_inv c -> is_open c -> cn_done c = false ->
  cn_sent c = cn_published c \/ exists s', deliver (c, w) s'.
Proof.
  intros [_ _ _ Hw Hc Hu _ _] Ho Hd.
  destruct c as [pub ch fwd buf pump sent beat dn un]. cbn in *. subst dn.
  destruct pump as [|m| |]; [|right; eexists; right; by split; [apply pump_written|]|done|done].
  destruct buf as [|m buf]; [|right; eexists; right; by split; [apply pump_receive|]].
  destruct fwd as [|m|].
  - destruct ch as [|m ch].
    + left. rewrite (Hw I) by done. by rewrite app_nil_r.
    + right. eexists. left. do 3 eexists. split_and!; [done|done|apply fwd_receive].
  - right. eexists. left. do 3 eexists. split_and!; [done|done|apply fwd_send].
    unfold notify_buffer. simpl. lia.
  - specialize (Hc eq_refl). done.
Qed.

(** C22. Nothing gets stuck: from any state of an open connection that is not
    cancelled, the forwarder and the pump alone bring every message that was
    published to the client, also when the channel is full. *)
Theorem ws_drains (w : W) s :
  rtc step (ws_opened, w) s -> is_open s.1 -> cn_done s.1 = false ->
  Acc (fun y x => deliver x y) s /\
  forall s', rtc deliver s s' -> (forall s'', ~ deliver s' s'') ->
    cn_sent s'.1 = cn_published s.1.
Proof.
  intros Hs Ho Hd. split.
  { pose proof (own_acc s) as Ha. clear -Ha. induction Ha as [s _ IH]. constructor. intros s' Hs.
    by apply IH, deliver_own. }
  intros s' Hrun Hstop. pose proof (inv_steps _ _ Hs inv_opened) as Hi. clear Hs.
  induction Hrun as [s|s1 s2 s3 Hs12 _ IH].
  - destruct s as [c w0]. destruct (deliver_progress c w0 Hi Ho Hd) as [E|[s' Hs']]; [done|].
    by apply Hstop in Hs'.
  - destruct (deliver_open _ _ Hs12 Ho Hd) as (Ho2 & Hd2 & <-). apply IH; [done..|].
    apply (inv_step s1 s2); [left; by apply deliver_own|done].
Qed.
End Feed.

(** ** Presence and authentication *)

Section Presence.
Context {P R J : Type} `{RedisLaws R}.
Abbreviation W := (World P R J).
Abbreviation online w u := (live_get (redis_view (w_rd w)) (presence_key u)).

(** The heartbeat: a tick that meets no fault shows the user as online
    for exactly the TTL, of which the interval is a third, so two ticks can be
    missed; below three nanoseconds the interval is 0, for which
    [time.NewTicker] panics. *)
Theorem presence_heartbeat userID (w : W) :
  redis_healthy 1 (w_rd w) -> 0 < presence_ttl w ->
  wp (let* i := presenceHeartbeatInterval in
      let* err := SetPresence userID true in ret (i, err))
    (fun '(i, err) w' =>
       err = None /\ 3 * i <= presence_ttl w < 3 * i + 3 /\
       forall d, 0 <= d ->
         live_get (advance d (redis_view (w_rd w'))) (presence_key userID) =
           if d <? presence_ttl w then Some "online" else None) w.
Proof.
  intros Hh Httl. unfold presenceHeartbeatInterval, PresenceTTL, presenceTTL, SetPresence.
  unfold presenceTTL. repeat first [apply wp_bind|apply wp_getenv|apply wp_ret].
  apply (rset_spec 0 (Some 0%nat)); [done|]. intros w' _ _ _. split; [|done].
  intros Hs. apply wp_ret, wp_ret, wp_ret. split; [done|]. fold (presence_ttl w) in *. split.
  - rewrite Z.quot_div_nonneg by lia. pose proof (Z.div_mod (presence_ttl w) 3 ltac:(lia)).
    pose proof (Z.mod_pos_bound (presence_ttl w) 3 ltac:(lia)). lia.
  - intros d Hd. by apply (was_set_until _ _ _ _ _ d Hs).
Qed.

(** The end of any connection of a user removes the presence key, also
    when other connections of the same user are open: until their next tick
    the user is shown as offline. *)
Theorem presence_closed_offline userID (w : W) :
  redis_healthy 2 (w_rd w) ->
  wp (let* _ := SetPresence userID true in    (* connection A *)
      SetPresence userID false)               (* connection B *)
    (fun err w' => err = None /\ online w' userID = None) w.
Proof.
  intros Hh. unfold SetPresence, presenceTTL.
  repeat first [apply wp_bind|apply wp_getenv|apply wp_ret].
  apply (rset_spec 1 (Some 0%nat)); [done|]. intros w1 _ _ Hh1. split; [|done].
  intros _. apply wp_ret, wp_ret. repeat apply wp_bind.
  apply (rdel_spec 0 (Some 0%nat)); [done|]. intros w2 _ _. split; [|done].
  intros x (d & _ & Hl). apply wp_ret, wp_ret. split; [done|].
  by rewrite Hl, bool_decide_eq_true_2.
Qed.

(** The WebSocket is opened exactly for a live session, for its user;
    without one the answer is 401, on a fault 500. *)
Theorem ws_authenticate_session h sid (w : W) :
  rwithin (plus 1 h) (w_rd w) ->
  wp (ws_authenticate sid)
    (fun r w' => waited w w' /\
       match r with
       | Ok userID => session_of (redis_view (w_rd w')) sid = Some userID
       | Err (401, _) => session_of (redis_view (w_rd w')) sid = None
       | Err (st, _) => st = 500 /\ h = None
       end) w.
Proof.
  intros Hw. unfold ws_authenticate. case_bool_decide as Hs.
  { apply wp_ret. split.
    - split; [reflexivity|]. exists 0. split; [lia|].
      destruct (redis_view (w_rd w)). unfold advance. simpl. by rewrite Z.add_0_r.
    - unfold session_of. by rewrite bool_decide_eq_true_2. }
  apply wp_bind, (GetUserIDFromSession_spec 0 h); [done|]. intros w' Hwt _. split.
  - destruct (session_of (redis_view (w_rd w')) sid) eqn:E; by apply wp_ret.
  - intros e Hh He. destruct (redis_fault_facts _ He) as [_ Hf].
    assert (errors_Is (EWrap "get session" e) ErrUnauthorized = false) as ->
      by (by apply (foreign_not_app (EWrap "get session" e) "unauthorized")).
    by apply wp_ret.
Qed.

(** The frame of an event: what the browser parses is the event that the
    transfer published, as an object and not as an escaped string; a text
    that is no JSON arrives as a string and is not lost. *)
Theorem ws_frame_event (e : TransferCompleted) (msg : string) :
  in_int64 (TransferID e) -> in_int64 (Amount e) -> in_int64 (SenderID e) ->
  in_int64 (SenderBalance e) -> in_int64 (ReceiverID e) -> in_int64 (ReceiverBalance e) ->
  utf8_valid msg = true -> Unmarshal msg = None ->
  Unmarshal (Marshal (ws_frame (Marshal (encode_TransferCompleted e)))) =
    Some (JObj [("event", encode_TransferCompleted e)]) /\
  Unmarshal (Marshal (ws_frame msg)) = Some (JObj [("event", JStr msg)]).
Proof.
  intros. unfold ws_frame at 2.
  match goal with H : Unmarshal msg = None |- _ => rewrite H end. split.
  - assert (json_wf (encode_TransferCompleted e)) as Hwf
      by (unfold encode_TransferCompleted; wf_object).
    unfold ws_frame. rewrite (parse_print _ Hwf) by done. apply parse_print; [|done].
    constructor. apply member_wf; [by vm_compute|done|constructor].
  - apply parse_print; [|done].
    constructor. apply member_wf; [by vm_compute|by constructor|constructor].
Qed.
End Presence.

(** ** Witnesses *)

Lemma presence_heartbeat_witness :
  wp (let* i := presenceHeartbeatInterval in
      let* err := SetPresence 1 true in ret (i, err))
    (fun '(i, err) w' =>
       err = None /\ 3 * i <= presence_ttl demo < 3 * i + 3 /\
       forall d, 0 <= d ->
         live_get (advance d (redis_view (w_rd w'))) (presence_key 1) =
           if d <? presence_ttl demo then Some "online" else None) demo.
Proof.
  apply (presence_heartbeat 1 demo).
  - unfold redis_healthy, plan_clear. simpl. constructor.
  - vm_compute. reflexivity.
Defined.

Lemma presence_closed_offline_witness :
  wp (let* _ := SetPresence 1 true in SetPresence 1 false)
    (fun err w' => err = None /\
       live_get (redis_view (w_rd w')) (presence_key 1) = None) demo.
Proof.
  apply (presence_closed_offline 1 demo).
  unfold redis_healthy, plan_clear. simpl. constructor.
Defined.

Lemma ws_authenticate_session_witness :
  wp (ws_authenticate "sid0")
    (fun r w' => waited demo w' /\
       match r with
       | Ok userID => session_of (redis_view (w_rd w')) "sid0" = Some userID
       | Err (401, _) => session_of (redis_view (w_rd w')) "sid0" = None
       | Err (st, _) => st = 500 /\ Some 0%nat = None
       end) demo.
Proof.
  apply (ws_authenticate_session (Some 0%nat) "sid0" demo).
  unfold rwithin, redis_healthy, plan_clear. simpl. constructor.
Defined.

Lemma ws_frame_event_witness :
  let e := MkTransferCompleted 4 200 1 300 2 270 in
  Unmarshal (Marshal (ws_frame (Marshal (encode_TransferCompleted e)))) =
    Some (JObj [("event", encode_TransferCompleted e)]) /\
  Unmarshal (Marshal (ws_frame "hello")) = Some (JObj [("event", JStr "hello")]).
Proof.
  apply (ws_frame_event (MkTransferCompleted 4 200 1 300 2 270) "hello");
    [unfold in_int64, int64_min, int64_max; simpl; lia..|vm_compute; reflexivity|
     vm_compute; reflexivity].
Defined.

(** ** Runs of a connection *)

Definition demo_ws_step := ws_step (P:=RefPg) (R:=RefRedis) (J:=RefJs) 1.

Ltac run_step t := eapply rtc_l; [t|].

(** Two messages; the first is written, the second is in the hand of the
    pump. *)
Definition two_messages : Conn :=
  MkConn ["m1"; "m2"] [] FRange [] (PWrite "m2") ["m1"] BSet false false.

Lemma two_messages_reached : rtc demo_ws_step (ws_opened, demo) (two_messages, demo).
Proof.
  run_step ltac:(right; apply (env_publish [] [] FRange [] PSelect [] BSet false demo "m1")).
  run_step ltac:(left; apply own_fwd, fwd_receive).
  run_step ltac:(right; apply (env_publish ["m1"] [] (FSelect "m1") [] PSelect [] BSet false demo "m2")).
  run_step ltac:(left; apply own_fwd, fwd_send; vm_compute; lia).
  run_step ltac:(left; apply own_fwd, fwd_receive).
  run_step ltac:(left; apply own_pump, pump_receive).
  run_step ltac:(left; apply own_fwd, fwd_send; vm_compute; lia).
  run_step ltac:(left; apply own_pump, pump_written).
  run_step ltac:(left; apply own_pump, pump_receive).
  apply rtc_refl.
Qed.

Lemma ws_delivery_witness :
  (length (cn_buf two_messages) <= notify_buffer)%nat /\
  ws_frames two_messages `prefix_of` map ws_frame (cn_published two_messages) /\
  (is_open two_messages -> cn_done two_messages = false ->
   cn_published two_messages = cn_sent two_messages ++ in_flight two_messages ++
     in_fwd (cn_fwd two_messages) ++ cn_channel two_messages).
Proof. apply (ws_delivery 1 demo two_messages demo two_messages_reached). Defined.

Lemma ws_drains_witness :
  Acc (fun y x => deliver (P:=RefPg) (R:=RefRedis) (J:=RefJs) 1 x y) (two_messages, demo) /\
  forall s', rtc (deliver 1) (two_messages, demo) s' -> (forall s'', ~ deliver 1 s' s'') ->
    cn_sent s'.1 = ["m1"; "m2"].
Proof. apply (ws_drains 1 demo (two_messages, demo) two_messages_reached); done. Defined.

(** The client leaves while both the pump and the heartbeat are busy. *)
Definition left_early : Conn :=
  MkConn ["m1"; "m2"] [] FRange [] (PWrite "m2") ["m1"] BSet true false.

Lemma left_early_reached : rtc demo_ws_step (ws_opened, demo) (left_early, demo).
Proof.
  eapply rtc_r; [exact two_messages_reached|]. right. apply env_leave.
Qed.

Lemma ws_ends_witness :
  Acc (fun y x => own_step (P:=RefPg) (R:=RefRedis) (J:=RefJs) 1 x y) (left_early, demo) /\
  forall s', rtc (own_step 1) (left_early, demo) s' -> (forall s'', ~ own_step 1 s' s'') ->
    all_returned s'.1.
Proof. apply (ws_ends 1 demo (left_early, demo) left_early_reached eq_refl). Defined.

(** The presence key can outlive the connection: the call of a heartbeat that
    is under way when the client leaves reaches Redis after the DEL of
    [disconnect]. All goroutines have returned and the user is shown as online
    until the TTL has passed. *)
Theorem presence_late_heartbeat : exists c w',
  rtc demo_ws_step (ws_opened, demo) (c, w') /\ all_returned c /\
  live_get (redis_view (w_rd w')) (presence_key 1) = Some "online" /\
  live_get (advance (presence_ttl demo) (redis_view (w_rd w'))) (presence_key 1) = None.
Proof.
  do 2 eexists. split_and!.
  - run_step ltac:(left; apply own_beat, beat_set).
    run_step ltac:(right; apply env_tick).
    run_step ltac:(right; apply env_leave).
    run_step ltac:(left; apply own_pump, pump_cancelled).
    run_step ltac:(left; apply own_pump, pump_disconnect).
    run_step ltac:(left; apply own_beat, beat_set).
    run_step ltac:(left; apply own_beat, beat_cancelled).
    run_step ltac:(left; apply own_fwd, fwd_unsubscribed).
    apply rtc_refl.
  - done.
  - vm_compute. reflexivity.
  - vm_compute. reflexivity.
Qed.
