(* ===== verification/EventsCorrect.v ===== *)
(** * Theorems on the durable event of a transfer and its projection *)

From S2P Require Import Prelude GoStrings Json JsonFacts Tables Sql SqlFacts Servers Db PgFacts.
From S2P Require Import TxFacts RedisClient RedisFacts ReadFacts Consumer Transfer TransferFacts.
From S2P Require Import Events RefServers Demo.

(** ** Facts and definitions *)

(** The numbers of an event fit an [int64]. *)
Definition event_ok (e : TransferCompleted) : Prop :=
  in_int64 (TransferID e) /\ in_int64 (Amount e) /\ in_int64 (SenderID e) /\
  in_int64 (SenderBalance e) /\ in_int64 (ReceiverID e) /\ in_int64 (ReceiverBalance e).

Definition event_text (e : TransferCompleted) : string := Marshal (encode_TransferCompleted e).

Lemma event_text_decodes e :
  event_ok e -> unmarshal_text decode_TransferCompleted (event_text e) = Ok e.
Proof. intros (?&?&?&?&?&?). by apply TransferCompleted_text. Qed.

(** The message of an event, stored at time [t]. *)
Definition event_message (e : TransferCompleted) (t : Z) : JsMsg :=
  {| jm_subject := SubjectTransferCompleted; jm_id := Itoa (TransferID e);
     jm_data := event_text e; jm_time := t |}.

(** The balance that the last event on a user carries. *)
Definition event_balance (e : TransferCompleted) (i : Z) : option Z :=
  if i =? ReceiverID e then Some (ReceiverBalance e)
  else if i =? SenderID e then Some (SenderBalance e) else None.

Fixpoint last_balance (es : list TransferCompleted) (i : Z) : option Z :=
  match es with
  | [] => None
  | e :: es' =>
      match last_balance es' i with Some b => Some b | None => event_balance e i end
  end.

(** The read model after [s] when the events were applied in this order. *)
Definition projected (es : list TransferCompleted) (s s' : RedisState) : Prop :=
  forall i, balance_of s' i =
    match last_balance es i with Some b => Some (Itoa b) | None => balance_of s i end.

Lemma balance_batch_get s d sid sb rid rb i :
  balance_of (redis_run_all (balance_batch sid sb rid rb) (advance d s)) i =
    if i =? rid then Some (Itoa rb) else if i =? sid then Some (Itoa sb) else balance_of s i.
Proof.
  unfold balance_of, balance_batch. cbn [redis_run_all redis_run snd].
  rewrite !hash_get_set.
  destruct (Z.eqb_spec i rid) as [->|Hr]; [by rewrite bool_decide_eq_true_2|].
  rewrite bool_decide_eq_false_2 by (intros [_ E]; apply Itoa_inj in E; congruence).
  destruct (Z.eqb_spec i sid) as [->|Hs]; [by rewrite bool_decide_eq_true_2|].
  by rewrite bool_decide_eq_false_2 by (intros [_ E]; apply Itoa_inj in E; congruence).
Qed.

Section Publish.
Context {P R J : Type} `{JetStreamLaws J}.
Abbreviation W := (World P R J).

(** [n] attempts to publish the same event, whatever each one reports. *)
Fixpoint publish_repeatedly (n : nat) (e : TransferCompleted) : M W (list (option goerr)) :=
  match n with
  | O => ret []
  | S n' =>
      let* r := PublishTransferEvent e in
      let* rs := publish_repeatedly n' e in
      ret (r :: rs)
  end.

(** What the stream holds after attempts that started at [s0]: one message
    more; unless one was acknowledged ([sure]) possibly none. *)
Definition published (e : TransferCompleted) (s0 s : JsState) (sure : bool) : Prop :=
  (sure = false /\ js_log s = js_log s0) \/
  exists t, js_now s0 <= t <= js_now s /\ js_log s = js_log s0 ++ [event_message e t].

Abbreviation jview w := (js_view (w_js w)).

Lemma append_published e s0 s b :
  Forall (fun m => jm_id m <> Itoa (TransferID e)) (js_log s0) ->
  js_now s0 <= js_now s -> js_now s - js_now s0 < js_window -> published e s0 s b ->
  published e s0 (js_append js_window SubjectTransferCompleted (Itoa (TransferID e))
                    (event_text e) s) true.
Proof.
  intros Hfresh Hnow Hwin Hp. unfold js_append.
  assert (forall t, js_duplicate t {| js_now := js_now s; js_log := js_log s0 |}
                      (Itoa (TransferID e)) = false) as Hold.
  { intros t. unfold js_duplicate. cbn [js_log js_now]. induction Hfresh as [|m l Hm _ IH]; [done|].
    simpl. by rewrite bool_decide_eq_false_2. }
  destruct Hp as [[_ E]|(t & Ht & E)].
  - assert (js_duplicate js_window s (Itoa (TransferID e)) = false) as ->.
    { rewrite <- (Hold js_window). unfold js_duplicate. by rewrite E. }
    right. exists (js_now s). split; [simpl; lia|]. simpl. by rewrite E.
  - assert (js_duplicate js_window s (Itoa (TransferID e)) = true) as ->.
    { unfold js_duplicate. rewrite E, existsb_app. apply orb_true_iff. right. simpl.
      rewrite bool_decide_eq_true_2 by done. simpl. rewrite orb_false_r. lia. }
    right. eauto.
Qed.

Lemma advance_published e s0 s d b :
  0 <= d -> published e s0 s b -> published e s0 (js_advance d s) b.
Proof.
  intros Hd [[-> E]|(t & Ht & E)]; [by left|]. right. exists t. split; [simpl; lia|done].
Qed.

Lemma published_weaken e s0 s b : published e s0 s b -> published e s0 s false.
Proof. intros [[_ E]|?]; [by left|by right]. Qed.

Lemma publish_repeatedly_spec n e s0 (w : W) :
  Forall (fun m => jm_id m <> Itoa (TransferID e)) (js_log s0) ->
  js_now s0 <= js_now (jview w) ->
  wp (publish_repeatedly n e)
    (fun rs w' => js_now (jview w) <= js_now (jview w') /\
       forall b, published e s0 (jview w) b -> js_now (jview w') - js_now s0 < js_window ->
         published e s0 (jview w') (b || existsb (fun r => bool_decide (r = None)) rs)) w.
Proof.
  intros Hfresh. revert w. induction n as [|n IH]; intros w Hnow.
  { apply wp_ret. split; [lia|]. intros b Hp _. by rewrite orb_false_r. }
  cbn [publish_repeatedly]. apply wp_bind. unfold PublishTransferEvent.
  apply wp_bind, wp_on_js. intros r j' E. apply js_publish_law in E as (d & Hd & Hv).
  fold (event_text e) in Hv.
  set (w1 := set_js w j'). set (s1 := js_advance d (jview w)).
  assert (js_now (jview w1) = js_now s1) as Enow.
  { subst w1 s1. simpl. unfold js_append in Hv.
    destruct r; [destruct Hv as [->| ->]; [done|by case_match]|rewrite Hv; by case_match]. }
  assert (js_now (jview w) <= js_now s1) as Hmono by (subst s1; simpl; lia).
  assert (forall b, published e s0 (jview w) b -> js_now s1 - js_now s0 < js_window ->
            published e s0 (jview w1) (b || bool_decide (r = None))) as Hstep.
  { intros b Hb Hwin. apply (advance_published _ _ _ d) in Hb; [|done].
    pose proof (append_published e s0 s1 b Hfresh ltac:(lia) Hwin Hb) as Happ.
    subst w1. simpl. destruct r as [err|].
    - rewrite orb_false_r. destruct Hv as [->| ->]; [done|].
      destruct b; [done|by eapply published_weaken].
    - rewrite Hv. by rewrite orb_true_r. }
  assert (wp (let* rs := publish_repeatedly n e in
              ret (match r with Some err => Some (EWrap "publish transfer event" err) | None => None end :: rs))
    (fun rs w' => js_now (jview w) <= js_now (jview w') /\
       forall b, published e s0 (jview w) b -> js_now (jview w') - js_now s0 < js_window ->
         published e s0 (jview w') (b || existsb (fun r => bool_decide (r = None)) rs)) w1) as Hrest.
  { apply wp_bind. eapply wp_mono; [apply IH; lia|]. intros rs w' [Hm Hp]. apply wp_ret.
    split; [lia|]. intros b Hb Hwin. simpl. rewrite orb_assoc.
    replace (bool_decide (match r with Some err => Some (EWrap "publish transfer event" err)
                          | None => None end = None)) with (bool_decide (r = None))
      by (by destruct r).
    apply Hp; [|done]. apply Hstep; [done|lia]. }
  by destruct r; apply wp_ret.
Qed.

(** Deduplication: however often the event of a transfer is published
    within the duplicate window of the stream, and whatever the attempts
    report, the stream gets at most one message for it, and exactly one as
    soon as an attempt was acknowledged. *)
Theorem publish_deduplicated n e (w : W) :
  Forall (fun m => jm_id m <> Itoa (TransferID e)) (js_log (jview w)) ->
  js_window = sc_duplicates InitStream ->
  wp (publish_repeatedly n e)
    (fun rs w' => js_now (jview w') - js_now (jview w) < 5 * Minute ->
       (js_log (jview w') = js_log (jview w) /\ Forall (fun r => r <> None) rs) \/
       exists t, js_log (jview w') = js_log (jview w) ++ [event_message e t]) w.
Proof.
  intros Hfresh Hwin. eapply wp_mono; [by apply (publish_repeatedly_spec n e (jview w))|].
  intros rs w' [_ Hp] Ht.
  destruct (Hp false) as [[Hs E]|(t & _ & E)]; [by left|by rewrite Hwin| |by eauto].
  left. split; [done|]. apply Forall_forall. intros r Hr ->.
  simpl in Hs. apply not_true_iff_false in Hs. apply Hs, existsb_exists.
  exists None. split; [by apply list_elem_of_In|done].
Qed.
End Publish.

Section Projection.
Context {P R J : Type} `{RedisLaws R}.
Abbreviation W := (World P R J).
Abbreviation rview w := (redis_view (w_rd w)).

Lemma project_message_spec k h e Q (w : W) :
  event_ok e -> rwithin (plus (S k) h) (w_rd w) ->
  (forall w', rd_only w w' -> rwithin (plus k h) (w_rd w') ->
     projected [e] (rview w) (rview w') -> Q VAck w') ->
  (forall w', h = None -> rd_only w w' -> Q (VNakWithDelay 5) w') ->
  wp (project_message (event_text e)) Q w.
Proof.
  intros He Hw Hok Herr. unfold project_message. rewrite event_text_decodes by done.
  apply wp_bind. unfold SetBalanceBatch. apply (rpipe_spec k h); [done| |].
  - intros d w' Hd Hrd Hw' E. apply wp_ret, Hok; [done..|]. intros i. rewrite E, balance_batch_get.
    unfold last_balance, event_balance. by repeat case_match.
  - intros d n x w' Hh _ _ Hrd _. by apply wp_ret, Herr.
Qed.

(** C19. The projection rebuilds the read model: when the events of a stream
    are delivered, each user ends with the balance that the last delivered
    event on the user carries, and users without events keep theirs; without
    faults every event is acknowledged. The order of delivery decides: an
    older event that is delivered after a newer one wins. *)
Theorem projection_replay h es (w : W) :
  Forall event_ok es -> rwithin (plus (length es) h) (w_rd w) ->
  wp (project_all (map event_text es))
    (fun vs w' => rd_only w w' /\
       (Forall (fun v => v = VAck) vs -> projected es (rview w) (rview w')) /\
       (h <> None -> length vs = length es /\ Forall (fun v => v = VAck) vs)) w.
Proof.
  intros Hes. revert w. induction Hes as [|e es He Hes IH]; intros w Hw.
  { apply wp_ret. split; [done|]. split; [by intros _ i|by intros _]. }
  cbn [map project_all]. apply wp_bind, (project_message_spec (length es) h); [done|done| |].
  - intros w1 Hrd1 Hw1 Hp1. apply wp_bind. eapply wp_mono; [by apply IH|].
    intros vs w' (Hrd & Hp & Hall). apply wp_ret. split; [by etransitivity|]. split.
    + intros [_ Hvs]%Forall_cons i. rewrite (Hp Hvs i), (Hp1 i). simpl.
      by destruct (last_balance es i).
    + intros Hh. destruct (Hall Hh). simpl. split; [lia|by constructor].
  - intros w1 Hh Hrd1. apply wp_bind.
    assert (rwithin (plus (length es) h) (w_rd w1)) as Hw1 by by subst.
    eapply wp_mono; [by apply IH|]. intros vs w' (Hrd & _ & _). apply wp_ret.
    split; [by etransitivity|]. split; [by intros [? _]%Forall_cons|done].
Qed.

(** What the projection tells the server: it acknowledges exactly the
    messages whose balances it wrote; a text that is no event is refused at
    once and a failure of Redis asks for a redelivery after five seconds;
    keys other than the balances are untouched in every case. *)
Theorem projection_verdict data (w : W) :
  wp (project_message data)
    (fun v w' => rd_only w w' /\ rs_kv (rview w') = rs_kv (rview w) /\
       match unmarshal_text decode_TransferCompleted data with
       | Err _ => v = VNak /\ w' = w
       | Ok e => (v = VAck /\ projected [e] (rview w) (rview w')) \/ v = VNakWithDelay 5
       end) w.
Proof.
  unfold project_message. destruct (unmarshal_text _ data) as [e|err]; [|by apply wp_ret].
  apply wp_bind. unfold SetBalanceBatch. apply (rpipe_spec 0 None); [done| |].
  - intros d w' Hd Hrd _ E. apply wp_ret. split; [done|]. rewrite E. split; [done|]. left.
    split; [done|]. intros i. rewrite balance_batch_get.
    unfold last_balance, event_balance. by repeat case_match.
  - intros d n x w' _ _ _ Hrd E. apply wp_ret. split; [done|]. split; [|by right]. rewrite E.
    by destruct n as [|[|[|n]]].
Qed.
End Projection.

(** ** The transfer and its event *)

Lemma transferred_event senderID raw p T res T' :
  schema_ok T -> accepts raw = Some p -> transferred senderID p T res T' ->
  event_ok (event_of p res) /\ SenderID (event_of p res) = senderID /\
  forall u, u ∈ users T' -> u_id u = SenderID (event_of p res) \/ u_id u = ReceiverID (event_of p res) ->
    event_balance (event_of p res) (u_id u) = Some (u_balance u).
Proof.
  intros Hok Hacc Ht. pose proof (accepts_amount _ _ Hacc) as Ha.
  destruct (transferred_parties _ _ _ _ _ Hok Ht) as (Hs & Hne & Hps & Hpr).
  split; [|split; [done|]].
  - pose proof (transferred_range _ _ _ _ _ Hok Ht Ha) as Hr. unfold event_ok, event_of. simpl.
    tauto.
  - intros u Hu Hid. unfold event_balance, event_of in *. simpl in *.
    destruct (Z.eqb_spec (u_id u) (r_receiverID res)) as [E|E].
    + by destruct (Hpr u Hu E) as [-> _].
    + destruct Hid as [Hid|?]; [|done]. rewrite Hid, Z.eqb_refl. by destruct (Hps u Hu Hid) as [-> _].
Qed.

Section EndToEnd.
Context {P R J : Type} `{PgLaws P} `{RedisLaws R} `{JetStreamLaws J}.
Abbreviation W := (World P R J).
Abbreviation jview w := (js_view (w_js w)).

Lemma publish_js_only : publisher_ok (P:=P) (R:=R) (Some PublishTransferEvent).
Proof.
  intros f e [= <-] w. unfold PublishTransferEvent, bind, on_js.
  destruct (js_publish _ _ _ (w_js w)) as [[err|] j']; by simpl.
Qed.

(** The one call to JetStream for the event [e]: its deduplication identifier
    is that of the transfer. *)
Abbreviation publish e := (js_publish SubjectTransferCompleted (Itoa (TransferID e)) (event_text e)).

Lemma publish_stream e (w : W) : w_js (PublishTransferEvent e w).2 = (publish e (w_js w)).2.
Proof.
  unfold PublishTransferEvent, bind, on_js. fold (event_text e).
  by destruct (publish e (w_js w)) as [[err|] j'].
Qed.

(** The log of the stream after it: with the event at its end, unless the
    server saw a duplicate, and always so when it acknowledges. *)
Definition logged_event (e : TransferCompleted) (s s' : JsState) : Prop :=
  exists d, 0 <= d /\ let s1 := js_advance d s in
    js_log s' = js_log s ++
      (if js_duplicate js_window s1 (Itoa (TransferID e)) then [] else [event_message e (js_now s1)]).

Lemma publish_logged e (j : J) :
  let '(r, j') := publish e j in
  logged_event e (js_view j) (js_view j') \/ (r <> None /\ js_log (js_view j') = js_log (js_view j)).
Proof.
  destruct (publish e j) as [r j'] eqn:E. apply js_publish_law in E as (d & Hd & Hv).
  assert (js_view j' = js_append js_window SubjectTransferCompleted (Itoa (TransferID e)) (event_text e)
            (js_advance d (js_view j)) -> logged_event e (js_view j) (js_view j')) as Happ.
  { intros ->. exists d. split; [done|]. unfold js_append.
    destruct (js_duplicate _ _ _); [by rewrite app_nil_r|done]. }
  destruct r as [err|]; [|by left; apply Happ].
  destruct Hv as [->|Hv]; [by right|by left; apply Happ].
Qed.

Lemma logged_event_new e s s' m :
  logged_event e s s' -> m ∈ js_log s' -> m ∈ js_log s \/ exists t, m = event_message e t.
Proof.
  intros (d & _ & ->) [Hm|Hm]%elem_of_app; [by left|].
  destruct (js_duplicate _ _ _); [by apply not_elem_of_nil in Hm|].
  apply list_elem_of_singleton in Hm. right. eexists. exact Hm.
Qed.

(** C18. From the transfer to the read model: a transfer that is answered
    with success publishes one event to JetStream, which carries the id of
    the transfer, the sender and the committed balances; when JetStream
    acknowledges it, the stream holds it as its last message, unless the
    server dropped it as a duplicate of that id, and nothing else is ever
    added to the stream. The projection of account-service, once it
    acknowledges this message, has set the balances of both parties to those
    of their rows. *)
Theorem transfer_event_projects ctx action raw headers (w : W) :
  schema_ok (tables_of w) ->
  wp (handleTransfer (Some PublishTransferEvent) ctx action raw headers)
    (fun r w' => forall body, r = Ok (Reply 200 body) ->
       exists p res, let e := event_of p res in
         accepts raw = Some p /\ body = receipt p res /\
         transferred (UserIDFromContext ctx).1 p (tables_of w) res (tables_of w') /\
         SenderID e = (UserIDFromContext ctx).1 /\
         w_js w' = (publish e (w_js w)).2 /\
         ((publish e (w_js w)).1 = None -> logged_event e (jview w) (jview w')) /\
         (forall m, m ∈ js_log (jview w') -> m ∉ js_log (jview w) -> exists t, m = event_message e t) /\
         forall t, wp (project_message (jm_data (event_message e t)))
           (fun v w2 => v = VAck ->
              forall u, u ∈ users (tables_of w2) -> u_id u = SenderID e \/ u_id u = ReceiverID e ->
                balance_of (redis_view (w_rd w2)) (u_id u) = Some (Itoa (u_balance u))) w') w.
Proof.
  intros Hok. eapply wp_mono; [by apply handleTransfer_answer; [|apply publish_js_only]|].
  intros r w' Ha body ->.
  inversion Ha as [|p res Hacc Ht _ (w1 & Ejs & Ew')| | | |]; subst; [|set_solver].
  destruct (transferred_event _ _ _ _ _ _ Hok Hacc Ht) as (Hev & Hsid & Hbal).
  exists p, res. intros e. fold e in Hev, Hsid, Hbal, Ht |- *.
  rewrite publish_stream, Ejs. pose proof (publish_logged e (w_js w)) as Hl.
  destruct (publish e (w_js w)) as [r j']. cbn [fst snd].
  split_and!; [done..| | |].
  - intros ->. by destruct Hl as [?|[? _]].
  - intros m Hin Hnew. destruct Hl as [Hl|[_ Hl]]; [|by rewrite Hl in Hin].
    by destruct (logged_event_new _ _ _ _ Hl Hin).
  - intros t. apply (project_message_spec 0 None); [done|done| |by intros ? _ _ [=]].
    intros w2 (Epg & _) _ Hp _ u Hu Hid. unfold tables_of in Hu. rewrite Epg in Hu.
    rewrite (Hp (u_id u)). cbn [last_balance]. by rewrite (Hbal u Hu Hid).
Qed.
End EndToEnd.

(** ** Witnesses *)

Definition event1 : TransferCompleted := MkTransferCompleted 4 200 1 300 2 270.
Definition event2 : TransferCompleted := MkTransferCompleted 5 20 2 250 3 20.

Lemma event1_ok : event_ok event1.
Proof. unfold event_ok, in_int64, int64_min, int64_max. simpl. lia. Defined.
Lemma event2_ok : event_ok event2.
Proof. unfold event_ok, in_int64, int64_min, int64_max. simpl. lia. Defined.

Lemma publish_deduplicated_witness :
  wp (publish_repeatedly (P:=RefPg) (R:=RefRedis) 3 event1)
    (fun rs w' => js_now (js_view (w_js w')) - js_now (js_view (w_js demo)) < 5 * Minute ->
       (js_log (js_view (w_js w')) = js_log (js_view (w_js demo)) /\
        Forall (fun r => r <> None) rs) \/
       exists t, js_log (js_view (w_js w')) = js_log (js_view (w_js demo)) ++ [event_message event1 t])
    demo.
Proof.
  apply (publish_deduplicated 3 event1 demo).
  - constructor.
  - reflexivity.
Defined.

Lemma projection_replay_witness :
  wp (project_all (map event_text [event1; event2]))
    (fun vs w' => rd_only demo w' /\
       (Forall (fun v => v = VAck) vs ->
        projected [event1; event2] (redis_view (w_rd demo)) (redis_view (w_rd w'))) /\
       (Some 0%nat <> None -> length vs = length [event1; event2] /\
        Forall (fun v => v = VAck) vs)) demo.
Proof.
  apply (projection_replay (Some 0%nat) [event1; event2] demo).
  - constructor; [exact event1_ok|]. constructor; [exact event2_ok|]. constructor.
  - unfold rwithin, redis_healthy, plan_clear. simpl. constructor.
Defined.

Lemma projection_verdict_witness :
  wp (project_message (event_text event1))
    (fun v w' => rd_only demo w' /\
       rs_kv (redis_view (w_rd w')) = rs_kv (redis_view (w_rd demo)) /\
       match unmarshal_text decode_TransferCompleted (event_text event1) with
       | Err _ => v = VNak /\ w' = demo
       | Ok e => (v = VAck /\ projected [e] (redis_view (w_rd demo)) (redis_view (w_rd w')))
                 \/ v = VNakWithDelay 5
       end) demo.
Proof. apply (projection_verdict (event_text event1) demo). Defined.

(** A transfer of alice in the demo world, which ends with its event as the
    only message of the stream. *)
Definition paid_world : World RefPg RefRedis RefJs :=
  (handleTransfer (Some PublishTransferEvent) as_alice "transfer" pay_bob ∅ demo).2.

Example paid_log :
  js_log (js_view (w_js paid_world)) = [event_message (MkTransferCompleted 1 200 1 300 2 270) 0].
Proof. vm_compute. reflexivity. Qed.

Lemma wp_result {S A} (m : M S A) Q s : wp m Q s -> Q (m s).1 (m s).2.
Proof. unfold wp. by destruct (m s). Qed.

Lemma transfer_event_projects_witness :
  (handleTransfer (Some PublishTransferEvent) as_alice "transfer" pay_bob ∅ demo).1 =
    Ok (Reply 200 (JObj [("amount", JInt 200); ("transfer_id", JInt 1)])) /\
  exists p res, logged_event (event_of p res) (js_view (w_js demo)) (js_view (w_js paid_world)).
Proof.
  assert ((handleTransfer (Some PublishTransferEvent) as_alice "transfer" pay_bob ∅ demo).1 =
    Ok (Reply 200 (JObj [("amount", JInt 200); ("transfer_id", JInt 1)]))) as E
    by (vm_compute; reflexivity).
  split; [exact E|].
  assert (schema_ok (tables_of demo)) as Hok by exact demo_schema.
  destruct (wp_result _ _ _ (transfer_event_projects as_alice "transfer" pay_bob ∅ demo Hok) _ E)
    as (p & res & _ & _ & _ & _ & _ & Hl & _).
  exists p, res. unfold paid_world. apply Hl. reflexivity.
Defined.
