(* ===== verification/SystemCorrect.v ===== *)
(** * Theorems on the system: gateway, bus and services together *)

From S2P Require Import Prelude GoStrings Json JsonFacts Tables Sql SqlFacts Servers Db PgFacts.
From S2P Require Import RedisClient RedisFacts Consumer Transfer TransferFacts Auth AuthFacts.
From S2P Require Import Account Notification Events Health Producer ProducerFacts Services.
From S2P Require Import Ledger Api SystemFacts EventsCorrect RefServers Demo.

(** ** Endpoints *)

Lemma find_endpoint_answers {W} (cs : list (Consumer W)) subject c action :
  find_endpoint subject cs = Some (c, action) -> answers cs subject c action.
Proof.
  induction cs as [|c' cs IH]; simpl; [done|].
  destruct (List.find _ _) as [a|] eqn:Ef.
  - intros [= <- <-]. apply List.find_some in Ef as [Hin Heq]. bool_hyps.
    apply list_elem_of_In, list_elem_of_fmap in Hin as ([a' h] & -> & Hin).
    split; [by left|]. split; [done|]. exists h. by apply elem_of_map_to_list.
  - intros (Hc & E & Hh)%IH. split; [by right|done].
Qed.

Lemma waited_refl {P R J} `{RedisServer R} (w : World P R J) : waited w w.
Proof.
  split; [done|]. exists 0. split; [lia|]. destruct (redis_view (w_rd w)).
  unfold advance. simpl. by rewrite Z.add_0_r.
Qed.

Lemma wp_RequireAdmin {P R J} `{RedisServer R} secret next ctx action payload hd Q (w : World P R J) :
  (if bool_decide (header hd "x-admin-secret" = secret)
   then wp (RequireSession next ctx action payload hd) Q w
   else Q (Ok (Reply 403 (detail "Forbidden"))) w) ->
  wp (RequireAdmin secret next ctx action payload hd) Q w.
Proof. unfold wp. rewrite RequireAdmin_session. by case_bool_decide. Qed.

Lemma waited_no_session {P R J} `{RedisServer R} (w w' : World P R J) sid :
  waited w w' -> session_of (redis_view (w_rd w)) sid = None ->
  session_of (redis_view (w_rd w')) sid = None.
Proof.
  intros Hw Hn. destruct (session_of (redis_view (w_rd w')) sid) as [id|] eqn:E; [|done].
  by rewrite (waited_session w w' sid id Hw E) in Hn.
Qed.

Section Endpoints.
Context {P R J : Type} `{PgServer P} `{RedisLaws R} `{JetStream J} `{Bcrypt}.
Abbreviation W := (World P R J).
Context (fmt_time : Z -> string) (ping : P -> option goerr * P).
Context (adminSecret : string) (jetstream : bool).
Abbreviation all_services := (services (P:=P) (R:=R) (J:=J) fmt_time ping adminSecret jetstream).

(** Who may call an endpoint without a session. *)
Definition public (subject : string) : bool :=
  bool_decide (subject ∈ ["banking.auth.register"; "banking.auth.login"; "banking.auth.health";
    "banking.account.health"; "banking.transfer.health"; "banking.notification.health"]).

Definition admin_only (subject : string) : bool :=
  bool_decide (subject ∈ ["banking.account.stats"; "banking.account.users";
    "banking.account.transfers"; "banking.account.notifications"; "banking.account.user-detail"]).

(** How an endpoint is guarded. *)
Inductive guarded (subject : string) : Handler W -> Prop :=
| guard_public h : public subject = true -> guarded subject h
| guard_session next :
    public subject = false -> admin_only subject = false ->
    guarded subject (RequireSession next)
| guard_admin next :
    public subject = false -> admin_only subject = true ->
    guarded subject (RequireAdmin adminSecret next).

Lemma services_cases c action h :
  c ∈ all_services -> c_handlers c !! action = Some h ->
  guarded (endpoint_subject c action) h /\
  endpoint_subject c action ∈ map rt_subject routes.
Proof.
  intros Hc Hh. unfold services in Hc.
  repeat first
    [ apply elem_of_cons in Hc as [->|Hc] | by apply not_elem_of_nil in Hc ];
    cbn -[lookup insert empty] in Hh;
    repeat (apply lookup_insert_Some in Hh as [[<- <-]|[_ Hh]]);
    try (by rewrite lookup_empty in Hh);
    (split; [|apply (bool_decide_unpack _); vm_compute; exact I]);
    first [ apply guard_public; reflexivity | apply guard_session; reflexivity
          | apply guard_admin; reflexivity ].
Qed.

(** A subject has one endpoint at most. *)
Lemma services_unique c1 a1 c2 a2 subject :
  answers all_services subject c1 a1 -> answers all_services subject c2 a2 -> c1 = c2 /\ a1 = a2.
Proof.
  intros (Hc1 & E1 & _) (Hc2 & E2 & _). rewrite <- E2 in E1. clear E2. unfold services in *.
  repeat first
    [ apply elem_of_cons in Hc1 as [->|Hc1] | by apply not_elem_of_nil in Hc1 ];
  repeat first
    [ apply elem_of_cons in Hc2 as [->|Hc2] | by apply not_elem_of_nil in Hc2 ];
    unfold endpoint_subject in E1; simpl in E1; by simplify_eq.
Qed.

Lemma services_served rt :
  rt ∈ routes -> exists c action, answers all_services (rt_subject rt) c action.
Proof.
  intros Hrt.
  assert (forallb (fun rt => match find_endpoint (rt_subject rt) all_services with
            Some _ => true | None => false end) routes = true) as Hall by (vm_compute; done).
  rewrite forallb_forall in Hall. apply list_elem_of_In, Hall in Hrt.
  destruct (find_endpoint _ _) as [[c a]|] eqn:E; [|done]. exists c, a.
  by apply find_endpoint_answers.
Qed.

(** C34. Gateway and services fit together: every route of the gateway has
    exactly one endpoint that answers its subject, and every endpoint of a
    service is reached by a route. *)
Theorem routes_served :
  (forall rt, rt ∈ routes ->
     exists c action, answers all_services (rt_subject rt) c action /\
       forall c' action', answers all_services (rt_subject rt) c' action' ->
         c' = c /\ action' = action) /\
  (forall c action, c ∈ all_services -> is_Some (c_handlers c !! action) ->
     exists rt, rt ∈ routes /\ rt_subject rt = endpoint_subject c action).
Proof.
  split.
  - intros rt (c & a & Ha)%services_served. exists c, a. split; [done|]. intros c' a' Ha'.
    by eapply services_unique.
  - intros c a Hc [h Hh]. destruct (services_cases c a h Hc Hh) as [_ Hs].
    apply list_elem_of_fmap in Hs as (rt & E & Hrt). by exists rt.
Qed.

(** The reply that refuses a request. *)
Definition refusal_text (status : Z) (msg : string) : string :=
  Marshal (encode_rpcResponse (MkRpcResponse status (detail msg))).

(** C10. Nothing happens without a session: a request to any endpoint but
    register, login and the health checks whose session header stands for
    nobody reaches no handler, changes nothing in the three servers, and is
    answered 401, or 500 on a fault of Redis; an admin endpoint that is
    called without the admin secret answers 403 before it looks at the
    session. *)
Theorem services_guarded c action data hdrs (w : W) :
  c ∈ all_services -> is_Some (c_handlers c !! action) ->
  public (endpoint_subject c action) = false ->
  session_of (redis_view (w_rd w)) (header hdrs "x-session") = None ->
  wp (serve c false action data hdrs)
    (fun rep w' => waited w w' /\
       (rep = Some (RespondError "400" "invalid request body") \/
        if admin_only (endpoint_subject c action) &&
           negb (bool_decide (header hdrs "x-admin-secret" = adminSecret))
        then rep = Some (Respond (refusal_text 403 "Forbidden"))
        else rep = Some (Respond (refusal_text 401 "Unauthorized")) \/
             rep = Some (Respond (refusal_text 500 "session error")))) w.
Proof.
  intros Hc [h Hh] Hpub Hsess. destruct (services_cases c action h Hc Hh) as [Hg _].
  assert (forall next ctx a p hd, header hd "x-session" = header hdrs "x-session" ->
            wp (RequireSession next ctx a p hd) (fun r w' => waited w w' /\
              (r = Ok (Reply 401 (detail "Unauthorized")) \/
               r = Ok (Reply 500 (detail "session error")))) w) as Hreq.
  { intros next ctx a p hd Ehd.
    destruct (RequireSession_cases 0 None next ctx a p hd w I) as (w1 & Hw & _ & [E|[_ E]]);
      unfold wp; rewrite E; [|by auto].
    rewrite Ehd. rewrite (waited_no_session w w1) by done. by auto. }
  unfold serve. rewrite Hh. unfold dispatch.
  destruct (unmarshal_text decode_rpcRequest data) as [payload|e].
  2: { apply wp_ret. split; [apply waited_refl|by left]. }
  cbn zeta. set (hd := <["x-session" := _]> _).
  assert (header hd "x-session" = header hdrs "x-session") as E1 by done.
  assert (header hd "x-admin-secret" = header hdrs "x-admin-secret") as E2 by done.
  inversion Hg as [h' Hp|next _ Ha|next _ Ha]; subst; [congruence|..]; rewrite Ha; apply wp_bind.
  - eapply wp_mono; [by apply Hreq|]. intros r w' [Hw Hr]. apply wp_ret. split; [done|]. right.
    destruct Hr as [->| ->]; [by left|by right].
  - apply wp_RequireAdmin. rewrite E2. cbn [andb]. case_bool_decide; cbn [negb].
    + eapply wp_mono; [by apply Hreq|]. intros r w' [Hw Hr]. apply wp_ret. split; [done|]. right.
      destruct Hr as [->| ->]; [by left|by right].
    + apply wp_ret. split; [apply waited_refl|by right].
Qed.
End Endpoints.

(** ** The gateway *)

(** The HTTP reply that a response stands for; bytes of its strings that are
    no UTF-8 have become U+FFFD. *)
Definition http_of (r : rpcResponse) : HttpReply :=
  if rpc_status r =? 204 then {| http_status := 204; http_body := None |}
  else writeRawJSON (rpc_status r) (Marshal (clean (rpc_body r))).

(** Responses that a JSON text can carry. *)
Definition response_ok (r : rpcResponse) : Prop :=
  in_int64 (rpc_status r) /\ json_ints (rpc_body r) /\ json_depth (rpc_body r) < max_nesting_depth.

(** The auth headers of a request. *)
Definition auth_headers (r : HttpRequest) : Headers :=
  request_headers (default "" (hr_header r !! "X-Session"))
                  (default "" (hr_header r !! "X-Admin-Secret")).

(** What [dispatch] makes of them. *)
Lemma dispatch_headers r :
  <["x-session" := header (auth_headers r) "x-session"]>
    (<["x-admin-secret" := header (auth_headers r) "x-admin-secret"]> ∅) = auth_headers r.
Proof. done. Qed.

Lemma serve_runs {W} (c : Consumer W) action (h : Handler W) data r w x w' :
  c_handlers c !! action = Some h -> serve c false action data (auth_headers r) w = (x, w') ->
  match unmarshal_text decode_rpcRequest data with
  | Err _ => x = Some (RespondError "400" "invalid request body") /\ w' = w
  | Ok payload =>
      exists res, h {| ctx_user := None |} action payload (auth_headers r) w = (res, w') /\
        x = Some (Respond (Marshal (encode_rpcResponse (response_of res))))
  end.
Proof.
  intros Hh. unfold serve, dispatch. rewrite Hh.
  destruct (unmarshal_text _ data) as [payload|e]; [|by intros [= <- <-]].
  cbn zeta. rewrite dispatch_headers. unfold bind.
  destruct (h _ _ _ _ w) as [res w1]. intros [= <- <-]. by exists res.
Qed.

Lemma serve_shutdown {W} (c : Consumer W) action data hd w x w' :
  serve c true action data hd w = (x, w') -> w' = w.
Proof. unfold serve, dispatch. destruct (c_handlers c !! action); by intros [= <- <-]. Qed.

Lemma error_reply_status err : http_status (error_reply err) ∈ [400; 502; 503; 504].
Proof.
  unfold error_reply. rewrite !elem_of_cons. repeat case_match; simpl; auto.
Qed.

Lemma error_reply_fault p err :
  foreign err = true -> http_status (error_reply (EWrap p err)) ∈ [502; 504].
Proof.
  intros Hf. unfold error_reply.
  assert (errors_Is (EWrap p err) errServiceUnavailable = false) as ->.
  { simpl. by apply foreign_not_app. }
  rewrite !elem_of_cons. case_match; simpl; auto.
Qed.

(** Decoding errors are no sentinel of the repository. *)
Lemma unmarshal_struct_foreign {S} (fs : list (string * setter S)) zero v e :
  (forall f v s e, f ∈ fs -> f.2 v s = Err e -> foreign e = true) ->
  unmarshal_struct fs zero v = Err e -> foreign e = true.
Proof.
  intros Hfs. unfold unmarshal_struct. destruct v; try (by intros [= <-]); try done.
  assert (forall key set, find_field fs key = Some set ->
            forall v s e, set v s = Err e -> foreign e = true) as Hfind.
  { intros key set. unfold find_field.
    destruct (List.find _ fs) as [f|] eqn:E1;
      [|destruct (List.find (fun f => fold_eq f.1 key) fs) as [f|] eqn:E2; [|done]];
      intros [= <-] v' s' e' He;
      apply (Hfs f v' s' e'); try done;
      [apply List.find_some in E1 as [? _]|apply List.find_some in E2 as [? _]];
      by apply list_elem_of_In. }
  assert (forall acc, (forall e0, acc.2 = Some e0 -> foreign e0 = true) ->
            forall e0, (fold_left (decode_member fs) kvs acc).2 = Some e0 -> foreign e0 = true) as Hfold.
  { induction kvs as [|kv kvs IH]; [done|]. intros acc Hacc. simpl. apply IH. intros e0.
    unfold decode_member. destruct (find_field fs kv.1) as [set|] eqn:Ef; [|by apply Hacc].
    destruct (set kv.2 acc.1) as [s|e1] eqn:Es; simpl; [by apply Hacc|].
    destruct (acc.2) as [e2|] eqn:E2; intros [= <-]; [by apply Hacc|by eapply Hfind]. }
  specialize (Hfold (zero, None)). destruct (fold_left _ _ _) as [s [e0|]]; [|done].
  intros [= <-]. by apply Hfold.
Qed.

Lemma decode_rpcResponse_foreign s e :
  unmarshal_text decode_rpcResponse s = Err e -> foreign e = true.
Proof.
  unfold unmarshal_text. destruct (Unmarshal s) as [v|]; [|by intros [= <-]].
  apply unmarshal_struct_foreign. intros f v0 s0 e0 Hf. unfold rpcResponse_fields in Hf.
  rewrite !elem_of_cons in Hf. destruct Hf as [->|[->|Hf]]; [|done|by apply not_elem_of_nil in Hf].
  simpl. unfold set_int. repeat case_match; try done; by intros [= <-].
Qed.

Lemma wp_of_run {W A} (m : M W A) Q w : (forall a w', m w = (a, w') -> Q a w') -> wp m Q w.
Proof. unfold wp. destruct (m w). eauto. Qed.

Section Gateway.
Context {P R J : Type} `{PgServer P} `{RedisServer R} `{JetStream J} `{Bcrypt}.
Abbreviation W := (World P R J).
Context (fmt_time : Z -> string) (ping : P -> option goerr * P).
Context (adminSecret : string) (jetstream : bool).
Abbreviation all_services := (services (P:=P) (R:=R) (J:=J) fmt_time ping adminSecret jetstream).
Context `{!Nats W} `{!NatsLaws all_services}.

(** The handler that a route reaches, run on one payload. *)
Inductive handled (rt : Route) (r : HttpRequest) (w w' : W) : rpcResponse -> Prop :=
| handled_intro c action (h : Handler W) payload res :
    answers all_services (rt_subject rt) c action -> c_handlers c !! action = Some h ->
    h {| ctx_user := None |} action payload (auth_headers r) w = (res, w') ->
    handled rt r w w' (response_of res).

(** What the gateway answers: nothing ran; or one handler did, and its
    response is the reply unless it got lost. *)
Inductive gateway_answer (rt : Route) (r : HttpRequest) (w w' : W) : HttpReply -> Prop :=
| ga_refused rep :
    w' = w -> http_status rep ∈ [400; 502; 503; 504] -> gateway_answer rt r w w' rep
| ga_lost resp rep :
    handled rt r w w' resp -> http_status rep ∈ [502; 504] -> gateway_answer rt r w w' rep
| ga_reply resp rep :
    handled rt r w w' resp -> rep = http_of resp -> gateway_answer rt r w w' rep.

Lemma reply_of_response resp :
  response_ok resp ->
  match unmarshal_text decode_rpcResponse (Marshal (encode_rpcResponse resp)) with
  | Err _ => False
  | Ok g =>
      (if gw_status g =? 204 then {| http_status := 204; http_body := None |}
       else writeRawJSON (gw_status g)
              (match gw_body g with Some v => Marshal v | None => "{}" end)) = http_of resp
  end.
Proof. intros (Hs & Hv & Hd). by rewrite decode_rpcResponse_clean. Qed.

(** Every reply of every endpoint can be carried: it has one of the types of
    [api]. *)
Definition sendable (r : Z * jtype) : bool :=
  (0 <=? r.1) && (r.1 <? 1000) && (type_depth r.2 <? max_nesting_depth).

Lemma allowed_ok t resp : forallb sendable t = true -> allowed t resp -> response_ok resp.
Proof.
  rewrite forallb_forall. intros Ht (ty & Hin & [Hi Hd]%has_type_ints).
  apply list_elem_of_In, Ht in Hin. unfold sendable in Hin. simpl in Hin. bool_hyps.
  split_and!; [|done|lia]. unfold in_int64, int64_min, int64_max. lia.
Qed.

Lemma api_sendable s action h :
  c_handlers (consumer (P:=P) (R:=R) (J:=J) fmt_time ping adminSecret jetstream s) !! action = Some h ->
  forallb sendable (api s action) = true.
Proof.
  intros Hh. destruct s; cbn -[lookup insert empty] in Hh;
    repeat (apply lookup_insert_Some in Hh as [[<- _]|[_ Hh]]; [by vm_compute|]);
    by rewrite lookup_empty in Hh.
Qed.

Lemma handler_response_ok c action (h : Handler W) ctx payload hdrs w res w' :
  c ∈ all_services -> c_handlers c !! action = Some h -> h ctx action payload hdrs w = (res, w') ->
  response_ok (response_of res).
Proof.
  intros [s ->]%services_consumer Hh E. eapply allowed_ok; [by eapply api_sendable|].
  pose proof (consumer_yields fmt_time ping adminSecret jetstream s action h Hh ctx action payload hdrs w) as Hy.
  unfold wp in Hy. by rewrite E in Hy.
Qed.

Lemma proxy_answer rt r r0 (w : W) :
  auth_headers r0 = auth_headers r ->
  wp (proxyHandler (rt_subject rt) r0) (fun rep w' => gateway_answer rt r w w' rep) w.
Proof.
  intros Hhd. unfold proxyHandler. destruct (parsePayload r0) as [payload|e].
  2: { apply wp_ret, ga_refused; [done|left]. }
  apply wp_bind. unfold call. destruct (hr_ctx r0) as [cause|].
  { apply wp_ret, wp_ret, ga_refused; [done|apply error_reply_status]. }
  destruct payload as [v|e].
  2: { apply wp_ret, wp_ret, ga_refused; [done|apply error_reply_status]. }
  fold (auth_headers r0). rewrite Hhd. apply wp_bind, wp_of_run. intros x w' Er.
  apply nats_law in Er.
  destruct Er as [c action rep w' (Hc & Es & [h Hh]) Hrun
    |c action sd x e w' (Hc & Es & [h Hh]) Hrun Hf|e Hf|].
  - pose proof (serve_runs _ _ _ _ _ _ _ _ Hh Hrun) as Hcase.
    destruct (unmarshal_text decode_rpcRequest _) as [pl|].
    + destruct Hcase as (res & Eh & Ex). apply (inj Some) in Ex. subst rep. cbn [reply_data].
      assert (handled rt r w w' (response_of res)) as Hd.
      { econstructor; [|exact Hh|exact Eh]. split_and!; eauto. }
      pose proof (handler_response_ok _ _ _ _ _ _ _ _ _ Hc Hh Eh) as Hok.
      destruct (unmarshal_text decode_rpcResponse _) as [g|e] eqn:Eg; apply wp_ret.
      * destruct (gw_status g =? 204) eqn:E2; apply wp_ret;
          (eapply ga_reply; [exact Hd|]; pose proof (reply_of_response _ Hok) as Ht;
           rewrite Eg, E2 in Ht; exact Ht).
      * apply wp_ret, (ga_lost _ _ _ _ _ _ Hd), error_reply_fault.
        by apply decode_rpcResponse_foreign in Eg.
    + destruct Hcase as [[= ->] ->]. apply wp_ret, wp_ret, ga_refused; [done|apply error_reply_status].
  - unfold bus_fault in Hf. apply andb_true_iff in Hf as [Hf Hn]. apply negb_true_iff in Hn.
    rewrite Hn. apply wp_ret, wp_ret. pose proof (error_reply_fault "nats request" e Hf) as Hst.
    destruct sd.
    + apply serve_shutdown in Hrun as ->. apply ga_refused; [done|apply error_reply_status].
    + pose proof (serve_runs _ _ _ _ _ _ _ _ Hh Hrun) as Hcase.
      destruct (unmarshal_text decode_rpcRequest _) as [pl|].
      * destruct Hcase as (res & Eh & _). eapply ga_lost; [|exact Hst].
        econstructor; [|exact Hh|exact Eh]. split_and!; eauto.
      * destruct Hcase as [_ ->]. apply ga_refused; [done|apply error_reply_status].
  - unfold bus_fault in Hf. apply andb_true_iff in Hf as [Hf Hn]. apply negb_true_iff in Hn.
    rewrite Hn. apply wp_ret, wp_ret, ga_refused; [done|apply error_reply_status].
  - apply wp_ret, ga_refused; [done|]. apply (error_reply_status errServiceUnavailable).
Qed.

Lemma inject_auth param key r : auth_headers (injectPathParam param key r) = auth_headers r.
Proof. unfold injectPathParam. by case_match. Qed.

(** C15. A request through the gateway runs at most one handler, the one of
    its route's endpoint, with the two auth headers of the request. When
    none ran the answer is 400, 502, 503 or 504 and nothing changed; when
    one ran its response is the reply, or it got lost on the way back and
    the answer is 502 or 504. *)
Theorem gateway_answers rt r (w : W) :
  wp (route_handler rt r) (fun rep w' => gateway_answer rt r w w' rep) w.
Proof.
  unfold route_handler. destruct (rt_inject rt) as [[param key]|]; apply proxy_answer; [|done].
  apply inject_auth.
Qed.

Lemma serve_replies {W0} (c : Consumer W0) action data hd w :
  is_Some (c_handlers c !! action) -> exists rep w', serve c false action data hd w = (Some rep, w').
Proof.
  intros [h Hh]. unfold serve, dispatch. rewrite Hh. destruct (unmarshal_text _ data); [|by eauto].
  unfold bind. destruct (h _ _ _ _ w). unfold ret. eauto.
Qed.

(** C13. A POST round trip: a body that is the text of a value arrives as that
    value at the handler of the route, and the handler's response comes
    back as status and body, provided that the bus is up and that the
    numbers of the body are integers that a float64 holds exactly. *)
Theorem gateway_roundtrip rt r v (w : W) :
  rt ∈ routes -> rt_inject rt = None -> hr_method r = "POST" -> hr_ctx r = None ->
  hr_body r = Some (Marshal v) -> json_plain v -> v <> JNull ->
  json_depth v < max_nesting_depth -> nats_up w ->
  wp (route_handler rt r) (fun rep w' =>
    exists c action (h : Handler W) res,
      answers all_services (rt_subject rt) c action /\ c_handlers c !! action = Some h /\
      h {| ctx_user := None |} action (Some v) (auth_headers r) w = (res, w') /\
      rep = http_of (response_of res)) w.
Proof.
  intros Hrt Hinj Hm Hctx Hbody Hv Hnull Hd Hup. unfold route_handler. rewrite Hinj.
  assert (parsePayload r = Ok (Ok v)) as Hp.
  { unfold parsePayload. rewrite Hm, Hbody. simpl. rewrite decode_any_plain by (done || lia).
    by destruct v. }
  unfold proxyHandler. rewrite Hp. unfold call. rewrite Hctx. fold (auth_headers r).
  destruct (services_served fmt_time ping adminSecret jetstream rt Hrt) as (c0 & a0 & Ha0).
  destruct (nats_up_law _ (Marshal (rpcRequest_json v)) (auth_headers r) _ _ _ Hup Ha0)
    as (c & action & rep & w' & Ha & Hrun & Hreq).
  pose proof Ha as (_ & _ & [h Hh]).
  pose proof (serve_runs _ _ _ _ _ _ _ _ Hh Hrun) as Hcase.
  rewrite decode_rpcRequest_json in Hcase by auto using json_plain_wf.
  destruct Hcase as (res & Eh & Ex). apply (inj Some) in Ex. subst rep.
  cbn [reply_data] in Hreq.
  pose proof (reply_of_response _ (handler_response_ok _ _ _ _ _ _ _ _ _ (proj1 Ha) Hh Eh)) as Hrep.
  remember (Marshal (encode_rpcResponse (response_of res))) as data eqn:Edata. clear Edata.
  apply wp_bind, wp_bind, wp_of_run. intros x w1. rewrite Hreq. intros [= <- <-].
  destruct (unmarshal_text decode_rpcResponse data) as [g|e]; apply wp_ret.
  - destruct (gw_status g =? 204); apply wp_ret; by exists c, action, h, res.
  - done.
Qed.
End Gateway.

(** ** The bank *)

Section Bank.
Context {P R J : Type} `{PgLaws P} `{RedisServer R} `{JetStream J} `{Bcrypt} `{!BcryptLaws}.
Abbreviation W := (World P R J).
Context (fmt_time : Z -> string) (ping : P -> option goerr * P).
Hypothesis ping_view : forall p, pg_view p ≡ pg_view (ping p).2.
Context (adminSecret : string) (jetstream : bool).
Abbreviation all_services := (services (P:=P) (R:=R) (J:=J) fmt_time ping adminSecret jetstream).
Context `{!Nats W} `{!NatsLaws all_services}.

Lemma transfer_publisher_ok : @publisher_ok P R J (transfer_publisher jetstream).
Proof. unfold transfer_publisher. destruct jetstream; [apply publish_js_only|by intros f]. Qed.

(** C4. The services refine the ledger: whatever HTTP request arrives, on
    whichever route and under whatever faults of the database, Redis,
    JetStream and the bus, the constraints of the schema hold afterwards and
    the bank is as it was, or has made one step: one account was opened with
    the opening balance, or one amount that the payer had was moved and
    entered in the journal. *)
Theorem request_refines_ledger rt r (w : W) :
  schema_ok (tables_of w) ->
  wp (route_handler rt r) (fun _ w' => bank_request (tables_of w) (tables_of w')) w.
Proof.
  intros Hok. eapply wp_mono; [by eapply (gateway_answers fmt_time ping adminSecret jetstream)|].
  assert (forall w' resp, handled fmt_time ping adminSecret jetstream rt r w w' resp ->
            bank_request (tables_of w) (tables_of w')) as Hh.
  { intros w' resp [c action h payload res (Hc & _) Hh Eh].
    pose proof (services_request ping ping_view fmt_time adminSecret jetstream c action h
      transfer_publisher_ok Hc Hh {| ctx_user := None |} action payload (auth_headers r) w Hok) as Hs.
    unfold wp in Hs. by rewrite Eh in Hs. }
  intros rep w' [rep' -> _|resp rep' Hd _|resp rep' Hd _]; eauto. by apply request_same.
Qed.

(** A sequence of requests, each on its route. *)
Fixpoint run_requests (l : list (Route * HttpRequest)) : M W (list HttpReply) :=
  match l with
  | [] => ret []
  | (rt, r) :: l' =>
      let* rep := route_handler rt r in
      let* reps := run_requests l' in
      ret (rep :: reps)
  end.

(** The books balance after any sequence of requests: the bank is one
    that the ledger reaches, the constraints hold, no balance is negative,
    and every user's balance is the opening balance plus the transfers
    received minus the transfers sent. *)
Theorem books_balance l (w : W) :
  schema_ok (tables_of w) -> bank_ok (bank_of (tables_of w)) ->
  wp (run_requests l) (fun _ w' =>
    let T := tables_of w' in
    rtc bank_step (bank_of (tables_of w)) (bank_of T) /\ schema_ok T /\ bank_ok (bank_of T) /\
    forall u, u ∈ users T ->
      0 <= u_balance u /\ u_balance u = default_balance + net_transfers (u_id u) T) w.
Proof.
  revert w. induction l as [|[rt r] l IH]; intros w Hok Hb; cbn [run_requests].
  - apply wp_ret. cbn zeta. split_and!; [apply rtc_refl|done|done|].
    apply books_of_bank; [apply (ok_user_ids _ Hok)|done].
  - apply wp_bind. eapply wp_mono; [by apply request_refines_ledger|].
    intros rep w1 [Hok1 Hstep]. apply wp_bind.
    assert (bank_ok (bank_of (tables_of w1))) as Hb1
      by (destruct Hstep as [->|Hs]; [done|by eapply bank_step_ok]).
    eapply wp_mono; [by apply IH|]. intros reps w' (Hr & Hrest). apply wp_ret. split; [|done].
    destruct Hstep as [<-|Hs]; [done|]. by eapply rtc_l.
Qed.
End Bank.

(** ** Numbers on the way through the gateway *)

Definition transfer_body (amount : json) : json :=
  JObj [("account_number", JStr "100000000002"); ("amount", amount)].

Lemma transfer_body_plain z : - 2 ^ 53 <= z <= 2 ^ 53 -> json_plain (transfer_body (JInt z)).
Proof.
  intros Hz. apply plain_obj.
  - split; [|apply (bool_decide_unpack _); vm_compute; exact I].
    repeat constructor; apply (bool_decide_unpack _); vm_compute; exact I.
  - constructor; [by split; [|constructor]|].
    constructor; [by split; [|apply plain_int]|constructor].
Qed.

Definition post (body : json) : HttpRequest :=
  {| hr_method := "POST"; hr_path := "/api/sessions"; hr_query := ∅; hr_params := ∅; hr_header := ∅;
     hr_body := Some (Marshal body); hr_ctx := None |}.

(** The amount that the transfer handler decodes for a body that is sent
    through the gateway ([None]: the handler refuses the payload). *)
Definition amount_received (amount : json) : option Z :=
  match parsePayload (post (transfer_body amount)) with
  | Ok (Ok v) =>
      match unmarshal_raw decode_transferPayload (Some v) with
      | Ok p => Some (p_Amount p)
      | Err _ => None
      end
  | _ => None
  end.

(** Amounts pass through a float64: up to 2^53 the transfer handler gets
    the amount that was sent; 2^53 + 1 arrives as 2^53; the texts 200.0 and
    2e2, which the handler itself would refuse, arrive as 200; from 10^21
    on the amount arrives with an exponent and is refused. *)
Theorem gateway_amounts :
  (forall z, - 2 ^ 53 <= z <= 2 ^ 53 -> amount_received (JInt z) = Some z) /\
  amount_received (JInt (2 ^ 53 + 1)) = Some (2 ^ 53) /\
  map (fun lit => (amount_received (JNum lit), is_ok (decode_transferPayload (transfer_body (JNum lit)))))
    ["200.0"; "2e2"; "1000000000000000000000"] = [(Some 200, false); (Some 200, false); (None, false)].
Proof.
  split; [|split; vm_compute; done]. intros z Hz. unfold amount_received.
  pose proof (transfer_body_plain z Hz) as Hp.
  assert (parsePayload (post (transfer_body (JInt z))) = Ok (Ok (transfer_body (JInt z)))) as ->.
  { unfold parsePayload. simpl (_ || _). cbn [hr_body post]. rewrite decode_any_plain; done. }
  unfold unmarshal_raw.
  assert (decode_transferPayload (transfer_body (JInt z)) =
            Ok (MkTransferPayload "100000000002" "" "" z)) as ->; [|done].
  assert (in_int64 z) by (unfold in_int64, int64_min, int64_max; lia).
  unfold decode_transferPayload, transfer_body. decode_struct.
Qed.

(** The path of an acknowledgement: the decimal text of any identifier
    arrives at the handler as that integer, without a detour through a
    float64, whenever the request has no body that decodes to an object; a
    body with a member "id" replaces the identifier of the path. *)
Theorem ack_path_id r z :
  in_int64 z -> hr_method r = "PATCH" -> hr_params r !! "id" = Some (Itoa z) -> hr_query r = ∅ ->
  ((forall text, hr_body r = Some text -> is_ok (decode_any_map text) = false) ->
     parsePayload (injectPathParam "id" "id" r) = Ok (Ok (JObj [("id", JInt z)])) /\
     decode_ackPayload (JObj [("id", JInt z)]) = Ok (MkAck z)) /\
  (forall text body v, hr_body r = Some text -> decode_any_map text = Ok body ->
     body !! "id" = Some v ->
     exists m, parsePayload (injectPathParam "id" "id" r) = Ok (marshal_map m) /\
               m !! "id" = Some (Ok v)).
Proof.
  intros Hz Hm Hid Hq. unfold injectPathParam. rewrite Hid.
  change (default "" (Some (Itoa z))) with (Itoa z).
  rewrite bool_decide_eq_false_2 by (apply Itoa_nonempty). unfold parsePayload.
  cbn [hr_method hr_body hr_query]. rewrite Hm, Hq.
  change (bool_decide ("PATCH" = "POST") || bool_decide ("PATCH" = "PUT")) with false.
  change (bool_decide ("PATCH" = "PATCH")) with true.
  assert (query_map queryValue (<["id" := [Itoa z]]> ∅) = {["id" := Ok (JInt z)]}) as Emap.
  { apply map_eq. intros k. rewrite query_map_lookup. destruct (decide (k = "id")) as [->|Hk].
    - rewrite lookup_insert_eq, lookup_singleton_eq. unfold queryValue. by rewrite ParseInt_Itoa.
    - by rewrite lookup_insert_ne, lookup_empty, lookup_singleton_ne by done. }
  rewrite Emap. cbn zeta iota. split.
  - intros Hbody. split.
    + assert (marshal_map {["id" := Ok (JInt z)]} = Ok (JObj [("id", JInt z)])) as Hmar
        by (unfold marshal_map; by rewrite map_to_list_singleton).
      destruct (hr_body r) as [text|]; [|by rewrite Hmar].
      specialize (Hbody text eq_refl). by destruct (decode_any_map text); [|rewrite Hmar].
    + unfold decode_ackPayload. decode_struct.
  - intros text body v -> -> Hv. eexists. split; [done|]. apply lookup_union_Some_l.
    by rewrite lookup_fmap, Hv.
Qed.

(** ** Witnesses *)

Definition demo_ping (p : RefPg) : option goerr * RefPg := (None, p).

Abbreviation DemoWorld := (World RefPg RefRedis RefJs).

Definition demo_services : list (Consumer DemoWorld) :=
  services Itoa demo_ping "secret" false.

#[export] Instance demo_bus : Nats DemoWorld := {|
  nats_request := direct_request demo_services;
  nats_up _ := True;
|}.

Lemma find_endpoint_complete {W} (cs : list (Consumer W)) subject c action :
  answers cs subject c action -> exists c' a', find_endpoint subject cs = Some (c', a').
Proof.
  intros (Hc & E & [h Hh]). induction cs as [|c0 cs IH]; [by apply not_elem_of_nil in Hc|]. simpl.
  destruct (List.find _ _) as [a|] eqn:Ef; [by eauto|].
  apply elem_of_cons in Hc as [->|Hc]; [|by apply IH]. exfalso.
  pose proof (List.find_none _ _ Ef action) as Hn. cbn beta in Hn.
  rewrite bool_decide_eq_true_2 in Hn by done. enough (true = false) by done. apply Hn.
  apply list_elem_of_In, list_elem_of_fmap. exists (action, h). split; [done|].
  by apply elem_of_map_to_list.
Qed.

#[export] Instance demo_bus_laws : NatsLaws demo_services.
Proof.
  split.
  - intros subject data hdrs w r w'. unfold nats_request, demo_bus, direct_request.
    destruct (find_endpoint subject demo_services) as [[c a]|] eqn:E.
    + apply find_endpoint_answers in E. pose proof E as (_ & _ & Hh).
      destruct (serve_replies c a data hdrs w Hh) as (rep & w1 & Er). unfold bind. rewrite Er.
      intros [= <- <-]. by eapply bus_reply.
    + intros [= <- <-]. apply bus_nobody.
  - intros subject data hdrs c a w _ Ha.
    destruct (find_endpoint_complete _ _ _ _ Ha) as (c' & a' & E).
    pose proof (find_endpoint_answers _ _ _ _ E) as Ha'. pose proof Ha' as (_ & _ & Hh).
    destruct (serve_replies c' a' data hdrs w Hh) as (rep & w1 & Er).
    exists c', a', rep, w1. split_and!; [done|done|].
    unfold nats_request, demo_bus, direct_request. rewrite E. unfold bind. by rewrite Er.
Qed.

Abbreviation demo_account := (account_consumer (J:=RefJs) Itoa demo_ping "secret").

Lemma services_guarded_witness :
  wp (serve demo_account false "balance" "{}" ∅)
    (fun rep w' => waited demo w' /\
       (rep = Some (RespondError "400" "invalid request body") \/
        if admin_only (endpoint_subject demo_account "balance") &&
           negb (bool_decide (header ∅ "x-admin-secret" = "secret"))
        then rep = Some (Respond (refusal_text 403 "Forbidden"))
        else rep = Some (Respond (refusal_text 401 "Unauthorized")) \/
             rep = Some (Respond (refusal_text 500 "session error")))) demo.
Proof.
  apply (services_guarded Itoa demo_ping "secret" false demo_account "balance" "{}" ∅ demo).
  - right. left.
  - eexists. reflexivity.
  - reflexivity.
  - reflexivity.
Defined.

(** alice's session, and her request to pay bob. *)
Definition logged_in : DemoWorld :=
  set_rd demo {| rr_state := with_kv demo_redis_state {["session:s1" := ("1", None)]}; rr_plan := [] |}.

Definition pay_request : HttpRequest :=
  {| hr_method := "POST"; hr_path := "/api/transfers"; hr_query := ∅; hr_params := ∅;
     hr_header := {["X-Session" := "s1"]};
     hr_body := Some (Marshal (transfer_body (JInt 200))); hr_ctx := None |}.

Definition transfer_route : Route :=
  MkRoute "POST" "/api/transfers" "banking.transfer.transfer" None.

(** Tests: the transfer through the whole system, and without a session. *)
Example pay_runs :
  (route_handler transfer_route pay_request logged_in).1 =
    {| http_status := 200;
       http_body := Some (Marshal (JObj [("amount", JInt 200); ("transfer_id", JInt 1)])) |}.
Proof. vm_compute. reflexivity. Qed.

Example pay_refused :
  (route_handler transfer_route pay_request demo).1 =
    {| http_status := 401; http_body := Some (Marshal (detail "Unauthorized")) |}.
Proof. vm_compute. reflexivity. Qed.

Lemma gateway_answers_witness :
  wp (route_handler transfer_route pay_request)
    (fun rep w' => gateway_answer Itoa demo_ping "secret" false transfer_route pay_request
                     logged_in w' rep) logged_in.
Proof. apply (gateway_answers Itoa demo_ping "secret" false). Defined.

Lemma gateway_roundtrip_witness :
  wp (route_handler transfer_route pay_request) (fun rep w' =>
    exists c action (h : Handler DemoWorld) res,
      answers (services Itoa demo_ping "secret" false) (rt_subject transfer_route) c action /\
      c_handlers c !! action = Some h /\
      h {| ctx_user := None |} action (Some (transfer_body (JInt 200)))
        (auth_headers pay_request) logged_in = (res, w') /\
      rep = http_of (response_of res)) logged_in.
Proof.
  apply (gateway_roundtrip Itoa demo_ping "secret" false transfer_route pay_request
           (transfer_body (JInt 200)) logged_in); try reflexivity.
  - repeat (left || right).
  - apply transfer_body_plain. lia.
  - discriminate.
Defined.

Lemma demo_ping_view : forall p, pg_view p ≡ pg_view (demo_ping p).2.
Proof. intros p. reflexivity. Qed.

Lemma request_refines_ledger_witness :
  wp (route_handler transfer_route pay_request)
    (fun _ w' => bank_request (tables_of logged_in) (tables_of w')) logged_in.
Proof.
  apply (request_refines_ledger Itoa demo_ping demo_ping_view "secret" false transfer_route
           pay_request logged_in).
  exact demo_schema.
Defined.

(** Every user with the opening balance, nothing transferred yet. *)
Definition fresh_tables : Tables :=
  MkTables (map (fun u => set_balance u default_balance) [alice; bob; carol]) [] [].

Definition fresh_world : DemoWorld :=
  set_pg logged_in {| rp_tables := fresh_tables; rp_now := 1000; rp_plan := []; rp_tx_plan := [] |}.

Lemma fresh_schema : schema_ok fresh_tables.
Proof. apply (bool_decide_unpack _). vm_compute. exact I. Qed.

Lemma fresh_bank : bank_ok (bank_of fresh_tables).
Proof.
  split.
  - apply (bool_decide_unpack _). vm_compute. exact I.
  - apply (bool_decide_unpack _). vm_compute. exact I.
  - intros e He. exfalso. cbn [journal bank_of fresh_tables transfers map list_to_set_disj] in He. set_solver.
Qed.

Lemma books_balance_witness :
  wp (run_requests [(transfer_route, pay_request); (transfer_route, pay_request)]) (fun _ w' =>
    let T := tables_of w' in
    rtc bank_step (bank_of (tables_of fresh_world)) (bank_of T) /\ schema_ok T /\
    bank_ok (bank_of T) /\
    forall u, u ∈ users T ->
      0 <= u_balance u /\ u_balance u = default_balance + net_transfers (u_id u) T) fresh_world.
Proof.
  apply (books_balance Itoa demo_ping demo_ping_view "secret" false
           [(transfer_route, pay_request); (transfer_route, pay_request)] fresh_world).
  - exact fresh_schema.
  - exact fresh_bank.
Defined.

Definition ack_request : HttpRequest :=
  {| hr_method := "PATCH"; hr_path := "/api/notifications/7/ack"; hr_query := ∅;
     hr_params := {["id" := "7"]}; hr_header := ∅;
     hr_body := None; hr_ctx := None |}.

Lemma ack_path_id_witness :
  ((forall text, hr_body ack_request = Some text -> is_ok (decode_any_map text) = false) ->
     parsePayload (injectPathParam "id" "id" ack_request) = Ok (Ok (JObj [("id", JInt 7)])) /\
     decode_ackPayload (JObj [("id", JInt 7)]) = Ok (MkAck 7)) /\
  (forall text body v, hr_body ack_request = Some text -> decode_any_map text = Ok body ->
     body !! "id" = Some v ->
     exists m, parsePayload (injectPathParam "id" "id" ack_request) = Ok (marshal_map m) /\
               m !! "id" = Some (Ok v)).
Proof.
  apply (ack_path_id ack_request 7); [|reflexivity..].
  unfold in_int64, int64_min, int64_max. lia.
Defined.
