(* ===== verification/MetricsCorrect.v ===== *)
(** * Theorems on metrics

    The instrumented gateway and dispatcher answer as the plain ones do, and
    the instruments count what happened ([gateway_metrics],
    [dispatch_metrics]). *)

From S2P Require Import Prelude GoStrings Json JsonFacts Tables Sql Servers RedisClient Consumer Transfer.
From S2P Require Import Auth Account Notification Events Health Producer Metrics Services.
From S2P Require Import RefServers Demo SystemCorrect.
Local Open Scope metered_scope.

(** ** Counting along a program *)

Section Ticks.
Context {W : Type} (l : list (string * nat)).

Lemma provides_shaped reg nk : provides l reg -> nk ∈ l -> shaped reg nk.
Proof. unfold provides. rewrite Forall_forall. auto. Qed.

(** The last operation of a program. *)
Lemma runs_last ops reg0 name labels n (post : unit -> W -> Registry -> Prop) w reg :
  counted ops reg0 reg -> provides l reg0 -> (name, length labels) ∈ l ->
  forallb utf8_valid labels = true ->
  (forall reg', counted (ops ++ [(name, labels, n)]) reg0 reg' -> post tt w reg') ->
  runs (count name labels n) post w reg.
Proof.
  intros Hc Hp Hin Hu Hpost.
  apply (runs_mono _ (fun _ w' reg' => w' = w /\ counted [(name, labels, n)] reg reg')).
  - apply runs_count; [|done]. apply provides_shaped; [by eapply counted_provides|done].
  - intros [] w' reg' [-> Hc']. apply Hpost. by eapply counted_app.
Qed.

Lemma runs_tick {A} ops reg0 name labels n (k : Metered A) post (w : W) reg :
  counted ops reg0 reg -> provides l reg0 -> (name, length labels) ∈ l ->
  forallb utf8_valid labels = true ->
  (forall reg', counted (ops ++ [(name, labels, n)]) reg0 reg' -> runs k post w reg') ->
  runs (let? _ := count name labels n in k) post w reg.
Proof. intros Hc Hp Hin Hu Hk. apply runs_after. by eapply runs_last. Qed.
End Ticks.

(** [name] is in a list that is written out; the labels are valid UTF-8. *)
Ltac instrument := repeat first [by left | right].
Ltac labels_valid := cbn [forallb]; rewrite ?Itoa_valid; by repeat (apply andb_true_iff; split).
Ltac tick := eapply runs_tick; [eassumption|eassumption|instrument|labels_valid|intros ? ?].
Ltac last_tick := eapply runs_last; [eassumption|eassumption|instrument|labels_valid|intros ? ?].

Section Gateway.
Context {W : Type} `{Nats W}.

(** What a call counts, by its result. *)
Definition call_counts (ctx : option ctx_cause) (payload : goval) (subject : string)
    (c : result GwResponse goerr) : list Op :=
  match ctx, payload with
  | None, Ok _ =>
      [("rpc_inflight_requests", [], 1)] ++
      match c with
      | Ok resp => [("rpc_roundtrip_duration_seconds", [subject], 1);
                    ("rpc_requests_total", [subject; Itoa (gw_status resp)], 1)]
      | Err _ => [("rpc_publish_errors_total", [], 1)]
      end ++ [("rpc_inflight_requests", [], -1)]
  | _, _ => []
  end.

Lemma call_runs ctx subject payload session adminSecret (w : W) reg :
  provides gateway_instruments reg -> utf8_valid subject = true ->
  runs (call_metered ctx subject payload session adminSecret)
    (fun c w' reg' => call ctx subject payload session adminSecret w = (c, w') /\
       counted (call_counts ctx payload subject c) reg reg') w reg.
Proof.
  intros Hp Hs. pose proof (counted_nil reg) as H0. unfold call_metered, call, call_counts.
  destruct ctx as [cause|]; [by apply runs_yield|].
  destruct payload as [v|e]; [|by apply runs_yield].
  tick. apply runs_deferred, runs_after, runs_lift. unfold wp.
  unfold bind. destruct (nats_request _ _ _ w) as [[data|e] w1].
  - destruct (unmarshal_text decode_rpcResponse data) as [resp|e].
    + tick. tick. apply runs_yield. last_tick. done.
    + tick. apply runs_yield. last_tick. done.
  - destruct (errors_Is e ErrNoResponders); tick; apply runs_yield; last_tick; done.
Qed.

(** What a request to the gateway counts, by the result of its call and its
    reply. *)
Definition request_counts (subject : string) (r : HttpRequest) (c : result GwResponse goerr)
    (rep : HttpReply) : list Op :=
  match parsePayload r with
  | Ok payload => call_counts (hr_ctx r) payload subject c
  | Err _ => []
  end ++
  [("http_requests_total", [hr_method r; hr_path r; Itoa (http_status rep)], 1);
   ("http_request_duration_seconds", [hr_method r; hr_path r], 1)].
(** The result of the call of a request, if it makes one. *)
Definition call_result (subject : string) (r : HttpRequest) (w : W) : result GwResponse goerr :=
  match parsePayload r with
  | Err e => Err e
  | Ok payload =>
      (call (hr_ctx r) subject payload (default "" (hr_header r !! "X-Session"))
         (default "" (hr_header r !! "X-Admin-Secret")) w).1
  end.

Lemma http_status_write (b : bool) status body :
  http_status (if b then {| http_status := 204; http_body := None |} else writeRawJSON status body) =
    if b then 204 else status.
Proof. by destruct b. Qed.

Lemma proxy_runs subject r (w : W) reg :
  provides gateway_instruments reg -> utf8_valid subject = true ->
  utf8_valid (hr_method r) = true -> utf8_valid (hr_path r) = true ->
  runs (proxyHandler_metered subject r)
    (fun rep w' reg' => proxyHandler subject r w = (rep, w') /\
       counted (request_counts subject r (call_result subject r w) rep) reg reg') w reg.
Proof.
  intros Hp Hs Hm Hpath. pose proof (counted_nil reg) as H0.
  unfold proxyHandler_metered, proxyHandler, request_counts, call_result. cbn zeta. apply runs_deferred.
  destruct (parsePayload r) as [payload|e].
  2: { tick. apply runs_yield. last_tick. done. }
  apply runs_after. eapply runs_mono; [by apply call_runs|]. intros c w1 reg1 [Ec Hc].
  unfold bind. rewrite Ec. cbn [fst]. destruct c as [resp|err]; tick.
  - destruct (gw_status resp =? 204) eqn:E204; apply runs_yield; last_tick; split; try done.
    all: cbn [http_status writeRawJSON] in *; rewrite <- ?app_assoc in *; try done.
    apply Z.eqb_eq in E204. by rewrite E204 in *.
  - apply runs_yield. last_tick. split; [done|]. by rewrite <- ?app_assoc in *.
Qed.

(** Where a label value is not valid UTF-8, every operation panics. *)
Lemma count_panics name labels n (w : W) reg :
  forallb utf8_valid labels = false -> count name labels n (w, reg) = (None, (w, reg)).
Proof. intros Hu. unfold count. by rewrite add_to_panics. Qed.

Lemma proxy_panics subject r (w : W) reg :
  provides gateway_instruments reg -> utf8_valid subject = true ->
  utf8_valid (hr_path r) = false ->
  exists reg', proxyHandler_metered subject r (w, reg) = (None, ((proxyHandler subject r w).2, reg')) /\
    forall labels, value reg' "http_requests_total" labels = value reg "http_requests_total" labels /\
      value reg' "http_request_duration_seconds" labels = value reg "http_request_duration_seconds" labels.
Proof.
  intros Hp Hs Hpath.
  assert (forall l, forallb utf8_valid ([hr_method r; hr_path r] ++ l) = false) as Hbad
    by (intros l; cbn [app forallb]; by rewrite Hpath, andb_false_r).
  unfold proxyHandler_metered, proxyHandler, deferred, after, bind, ret. cbn zeta.
  destruct (parsePayload r) as [payload|e].
  2: { exists reg. rewrite (count_panics _ [_; _; _]) by apply (Hbad [_]). cbn beta iota.
       by rewrite (count_panics _ [_; _]) by apply (Hbad []). }
  destruct (call_runs (hr_ctx r) subject payload (default "" (hr_header r !! "X-Session"))
    (default "" (hr_header r !! "X-Admin-Secret")) w reg Hp Hs) as (c & w1 & reg1 & E & Ec & [Hc _]).
  rewrite E, Ec. exists reg1. destruct c as [resp|err];
    (rewrite (count_panics _ [_; _; _]) by apply (Hbad [_]); cbn beta iota;
     rewrite (count_panics _ [_; _]) by apply (Hbad []); split;
     [by repeat case_match|]).
  all: intros labels; rewrite !Hc; unfold call_counts; destruct (hr_ctx r), payload; simpl;
    repeat case_decide; simplify_eq; lia.
Qed.

(** The request as the handler of the route sees it. *)
Definition routed (rt : Route) (r : HttpRequest) : HttpRequest :=
  match rt_inject rt with Some (param, key) => injectPathParam param key r | None => r end.

Lemma route_routed rt r (w : W) reg :
  route_handler rt r w = proxyHandler (rt_subject rt) (routed rt r) w /\
  route_metered rt r (w, reg) = proxyHandler_metered (rt_subject rt) (routed rt r) (w, reg) /\
  hr_path (routed rt r) = hr_path r /\ hr_method (routed rt r) = hr_method r.
Proof.
  unfold route_handler, route_metered, routed. destruct (rt_inject rt) as [[param key]|]; [|done].
  split_and!; try done; unfold injectPathParam; by case_bool_decide.
Qed.

Lemma routes_valid rt :
  rt ∈ routes -> utf8_valid (rt_subject rt) = true /\ utf8_valid (rt_method rt) = true.
Proof.
  intros Hin. assert (forallb (fun rt => utf8_valid (rt_subject rt) && utf8_valid (rt_method rt)) routes
                      = true) as Hv by (vm_compute; reflexivity).
  rewrite forallb_forall in Hv. apply list_elem_of_In, Hv, andb_true_iff in Hin. done.
Qed.

(** Nothing moves these, and the gauge moves up and down. *)
Lemma quiet_instruments subject r c rep name labels :
  name ∈ ["rpc_inflight_requests"; "rpc_timeouts_total"; "nats_connected"] ->
  total (request_counts subject r c rep) name labels = 0.
Proof.
  intros Hname%list_elem_of_In. simpl in Hname. unfold request_counts, call_counts.
  destruct (parsePayload r) as [[v|e]|e], (hr_ctx r), c;
    destruct Hname as [<-|[<-|[<-|[]]]]; simpl; repeat case_decide; simplify_eq; done.
Qed.

(** C23. The instruments of the gateway. When its path is valid UTF-8, a
    request is answered, and acts, exactly as it does without instruments,
    no operation on an instrument panics, and the registry shows what
    happened: one more request of this method and path under the status of
    the reply, one more duration, one more round trip and RPC request under
    the status of the service when its response arrived and one more publish
    error when a call was tried and failed; the gauge of requests in flight
    is back where it was; the counter of timeouts and the gauge of the
    connection, which are registered, never move. When the path is not valid
    UTF-8, the handler panics after it has acted all the same: there is no
    reply, and the request is not counted. *)
Theorem gateway_metrics rt r (w : W) reg :
  rt ∈ routes -> hr_method r = rt_method rt -> provides gateway_instruments reg ->
  let '(rep, w') := route_handler rt r w in
  let c := call_result (rt_subject rt) (routed rt r) w in
  exists reg',
    if utf8_valid (hr_path r) then
      route_metered rt r (w, reg) = (Some rep, (w', reg')) /\
      provides gateway_instruments reg' /\
      counted (request_counts (rt_subject rt) (routed rt r) c rep) reg reg' /\
      forall name labels, name ∈ ["rpc_inflight_requests"; "rpc_timeouts_total"; "nats_connected"] ->
        value reg' name labels = value reg name labels
    else
      route_metered rt r (w, reg) = (None, (w', reg')) /\
      forall labels, value reg' "http_requests_total" labels = value reg "http_requests_total" labels /\
        value reg' "http_request_duration_seconds" labels =
        value reg "http_request_duration_seconds" labels.
Proof.
  intros Hrt Em Hp. destruct (routes_valid rt Hrt) as [Hs Hm]. rewrite <- Em in Hm.
  destruct (route_routed rt r w reg) as (-> & -> & Epath & Emethod).
  rewrite <- Epath. rewrite <- Emethod in Hm.
  destruct (utf8_valid (hr_path (routed rt r))) eqn:Hpath.
  - destruct (proxy_runs (rt_subject rt) (routed rt r) w reg Hp Hs Hm Hpath)
      as (rep & w' & reg' & E & Ep & Hc). rewrite Ep. exists reg'.
    split_and!; [done|by eapply counted_provides|done|].
    intros name labels Hname. rewrite (proj1 Hc), quiet_instruments by done. lia.
  - destruct (proxy_panics (rt_subject rt) (routed rt r) w reg Hp Hs Hpath) as (reg' & E & Hv).
    destruct (proxyHandler _ _ w) as [rep w']. by exists reg'.
Qed.
End Gateway.

Section Service.
Context {W : Type}.

Definition message_counts (enabled : bool) (action : string) (status : Z) : list Op :=
  if enabled then [("nats_handler_duration_seconds", [action], 1);
                   ("nats_messages_total", [action; Itoa status], 1)] else [].

(** C3. The instruments of a service: with or without them a request is
    answered in the same way and has the same effect; every response is
    counted once, under its action and status, together with one duration.
    A request that is dropped at shutdown or that is no JSON envelope is not
    counted. *)
Theorem dispatch_metrics enabled shutdown data hdrs action (h : Handler W) w reg :
  provides service_instruments reg -> utf8_valid action = true ->
  let '(rep, w') := dispatch shutdown data hdrs action h w in
  exists reg' ops,
    dispatch_metered enabled shutdown data hdrs action h (w, reg) = (Some rep, (w', reg')) /\
    provides service_instruments reg' /\ counted ops reg reg' /\
    match rep with
    | Some (Respond text) => exists resp,
        text = Marshal (encode_rpcResponse resp) /\
        ops = message_counts enabled action (rpc_status resp)
    | _ => ops = []
    end.
Proof.
  intros Hp Ha. pose proof (counted_nil reg) as H0. unfold dispatch, dispatch_metered.
  destruct shutdown; [by exists reg, []|].
  destruct (unmarshal_text _ data) as [payload|e]; [|by exists reg, []]. cbn zeta.
  unfold bind at 1. destruct (h _ _ _ _ w) as [result w1] eqn:Eh.
  set (resp := response_of result). simpl.
  assert (runs (let? result0 := lift (h {| ctx_user := None |} action payload
      (<["x-session" := header hdrs "x-session"]>
         (<["x-admin-secret" := header hdrs "x-admin-secret"]> ∅))) in
    let? _ := (if enabled then
                 let? _ := count "nats_handler_duration_seconds" [action] 1 in
                 count "nats_messages_total" [action; Itoa (rpc_status (response_of result0))] 1
               else yield tt) in
    yield (Some (Respond (Marshal (encode_rpcResponse (response_of result0))))))
    (fun rep w' reg' => rep = Some (Respond (Marshal (encode_rpcResponse resp))) /\ w' = w1 /\
       counted (message_counts enabled action (rpc_status resp)) reg reg') w reg) as Hr.
  { apply runs_after, runs_lift. unfold wp. rewrite Eh. apply runs_after.
    destruct enabled; [tick; last_tick|apply runs_yield]; by apply runs_yield. }
  destruct Hr as (rep & w2 & reg' & E & -> & -> & Hc). exists reg'. eexists.
  split_and!; [exact E|by eapply counted_provides|exact Hc|by exists resp].
Qed.
End Service.

(** ** Witnesses *)

(** The registry of a process after the registration. *)
Definition gateway_registry : Registry := default ∅ (newMetrics ∅).
Definition transfer_registry : Registry := default ∅ (NewConsumerMetrics "transfer-service" ∅).

Lemma gateway_provided : provides gateway_instruments gateway_registry.
Proof. apply (newMetrics_provides ∅). reflexivity. Qed.

Lemma transfer_provided : provides service_instruments transfer_registry.
Proof. apply (NewConsumerMetrics_provides "transfer-service" ∅). reflexivity. Qed.

Lemma gateway_metrics_witness :
  let '(rep, w') := route_handler transfer_route pay_request logged_in in
  let c := call_result (rt_subject transfer_route) (routed transfer_route pay_request) logged_in in
  exists reg',
    if utf8_valid (hr_path pay_request) then
      route_metered transfer_route pay_request (logged_in, gateway_registry) = (Some rep, (w', reg')) /\
      provides gateway_instruments reg' /\
      counted (request_counts (rt_subject transfer_route) (routed transfer_route pay_request) c rep)
        gateway_registry reg' /\
      forall name labels, name ∈ ["rpc_inflight_requests"; "rpc_timeouts_total"; "nats_connected"] ->
        value reg' name labels = value gateway_registry name labels
    else
      route_metered transfer_route pay_request (logged_in, gateway_registry) = (None, (w', reg')) /\
      forall labels,
        value reg' "http_requests_total" labels = value gateway_registry "http_requests_total" labels /\
        value reg' "http_request_duration_seconds" labels =
        value gateway_registry "http_request_duration_seconds" labels.
Proof.
  apply (gateway_metrics transfer_route pay_request logged_in gateway_registry).
  - do 6 right. by left.
  - reflexivity.
  - exact gateway_provided.
Defined.

Lemma dispatch_metrics_witness :
  let '(rep, w') := dispatch false "{}" {["x-session" := "s1"]} "me" (SessionMiddleware handleMe) logged_in in
  exists reg' ops,
    dispatch_metered true false "{}" {["x-session" := "s1"]} "me" (SessionMiddleware handleMe)
      (logged_in, transfer_registry) = (Some rep, (w', reg')) /\
    provides service_instruments reg' /\ counted ops transfer_registry reg' /\
    match rep with
    | Some (Respond text) => exists resp,
        text = Marshal (encode_rpcResponse resp) /\ ops = message_counts true "me" (rpc_status resp)
    | _ => ops = []
    end.
Proof.
  apply (dispatch_metrics true false "{}" {["x-session" := "s1"]} "me" (SessionMiddleware handleMe)
           logged_in transfer_registry).
  - exact transfer_provided.
  - reflexivity.
Defined.

(** What the instruments say of alice's payment. *)
Definition after_payment : Registry :=
  (route_metered transfer_route pay_request (logged_in, gateway_registry)).2.2.

Example payment_counted :
  value after_payment "http_requests_total" ["POST"; "/api/transfers"; "200"] = 1 /\
  value after_payment "rpc_requests_total" ["banking.transfer.transfer"; "200"] = 1 /\
  value after_payment "rpc_inflight_requests" [] = 0.
Proof. vm_compute. done. Qed.

(** An acknowledgement whose path identifier is the escape %ff; its body
    names the notification. *)
Definition garbled_ack : HttpRequest :=
  let byte := str1 (byte_chr 255) in
  {| hr_method := "PATCH"; hr_path := "/api/notifications/" +:+ byte +:+ "/ack"; hr_query := ∅;
     hr_params := {["id" := byte]}; hr_header := {["X-Session" := "s1"]};
     hr_body := Some (Marshal (JObj [("id", JInt 1)])); hr_ctx := None |}.

Definition ack_route : Route :=
  MkRoute "PATCH" "/api/notifications/{id}/ack" "banking.notification.ack" (Some ("id", "id")).

Example garbled_ack_panics :
  (route_metered ack_route garbled_ack (logged_in, gateway_registry)).1 = None.
Proof. vm_compute. done. Qed.
