(* ===== verification/ConcurrentCorrect.v ===== *)
(** * Theorems on requests that run at the same time

    The ledger under any interleaving of the calls of any number of requests
    ([concurrent_books]), the truth of their replies ([replies_truthful]),
    their writes as a sequence in which each is made at most once
    ([writes_once]), the bound of their calls and their end ([requests_end]),
    and two races that the order of the calls allows ([stale_balance], [torn_statistics]). *)

From S2P Require Import Prelude GoStrings Json Tables Sql SqlFacts Servers Db PgFacts TxFacts.
From S2P Require Import RedisClient RedisFacts Consumer Transfer TransferFacts Auth AuthFacts Account AccountFacts.
From S2P Require Import Notification NotificationFacts Events Health Producer Services Ledger.
From S2P Require Import SystemFacts Claims Interleave Pool Concurrent.
From S2P Require Import RefServers Demo SystemCorrect.

Section Concurrent.
Context {P R J : Type} `{PgLaws P} `{RedisServer R} `{JetStream J} `{Bcrypt} `{!BcryptLaws}.
Abbreviation W := (World P R J).
Context (fmt_time : Z -> string) (ping : P -> option goerr * P).
Context (ping_view : forall p, pg_view p ≡ pg_view (ping p).2).
Context (adminSecret : string) (jetstream : bool).

(** A request that the bus delivers: the service, the action, the data and
    the headers of the message. *)
Definition Request : Type := Service * string * string * Headers.

Definition request_calls (r : Request) : Prog (P:=P) (option RpcReply) :=
  let '(s, action, data, hdrs) := r in
  request_prog (R:=R) (J:=J) ping ping_view fmt_time adminSecret jetstream s action data hdrs.

Definition delivered (r : Request) (p : Prog (P:=P) (option RpcReply)) : Prop := p = request_calls r.

(** The calls of the requests in any order, requests starting and dying at
    any time. *)
Abbreviation system_step := (sys_step (R:=R) (J:=J) ping delivered).

(** What the reply to a request says of the tables. *)
Abbreviation claims := (claims (P:=P) (R:=R) (J:=J)).

Definition says (r : Request) : option RpcReply -> Tables -> Prop :=
  let '(s, action, data, _) := r in told (claims s action) data.

Lemma system_promised w ps w' :
  schema_ok (tables_of w) -> rtc system_step ([], w) (ps, w') ->
  grown (tables_of w) (tables_of w') /\
  Forall (promised (R:=R) (J:=J) ping grown says (tables_of w')) ps.
Proof.
  intros Hok Hs.
  apply (sys_steps_promised ping grown schema_ok grown_schema says) in Hs; [done| | |done|by constructor].
  - intros [[[s action] data] hdrs]. apply told_stable.
  - intros [[[s action] data] hdrs] p T -> HT. split; [apply request_prog_keep|].
    by apply request_prog_told.
Qed.

(** C2. The books balance whatever requests run at the same time: from an
    idle system in which the constraints hold and the balances are explained
    by the transfers, every interleaving of the calls of any number of
    requests, with requests that die between two calls, leads to a bank that
    the ledger reaches; no balance is negative, and every balance is the
    opening balance plus what was received minus what was sent. *)
Theorem concurrent_books (w : W) ps w' :
  schema_ok (tables_of w) -> bank_ok (bank_of (tables_of w)) ->
  rtc system_step ([], w) (ps, w') ->
  let T := tables_of w' in
  rtc bank_step (bank_of (tables_of w)) (bank_of T) /\ schema_ok T /\ bank_ok (bank_of T) /\
  forall u, u ∈ users T ->
    0 <= u_balance u /\ u_balance u = default_balance + net_transfers (u_id u) T.
Proof.
  intros Hok Hb Hs. cbn zeta. destruct (system_promised _ _ _ Hok Hs) as [Hk _].
  destruct (Hk Hok) as (Hok' & Hr & _).
  assert (bank_ok (bank_of (tables_of w'))) as Hb' by by apply (bank_steps_ok _ _ Hr).
  split_and!; [done..|].
  apply books_of_bank; [apply (ok_user_ids _ Hok')|done].
Qed.

(** What a client reads in a successful reply. *)
Definition reply_truth (r : Request) (text : string) (T : Tables) : Prop :=
  let '(s, action, data, _) := r in
  forall resp, text = Marshal (encode_rpcResponse resp) ->
  exists payload, unmarshal_text decode_rpcRequest data = Ok payload /\
    (s = STransfer -> action = "transfer" -> rpc_status resp = 200 -> exists uid p tid,
       accepts payload = Some p /\ text = Marshal (encode_rpcResponse (receipt_reply p tid)) /\
       recorded uid p tid T) /\
    (s = SAuth -> action = "register" -> rpc_status resp = 201 -> exists phone name pw hash u,
       register_request payload = Some (phone, name, pw) /\
       text = Marshal (encode_rpcResponse (response_of (Ok (register_reply u)))) /\
       bcrypt_compare hash pw = true /\ account_opened phone name hash u T) /\
    (s = SNotification -> action = "ack" -> rpc_status resp = 200 -> exists uid id,
       NotificationFacts.ack_request payload = Some id /\ marked_read id uid T).

Lemma says_truth r text T : says r (Some (Respond text)) T -> reply_truth r text T.
Proof.
  destruct r as [[[s action] data] hdrs].
  intros (payload & resp0 & Ep & Et & Hc) resp Etext. exists payload. split; [done|].
  assert (rpc_status resp = rpc_status resp0) as Es by (apply response_text_inj; congruence).
  split_and!; intros -> -> E; rewrite Es in E; cbv [claims String.eqb Ascii.eqb Bool.eqb] in Hc.
  - destruct Hc as [uid Hc]. destruct (Hc E) as (p & tid & Ha & -> & Hr). by exists uid, p, tid.
  - destruct (Hc E) as (phone & name & pw & hash & u & Er & -> & Hb & Ha). by exists phone, name, pw, hash, u.
  - destruct Hc as [uid Hc]. destruct (Hc E) as (id & Ha & Hr). exists (UserIDFromContext (withUserID {| ctx_user := None |} uid)).1, id. done.
Qed.

(** C5. No reply is a lie, whatever requests run at the same time: when a
    transfer has been answered with success its row is in the table with the
    identifier that the receipt names, between the user and the party that
    the payload identifies, and both have their notifications; when a
    registration has been answered with success the account is there, under
    the name and phone asked for and with a hash that the password opens;
    when an acknowledgement has been, the notification is read. This holds
    when the request ends and ever after. *)
Theorem replies_truthful (w : W) ps w' :
  schema_ok (tables_of w) -> rtc system_step ([], w) (ps, w') ->
  forall r text, (r, Return _ (Some (Respond text))) ∈ ps -> reply_truth r text (tables_of w').
Proof.
  intros Hok Hs r text Hin. destruct (system_promised _ _ _ Hok Hs) as [_ Hp].
  rewrite Forall_forall in Hp. destruct (Hp _ Hin) as [_ He]. by apply says_truth.
Qed.

(** ** Once, one after the other *)

(** At some moment of the run the session stood for this user. *)
Definition session_held (seen : list W) (sid : string) (uid : Z) : Prop :=
  exists w, w ∈ seen /\ session_of (redis_view (w_rd w)) sid = Some uid.

(** What a request does to the tables, if it does anything: a transfer of an
    accepted payload from the user whose session it carries, the registration
    of the account asked for, or the mark on the named notification of the
    user of the session. *)
Definition request_effect (seen : list W) (r : Request) (T T' : Tables) : Prop :=
  let '(s, action, data, hdrs) := r in
  exists payload, unmarshal_text decode_rpcRequest data = Ok payload /\
    ((s = STransfer /\ action = "transfer" /\ exists uid,
        session_held seen (header hdrs "x-session") uid /\ transfer_effect uid payload T T') \/
     (s = SAuth /\ action = "register" /\ register_effect payload T T') \/
     (s = SNotification /\ action = "ack" /\ exists uid,
        session_held seen (header hdrs "x-session") uid /\ ack_effect uid payload T T')).

(** The status with which a request that writes is answered when it is done. *)
Definition success_status (r : Request) : option Z :=
  let '(s, action, _, _) := r in
  match s with
  | SAuth => if String.eqb action "register" then Some 201 else None
  | STransfer => if String.eqb action "transfer" then Some 200 else None
  | SNotification => if String.eqb action "ack" then Some 200 else None
  | SAccount => None
  end.

Definition reply_done (r : Request) (rep : option RpcReply) : bool :=
  match rep, success_status r with
  | Some (Respond text), Some st => has_status st text
  | _, _ => false
  end.

(** The reply says that nothing has been done: a status from 400 to 499, the
    status 503, or an error of the bus. *)
Definition reply_refused (_ : Request) : option RpcReply -> bool := reply_refusal.

Lemma reply_done_success s action data hdrs rep :
  reply_done (s, action, data, hdrs) rep = reply_success (claims s action) rep.
Proof.
  destruct rep as [[text|? ?]|]; [|done..]. unfold reply_done, reply_success, success_status, claims.
  destruct s, (String.eqb_spec action "register") as [->|]; try done;
    destruct (String.eqb_spec action "transfer") as [->|]; try done;
    destruct (String.eqb action "ack"); try done; by destruct (String.eqb action "stats").
Qed.

Context `{!RedisLaws R}.

Lemma vouches_held seen sid uid :
  vouches (P:=P) (R:=R) (J:=J) (fun w => w ∈ seen) sid uid -> session_held seen sid uid.
Proof.
  intros (w & Hw & E). exists w. split; [done|].
  pose proof (GetUserIDFromSession_spec 0 None sid
    (fun r _ => forall id, r = Ok id -> session_of (redis_view (w_rd w)) sid = Some id) w I) as Hs.
  unfold wp in Hs. destruct (GetUserIDFromSession sid w) as [r w']. apply Hs; [|exact E].
  intros w1 Hwt _. split; [|done].
  destruct (session_of (redis_view (w_rd w1)) sid) as [id|] eqn:E1; [|done].
  intros id' [= <-]. by eapply waited_session.
Qed.

Lemma request_effect_data seen s action data hdrs T T' :
  data_effect (claims s action) data hdrs (fun w => w ∈ seen) T T' ->
  request_effect seen (s, action, data, hdrs) T T'.
Proof.
  intros (payload & Ep & He). exists payload. split; [done|]. revert He. unfold Concurrent.claims.
  destruct (String.eqb_spec action "register"); [destruct s; try (by intros []); eauto|].
  destruct (String.eqb_spec action "transfer"); [destruct s; try (by intros [])|].
  - intros (id & Hv & He). left. split_and!; [done..|exists id]. split; [by apply vouches_held|exact He].
  - destruct (String.eqb_spec action "ack"); [destruct s; try (by intros [])|].
    + intros (id & Hv & He). right. right. split_and!; [done..|exists id].
      split; [by apply vouches_held|exact He].
    + destruct (String.eqb action "stats"); [destruct s|]; try (by intros []). by intros (_ & _ & []).
Qed.

(** What is known of a reply and of whether its request has made its write. *)
Definition settled (r : Request) (used : bool) (rep : option RpcReply) : Prop :=
  let '(s, action, _, _) := r in
  (tells (reply_success (claims s action)) reply_refusal used rep /\ typed_reply (claims s action) rep) /\
  (c_replies (claims s action) = None -> used = false).

Lemma claims_quiet s action :
  c_replies (claims s action) = None -> c_success (claims s action) = None /\
  forall V ctx hdrs raw T T', ~ c_effect (claims s action) V ctx hdrs raw T T'.
Proof.
  unfold Concurrent.claims. repeat case_match; intros E; try discriminate E; (split; [done|]);
    intros V ctx hdrs raw T T'; try (by intros []). by intros (_ & _ & []).
Qed.

Lemma request_settled V s action data hdrs :
  once (R:=R) (J:=J) ping schema_ok V (data_effect (claims s action) data hdrs V)
    (request_calls (s, action, data, hdrs)) (settled (s, action, data, hdrs)) false.
Proof.
  pose proof (request_prog_once ping ping_view fmt_time adminSecret jetstream s action data hdrs V) as Ho.
  destruct (c_replies (claims s action)) as [t|] eqn:Et.
  - eapply once_mono; [exact Ho|]. intros u rep [Hu _]. split; [exact Hu|]. by rewrite Et.
  - destruct (claims_quiet s action Et) as [Es Hq].
    eapply once_mono; [apply (once_quiet ping schema_ok V _ _
      (fun rep => tells (reply_success (claims s action)) reply_refusal false rep /\
                  typed_reply (claims s action) rep) false false)|].
    + eapply once_mono; [eapply once_effect; [|exact Ho]|].
      * by intros T T' (payload & _ & He%Hq).
      * intros u rep [[_ Ht] _]. split; [|exact Ht]. split; [|done].
        unfold reply_success. rewrite Es. by destruct rep as [[]|].
    + intros u rep [-> Hu]. by split.
Qed.

(** The writes of any run of labelled programs that are requests, when the
    answers are sorted by what they tell. *)
Lemma labelled_writes {L} (start : L -> Prog (P:=P) (option RpcReply) -> Prop) (req : L -> Request)
    (wins loses : L -> option RpcReply -> bool) (w : W) started answers seen s :
  (forall l p, start l p -> p = request_calls (req l)) ->
  (forall l, (exists p, start l p) -> forall used rep, settled (req l) used rep ->
     tells (wins l) (loses l) used rep) ->
  schema_ok (tables_of w) -> history ping start w started answers seen s ->
  exists made, serial (fun l => request_effect seen (req l)) made (tables_of w) (tables_of s.2) /\
    made ++ answered loses answers ⊆+ started /\ answered wins answers ⊆+ made.
Proof.
  intros Hstart Htell Hok Hh.
  edestruct (history_serial ping start grown schema_ok grown_schema (fun w => w ∈ seen)
    (fun l => let '(s, action, data, hdrs) := req l in
              data_effect (claims s action) data hdrs (fun w => w ∈ seen)) wins loses)
    as (made & Hs & Hst & Han); [| |exact Hok|exact Hh|by rewrite Forall_forall|].
  - intros l T T' T''. destruct (req l) as [[[s0 action] data] hdrs]. apply data_effect_equiv.
  - intros l p Hp. specialize (Htell l (ex_intro _ p Hp)). apply Hstart in Hp as ->.
    unfold fair. cbn [fst snd]. revert Htell.
    destruct (req l) as [[[s0 action] data] hdrs]. intros Htell. split; [apply request_prog_keep|].
    eapply once_mono; [apply request_settled|exact Htell].
  - exists made. split_and!; [|done..]. eapply serial_mono; [|exact Hs].
    intros l T T'. cbv beta. destruct (req l) as [[[s0 action] data] hdrs].
    apply request_effect_data.
Qed.

(** C3. Every write is made once, and the writes of all requests one after
    the other, whatever requests run at the same time and wherever they die:
    what the runs have done to the tables is what some of the requests that
    were started do in some order, each at most once ([made]); every request
    that was answered with success is among them, none that was answered
    with a refusal is. The money goes from the user whose session the request
    carried. So a request that its service answered with 503 or 4xx may be
    sent again without doing it twice, and one that was answered with success
    has been done exactly once. *)
Theorem writes_once (w : W) started answers seen s :
  schema_ok (tables_of w) ->
  history (R:=R) (J:=J) ping delivered w started answers seen s ->
  exists made, serial (request_effect seen) made (tables_of w) (tables_of s.2) /\
    made ++ answered reply_refused answers ⊆+ started /\
    answered reply_done answers ⊆+ made.
Proof.
  intros Hok Hh. apply (labelled_writes delivered id _ _ w started answers seen s); [done| |done..].
  intros [[[s0 action] data] hdrs] _ used rep [[[Hw Hl] _] _]. split; [|exact Hl].
  by rewrite reply_done_success.
Qed.

(** The most calls that a request makes. *)
Definition request_budget (r : Request) : nat := let '(s, action, _, _) := r in call_budget s action.

(** C35. Every request comes to an end in every interleaving, after a number
    of calls that its endpoint fixes ([call_budget]: 16 for a transfer, with
    all its retries, 262 for a registration), whatever the servers answer: at
    every moment of a run the calls that have been made are at most the sum
    of these numbers over the requests that were started; without new
    requests the run ends, after at most that many calls and one reply for
    each request, and where it cannot go on no request is running. A request
    that is left to itself makes the calls of its handler, within its number,
    and ends with its reply. *)
Theorem requests_end (w0 : W) started answers seen (s : list (Request * Prog (P:=P) (option RpcReply)) * W) :
  history (R:=R) (J:=J) ping delivered w0 started answers seen s ->
  (length seen <= sum_list (map request_budget started))%nat /\
  (forall n s', nsteps (work_step (R:=R) (J:=J) ping) n s s' ->
     (length seen + n <= sum_list (map request_budget started) + length started)%nat /\
     ((forall s'', ~ work_step ping s' s'') -> s'.1 = [])) /\
  forall svc action data hdrs w,
    let '(rep, w') :=
      serve (consumer fmt_time ping adminSecret jetstream svc) false action data hdrs w in
    let r : Request := (svc, action, data, hdrs) in
    exists n, (n <= request_budget r)%nat /\
      nsteps (work_step (R:=R) (J:=J) ping) n ([(r, request_calls r)], w) ([(r, Return _ rep)], w').
Proof.
  intros Hh. destruct (history_bounded ping delivered request_budget w0 started answers seen s)
    as (bs & Hb & Hsum & Hlen); [|done|].
  { intros [[[svc action] data] hdrs] p ->. apply request_prog_bounded. }
  split_and!; [lia| |].
  - intros n s' Hs. split; [|apply work_rest].
    pose proof (work_steps_bounded ping n s s' bs Hs Hb). lia.
  - intros svc action data hdrs w. destruct (serve _ _ _ _ _ w) as [rep w'] eqn:E.
    apply work_alone; [apply request_prog_bounded|]. cbn [request_calls]. by rewrite request_prog_run.
Qed.

(** ** Schedules *)

(** A scheduler: a request starts (as number 0), the [i]-th request makes its
    next call, or leaves with its reply. *)
Inductive turn : Type := Start (r : Request) | Turn (i : nat) | Leave (i : nat).

Abbreviation Pool := (list (Request * Prog (P:=P) (option RpcReply)) * W)%type.

Definition take_turn (t : turn) (s : Pool) : option Pool :=
  match t with
  | Start r => Some ((r, request_calls r) :: s.1, s.2)
  | Turn i =>
      match s.1 !! i with
      | Some (r, Do _ c k) => let '(b, w') := run_call ping c s.2 in Some (<[i := (r, k b)]> s.1, w')
      | _ => None
      end
  | Leave i =>
      match s.1 !! i with
      | Some (_, Return _ _) => Some (delete i s.1, s.2)
      | _ => None
      end
  end.

Fixpoint schedule (l : list turn) (s : Pool) : option Pool :=
  match l with
  | [] => Some s
  | t :: l' => s' ← take_turn t s; schedule l' s'
  end.

Lemma take_turn_step t s s' : take_turn t s = Some s' -> system_step s s'.
Proof.
  destruct s as [ps w], t as [r|i|i]; simpl.
  - intros [= <-]. by apply sys_start.
  - destruct (ps !! i) as [[r [a|B c k]]|] eqn:Ei; [done| |done].
    destruct (run_call ping c w) as [b w'] eqn:Ec. intros [= <-].
    rewrite <- (take_drop_middle ps i (r, Do _ c k)) at 1 by done.
    rewrite insert_take_drop by (by eapply lookup_lt_Some).
    by apply sys_work, work_call.
  - destruct (ps !! i) as [[r [a|B c k]]|] eqn:Ei; [|done|done]. intros [= <-].
    rewrite <- (take_drop_middle ps i (r, Return _ a)) at 1 by done.
    rewrite delete_take_drop. by apply sys_work, work_leave.
Qed.

Lemma schedule_steps l s s' : schedule l s = Some s' -> rtc system_step s s'.
Proof.
  revert s. induction l as [|t l IH]; intros s; simpl; [intros [= <-]; apply rtc_refl|].
  destruct (take_turn t s) as [s1|] eqn:Et; [|done]. simpl. intros Hs.
  eapply rtc_l; [by eapply take_turn_step|by apply IH].
Qed.

(** What a schedule starts, and the replies it receives. *)
Abbreviation Log := (list Request * list (Request * option RpcReply) * list W)%type.

Definition log_turn (t : turn) (s : Pool) (lg : Log) : Log :=
  match t with
  | Start r => (r :: lg.1.1, lg.1.2, lg.2)
  | Turn _ => (lg.1, s.2 :: lg.2)
  | Leave i =>
      match s.1 !! i with
      | Some (r, Return _ a) => (lg.1.1, (r, a) :: lg.1.2, lg.2)
      | _ => lg
      end
  end.

Fixpoint logged (l : list turn) (s : Pool) (lg : Log) : option (Log * Pool) :=
  match l with
  | [] => Some (lg, s)
  | t :: l' => s' ← take_turn t s; logged l' s' (log_turn t s lg)
  end.

Abbreviation history := (history (R:=R) (J:=J) ping delivered).

Lemma log_turn_history w0 t s s' lg :
  take_turn t s = Some s' -> history w0 lg.1.1 lg.1.2 lg.2 s ->
  history w0 (log_turn t s lg).1.1 (log_turn t s lg).1.2 (log_turn t s lg).2 s'.
Proof.
  destruct s as [ps w], t as [r|i|i]; simpl.
  - intros [= <-] Hh. by apply hist_start.
  - destruct (ps !! i) as [[r [a|B c k]]|] eqn:Ei; [done| |done].
    destruct (run_call ping c w) as [b w'] eqn:Ec. intros [= <-] Hh.
    rewrite <- (take_drop_middle ps i (r, Do _ c k)) in Hh by done.
    rewrite insert_take_drop by (by eapply lookup_lt_Some). by eapply hist_call.
  - destruct (ps !! i) as [[r [a|B c k]]|] eqn:Ei; [|done|done]. intros [= <-] Hh.
    rewrite <- (take_drop_middle ps i (r, Return _ a)) in Hh by done.
    rewrite delete_take_drop. by apply hist_reply.
Qed.

Lemma logged_history w0 l s lg lg' s' :
  logged l s lg = Some (lg', s') -> history w0 lg.1.1 lg.1.2 lg.2 s ->
  history w0 lg'.1.1 lg'.1.2 lg'.2 s'.
Proof.
  revert s lg. induction l as [|t l IH]; intros s lg; simpl; [by intros [= <- <-]|].
  destruct (take_turn t s) as [s1|] eqn:Et; [|done]. simpl. intros Hl Hh.
  eapply IH; [exact Hl|]. by eapply log_turn_history.
Qed.
End Concurrent.

(** ** The read model falls behind *)

(** alice and bob have sessions; the read model is empty. *)
Definition both_logged_in (faults : plan) : DemoWorld :=
  set_rd demo {| rr_state := with_kv demo_redis_state
    (<["session:s1" := ("1", None)]> {["session:s2" := ("2", None)]}); rr_plan := faults |}.

Definition bob_balance : Request := (SAccount, "balance", "{}", {["x-session" := "s2"]}).

Definition alice_pays : Request :=
  (STransfer, "transfer", Marshal (JObj [("payload", transfer_body (JInt 200))]),
   {["x-session" := "s1"]}).

Abbreviation demo_schedule := (schedule Itoa demo_ping demo_ping_view "secret" false).
Abbreviation demo_step := (sys_step demo_ping (delivered (R:=RefRedis) (J:=RefJs) Itoa demo_ping
                             demo_ping_view "secret" false)).

(** The balance in the row of a user, and in the read model. *)
Definition row_balance (w : DemoWorld) (id : Z) : option Z :=
  u_balance <$> List.find (fun u => u_id u =? id) (users (tables_of w)).
Definition model_balance (w : DemoWorld) (id : Z) : option string :=
  hash_get (redis_view (w_rd w)) "balance" (Itoa id).

(** bob's row says one thing, the endpoint says another. *)
Definition bob_behind (w : DemoWorld) : Prop :=
  row_balance w 2 = Some 270 /\ model_balance w 2 = Some "70" /\
  (serve (consumer Itoa demo_ping "secret" false SAccount) false "balance" "{}"
     {["x-session" := "s2"]} w).1 =
    Some (Respond (Marshal (encode_rpcResponse (MkRpcResponse 200 (JMap [("balance", JInt 70)]))))).

(** The final world of a schedule that leaves no request running. *)
Definition idle_after (l : list turn) (w0 : DemoWorld) : option DemoWorld :=
  match demo_schedule l ([], w0) with Some ([], w) => Some w | _ => None end.

Lemma idle_after_rtc l w0 w : idle_after l w0 = Some w -> rtc demo_step ([], w0) ([], w).
Proof.
  unfold idle_after. destruct (demo_schedule l ([], w0)) as [[[|p ps] w1]|] eqn:E; [|done|done].
  intros [= ->]. by eapply schedule_steps.
Qed.

Lemma idle_after_steps l w0 (Q : DemoWorld -> Prop) :
  match idle_after l w0 with Some w => Q w | None => False end ->
  exists w, rtc demo_step ([], w0) ([], w) /\ Q w.
Proof.
  destruct (idle_after l w0) as [w|] eqn:E; [|done]. intros HQ. exists w.
  split; [by eapply idle_after_rtc|done].
Qed.

Definition solo (r : Request) (calls : nat) : list turn := Start r :: repeat (Turn 0) calls ++ [Leave 0].

(** bob's request has read his row when alice's transfer runs; then it fills
    the read model. *)
Definition late_fill : list turn :=
  Start bob_balance :: repeat (Turn 0) 3 ++ solo alice_pays 3 ++ [Turn 0; Leave 0].

(** Two transfers commit in one order and write the read model in the
    other. *)
Definition crossed : list turn :=
  Start alice_pays :: repeat (Turn 0) 2 ++ solo alice_pays 3 ++ [Turn 0; Leave 0].

(** C36. The read model can stay behind the rows: without any fault, when a
    balance request that missed it fills it after a transfer that ran
    meanwhile, and when two transfers write it in the other order than they
    committed in; and when the pipeline after a transfer fails. No request
    is then running, and the balance endpoint answers the old balance; it
    does not fall back to the row. *)
Theorem stale_balance :
  (exists w, rtc demo_step ([], both_logged_in []) ([], w) /\ bob_behind w) /\
  (exists w, rtc demo_step ([], both_logged_in []) ([], w) /\
     row_balance w 1 = Some 100 /\ model_balance w 1 = Some "300" /\
     row_balance w 2 = Some 470 /\ model_balance w 2 = Some "270") /\
  (exists faults w, rtc demo_step ([], both_logged_in faults) ([], w) /\ bob_behind w).
Proof.
  split_and!.
  - apply (idle_after_steps late_fill). vm_compute. done.
  - apply (idle_after_steps crossed). vm_compute. done.
  - exists [None; None; None; None; Some (false, ELib "i/o timeout")].
    apply (idle_after_steps (solo bob_balance 4 ++ solo alice_pays 3)). vm_compute. done.
Qed.

(** ** Statistics of two states *)

Definition fresh_both : DemoWorld := set_pg (both_logged_in []) (w_pg fresh_world).

Definition stats_request : Request :=
  (SAccount, "stats", "{}", {["x-session" := "s1"; "x-admin-secret" := "secret"]}).

(** alice's transfer commits between the second and the third query. *)
Definition torn : list turn :=
  Start stats_request :: repeat (Turn 0) 4 ++ solo alice_pays 3 ++ [Turn 0; Turn 0; Leave 0].

Definition stats_text (st : adminStats) : string :=
  Marshal (encode_rpcResponse (response_of (stats_answer st))).

Definition demo_history := history (R:=RefRedis) (J:=RefJs) demo_ping
  (delivered (R:=RefRedis) (J:=RefJs) Itoa demo_ping demo_ping_view "secret" false) fresh_both.

Lemma logged_history_exists l (Q : list (Request * option RpcReply) -> list DemoWorld -> DemoWorld -> Prop) :
  match logged Itoa demo_ping demo_ping_view "secret" false l ([], fresh_both) ([], [], []) with
  | Some (_, answers, seen, (_, w)) => Q answers seen w
  | None => False
  end ->
  exists started answers seen s, demo_history started answers seen s /\ Q answers seen s.2.
Proof.
  destruct (logged _ _ _ _ _ _ _ _) as [[[[st an] seen] [ps w]]|] eqn:E; [|done]. intros HQ.
  exists st, an, seen, (ps, w). split; [|done].
  apply (logged_history Itoa demo_ping demo_ping_view "secret" false fresh_both _ _ _ _ _ E), hist_idle.
Qed.

(** The run of the callback on the tables of a world. *)
Lemma stats_queries_alone {P R J} `{PgServer P} st (w : World P R J) :
  with_vars (stats_queries (fun A f => on_pg f)) st w =
    let '(r, p) := with_vars (stats_queries alone) st (w_pg w) in (r, set_pg w p).
Proof.
  destruct w as [p r j h]. unfold with_vars, stats_queries, bind, in_tx, assign, alone, ret, on_pg. simpl.
  destruct (pg_one SumUsers p) as [r1 p1]. destruct (scan_sum r1) as [[n1 t1]|e1]; [simpl|done].
  destruct (pg_one SumTransfers p1) as [r2 p2]. destruct (scan_sum r2) as [[n2 t2]|e2]; [simpl|done].
  destruct (pg_one CountNotifications p2) as [[n3|e3] p3]; done.
Qed.

Lemma stats_serializable {P R J} `{PgLaws P} o st (w : World P R J) :
  tx_serializable o = true ->
  wp (RunInTx o (fun X tx => stats_queries tx) st)
    (fun '(err, st') _ => err = None -> st' = stats_of (tables_of w)) w.
Proof.
  intros Ho. unfold RunInTx. rewrite Ho. apply wp_on_pg. intros [err st'] p' E.
  apply with_vars_inv, pg_tx_law in E; [|done]. intros ->.
  inversion E as [p0 s1 p1 p2 E0 Ef _|? ? ? ? ? ? _ _ _ _|? ? ? _ _|? ? ? ? ? _ _ _ _]; subst.
  assert (wp (with_vars (stats_queries (fun A f => on_pg f)) st)
    (fun r _ => r.1 = None -> r.2 = stats_of (tables_of (set_pg w p0))) (set_pg w p0)) as Hq.
  { apply (stats_queries_spec None); [done|done|by intros]. }
  unfold wp in Hq. rewrite stats_queries_alone in Hq. unfold with_vars in Hq. cbn [w_pg set_pg] in Hq.
  rewrite Ef in Hq. specialize (Hq eq_refl). cbn [snd] in Hq. rewrite Hq. apply stats_of_proper.
  by symmetry.
Qed.

Section Torn.
Context {P R J : Type} `{PgLaws P} `{RedisServer R} `{JetStream J} `{Bcrypt} `{!BcryptLaws}.
Context (fmt_time : Z -> string) (ping : P -> option goerr * P).
Context (ping_view : forall p, pg_view p ≡ pg_view (ping p).2).
Context (adminSecret : string) (jetstream : bool).

(** C30. The statistics mix up to three states of the tables, although the
    comments promise one snapshot, because the options of the transaction do
    not ask for an isolation level, which leaves READ COMMITTED. Whatever
    happens between the calls of the request, a successful reply carries the
    figures of the users, those of the transfers and the number of the
    notifications as the tables had them in three worlds in which it made
    its calls; these can differ: in some run no transfer is reported and two
    notifications, while at every moment there were two notifications for
    each transfer. With the isolation level SERIALIZABLE in the options the
    same callback would report one state. *)
Theorem torn_statistics :
  (forall data hdrs ws text,
     Forall (fun w => schema_ok (tables_of w)) ws ->
     replay (R:=R) (J:=J) ping
       (request_calls (R:=R) (J:=J) fmt_time ping ping_view adminSecret jetstream
          (SAccount, "stats", data, hdrs)) ws = Some (Some (Respond text)) ->
     has_status 200 text = true ->
     exists st, stats_seen (fun w => w ∈ ws) st /\ text = stats_text st) /\
  (exists started answers seen s,
     demo_history started answers seen s /\
     (stats_request, Some (Respond (stats_text (MkStats 3 300000 0 0 2)))) ∈ answers /\
     Forall (fun w => length (notifications (tables_of w)) = (2 * length (transfers (tables_of w)))%nat)
       (s.2 :: seen)) /\
  (forall st (w : World P R J),
     wp (RunInTx {| tx_serializable := true; tx_read_only := tx_read_only read_only_opts |}
           (fun X tx => stats_queries tx) st)
       (fun '(err, st') _ => err = None -> st' = stats_of (tables_of w)) w).
Proof.
  split_and!.
  - intros data hdrs ws text Hok Hr Hs.
    destruct (once_replay ping schema_ok (fun w => w ∈ ws) _ _ _ _ ws _
      (request_prog_once ping ping_view fmt_time adminSecret jetstream SAccount "stats" data hdrs _)
      Hok ltac:(by apply Forall_forall) Hr) as (u & _ & resp & -> & Hc).
    rewrite has_status_response in Hs. destruct (Hc ltac:(lia)) as (st & Hst & ->). by exists st.
  - apply (logged_history_exists torn (fun answers seen w =>
      (stats_request, Some (Respond (stats_text (MkStats 3 300000 0 0 2)))) ∈ answers /\
      Forall (fun w => length (notifications (tables_of w)) = (2 * length (transfers (tables_of w)))%nat)
        (w :: seen))).
    vm_compute. split; [by left|by repeat constructor].
  - intros st w. by apply stats_serializable.
Qed.
End Torn.

(** ** Witnesses *)

(** The world after the two crossed transfers. *)
Definition crossed_world : DemoWorld := default fresh_both (idle_after crossed fresh_both).

(** The worlds in which the statistics request of [torn] made its calls. *)
Definition torn_worlds : list DemoWorld :=
  match logged Itoa demo_ping demo_ping_view "secret" false torn ([], fresh_both) ([], [], []) with
  | Some (_, _, seen, _) => rev (take 2 seen ++ drop 5 seen)
  | None => []
  end.

Definition torn_reply : option (option RpcReply) :=
  replay (R:=RefRedis) (J:=RefJs) demo_ping
    (request_calls (R:=RefRedis) (J:=RefJs) Itoa demo_ping demo_ping_view "secret" false stats_request)
    torn_worlds.

Lemma torn_statistics_witness :
  torn_reply = Some (Some (Respond (stats_text (MkStats 3 300000 0 0 2)))) /\
  exists st, stats_seen (fun w => w ∈ torn_worlds) st /\
    stats_text (MkStats 3 300000 0 0 2) = stats_text st.
Proof.
  assert (torn_reply = Some (Some (Respond (stats_text (MkStats 3 300000 0 0 2))))) as E
    by (vm_compute; reflexivity).
  split; [exact E|].
  apply (proj1 (torn_statistics (R:=RefRedis) (J:=RefJs) Itoa demo_ping demo_ping_view "secret" false)
           "{}" {["x-session" := "s1"; "x-admin-secret" := "secret"]} torn_worlds); [|exact E|].
  - apply (bool_decide_unpack _). vm_compute. exact I.
  - vm_compute. reflexivity.
Defined.

Lemma crossed_reached : rtc demo_step ([], fresh_both) ([], crossed_world).
Proof.
  unfold crossed_world. destruct (idle_after crossed fresh_both) as [w|] eqn:E.
  - by apply (idle_after_rtc crossed).
  - exfalso. assert (bool_decide (is_Some (idle_after crossed fresh_both)) = true) as Hs
      by (vm_compute; reflexivity).
    by rewrite E in Hs.
Qed.

(** 200 twice from alice to bob. *)
Example crossed_rows : map u_balance (users (tables_of crossed_world)) = [99600; 100400; 100000].
Proof. vm_compute. reflexivity. Qed.

Lemma concurrent_books_witness :
  let T := tables_of crossed_world in
  rtc bank_step (bank_of (tables_of fresh_both)) (bank_of T) /\ schema_ok T /\ bank_ok (bank_of T) /\
  forall u, u ∈ users T ->
    0 <= u_balance u /\ u_balance u = default_balance + net_transfers (u_id u) T.
Proof.
  apply (concurrent_books Itoa demo_ping demo_ping_view "secret" false fresh_both [] crossed_world).
  - exact fresh_schema.
  - exact fresh_bank.
  - exact crossed_reached.
Defined.

(** Every commit of alice's transfer but the last is refused with a
    serialization failure. *)
Definition contended : DemoWorld :=
  set_pg (both_logged_in [])
    {| rp_tables := rp_tables (w_pg demo); rp_now := 0; rp_plan := [];
       rp_tx_plan := repeat (Some (false, EPg "40001" "could not serialize access")) 4 |}.

Definition contended_log := default (([], [], []), ([], contended))
  (logged Itoa demo_ping demo_ping_view "secret" true (solo alice_pays 16) ([], contended) ([], [], [])).

Lemma contended_history :
  history (R:=RefRedis) (J:=RefJs) demo_ping
    (delivered (R:=RefRedis) (J:=RefJs) Itoa demo_ping demo_ping_view "secret" true)
    contended contended_log.1.1.1 contended_log.1.1.2 contended_log.1.2 contended_log.2.
Proof.
  unfold contended_log. destruct (logged _ _ _ _ _ _ _ _) as [[lg s]|] eqn:E; [|apply hist_idle].
  simpl. eapply logged_history; [exact E|apply hist_idle].
Qed.

(** She uses up the calls of her request, and is answered with success. *)
Lemma requests_end_witness :
  answered reply_done contended_log.1.1.2 = [alice_pays] /\
  length contended_log.1.2 = request_budget alice_pays /\
  (length contended_log.1.2 <= sum_list (map request_budget contended_log.1.1.1))%nat.
Proof.
  split; [vm_compute; reflexivity|]. split; [vm_compute; reflexivity|].
  exact (proj1 (requests_end Itoa demo_ping demo_ping_view "secret" true contended _ _ _ _
                  contended_history)).
Defined.

(** alice's first transfer has been answered, and a second one ran between
    its transaction and its reply. *)
Definition first_answered : list turn :=
  Start alice_pays :: repeat (Turn 0) 2 ++ solo alice_pays 3 ++ [Turn 0].

Definition answered_pool := default ([], fresh_both) (demo_schedule first_answered ([], fresh_both)).

Definition first_reply {P} (ps : list (Request * Prog (P:=P) (option RpcReply))) : option (Request * string) :=
  match ps with
  | (r, Return _ (Some (Respond text))) :: _ => Some (r, text)
  | _ => None
  end.

Lemma first_reply_in {P} (ps : list (Request * Prog (P:=P) (option RpcReply))) r text :
  first_reply ps = Some (r, text) -> (r, Return _ (Some (Respond text))) ∈ ps.
Proof.
  destruct ps as [|[r0 [[[t|? ?]|]|? ? ?]] ps]; simpl; try done. intros [= -> ->]. by left.
Qed.

Lemma answered_reached : rtc demo_step ([], fresh_both) (answered_pool.1, answered_pool.2).
Proof.
  rewrite <- surjective_pairing. unfold answered_pool.
  destruct (demo_schedule first_answered ([], fresh_both)) as [s|] eqn:E; [by eapply schedule_steps|].
  exfalso. assert (bool_decide (is_Some (demo_schedule first_answered ([], fresh_both))) = true) as Hs
    by (vm_compute; reflexivity).
  by rewrite E in Hs.
Qed.

Definition answered_text : string :=
  Marshal (encode_rpcResponse
    (MkRpcResponse 200 (JMap [("transfer_id", JInt 1); ("amount", JInt 200)]))).

Lemma replies_truthful_witness :
  first_reply answered_pool.1 = Some (alice_pays, answered_text) /\
  reply_truth alice_pays answered_text (tables_of answered_pool.2).
Proof.
  assert (first_reply answered_pool.1 = Some (alice_pays, answered_text)) as E
    by (vm_compute; reflexivity).
  split; [exact E|].
  apply (replies_truthful Itoa demo_ping demo_ping_view "secret" false fresh_both
           answered_pool.1 answered_pool.2 fresh_schema answered_reached).
  apply first_reply_in. exact E.
Defined.

(** Two crossed transfers, both answered, and one that is refused. *)
Definition alice_overdraws : Request :=
  (STransfer, "transfer", Marshal (JObj [("payload", transfer_body (JInt 1000000))]),
   {["x-session" := "s1"]}).

Definition three_requests : list turn := crossed ++ solo alice_overdraws 2.

Definition three_log := default (([], [], []), ([], fresh_both))
  (logged Itoa demo_ping demo_ping_view "secret" false three_requests ([], fresh_both) ([], [], [])).

Lemma three_history :
  history (R:=RefRedis) (J:=RefJs) demo_ping
    (delivered (R:=RefRedis) (J:=RefJs) Itoa demo_ping demo_ping_view "secret" false)
    fresh_both three_log.1.1.1 three_log.1.1.2 three_log.1.2 three_log.2.
Proof.
  unfold three_log. destruct (logged _ _ _ _ _ _ _ _) as [[lg s]|] eqn:E; [|apply hist_idle].
  simpl. eapply logged_history; [exact E|apply hist_idle].
Qed.

Lemma writes_once_witness :
  answered reply_done three_log.1.1.2 = [alice_pays; alice_pays] /\
  answered reply_refused three_log.1.1.2 = [alice_overdraws] /\
  exists made, serial (request_effect three_log.1.2) made (tables_of fresh_both) (tables_of three_log.2.2) /\
    made ++ answered reply_refused three_log.1.1.2 ⊆+ three_log.1.1.1 /\
    answered reply_done three_log.1.1.2 ⊆+ made.
Proof.
  split; [vm_compute; reflexivity|]. split; [vm_compute; reflexivity|].
  apply (writes_once Itoa demo_ping demo_ping_view "secret" false fresh_both).
  - exact fresh_schema.
  - exact three_history.
Defined.
