(* ===== verification/Web.v ===== *)
(** * HTTP requests that run at the same time

    The gateway over the bus over the services: a request of a browser is sent
    on at most once ([sent]), runs as the tree of its service ([Concurrent]),
    and is answered by what the gateway makes of the reply ([http_reply]), or
    of an error while the service goes on ([web]). The code of the gateway is
    [Producer.route_handler], run against a bus that records what it is asked
    and gives a fixed answer ([Tap]). *)

From S2P Require Import Prelude GoStrings Json JsonFacts Tables Sql Servers Db PgFacts RedisClient.
From S2P Require Import RedisFacts Consumer Transfer Auth Account Notification Health Producer.
From S2P Require Import ProducerFacts Services Api SystemFacts Claims Interleave Pool Concurrent.
From S2P Require Import SystemCorrect ConcurrentCorrect.

(** ** What the gateway sends, and what it answers *)

Abbreviation message := (string * string * Headers)%type.

Record Tap := MkTap { tap_answer : result string goerr; tap_sent : list message }.

#[global] Instance tap_nats : Nats Tap := {|
  nats_request subject data hdrs := fun t =>
    (tap_answer t, MkTap (tap_answer t) (tap_sent t ++ [(subject, data, hdrs)]));
  nats_up _ := True;
|}.

#[global] Instance Route_eq_dec : EqDecision Route.
Proof. solve_decision. Defined.

(** A request on a route of the gateway. *)
Definition WebRequest : Type := Route * HttpRequest.

Definition gateway_run (l : WebRequest) (a : result string goerr) : HttpReply * Tap :=
  route_handler l.1 l.2 (MkTap a []).

(** The reply when the bus answers [a]. *)
Definition http_reply (l : WebRequest) (a : result string goerr) : HttpReply := (gateway_run l a).1.

(** The messages sent; none of them depends on the answer. *)
Definition sent (l : WebRequest) : list message := tap_sent (gateway_run l (Err ErrNoResponders)).2.

(** The reply to an answer of the bus. *)
Definition reply_to (a : result string goerr) : HttpReply :=
  match a with
  | Err err =>
      error_reply (if errors_Is err ErrNoResponders then errServiceUnavailable
                   else EWrap "nats request" err)
  | Ok data =>
      match unmarshal_text decode_rpcResponse data with
      | Err err => error_reply (EWrap "unmarshal reply" err)
      | Ok resp =>
          if gw_status resp =? 204 then {| http_status := 204; http_body := None |}
          else writeRawJSON (gw_status resp)
                 (match gw_body resp with Some v => Marshal v | None => "{}" end)
      end
  end.

(** The gateway answers by itself, or sends one message and answers what it
    makes of the answer. *)
Inductive route_case (l : WebRequest) : Prop :=
| route_refused rep :
    http_status rep ∈ [400; 502; 503; 504] ->
    (forall a, gateway_run l a = (rep, MkTap a [])) -> route_case l
| route_sends data :
    (forall a, gateway_run l a =
       (reply_to a, MkTap a [(rt_subject l.1, data, auth_headers l.2)])) -> route_case l.

Lemma proxy_case subject r r0 :
  auth_headers r0 = auth_headers r ->
  (exists rep, http_status rep ∈ [400; 502; 503; 504] /\
     forall a, proxyHandler subject r0 (MkTap a []) = (rep, MkTap a [])) \/
  (exists data, forall a, proxyHandler subject r0 (MkTap a []) =
     (reply_to a, MkTap a [(subject, data, auth_headers r)])).
Proof.
  intros Hr. unfold proxyHandler. destruct (parsePayload r0) as [payload|e];
    [|left; eexists; split; [|done]; set_solver].
  unfold call. destruct (hr_ctx r0); [left; eexists; split; [|done]; apply error_reply_status|].
  destruct payload as [v|e]; [|left; eexists; split; [|done]; apply error_reply_status].
  right. exists (Marshal (rpcRequest_json v)). intros a. rewrite <- Hr.
  unfold bind. cbn [nats_request tap_nats tap_answer tap_sent app]. unfold reply_to, ret.
  fold (auth_headers r0). destruct a as [data|err].
  - destruct (unmarshal_text _ data) as [resp|e]; [|done]. by destruct (gw_status resp =? 204).
  - by destruct (errors_Is err ErrNoResponders).
Qed.

Lemma route_cases l : route_case l.
Proof.
  destruct l as [rt r].
  assert (exists r0, auth_headers r0 = auth_headers r /\
    forall a, gateway_run (rt, r) a = proxyHandler (rt_subject rt) r0 (MkTap a [])) as (r0 & Hr & E).
  { unfold gateway_run, route_handler. cbn [fst snd]. destruct (rt_inject rt) as [[param key]|];
      [exists (injectPathParam param key r); split; [apply inject_auth|done]|by exists r]. }
  destruct (proxy_case (rt_subject rt) r r0 Hr) as [(rep & Hs & Ea)|(data & Ea)].
  - eapply route_refused; [exact Hs|]. intros a. by rewrite E, Ea.
  - apply (route_sends _ data). intros a. by rewrite E, Ea.
Qed.

(** ** The endpoint of a route *)

Definition subject_of (s : Service) (action : string) : string :=
  match s with
  | SAuth => "banking.auth." | SAccount => "banking.account."
  | STransfer => "banking.transfer." | SNotification => "banking.notification."
  end +:+ action.

Definition endpoints : list (Service * string) :=
  map (pair SAuth) ["register"; "login"; "logout"; "health"] ++
  map (pair SAccount) ["me"; "balance"; "lookup"; "stats"; "users"; "transfers"; "notifications";
                       "user-detail"; "health"] ++
  map (pair STransfer) ["transfer"; "health"] ++
  map (pair SNotification) ["notifications"; "ack"; "health"].

Definition route_endpoint (rt : Route) : Service * string :=
  default (SAuth, "") (List.find (fun e => bool_decide (subject_of e.1 e.2 = rt_subject rt)) endpoints).

(** The request that the service of the route gets. *)
Definition forwarded (l : WebRequest) : Request :=
  (route_endpoint l.1, match sent l with (_, data, _) :: _ => data | [] => "" end, auth_headers l.2).

Section Web.
Context {P R J : Type} `{PgLaws P} `{RedisServer R} `{JetStream J} `{Bcrypt} `{!BcryptLaws}.
Abbreviation W := (World P R J).
Context (fmt_time : Z -> string) (ping : P -> option goerr * P).
Context (ping_view : forall p, pg_view p ≡ pg_view (ping p).2).
Context (adminSecret : string) (jetstream : bool).
Abbreviation all_services := (services (P:=P) (R:=R) (J:=J) fmt_time ping adminSecret jetstream).
Abbreviation consumer := (consumer (P:=P) (R:=R) (J:=J) fmt_time ping adminSecret jetstream).
Abbreviation request_calls := (request_calls (R:=R) (J:=J) fmt_time ping ping_view adminSecret jetstream).
Abbreviation WebProg := (Prog (P:=P) (option RpcReply)).

(** It is the one endpoint that answers the subject of the route. *)
Lemma route_endpoint_answers rt :
  rt ∈ routes ->
  answers all_services (rt_subject rt) (consumer (route_endpoint rt).1) (route_endpoint rt).2.
Proof.
  intros Hrt.
  assert (forallb (fun rt => bool_decide (subject_of (route_endpoint rt).1 (route_endpoint rt).2 =
                                          rt_subject rt)) routes = true) as Hsub by (vm_compute; done).
  assert (forallb (fun rt => match c_handlers (consumer (route_endpoint rt).1) !! (route_endpoint rt).2 with
            Some _ => true | None => false end) routes = true) as Hhas by (vm_compute; done).
  rewrite forallb_forall in Hsub, Hhas. apply list_elem_of_In in Hrt.
  specialize (Hsub rt Hrt). specialize (Hhas rt Hrt). apply bool_decide_eq_true in Hsub.
  split_and!.
  - apply services_consumer. by eexists.
  - rewrite <- Hsub. by destruct (route_endpoint rt).1.
  - by destruct (c_handlers _ !! _).
Qed.

(** ** Runs

    [web w0 arrived replies seen (gs, w)]: from the idle system [w0] these
    requests have arrived, these replies were given, and the programs [gs]
    run in the services, with the mark whether the gateway still waits for
    the reply. [seen]: the worlds in which calls were made. *)
Inductive web (w0 : W) : list WebRequest -> list (WebRequest * HttpReply) -> list W ->
    list ((WebRequest * WebProg) * bool) * W -> Prop :=
| web_idle : web w0 [] [] [] ([], w0)
| web_unsent st an ws gs w l e :
    (* refused by the gateway, not delivered, or nobody subscribes *)
    web w0 st an ws (gs, w) -> l.1 ∈ routes ->
    sent l = [] \/ e = ErrNoResponders \/ bus_fault e = true ->
    web w0 (l :: st) ((l, http_reply l (Err e)) :: an) ws (gs, w)
| web_deliver st an ws gs w l :
    web w0 st an ws (gs, w) -> l.1 ∈ routes -> sent l <> [] ->
    web w0 (l :: st) an ws (((l, request_calls (forwarded l)), true) :: gs, w)
| web_call st an ws gs1 l {B} (c : Call B) k b gs2 w x w' :
    web w0 st an ws (gs1 ++ ((l, Do _ c k), b) :: gs2, w) -> run_call ping c w = (x, w') ->
    web w0 st an (w :: ws) (gs1 ++ ((l, k x), b) :: gs2, w')
| web_reply st an ws gs1 l rep gs2 w :
    web w0 st an ws (gs1 ++ ((l, Return _ (Some rep)), true) :: gs2, w) ->
    web w0 st ((l, http_reply l (Ok (reply_data rep))) :: an) ws (gs1 ++ gs2, w)
| web_giveup st an ws gs1 l p gs2 w e :
    (* a timeout, a browser that left, a lost connection: the service goes on *)
    web w0 st an ws (gs1 ++ ((l, p), true) :: gs2, w) -> bus_fault e = true ->
    web w0 st ((l, http_reply l (Err e)) :: an) ws (gs1 ++ ((l, p), false) :: gs2, w)
| web_death st an ws gs1 l p b gs2 w :
    (* a service dies, or its reply reaches nobody *)
    web w0 st an ws (gs1 ++ ((l, p), b) :: gs2, w) -> web w0 st an ws (gs1 ++ gs2, w)
| web_other st an ws gs w w' :
    web w0 st an ws (gs, w) -> w_pg w' = w_pg w -> web w0 st an ws (gs, w').
End Web.
