(* ===== verification/WebCorrect.v ===== *)
(** * Theorems on HTTP requests that run at the same time

    What the status that a browser reads tells of the write that it asked for
    ([http_writes_once]): the runs of [Web.web] are runs of the pool of
    service programs ([web_history]), and the gateway hands on the status of
    a typed response ([http_tells]). *)

From S2P Require Import Prelude GoStrings Json JsonFacts Tables Sql Servers Db PgFacts RedisClient.
From S2P Require Import RedisFacts Consumer Transfer Auth Account Notification Health Producer.
From S2P Require Import ProducerFacts Services Ledger Api SystemFacts Claims Interleave Pool Concurrent.
From S2P Require Import RefServers Demo SystemCorrect ConcurrentCorrect Web.

(** ** What a status tells *)

(** The routes that write, and the status with which they are done. *)
Definition writing_routes : list (string * string * Z) :=
  [("POST", "/api/users", 201); ("POST", "/api/transfers", 200);
   ("PATCH", "/api/notifications/{id}/ack", 200)].

Definition http_success (rt : Route) : option Z :=
  snd <$> List.find (fun e => bool_decide (e.1 = (rt_method rt, rt_pattern rt))) writing_routes.

Definition http_done (l : WebRequest) (rep : HttpReply) : bool :=
  bool_decide (http_success l.1 = Some (http_status rep)).

(** A status from 400 to 499, or 503. *)
Definition http_refused (_ : WebRequest) (rep : HttpReply) : bool := refuses (http_status rep).

Lemma http_done_status l rep : http_done l rep = true -> http_status rep = 200 \/ http_status rep = 201.
Proof.
  unfold http_done, http_success. rewrite bool_decide_eq_true. cbn [List.find writing_routes].
  repeat case_bool_decide; simpl; intros [=]; auto.
Qed.

Lemma error_not_done l rep : http_status rep ∈ [400; 502; 503; 504] -> http_done l rep = false.
Proof.
  intros Hs. destruct (http_done l rep) eqn:E; [|done]. apply http_done_status in E.
  rewrite !elem_of_cons, elem_of_nil in Hs. lia.
Qed.

Lemma http_reply_error l e : http_status (http_reply l (Err e)) ∈ [400; 502; 503; 504].
Proof.
  unfold http_reply. destruct (route_cases l) as [rep Hs E|data E]; rewrite E; [done|].
  apply error_reply_status.
Qed.

(** A request that is sent is answered by what comes back. *)
Lemma http_reply_sent l : sent l <> [] -> exists data,
  sent l = [(rt_subject l.1, data, auth_headers l.2)] /\ forall a, http_reply l a = reply_to a.
Proof.
  unfold sent, http_reply. destruct (route_cases l) as [rep Hs E|data E]; rewrite E; [done|].
  intros _. exists data. split; [done|]. intros a. by rewrite E.
Qed.

Lemma fault_not_refused l e : sent l <> [] -> bus_fault e = true -> http_refused l (http_reply l (Err e)) = false.
Proof.
  intros (data & _ & Hr)%http_reply_sent [Hf Hn]%andb_true_iff. rewrite Hr.
  apply negb_true_iff in Hn. unfold http_refused, reply_to. rewrite Hn.
  pose proof (error_reply_fault "nats request" e Hf) as Hs. revert Hs. rewrite !elem_of_cons, elem_of_nil.
  generalize (http_status (error_reply (EWrap "nats request" e))). intros st [->|[->|[]]]; done.
Qed.

(** The responses that the gateway hands on with a body. *)
Definition plain_reply (r : Z * jtype) : bool := sendable r && negb (r.1 =? 204).

Lemma reply_to_typed t resp :
  forallb plain_reply t = true -> allowed t resp ->
  reply_to (Ok (Marshal (encode_rpcResponse resp))) =
    writeRawJSON (rpc_status resp) (Marshal (clean (rpc_body resp))).
Proof.
  rewrite forallb_forall. intros Ht Ha.
  assert (response_ok resp) as (Hs & Hv & Hd).
  { eapply allowed_ok; [|exact Ha]. apply forallb_forall. intros r Hr. by apply Ht, andb_true_iff in Hr as [? _]. }
  destruct Ha as (ty & Hin & _). apply list_elem_of_In, Ht, andb_true_iff in Hin as [_ Hn]. simpl in Hn.
  unfold reply_to. rewrite decode_rpcResponse_clean by done. cbn [gw_status gw_body].
  by apply negb_true_iff in Hn as ->.
Qed.

Section Web.
Context {P R J : Type} `{PgLaws P} `{RedisServer R} `{JetStream J} `{Bcrypt} `{!BcryptLaws}.
Abbreviation W := (World P R J).
Context (fmt_time : Z -> string) (ping : P -> option goerr * P).
Context (ping_view : forall p, pg_view p ≡ pg_view (ping p).2).
Context (adminSecret : string) (jetstream : bool).
Abbreviation claims := (claims (P:=P) (R:=R) (J:=J)).
Abbreviation settled := (settled (P:=P) (R:=R) (J:=J)).
Abbreviation web := (web (R:=R) (J:=J) fmt_time ping ping_view adminSecret jetstream).
Abbreviation request_calls := (request_calls (R:=R) (J:=J) fmt_time ping ping_view adminSecret jetstream).

(** Route and endpoint agree on what a success is. *)
Definition route_agrees (rt : Route) : bool :=
  let c := claims (route_endpoint rt).1 (route_endpoint rt).2 in
  bool_decide (c_success c = http_success rt) &&
  match c_replies c with
  | Some t => forallb plain_reply t
  | None => bool_decide (http_success rt = None)
  end.

Lemma routes_agree rt : rt ∈ routes -> route_agrees rt = true.
Proof.
  assert (forallb route_agrees routes = true) as Hall by (vm_compute; done).
  rewrite forallb_forall in Hall. intros Hrt. by apply Hall, list_elem_of_In.
Qed.

(** What the browser reads of the reply of the service. *)
Definition through (kind : WebRequest -> HttpReply -> bool) (l : WebRequest) (rep : option RpcReply) : bool :=
  match rep with Some rep => kind l (http_reply l (Ok (reply_data rep))) | None => false end.

Lemma http_tells l used rep :
  l.1 ∈ routes -> sent l <> [] -> settled (forwarded l) used rep ->
  tells (through http_done l) (through http_refused l) used rep.
Proof.
  intros Hrt Hs. destruct (http_reply_sent l Hs) as (data & Es & Er).
  pose proof (routes_agree _ Hrt) as Ha. unfold route_agrees in Ha. unfold forwarded. rewrite Es.
  destruct (route_endpoint l.1) as [s action]. cbn [fst snd] in Ha. apply andb_true_iff in Ha as [Hc Ha].
  apply bool_decide_eq_true in Hc. intros [[[Hw Hl] Ht] Hn].
  destruct rep as [[text|code msg]|]; [|split; cbn [through reply_data]; rewrite Er..|done].
  2: { intros Hd%http_done_status. vm_compute in Hd. lia. }
  2: { done. }
  destruct Ht as (resp & -> & Ht). unfold typed in Ht. unfold tells, through. cbn [reply_data]. rewrite Er.
  destruct (c_replies _) as [t|].
  - rewrite (reply_to_typed t) by done. unfold http_done, http_refused. cbn [http_status writeRawJSON].
    split.
    + intros Hd%bool_decide_eq_true. apply Hw. unfold reply_success. rewrite Hc, Hd.
      rewrite has_status_response. lia.
    + intros Hd. apply Hl. exact (eq_trans (refusal_text_response resp) Hd).
  - apply bool_decide_eq_true in Ha. split; [|by intros _; apply Hn].
    unfold http_done. rewrite Ha. by case_bool_decide.
Qed.

(** ** The run of the services *)

Definition web_start (l : WebRequest) (p : Prog (P:=P) (option RpcReply)) : Prop :=
  l.1 ∈ routes /\ sent l <> [] /\ p = request_calls (forwarded l).

Lemma web_history w0 st an ws s :
  web w0 st an ws s -> Forall (fun g => sent g.1.1 <> []) s.1 /\ exists st' un an',
    history (R:=R) (J:=J) ping web_start w0 st' an' ws (s.1.*1, s.2) /\ st ≡ₚ st' ++ un /\
    answered http_done an ⊆+ answered (through http_done) an' /\
    answered http_refused an ⊆+ answered (through http_refused) an' ++ un.
Proof.
  induction 1 as [|st an ws gs w l e _ IH Hrt He|st an ws gs w l _ IH Hrt Hl
    |st an ws gs1 l B c k b gs2 w x w' _ IH Ec|st an ws gs1 l rep gs2 w _ IH
    |st an ws gs1 l p gs2 w e _ IH He|st an ws gs1 l p b gs2 w _ IH|st an ws gs w w' _ IH Ew];
    [split; [done|]; exists [], [], []; split_and!; try done; apply hist_idle|..];
    destruct IH as (Hg & st' & un & an' & Hh & Hp & Hd & Hr); cbn [fst snd] in *;
    rewrite ?fmap_app, ?fmap_cons in Hh; cbn [fst snd] in Hh;
    try (apply Forall_app in Hg as [Hg1 [Hgl Hg2]%Forall_cons]; cbn [fst snd] in Hgl).
  - split; [done|]. exists st', (l :: un), an'. split_and!; [done| | |].
    + by rewrite <- Permutation_middle, Hp.
    + rewrite answered_cons, error_not_done by apply http_reply_error. done.
    + rewrite answered_cons, <- Permutation_middle. destruct (http_refused _ _); simpl.
      * by apply submseteq_skip.
      * by apply submseteq_cons.
  - split; [by apply Forall_cons|]. exists (l :: st'), un, an'.
    split_and!; [by apply hist_start|by simpl; rewrite Hp|done..].
  - split; [by apply Forall_app; split; [|apply Forall_cons]|]. exists st', un, an'.
    split_and!; [|done..]. rewrite fmap_app. by eapply hist_call.
  - split; [by apply Forall_app|]. exists st', un, ((l, Some rep) :: an').
    split_and!; [by rewrite fmap_app; apply hist_reply|done| |]; rewrite !answered_cons; cbn [through].
    + by apply submseteq_app.
    + rewrite <- app_assoc. by apply submseteq_app.
  - split; [by apply Forall_app; split; [|apply Forall_cons]|]. exists st', un, an'.
    rewrite !answered_cons, error_not_done, fault_not_refused by (done || apply http_reply_error).
    split_and!; [by rewrite fmap_app|done..].
  - split; [by apply Forall_app|]. exists st', un, an'. split_and!; [|done..].
    rewrite fmap_app. by eapply hist_death.
  - split; [done|]. exists st', un, an'. split_and!; [|done..]. by eapply hist_other.
Qed.

Context `{!RedisLaws R}.

(** What an HTTP request does to the tables: the effect of the request that
    the gateway sends to its endpoint. *)
Definition http_effect (seen : list W) (l : WebRequest) : Tables -> Tables -> Prop :=
  request_effect seen (forwarded l).

(** C1. What a browser may conclude from the status it reads, whatever HTTP
    requests run at the same time, wherever the bus loses a message and
    whatever dies: the writes of all requests are made one after the other,
    each at most once and for the user of the session in X-Session. A
    registration answered with 201, a transfer or an acknowledgement answered
    with 200 has been made exactly once; a request answered with 4xx or 503,
    by the gateway or by a service, has not been made and never will be, so
    it may be sent again. A 502, 504 or 500 leaves both open. *)
Theorem http_writes_once (w : W) arrived replies seen s :
  schema_ok (tables_of w) -> web w arrived replies seen s ->
  exists made, serial (http_effect seen) made (tables_of w) (tables_of s.2) /\
    made ++ answered http_refused replies ⊆+ arrived /\ answered http_done replies ⊆+ made.
Proof.
  intros Hok (_ & st' & un & an' & Hh & Hp & Hd & Hr)%web_history.
  edestruct (labelled_writes fmt_time ping ping_view adminSecret jetstream web_start forwarded
    (through http_done) (through http_refused)) as (made & Hs & Hst & Hdone); [| |exact Hok|exact Hh|].
  - by intros l p (_ & _ & ->).
  - intros l [p (Hrt & Hs & _)] used rep. by apply http_tells.
  - exists made. split_and!; [done| |by etransitivity].
    rewrite Hp. etransitivity; [apply submseteq_app; [reflexivity|exact Hr]|].
    rewrite app_assoc. by apply submseteq_app.
Qed.

(** ** Schedules *)

(** A request arrives and is sent, or goes unanswered at once (nobody
    subscribes); the [i]-th running program makes its next call, or replies;
    the gateway gives up waiting for it. *)
Inductive web_turn : Type :=
| Arrive (l : WebRequest) | Nobody (l : WebRequest) | Step (i : nat) | Reply (i : nat)
| GiveUp (i : nat) (e : goerr).

Abbreviation Log := (list WebRequest * list (WebRequest * HttpReply) * list W)%type.
Abbreviation State := (list ((WebRequest * Prog (P:=P) (option RpcReply)) * bool) * W)%type.

Definition web_take (t : web_turn) (c : Log * State) : option (Log * State) :=
  let '((st, an, ws), (gs, w)) := c in
  match t with
  | Arrive l =>
      if decide (l.1 ∈ routes) then
        if decide (sent l = []) then None
        else Some ((l :: st, an, ws), (((l, request_calls (forwarded l)), true) :: gs, w))
      else None
  | Nobody l =>
      if decide (l.1 ∈ routes) then
        Some ((l :: st, (l, http_reply l (Err ErrNoResponders)) :: an, ws), (gs, w))
      else None
  | Step i =>
      match gs !! i with
      | Some ((l, Do _ c k), b) =>
          let '(x, w') := run_call ping c w in Some ((st, an, w :: ws), (<[i := ((l, k x), b)]> gs, w'))
      | _ => None
      end
  | Reply i =>
      match gs !! i with
      | Some ((l, Return _ (Some rep)), true) =>
          Some ((st, (l, http_reply l (Ok (reply_data rep))) :: an, ws), (delete i gs, w))
      | _ => None
      end
  | GiveUp i e =>
      match gs !! i with
      | Some ((l, p), true) =>
          if bus_fault e then
            Some ((st, (l, http_reply l (Err e)) :: an, ws), (<[i := ((l, p), false)]> gs, w))
          else None
      | _ => None
      end
  end.

Fixpoint web_schedule (ts : list web_turn) (c : Log * State) : option (Log * State) :=
  match ts with
  | [] => Some c
  | t :: ts' => c' ← web_take t c; web_schedule ts' c'
  end.

Lemma web_take_run w0 t lg s lg' s' :
  web_take t (lg, s) = Some (lg', s') -> web w0 lg.1.1 lg.1.2 lg.2 s ->
  web w0 lg'.1.1 lg'.1.2 lg'.2 s'.
Proof.
  destruct lg as [[st an] ws], s as [gs w], t as [l|l|i|i|i e]; simpl.
  - repeat case_decide; try done. intros [= <- <-] Hw. by apply web_deliver.
  - case_decide; [|done]. intros [= <- <-] Hw. apply web_unsent; auto.
  - destruct (gs !! i) as [[[l [a|B c k]] b]|] eqn:Ei; [done| |done].
    destruct (run_call ping c w) as [x w'] eqn:Ec. intros [= <- <-] Hw.
    rewrite <- (take_drop_middle gs i _ Ei) in Hw.
    rewrite insert_take_drop by (by eapply lookup_lt_Some). by eapply web_call.
  - destruct (gs !! i) as [[[l [[rep|]|B c k]] [|]]|] eqn:Ei; try done. intros [= <- <-] Hw.
    rewrite <- (take_drop_middle gs i _ Ei) in Hw. rewrite delete_take_drop. by apply web_reply.
  - destruct (gs !! i) as [[[l p] [|]]|] eqn:Ei; try done. destruct (bus_fault e) eqn:Ee; [|done].
    intros [= <- <-] Hw. rewrite <- (take_drop_middle gs i _ Ei) in Hw.
    rewrite insert_take_drop by (by eapply lookup_lt_Some). by apply web_giveup.
Qed.

Lemma web_schedule_run w0 ts c c' :
  web_schedule ts c = Some c' -> web w0 c.1.1.1 c.1.1.2 c.1.2 c.2 -> web w0 c'.1.1.1 c'.1.1.2 c'.1.2 c'.2.
Proof.
  revert c. induction ts as [|t ts IH]; intros c; simpl; [by intros [= <-]|].
  destruct (web_take t c) as [c1|] eqn:Et; [|done]. simpl. intros Hs Hw.
  apply (IH _ Hs). destruct c, c1. by eapply web_take_run.
Qed.
End Web.

(** ** Witness

    alice pays bob from three windows: one is answered; the gateway gives up
    on another after its transaction; and one asks for too much. A fourth
    finds no service. *)

Definition pay (amount : Z) : WebRequest :=
  (transfer_route,
   {| hr_method := "POST"; hr_path := "/api/transfers"; hr_query := ∅; hr_params := ∅;
      hr_header := {["X-Session" := "s1"]};
      hr_body := Some (Marshal (transfer_body (JInt amount))); hr_ctx := None |}).

Definition four_windows : list web_turn :=
  [Arrive (pay 200); Step 0; Arrive (pay 300); Step 0; Step 1; Step 0; Step 1;
   GiveUp 0 (ELib "context deadline exceeded"); Reply 1; Nobody (pay 400);
   Arrive (pay 1000000); Step 0; Step 0; Reply 0; Step 0].

Definition windows_run := default ([], [], [], ([], fresh_both))
  (web_schedule Itoa demo_ping demo_ping_view "secret" false four_windows ([], [], [], ([], fresh_both))).

Lemma windows_web :
  web (R:=RefRedis) (J:=RefJs) Itoa demo_ping demo_ping_view "secret" false fresh_both
    windows_run.1.1.1 windows_run.1.1.2 windows_run.1.2 windows_run.2.
Proof.
  unfold windows_run. destruct (web_schedule _ _ _ _ _ _ _) as [c|] eqn:E; [|apply web_idle].
  eapply web_schedule_run; [exact E|apply web_idle].
Qed.

Lemma http_writes_once_witness :
  map (fun lr => (http_status lr.2)) windows_run.1.1.2 = [400; 503; 200; 504] /\
  answered http_done windows_run.1.1.2 = [pay 200] /\
  answered http_refused windows_run.1.1.2 = [pay 1000000; pay 400] /\
  exists made, serial (http_effect windows_run.1.2) made (tables_of fresh_both)
      (tables_of windows_run.2.2) /\
    made ++ answered http_refused windows_run.1.1.2 ⊆+ windows_run.1.1.1 /\
    answered http_done windows_run.1.1.2 ⊆+ made.
Proof.
  split; [vm_compute; reflexivity|]. split; [vm_compute; reflexivity|].
  split; [vm_compute; reflexivity|].
  apply (http_writes_once Itoa demo_ping demo_ping_view "secret" false fresh_both).
  - exact fresh_schema.
  - exact windows_web.
Defined.
