(* ===== verification/Lifecycle.v ===== *)
(** * The life of a process: service.Runner.Run and the producer's main

    Both run three goroutines in an errgroup: the RPC side (consumer.Run, or
    client.run in the producer), the HTTP server, and the handler of SIGINT
    and SIGTERM. They differ in what the signal goroutine returns:
    [errShutdown] in internal/service, nil in the producer. A process is the
    phase of each goroutine and the state of the group, and a step is what
    one goroutine does next; any interleaving is a run. *)

From S2P Require Import Prelude.

(** ** golang.org/x/sync/errgroup *)

(** A group of goroutines: a goroutine returned, the group's context is
    done, what Wait returns once all have. *)
Class Errgroup := {
  Group : Type;
  eg_new : Group;
  eg_return : option goerr -> Group -> Group;
  eg_done : Group -> bool;
  eg_wait : Group -> option goerr;
}.

(** The first error is kept and cancels the context; nil does neither. *)
Class ErrgroupLaws `{Errgroup} : Prop := {
  eg_new_law : eg_done eg_new = false /\ eg_wait eg_new = None;
  eg_nil_law : forall g, eg_done (eg_return None g) = eg_done g /\
                         eg_wait (eg_return None g) = eg_wait g;
  eg_err_law : forall e g, eg_done (eg_return (Some e) g) = true /\
    eg_wait (eg_return (Some e) g) =
      match eg_wait g with Some e0 => Some e0 | None => Some e end;
}.

(** ** Processes *)

Definition errShutdown : goerr := EApp "shutdown".

Inductive sig_phase : Type := SWaiting | SDraining | SReturned.

#[global] Instance sig_phase_eq_dec : EqDecision sig_phase.
Proof. solve_decision. Defined.

Section Process.
Context `{Errgroup}.

(** [pr_rpc], [pr_http]: the goroutine has returned; [pr_closed]:
    server.Shutdown was called. *)
Record Process := MkProcess {
  pr_rpc : bool;
  pr_http : bool;
  pr_sig : sig_phase;
  pr_closed : bool;
  pr_group : Group;
}.

Definition started : Process := MkProcess false false SWaiting false eg_new.

Inductive event : Type :=
| EvSignal              (* SIGINT or SIGTERM: the drain begins *)
| EvCancelled           (* the same on a cancelled group context *)
| EvDrained             (* Shutdown returned, at the latest after its timeout *)
| EvClosed              (* ListenAndServe returned ErrServerClosed *)
| EvFailed (e : goerr)  (* ListenAndServe returned another error *)
| EvStopped             (* the RPC goroutine saw the cancelled context *)
| EvGaveUp.             (* consumer.Run returned early, see below *)

(** What the signal goroutine returns, and whether the RPC goroutine can
    return by itself: consumer.Run does when the micro service or one of its
    endpoints cannot be registered. *)
Context (sig_result : option goerr) (gives_up : bool).

Inductive step : event -> Process -> Process -> Prop :=
| step_signal rpc http closed g :
    step EvSignal (MkProcess rpc http SWaiting closed g) (MkProcess rpc http SDraining true g)
| step_cancelled rpc http closed g :
    eg_done g = true ->
    step EvCancelled (MkProcess rpc http SWaiting closed g) (MkProcess rpc http SDraining true g)
| step_drained rpc http closed g :
    step EvDrained (MkProcess rpc http SDraining closed g)
      (MkProcess rpc http SReturned closed (eg_return sig_result g))
| step_closed rpc sg g :
    step EvClosed (MkProcess rpc false sg true g) (MkProcess rpc true sg true (eg_return None g))
| step_failed rpc sg g e :
    foreign e = true ->
    step (EvFailed e) (MkProcess rpc false sg false g)
      (MkProcess rpc true sg false (eg_return (Some e) g))
| step_stopped http sg closed g :
    eg_done g = true ->
    step EvStopped (MkProcess false http sg closed g)
      (MkProcess true http sg closed (eg_return None g))
| step_gave_up http sg closed g :
    gives_up = true ->
    step EvGaveUp (MkProcess false http sg closed g)
      (MkProcess true http sg closed (eg_return None g)).

(** The runs from the start, with their events. *)
Inductive reach : list event -> Process -> Prop :=
| reach_started : reach [] started
| reach_step l p ev p' : reach l p -> step ev p p' -> reach (l ++ [ev]) p'.

(** All goroutines have returned: Wait returns. *)
Definition finished (p : Process) : Prop :=
  pr_rpc p = true /\ pr_http p = true /\ pr_sig p = SReturned.

(** What the process does by itself; the other events come from outside. *)
Definition own_move (ev : event) : bool :=
  match ev with
  | EvCancelled | EvDrained | EvClosed | EvStopped => true
  | EvSignal | EvFailed _ | EvGaveUp => false
  end.

(** It waits for the outside. *)
Definition stuck (p : Process) : Prop :=
  forall ev p', own_move ev = true -> ~ step ev p p'.

(** Steps that are left at most. *)
Definition steps_left (p : Process) : nat :=
  (if pr_rpc p then 0 else 1) + (if pr_http p then 0 else 1) +
  match pr_sig p with SWaiting => 2 | SDraining => 1 | SReturned => 0 end.

Lemma step_decreases ev p p' : step ev p p' -> (steps_left p' < steps_left p)%nat.
Proof. intros []; unfold steps_left; simpl; repeat case_match; lia. Qed.

(** The drain has begun exactly when Shutdown was called. *)
Lemma reach_closed l p : reach l p -> pr_closed p = true <-> pr_sig p <> SWaiting.
Proof.
  induction 1 as [|l p ev p' _ IH Hs]; [done|]. destruct Hs; simpl in *; try done; by rewrite IH.
Qed.

(** A received signal has woken the signal goroutine. *)
Lemma reach_signal l p : reach l p -> EvSignal ∈ l -> pr_sig p <> SWaiting.
Proof.
  induction 1 as [|l p ev p' _ IH Hs]; [by intros ?%not_elem_of_nil|].
  rewrite elem_of_app, list_elem_of_singleton. intros Hin. destruct Hs; simpl in *; try done;
    destruct Hin as [Hin|Hin]; by auto.
Qed.

Lemma reach_gave_up l p : reach l p -> EvGaveUp ∈ l -> pr_rpc p = true.
Proof.
  induction 1 as [|l p ev p' _ IH Hs]; [by intros ?%not_elem_of_nil|].
  rewrite elem_of_app, list_elem_of_singleton. intros Hin. destruct Hs; simpl in *; try done;
    destruct Hin as [Hin|Hin]; by auto.
Qed.

(** The HTTP server only returns after Shutdown or with an error. *)
Lemma reach_http l p :
  reach l p -> pr_closed p = false -> (forall e, EvFailed e ∉ l) -> pr_http p = false.
Proof.
  induction 1 as [|l p ev p' _ IH Hs]; [done|]. setoid_rewrite elem_of_app.
  setoid_rewrite list_elem_of_singleton. intros Hc Hno.
  destruct Hs; simpl in *; try done; try (apply IH; naive_solver).
  exfalso. by apply (Hno e); right.
Qed.
End Process.

(** What Runner.Run returns: nil on a clean shutdown. *)
Definition run_result (wait : option goerr) : option goerr :=
  match wait with
  | Some e => if errors_Is e errShutdown then None else Some e
  | None => None
  end.

(** The producer's main exits with the result of Wait. *)
Definition service_step `{Errgroup} : event -> Process -> Process -> Prop :=
  step (Some errShutdown) true.
Definition service_reach `{Errgroup} : list event -> Process -> Prop :=
  reach (Some errShutdown) true.
Definition producer_step `{Errgroup} : event -> Process -> Process -> Prop := step None false.
Definition producer_reach `{Errgroup} : list event -> Process -> Prop := reach None false.
