(* ===== verification/LifecycleCorrect.v ===== *)
(** * Theorems on the life of the processes *)

From S2P Require Import Prelude Lifecycle.

Lemma elem_of_snoc {A} (x y : A) l : x ∈ l ++ [y] <-> x ∈ l \/ x = y.
Proof. by rewrite elem_of_app, list_elem_of_singleton. Qed.

Section Lifecycle.
Context `{ErrgroupLaws}.

(** What a run of a service keeps: the context is done exactly when an error
    was recorded, and the first error is [errShutdown] after a signal, or
    the one of the HTTP server. *)
Definition service_inv (l : list event) (p : Process) : Prop :=
  match eg_wait (pr_group p) with
  | None => eg_done (pr_group p) = false /\ pr_sig p <> SReturned /\
      (pr_sig p = SDraining -> EvSignal ∈ l) /\ (forall e, EvFailed e ∉ l)
  | Some e => eg_done (pr_group p) = true /\
      ((e = errShutdown /\ EvSignal ∈ l) \/ (EvFailed e ∈ l /\ foreign e = true))
  end.

Lemma service_reach_inv l p : service_reach l p -> service_inv l p.
Proof.
  unfold service_inv. induction 1 as [|l p ev p' Hr IH Hs].
  { simpl. destruct eg_new_law as [-> ->]. split_and!; [done..|]. intros e. apply not_elem_of_nil. }
  destruct Hs as [rpc http closed g|rpc http closed g Hd|rpc http closed g|rpc sg g
    |rpc sg g e Hf|http sg closed g Hd|http sg closed g _]; cbn [pr_group pr_sig] in *;
    try (destruct (eg_nil_law g) as [-> ->]);
    try (destruct (eg_err_law errShutdown g) as [-> ->]);
    try (destruct (eg_err_law e g) as [-> ->]);
    destruct (eg_wait g) as [e0|] eqn:Eg; destruct_and?;
    repeat setoid_rewrite elem_of_snoc; try congruence; split_and!; try done;
    try (destruct_or?; destruct_and?; by auto); try naive_solver.
Qed.

(** C38. A service ends: every step of a goroutine brings the end nearer, and
    once a signal was received or the HTTP server failed, the process does
    not come to rest before all three goroutines have returned. *)
Theorem service_terminates l p :
  service_reach l p ->
  (forall ev p', service_step ev p p' -> (steps_left p' < steps_left p)%nat) /\
  (EvSignal ∈ l \/ (exists e, EvFailed e ∈ l) -> stuck (Some errShutdown) true p -> finished p).
Proof.
  intros Hr. split; [intros ev p'; apply step_decreases|]. intros Hcause Hstuck.
  pose proof (service_reach_inv _ _ Hr) as Hinv. pose proof (reach_closed _ _ _ _ Hr) as Hcl.
  pose proof (reach_signal _ _ _ _ Hr) as Hsig.
  destruct p as [rpc http sg closed g]. unfold service_inv, finished in *. cbn in *.
  assert (sg = SReturned) as ->.
  { destruct sg; [exfalso|exfalso|done].
    - destruct (eg_wait g) as [e|]; destruct_and?.
      + eapply (Hstuck EvCancelled); [done|by apply step_cancelled].
      + destruct Hcause as [?|[e ?]]; [by apply Hsig|naive_solver].
    - eapply (Hstuck EvDrained); [done|apply step_drained]. }
  assert (closed = true) as -> by by apply Hcl.
  assert (http = true) as ->
    by (destruct http; [done|]; exfalso; eapply (Hstuck EvClosed); [done|apply step_closed]).
  destruct (eg_wait g) as [e|]; destruct_and?; [|done].
  assert (rpc = true) as ->; [|done].
  destruct rpc; [done|]. exfalso. eapply (Hstuck EvStopped); [done|by apply step_stopped].
Qed.

(** What Runner.Run returns: nil only after a signal, and an error only when
    it is the one of the HTTP server. *)
Lemma service_outcome l p :
  service_reach l p -> finished p ->
  match run_result (eg_wait (pr_group p)) with
  | None => EvSignal ∈ l
  | Some e => EvFailed e ∈ l
  end.
Proof.
  intros Hr (_ & _ & Hsig). pose proof (service_reach_inv _ _ Hr) as Hinv. unfold service_inv in Hinv.
  destruct (eg_wait (pr_group p)) as [e|]; [|naive_solver]. simpl.
  destruct Hinv as [_ [[-> ?]|[? Hf]]]; [done|].
  by rewrite (foreign_not_app e "shutdown" Hf : errors_Is e errShutdown = false).
Qed.

(** The RPC goroutine of the producer waits for a cancellation that only an
    error can bring. *)
Lemma producer_reach_inv l p :
  producer_reach l p -> (forall e, EvFailed e ∉ l) ->
  eg_done (pr_group p) = false /\ pr_rpc p = false.
Proof.
  induction 1 as [|l p ev p' Hr IH Hs]; intros Hno.
  { simpl. by destruct eg_new_law. }
  setoid_rewrite elem_of_snoc in Hno. destruct IH as [Hd Hrpc]; [naive_solver|].
  destruct Hs as [rpc http closed g|rpc http closed g ?|rpc http closed g|rpc sg g
    |rpc sg g e Hf|http sg closed g ?|http sg closed g ?]; cbn [pr_group pr_rpc] in *;
    rewrite ?(proj1 (eg_nil_law g)); try done; try congruence.
  exfalso. eapply Hno. by right.
Qed.

(** A group whose context is done has an error to return. *)
Lemma producer_wait l p :
  producer_reach l p -> eg_done (pr_group p) = true \/ pr_rpc p = true ->
  is_Some (eg_wait (pr_group p)).
Proof.
  induction 1 as [|l p ev p' Hr IH Hs].
  { simpl. destruct eg_new_law as [-> _]. by intros []. }
  destruct Hs as [rpc http closed g|rpc http closed g ?|rpc http closed g|rpc sg g
    |rpc sg g e Hf|http sg closed g ?|http sg closed g ?]; cbn [pr_group pr_rpc] in *;
    rewrite ?(proj1 (eg_nil_law g)), ?(proj2 (eg_nil_law g)); auto; try congruence.
  intros _. rewrite (proj2 (eg_err_law e g)). destruct (eg_wait g); eauto.
Qed.

(** SIGTERM does not end the producer: its signal goroutine returns nil,
    which cancels nothing, so in every run in which the HTTP server did not
    fail the RPC goroutine is still waiting and Wait does not return; and
    a run comes to rest in that state after a signal. *)
Theorem producer_never_exits l p :
  producer_reach l p -> (forall e, EvFailed e ∉ l) -> ~ finished p /\
  exists p', producer_reach [EvSignal; EvClosed; EvDrained] p' /\ pr_sig p' = SReturned /\
    pr_http p' = true /\ forall ev p'', ~ producer_step ev p' p''.
Proof.
  intros Hr Hno. destruct (producer_reach_inv _ _ Hr Hno) as [_ Hrpc].
  split; [intros (? & _); congruence|]. destruct eg_new_law as [Hd _].
  set (g := eg_return None (eg_return None eg_new)).
  assert (eg_done g = false) as Hg by (unfold g; by rewrite !(proj1 (eg_nil_law _))).
  exists (MkProcess false true SReturned true g). split_and!; [|done|done|].
  - apply (reach_step _ _ [EvSignal; EvClosed] (MkProcess false true SDraining true (eg_return None eg_new))
             EvDrained); [|apply step_drained].
    apply (reach_step _ _ [EvSignal] (MkProcess false false SDraining true eg_new) EvClosed);
      [|apply step_closed].
    apply (reach_step _ _ [] started EvSignal); [apply reach_started|apply step_signal].
  - intros ev p'' Hs. inversion Hs; subst; congruence.
Qed.

(** A service whose consumer gave up, because the micro service or an
    endpoint could not be registered, goes on: nothing answers its requests
    any more, but as long as neither a signal comes nor the HTTP server
    fails, the server keeps running and nothing makes the process end. *)
Theorem consumer_loss_unnoticed l p :
  service_reach l p -> EvGaveUp ∈ l -> EvSignal ∉ l -> (forall e, EvFailed e ∉ l) ->
  pr_rpc p = true /\ pr_http p = false /\ pr_sig p = SWaiting /\
  stuck (Some errShutdown) true p.
Proof.
  intros Hr Hup Hns Hno. pose proof (service_reach_inv _ _ Hr) as Hinv. unfold service_inv in Hinv.
  assert (eg_wait (pr_group p) = None) as Hw.
  { destruct (eg_wait _) as [e|]; [|done]. naive_solver. }
  rewrite Hw in Hinv. destruct Hinv as (Hd & Hret & Hdr & _).
  assert (pr_sig p = SWaiting) as Hsig by (destruct (pr_sig p); naive_solver).
  assert (pr_closed p = false) as Hcl.
  { pose proof (reach_closed _ _ _ _ Hr) as Hc. destruct (pr_closed p); [naive_solver|done]. }
  pose proof (reach_http _ _ _ _ Hr Hcl Hno) as Hh.
  pose proof (reach_gave_up _ _ _ _ Hr Hup). split_and!; [done..|].
  destruct p as [rpc http sg closed g]. cbn in *. subst.
  intros ev p' Hown Hs. inversion Hs; subst; done || congruence.
Qed.
End Lifecycle.

(** ** Witnesses *)

(** A group as errgroup.go has it: the first error. *)
#[export] Instance ref_errgroup : Errgroup := {|
  Group := option goerr;
  eg_new := None;
  eg_return e g := match g with Some _ => g | None => e end;
  eg_done g := match g with Some _ => true | None => false end;
  eg_wait g := g;
|}.

#[export] Instance ref_errgroup_laws : ErrgroupLaws.
Proof.
  split.
  - done.
  - intros g. by destruct g.
  - intros e g. by destruct g.
Qed.

Abbreviation ref_proc := (@MkProcess ref_errgroup).

(** A clean shutdown of a service. *)
Definition shutdown_events : list event := [EvSignal; EvClosed; EvDrained; EvStopped].

Lemma clean_shutdown :
  service_reach shutdown_events (ref_proc true true SReturned true (Some errShutdown)).
Proof.
  apply (reach_step _ _ [EvSignal; EvClosed; EvDrained]
           (ref_proc false true SReturned true (Some errShutdown)) EvStopped).
  - apply (reach_step _ _ [EvSignal; EvClosed] (ref_proc false true SDraining true None) EvDrained).
    + apply (reach_step _ _ [EvSignal] (ref_proc false false SDraining true None) EvClosed).
      * apply (reach_step _ _ [] started EvSignal); [apply reach_started|].
        exact (@step_signal ref_errgroup (Some errShutdown) true false false false None).
      * exact (@step_closed ref_errgroup (Some errShutdown) true false SDraining None).
    + exact (@step_drained ref_errgroup (Some errShutdown) true false true true None).
  - exact (@step_stopped ref_errgroup (Some errShutdown) true true SReturned true (Some errShutdown) eq_refl).
Qed.

Lemma service_terminates_witness :
  (forall ev p', service_step ev (ref_proc true true SReturned true (Some errShutdown)) p' ->
     (steps_left p' < steps_left (ref_proc true true SReturned true (Some errShutdown)))%nat) /\
  (EvSignal ∈ shutdown_events \/ (exists e, EvFailed e ∈ shutdown_events) ->
   stuck (Some errShutdown) true (ref_proc true true SReturned true (Some errShutdown)) ->
   finished (ref_proc true true SReturned true (Some errShutdown))).
Proof. apply (service_terminates shutdown_events), clean_shutdown. Defined.

Lemma producer_never_exits_witness :
  ~ finished started /\
  exists p', producer_reach [EvSignal; EvClosed; EvDrained] p' /\ pr_sig p' = SReturned /\
    pr_http p' = true /\ forall ev p'', ~ producer_step ev p' p''.
Proof.
  apply (producer_never_exits [] started); [apply reach_started|].
  intros e. apply not_elem_of_nil.
Defined.

Lemma consumer_loss_unnoticed_witness :
  pr_rpc (ref_proc true false SWaiting false None) = true /\
  pr_http (ref_proc true false SWaiting false None) = false /\
  pr_sig (ref_proc true false SWaiting false None) = SWaiting /\
  stuck (Some errShutdown) true (ref_proc true false SWaiting false None).
Proof.
  apply (consumer_loss_unnoticed [EvGaveUp]).
  - apply (reach_step _ _ [] started EvGaveUp); [apply reach_started|].
    exact (@step_gave_up ref_errgroup (Some errShutdown) true false SWaiting false None eq_refl).
  - left.
  - intros [=]%list_elem_of_singleton.
  - intros e [=]%list_elem_of_singleton.
Defined.
