(* ===== verification/Migrations.v ===== *)
(** * The migrations as programs on a database

    The files of migrations/ and the schema that the Helm chart installs
    (postgres-init-configmap.yaml), as lists of DDL statements, and what
    PostgreSQL documents for these statements on a catalog with rows: a
    statement checks the rows that are there, and a file runs as one
    transaction ([run]). Rows are lists of named values, so that a catalog
    need not fit them; [data] are the rows of [Tables]. Indexes on keys, lock
    modes and the statistics settings of the chart are left out: no query of
    the services observes them. *)

From S2P Require Import Prelude GoStrings Json Tables Sql.

(** ** Names to things

    Small maps as lists, so that catalogs compute and can be compared. *)

Abbreviation named A := (list (string * A)).

Definition get {A} (name : string) (m : named A) : option A :=
  snd <$> List.find (fun kv => String.eqb kv.1 name) m.

Definition remove {A} (name : string) (m : named A) : named A :=
  List.filter (fun kv => negb (String.eqb kv.1 name)) m.

(** In place, or at the end. *)
Definition put {A} (name : string) (a : A) (m : named A) : named A :=
  match get name m with
  | Some _ => map (fun kv => if String.eqb kv.1 name then (name, a) else kv) m
  | None => m ++ [(name, a)]
  end.

(** ** Catalogs *)

Inductive sqltype : Type := INTEGER | BIGINT | VARCHAR (n : Z) | BOOLEAN | TIMESTAMPTZ.

Inductive default_value : Type := DInt (z : Z) | DBool (b : bool) | DNow | DNextval (sequence : string).

Inductive comparison_op : Type := OpGe | OpGt.

Inductive constraint : Type :=
| CPrimaryKey (col : string)
| CUnique (col : string)
| CReferences (col table refcol : string)
| CCheck (col : string) (op : comparison_op) (z : Z).

Record Column := MkColumn {
  col_name : string;
  col_type : sqltype;
  col_default : option default_value;
}.

(** Every column of the repository is NOT NULL. *)
Record TableDef := MkTableDef {
  td_columns : list Column;
  td_constraints : named constraint;
}.

(** [cat_sequences]: the type and the table that owns the sequence;
    [cat_indexes]: the table and the columns, with the mark DESC. *)
Record Catalog := MkCatalog {
  cat_tables : named TableDef;
  cat_sequences : named (sqltype * string);
  cat_indexes : named (string * list (string * bool));
}.

Inductive value : Type := VInt (z : Z) | VStr (s : string) | VBool (b : bool) | VTime (z : Z).

Definition Row : Type := named value.

Record Database := MkDatabase { db_catalog : Catalog; db_rows : named (list Row) }.

#[global] Instance value_eq_dec : EqDecision value.
Proof. solve_decision. Defined.
#[global] Instance sqltype_eq_dec : EqDecision sqltype.
Proof. solve_decision. Defined.

Definition cell (col : string) (r : Row) : option value := get col r.

Definition rows_of (rows : named (list Row)) (table : string) : list Row :=
  default [] (get table rows).

(** ** Valid rows *)

Definition int32_min : Z := - 2 ^ 31.
Definition int32_max : Z := 2 ^ 31 - 1.

Definition fits (t : sqltype) (v : value) : bool :=
  match t, v with
  | INTEGER, VInt z => (int32_min <=? z) && (z <=? int32_max)
  | BIGINT, VInt z => (int64_min <=? z) && (z <=? int64_max)
  | VARCHAR n, VStr s => char_len s <=? n
  | BOOLEAN, VBool _ => true
  | TIMESTAMPTZ, VTime _ => true
  | _, _ => false
  end.

(** Every value of a column fits a type. *)
Definition all_fit (t : sqltype) (col : string) (rs : list Row) : bool :=
  forallb (fun r => match cell col r with Some v => fits t v | None => false end) rs.

Definition compare_holds (op : comparison_op) (z : Z) (v : option value) : bool :=
  match v, op with
  | Some (VInt n), OpGe => z <=? n
  | Some (VInt n), OpGt => z <? n
  | _, _ => false
  end.

Definition constraint_holds (rows : named (list Row)) (rs : list Row) (c : constraint) : bool :=
  match c with
  | CPrimaryKey col | CUnique col => bool_decide (NoDup (map (cell col) rs))
  | CReferences col table refcol =>
      forallb (fun r => bool_decide (cell col r ∈ map (cell refcol) (rows_of rows table))) rs
  | CCheck col op z => forallb (fun r => compare_holds op z (cell col r)) rs
  end.

Definition table_valid (rows : named (list Row)) (name : string) (td : TableDef) : bool :=
  forallb (fun c => all_fit (col_type c) (col_name c) (rows_of rows name)) (td_columns td) &&
  forallb (fun c => constraint_holds rows (rows_of rows name) c.2) (td_constraints td).

Definition valid (db : Database) : Prop :=
  Forall (fun nt => table_valid (db_rows db) nt.1 nt.2 = true) (cat_tables (db_catalog db)).

(** ** Statements *)

Inductive coltype : Type := Plain (t : sqltype) | SERIAL | BIGSERIAL.

Inductive col_option : Type :=
| PrimaryKey | Unique | Default (d : default_value) | References (table col : string).

Record column_def := Col { cd_name : string; cd_type : coltype; cd_options : list col_option }.

Inductive alter : Type :=
| AddConstraint (name : string) (c : constraint)
| DropConstraintIfExists (name : string)
| AlterType (col : string) (t : sqltype)
| SetDefaultNextval (col sequence : string).

Inductive ddl : Type :=
| CreateTableIfNotExists (name : string) (cols : list column_def)
| CreateIndexIfNotExists (name table : string) (cols : list (string * bool))
| AlterTable (name : string) (actions : list alter)
| AlterSequenceAs (name : string) (t : sqltype)
| DropTableIfExists (name : string)
| DropIndexIfExists (name : string).

Definition undefined_table : string := "42P01".
Definition undefined_column : string := "42703".
Definition duplicate_object : string := "42710".
Definition check_violation : string := "23514".
Definition out_of_range : string := "22003".
Definition dependent_objects : string := "2BP01".

(** The names that PostgreSQL chooses. *)
Definition sequence_name (table col : string) : string := table +:+ "_" +:+ col +:+ "_seq".

Definition option_constraint (table col : string) (o : col_option) : named constraint :=
  match o with
  | PrimaryKey => [(table +:+ "_pkey", CPrimaryKey col)]
  | Unique => [(table +:+ "_" +:+ col +:+ "_key", CUnique col)]
  | References t c => [(table +:+ "_" +:+ col +:+ "_fkey", CReferences col t c)]
  | Default _ => []
  end.

Definition option_default (o : col_option) : option default_value :=
  match o with Default d => Some d | _ => None end.

(** SERIAL is an integer with a sequence of its own. *)
Definition serial_type (t : coltype) : option sqltype :=
  match t with Plain _ => None | SERIAL => Some INTEGER | BIGSERIAL => Some BIGINT end.

Definition make_column (table : string) (d : column_def) : Column :=
  match cd_type d with
  | Plain t => MkColumn (cd_name d) t (head (omap option_default (cd_options d)))
  | SERIAL => MkColumn (cd_name d) INTEGER (Some (DNextval (sequence_name table (cd_name d))))
  | BIGSERIAL => MkColumn (cd_name d) BIGINT (Some (DNextval (sequence_name table (cd_name d))))
  end.

Definition make_table (table : string) (cols : list column_def) : TableDef :=
  MkTableDef (map (make_column table) cols)
    (flat_map (fun d => flat_map (option_constraint table (cd_name d)) (cd_options d)) cols).

Definition make_sequences (table : string) (cols : list column_def) : named (sqltype * string) :=
  omap (fun d => (fun t => (sequence_name table (cd_name d), (t, table))) <$>
                   serial_type (cd_type d)) cols.

Definition has_column (td : TableDef) (col : string) : bool :=
  existsb (fun c => String.eqb (col_name c) col) (td_columns td).

Definition set_column (col : string) (f : Column -> Column) (td : TableDef) : TableDef :=
  MkTableDef (map (fun c => if String.eqb (col_name c) col then f c else c) (td_columns td))
             (td_constraints td).

(** One action of ALTER TABLE on the table [name]. *)
Definition run_alter (db : Database) (name : string) (a : alter) (td : TableDef) : result TableDef string :=
  match a with
  | AddConstraint cname c =>
      match get cname (td_constraints td) with
      | Some _ => Err duplicate_object
      | None =>
          if constraint_holds (db_rows db) (rows_of (db_rows db) name) c
          then Ok (MkTableDef (td_columns td) (put cname c (td_constraints td)))
          else Err check_violation
      end
  | DropConstraintIfExists cname =>
      Ok (MkTableDef (td_columns td) (remove cname (td_constraints td)))
  | AlterType col t =>
      if negb (has_column td col) then Err undefined_column
      else if all_fit t col (rows_of (db_rows db) name)
      then Ok (set_column col (fun c => MkColumn (col_name c) t (col_default c)) td)
      else Err out_of_range
  | SetDefaultNextval col sequence =>
      if negb (has_column td col) then Err undefined_column
      else match get sequence (cat_sequences (db_catalog db)) with
           | Some _ => Ok (set_column col (fun c => MkColumn (col_name c) (col_type c) (Some (DNextval sequence))) td)
           | None => Err undefined_table
           end
  end.

Fixpoint run_alters (db : Database) (name : string) (l : list alter) (td : TableDef)
    : result TableDef string :=
  match l with
  | [] => Ok td
  | a :: l' => rbind (run_alter db name a td) (run_alters db name l')
  end.

Definition with_tables (db : Database) (ts : named TableDef) : Database :=
  MkDatabase (MkCatalog ts (cat_sequences (db_catalog db)) (cat_indexes (db_catalog db))) (db_rows db).

(** Another table refers to this one. *)
Definition refers_to (name : string) (td : TableDef) : bool :=
  existsb (fun nc => match nc.2 with CReferences _ t _ => String.eqb t name | _ => false end) (td_constraints td).

Definition exec (s : ddl) (db : Database) : result Database string :=
  let cat := db_catalog db in
  match s with
  | CreateTableIfNotExists name cols =>
      match get name (cat_tables cat) with
      | Some _ => Ok db
      | None =>
          Ok (MkDatabase (MkCatalog (put name (make_table name cols) (cat_tables cat))
                            (cat_sequences cat ++ make_sequences name cols) (cat_indexes cat))
                (put name [] (db_rows db)))
      end
  | CreateIndexIfNotExists name table cols =>
      match get name (cat_indexes cat), get table (cat_tables cat) with
      | Some _, _ => Ok db
      | None, None => Err undefined_table
      | None, Some td =>
          if forallb (fun c => has_column td c.1) cols
          then Ok (MkDatabase (MkCatalog (cat_tables cat) (cat_sequences cat)
                                 (put name (table, cols) (cat_indexes cat))) (db_rows db))
          else Err undefined_column
      end
  | AlterTable name actions =>
      match get name (cat_tables cat) with
      | None => Err undefined_table
      | Some td => rmap (fun td' => with_tables db (put name (td') (cat_tables cat))) (run_alters db name actions td)
      end
  | AlterSequenceAs name t =>
      match get name (cat_sequences cat) with
      | None => Err undefined_table
      | Some (_, table) =>
          Ok (MkDatabase (MkCatalog (cat_tables cat) (put name (t, table) (cat_sequences cat))
                            (cat_indexes cat)) (db_rows db))
      end
  | DropTableIfExists name =>
      if existsb (fun nt => negb (String.eqb nt.1 name) && refers_to name nt.2) (cat_tables cat)
      then Err dependent_objects
      else Ok (MkDatabase
             (MkCatalog (remove name (cat_tables cat))
                (List.filter (fun s => negb (String.eqb s.2.2 name)) (cat_sequences cat))
                (List.filter (fun i => negb (String.eqb i.2.1 name)) (cat_indexes cat)))
             (remove name (db_rows db)))
  | DropIndexIfExists name =>
      Ok (MkDatabase (MkCatalog (cat_tables cat) (cat_sequences cat) (remove name (cat_indexes cat))) (db_rows db))
  end.

(** A file, all or nothing. *)
Fixpoint run (file : list ddl) (db : Database) : result Database string :=
  match file with
  | [] => Ok db
  | s :: file' => rbind (exec s db) (run file')
  end.

Definition empty_database : Database := MkDatabase (MkCatalog [] [] []) [].

(** ** 000001_init *)

Definition users_columns (id : coltype) (int : sqltype) : list column_def :=
  [Col "id" id [PrimaryKey];
   Col "phone" (Plain (VARCHAR 20)) [Unique];
   Col "account_number" (Plain (VARCHAR 20)) [Unique];
   Col "username" (Plain (VARCHAR 50)) [];
   Col "password_hash" (Plain (VARCHAR 255)) [];
   Col "balance" (Plain int) [Default (DInt 100000)];
   Col "is_admin" (Plain BOOLEAN) [Default (DBool false)]].

Definition transfers_columns (id : coltype) (int : sqltype) : list column_def :=
  [Col "id" id [PrimaryKey];
   Col "from_user" (Plain int) [References "users" "id"];
   Col "to_user" (Plain int) [References "users" "id"];
   Col "amount" (Plain int) [];
   Col "created_at" (Plain TIMESTAMPTZ) [Default DNow]].

Definition notifications_columns (id : coltype) (int : sqltype) : list column_def :=
  [Col "id" id [PrimaryKey];
   Col "user_id" (Plain int) [References "users" "id"];
   Col "message" (Plain (VARCHAR 255)) [];
   Col "is_read" (Plain BOOLEAN) [Default (DBool false)];
   Col "created_at" (Plain TIMESTAMPTZ) [Default DNow]].

Definition init_tables (id : coltype) (int : sqltype) : list ddl :=
  [CreateTableIfNotExists "users" (users_columns id int);
   CreateIndexIfNotExists "idx_users_phone" "users" [("phone", false)];
   CreateIndexIfNotExists "idx_users_account_number" "users" [("account_number", false)];
   CreateIndexIfNotExists "idx_users_username" "users" [("username", false)];
   CreateTableIfNotExists "transfers" (transfers_columns id int);
   CreateTableIfNotExists "notifications" (notifications_columns id int);
   CreateIndexIfNotExists "idx_notifications_user_id" "notifications" [("user_id", false)]].

Definition init_up : list ddl := init_tables SERIAL INTEGER.

Definition init_down : list ddl :=
  [DropTableIfExists "notifications"; DropTableIfExists "transfers"; DropTableIfExists "users"].

(** ** 000002_constraints_and_indexes *)

Definition constraints_up : list ddl :=
  [AlterTable "users" [AddConstraint "users_balance_non_negative" (CCheck "balance" OpGe 0)];
   AlterTable "transfers" [AddConstraint "transfers_amount_positive" (CCheck "amount" OpGt 0)];
   CreateIndexIfNotExists "idx_transfers_from_user" "transfers" [("from_user", false)];
   CreateIndexIfNotExists "idx_transfers_to_user" "transfers" [("to_user", false)];
   CreateIndexIfNotExists "idx_transfers_from_user_created_at" "transfers"
     [("from_user", false); ("created_at", true)];
   CreateIndexIfNotExists "idx_notifications_user_id_created_at" "notifications"
     [("user_id", false); ("created_at", true)]].

Definition constraints_down : list ddl :=
  [DropIndexIfExists "idx_notifications_user_id_created_at";
   DropIndexIfExists "idx_transfers_from_user_created_at";
   DropIndexIfExists "idx_transfers_to_user";
   DropIndexIfExists "idx_transfers_from_user";
   AlterTable "transfers" [DropConstraintIfExists "transfers_amount_positive"];
   AlterTable "users" [DropConstraintIfExists "users_balance_non_negative"]].

(** ** 000003_bigint_ids *)

Definition bigint_up : list ddl :=
  [AlterTable "users"
     [AlterType "id" BIGINT; SetDefaultNextval "id" "users_id_seq"; AlterType "balance" BIGINT];
   AlterSequenceAs "users_id_seq" BIGINT;
   AlterTable "transfers"
     [AlterType "id" BIGINT; SetDefaultNextval "id" "transfers_id_seq"; AlterType "from_user" BIGINT;
      AlterType "to_user" BIGINT; AlterType "amount" BIGINT];
   AlterSequenceAs "transfers_id_seq" BIGINT;
   AlterTable "notifications"
     [AlterType "id" BIGINT; SetDefaultNextval "id" "notifications_id_seq"; AlterType "user_id" BIGINT];
   AlterSequenceAs "notifications_id_seq" BIGINT].

Definition bigint_down : list ddl :=
  [AlterTable "notifications" [AlterType "user_id" INTEGER; AlterType "id" INTEGER];
   AlterTable "transfers"
     [AlterType "amount" INTEGER; AlterType "to_user" INTEGER; AlterType "from_user" INTEGER;
      AlterType "id" INTEGER];
   AlterTable "users" [AlterType "balance" INTEGER; AlterType "id" INTEGER]].

(** The scripts 01-schema.sql and 02-constraints.sql of the chart. *)
Definition chart_scripts : list ddl := init_tables BIGSERIAL BIGINT ++ constraints_up.

(** ** The rows of the tables *)

Definition user_row (u : User) : Row :=
  [("id", VInt (u_id u)); ("phone", VStr (u_phone u)); ("account_number", VStr (u_account_number u));
   ("username", VStr (u_username u)); ("password_hash", VStr (u_password_hash u));
   ("balance", VInt (u_balance u)); ("is_admin", VBool (u_is_admin u))].

Definition transfer_row (t : Transfer) : Row :=
  [("id", VInt (t_id t)); ("from_user", VInt (t_from_user t)); ("to_user", VInt (t_to_user t));
   ("amount", VInt (t_amount t)); ("created_at", VTime (t_created_at t))].

Definition notification_row (n : Notification) : Row :=
  [("id", VInt (n_id n)); ("user_id", VInt (n_user_id n)); ("message", VStr (n_message n));
   ("is_read", VBool (n_is_read n)); ("created_at", VTime (n_created_at n))].

Definition data (T : Tables) : named (list Row) :=
  [("users", map user_row (users T)); ("transfers", map transfer_row (transfers T));
   ("notifications", map notification_row (notifications T))].

Definition no_rows : Tables := MkTables [] [] [].

(** A catalog with the rows of [T]. *)
Definition filled (cat : Catalog) (T : Tables) : Database := MkDatabase cat (data T).

(** The catalog that the files leave. *)
Definition catalog_of (files : list ddl) : Catalog :=
  match run files empty_database with Ok db => db_catalog db | Err _ => MkCatalog [] [] [] end.

Definition catalog1 : Catalog := Eval vm_compute in catalog_of init_up.
Definition catalog2 : Catalog := Eval vm_compute in catalog_of (init_up ++ constraints_up).
Definition catalog3 : Catalog := Eval vm_compute in catalog_of (init_up ++ constraints_up ++ bigint_up).

(** The downgrade of 000003 leaves the sequences as they are. *)
Definition catalog2_down : Catalog :=
  MkCatalog (cat_tables catalog2) (cat_sequences catalog3) (cat_indexes catalog2).

(** The identifiers fit their columns; those of the users are part of
    [schema_ok]. *)
Definition ids_in_range (T : Tables) : Prop :=
  Forall (fun t => in_int64 (t_id t)) (transfers T) /\
  Forall (fun n => in_int64 (n_id n)) (notifications T).

(** No balance is negative, no amount is zero or negative. *)
Definition banking_rows (T : Tables) : bool :=
  forallb (fun u => 0 <=? u_balance u) (users T) && forallb (fun t => 0 <? t_amount t) (transfers T).

Definition int32 (z : Z) : bool := (int32_min <=? z) && (z <=? int32_max).

(** Every number fits an INTEGER. *)
Definition int32_rows (T : Tables) : bool :=
  forallb (fun u => int32 (u_id u) && int32 (u_balance u)) (users T) &&
  forallb (fun t => int32 (t_id t) && int32 (t_from_user t) && int32 (t_to_user t) && int32 (t_amount t))
    (transfers T) &&
  forallb (fun n => int32 (n_id n) && int32 (n_user_id n)) (notifications T).
