(* ===== verification/MigrationsCorrect.v ===== *)
(** * Theorems on the migrations

    The schema that they leave is the one that the services are verified
    against ([migrations_schema]); upgrades keep the rows
    ([upgrade_keeps_rows]) and downgrades keep or refuse them
    ([downgrade_keeps_rows]). *)

From S2P Require Import Prelude GoStrings Json Tables Sql Migrations.

(** ** Running on any rows *)

Ltac run_ddl :=
  cbv -[constraint_holds all_fit rows_of];
  repeat match goal with |- context [constraint_holds ?a ?b ?c] => destruct (constraint_holds a b c) end;
  repeat match goal with |- context [all_fit ?a ?b ?c] => destruct (all_fit a b c) end;
  reflexivity.

Lemma init_run : run init_up empty_database = Ok (filled catalog1 no_rows).
Proof. reflexivity. Qed.

Lemma constraints_up_run rs :
  run constraints_up (MkDatabase catalog1 rs) =
    if constraint_holds rs (rows_of rs "users") (CCheck "balance" OpGe 0) &&
       constraint_holds rs (rows_of rs "transfers") (CCheck "amount" OpGt 0)
    then Ok (MkDatabase catalog2 rs) else Err check_violation.
Proof. run_ddl. Qed.

(** The columns that 000003 changes all fit [t]. *)
Definition numbers_fit (t : sqltype) (rs : named (list Row)) : bool :=
  all_fit t "id" (rows_of rs "users") && all_fit t "balance" (rows_of rs "users") &&
  (all_fit t "id" (rows_of rs "transfers") && all_fit t "from_user" (rows_of rs "transfers") &&
   all_fit t "to_user" (rows_of rs "transfers") && all_fit t "amount" (rows_of rs "transfers")) &&
  (all_fit t "id" (rows_of rs "notifications") && all_fit t "user_id" (rows_of rs "notifications")).

Lemma bigint_up_run cat rs :
  cat = catalog2 \/ cat = catalog2_down ->
  run bigint_up (MkDatabase cat rs) =
    if numbers_fit BIGINT rs then Ok (MkDatabase catalog3 rs) else Err out_of_range.
Proof. intros [->| ->]; run_ddl. Qed.

Lemma bigint_down_run rs :
  run bigint_down (MkDatabase catalog3 rs) =
    if numbers_fit INTEGER rs then Ok (MkDatabase catalog2_down rs) else Err out_of_range.
Proof. run_ddl. Qed.

(** ** Validity of the rows of the tables *)

Lemma all_fit_map {A} (row : A -> Row) t col (f : A -> value) l :
  (forall a, cell col (row a) = Some (f a)) ->
  all_fit t col (map row l) = true <-> Forall (fun a => fits t (f a) = true) l.
Proof.
  intros Hc. unfold all_fit. rewrite forallb_forall, Forall_forall. split.
  - intros H a Ha. specialize (H (row a)). rewrite Hc in H. apply H, in_map, list_elem_of_In, Ha.
  - intros H r Hr. apply in_map_iff in Hr as (a & <- & Ha). rewrite Hc. by apply H, list_elem_of_In.
Qed.

Lemma unique_map {A B} (row : A -> Row) rows col (f : A -> B) (v : B -> value) `{!Inj (=) (=) v} l :
  (forall a, cell col (row a) = Some (v (f a))) ->
  constraint_holds rows (map row l) (CUnique col) = true <-> NoDup (map f l).
Proof.
  intros Hc. simpl. rewrite bool_decide_eq_true, map_map.
  rewrite (map_ext _ (fun a => Some (v (f a)))) by done. rewrite <- (map_map f (fun b => Some (v b))).
  apply (NoDup_fmap (fun b => Some (v b))).
Qed.

Lemma references_map {A} (row : A -> Row) rows col (f : A -> Z) l us :
  (forall a, cell col (row a) = Some (VInt (f a))) -> rows_of rows "users" = map user_row us ->
  constraint_holds rows (map row l) (CReferences col "users" "id") = true <->
    Forall (fun a => f a ∈ map u_id us) l.
Proof.
  intros Hc Hu. simpl. rewrite Hu, forallb_forall, Forall_forall, map_map.
  assert (forall a, cell col (row a) ∈ map (fun u => cell "id" (user_row u)) us <-> f a ∈ map u_id us) as Hin.
  { intros a. rewrite Hc, !list_elem_of_fmap. split; intros (u & E & Hin); exists u; split; try done.
    - by injection E.
    - by rewrite E. }
  split.
  - intros H a Ha. apply Hin, (bool_decide_eq_true_1 _), H, in_map, list_elem_of_In, Ha.
  - intros H r Hr. apply in_map_iff in Hr as (a & <- & Ha).
    by apply bool_decide_eq_true, Hin, H, list_elem_of_In.
Qed.

Lemma check_map {A} (row : A -> Row) rows col op z (f : A -> Z) l :
  (forall a, cell col (row a) = Some (VInt (f a))) ->
  constraint_holds rows (map row l) (CCheck col op z) =
    forallb (fun a => compare_holds op z (Some (VInt (f a)))) l.
Proof. intros Hc. simpl. induction l as [|a l IH]; simpl; [done|]. by rewrite IH, Hc. Qed.

(** The rows fit columns whose numbers are of type [int]. *)
Definition user_fits (int : sqltype) (u : User) : bool :=
  fits int (VInt (u_id u)) && fits (VARCHAR 20) (VStr (u_phone u)) &&
  fits (VARCHAR 20) (VStr (u_account_number u)) && fits (VARCHAR 50) (VStr (u_username u)) &&
  fits (VARCHAR 255) (VStr (u_password_hash u)) && fits int (VInt (u_balance u)) &&
  fits BOOLEAN (VBool (u_is_admin u)).

Definition transfer_fits (int : sqltype) (t : Transfer) : bool :=
  fits int (VInt (t_id t)) && fits int (VInt (t_from_user t)) && fits int (VInt (t_to_user t)) &&
  fits int (VInt (t_amount t)) && fits TIMESTAMPTZ (VTime (t_created_at t)).

Definition notification_fits (int : sqltype) (n : Notification) : bool :=
  fits int (VInt (n_id n)) && fits int (VInt (n_user_id n)) && fits (VARCHAR 255) (VStr (n_message n)) &&
  fits BOOLEAN (VBool (n_is_read n)) && fits TIMESTAMPTZ (VTime (n_created_at n)).

Definition rows_fit (int : sqltype) (T : Tables) : Prop :=
  Forall (fun u => user_fits int u = true) (users T) /\
  Forall (fun t => transfer_fits int t = true) (transfers T) /\
  Forall (fun n => notification_fits int n = true) (notifications T).

(** The keys are unique and refer to users. *)
Record keys_ok (T : Tables) : Prop := {
  key_users : NoDup (user_ids T) /\ NoDup (map u_phone (users T)) /\ NoDup (map u_account_number (users T));
  key_transfers : NoDup (map t_id (transfers T)) /\
    Forall (fun t => t_from_user t ∈ user_ids T) (transfers T) /\
    Forall (fun t => t_to_user t ∈ user_ids T) (transfers T);
  key_notifications : NoDup (map n_id (notifications T)) /\
    Forall (fun n => n_user_id n ∈ user_ids T) (notifications T);
}.

(** The tables of the catalogs; [checks]: with those of 000002. *)
Definition tables_at (int : sqltype) (checks : bool) : named TableDef :=
  let id := match int with BIGINT => BIGSERIAL | _ => SERIAL end in
  let add name c td :=
    if checks then MkTableDef (td_columns td) (td_constraints td ++ [(name, c)]) else td in
  [("users", add "users_balance_non_negative" (CCheck "balance" OpGe 0)
               (make_table "users" (users_columns id int)));
   ("transfers", add "transfers_amount_positive" (CCheck "amount" OpGt 0)
                   (make_table "transfers" (transfers_columns id int)));
   ("notifications", make_table "notifications" (notifications_columns id int))].

Lemma Forall_andb {A} (f g : A -> bool) l :
  Forall (fun a => f a && g a = true) l <-> Forall (fun a => f a = true) l /\ Forall (fun a => g a = true) l.
Proof. rewrite <- Forall_and. apply Forall_iff. intros a. apply andb_true_iff. Qed.

(** The columns and constraints of a table, one by one. *)
Ltac by_column :=
  unfold table_valid, make_table, users_columns, transfers_columns, notifications_columns;
  cbn -[all_fit constraint_holds rows_of data fits];
  rewrite ?andb_true_iff;
  repeat match goal with
  | |- context [rows_of (data ?T) "users"] => change (rows_of (data T) "users") with (map user_row (users T))
  | |- context [rows_of (data ?T) "transfers"] =>
      change (rows_of (data T) "transfers") with (map transfer_row (transfers T))
  | |- context [rows_of (data ?T) "notifications"] =>
      change (rows_of (data T) "notifications") with (map notification_row (notifications T))
  end;
  repeat match goal with
  | |- context [all_fit ?t ?col (map ?row ?l) = true] =>
      erewrite (all_fit_map row t col _ l) by reflexivity
  end.

#[local] Instance VInt_inj : Inj (=) (=) VInt.
Proof. by intros ? ? [=]. Qed.
#[local] Instance VStr_inj : Inj (=) (=) VStr.
Proof. by intros ? ? [=]. Qed.

Lemma users_valid id int T :
  id = SERIAL /\ int = INTEGER \/ id = BIGSERIAL /\ int = BIGINT ->
  table_valid (data T) "users" (make_table "users" (users_columns id int)) = true <->
    Forall (fun u => user_fits int u = true) (users T) /\
    NoDup (user_ids T) /\ NoDup (map u_phone (users T)) /\ NoDup (map u_account_number (users T)).
Proof.
  intros Hid. unfold user_fits, user_ids. rewrite !Forall_andb.
  destruct Hid as [[-> ->]|[-> ->]]; by_column.
  all: change (constraint_holds (data T) ?rs (CPrimaryKey ?col)) with (constraint_holds (data T) rs (CUnique col)).
  all: rewrite (unique_map user_row _ "id" u_id VInt), (unique_map user_row _ "phone" u_phone VStr),
         (unique_map user_row _ "account_number" u_account_number VStr) by done.
  all: tauto.
Qed.

Lemma transfers_valid id int T :
  id = SERIAL /\ int = INTEGER \/ id = BIGSERIAL /\ int = BIGINT ->
  table_valid (data T) "transfers" (make_table "transfers" (transfers_columns id int)) = true <->
    Forall (fun t => transfer_fits int t = true) (transfers T) /\
    NoDup (map t_id (transfers T)) /\ Forall (fun t => t_from_user t ∈ user_ids T) (transfers T) /\
    Forall (fun t => t_to_user t ∈ user_ids T) (transfers T).
Proof.
  intros Hid. unfold transfer_fits, user_ids. rewrite !Forall_andb.
  destruct Hid as [[-> ->]|[-> ->]]; by_column.
  all: change (constraint_holds (data T) ?rs (CPrimaryKey ?col)) with (constraint_holds (data T) rs (CUnique col)).
  all: rewrite (unique_map transfer_row _ "id" t_id VInt),
         (references_map transfer_row _ "from_user" t_from_user _ (users T)),
         (references_map transfer_row _ "to_user" t_to_user _ (users T)) by done.
  all: tauto.
Qed.

Lemma notifications_valid id int T :
  id = SERIAL /\ int = INTEGER \/ id = BIGSERIAL /\ int = BIGINT ->
  table_valid (data T) "notifications" (make_table "notifications" (notifications_columns id int)) = true <->
    Forall (fun n => notification_fits int n = true) (notifications T) /\
    NoDup (map n_id (notifications T)) /\ Forall (fun n => n_user_id n ∈ user_ids T) (notifications T).
Proof.
  intros Hid. unfold notification_fits, user_ids. rewrite !Forall_andb.
  destruct Hid as [[-> ->]|[-> ->]]; by_column.
  all: change (constraint_holds (data T) ?rs (CPrimaryKey ?col)) with (constraint_holds (data T) rs (CUnique col)).
  all: rewrite (unique_map notification_row _ "id" n_id VInt),
         (references_map notification_row _ "user_id" n_user_id _ (users T)) by done.
  all: tauto.
Qed.

(** A table with one more constraint. *)
Lemma table_valid_more rows name td cname c :
  table_valid rows name (MkTableDef (td_columns td) (td_constraints td ++ [(cname, c)])) =
    table_valid rows name td && constraint_holds rows (rows_of rows name) c.
Proof.
  unfold table_valid. simpl td_constraints. rewrite forallb_app. simpl. by rewrite andb_true_r, andb_assoc.
Qed.

Lemma checks_of_data T :
  constraint_holds (data T) (rows_of (data T) "users") (CCheck "balance" OpGe 0) &&
  constraint_holds (data T) (rows_of (data T) "transfers") (CCheck "amount" OpGt 0) = banking_rows T.
Proof.
  change (rows_of (data T) "users") with (map user_row (users T)).
  change (rows_of (data T) "transfers") with (map transfer_row (transfers T)).
  by rewrite (check_map user_row _ _ _ _ u_balance), (check_map transfer_row _ _ _ _ t_amount).
Qed.

Lemma valid_tables cat int checks T :
  cat_tables cat = tables_at int checks -> int = INTEGER \/ int = BIGINT ->
  valid (filled cat T) <->
    rows_fit int T /\ keys_ok T /\ (checks = true -> banking_rows T = true).
Proof.
  intros Ec Hint. unfold valid, filled. cbn [db_catalog db_rows]. rewrite Ec. unfold tables_at.
  assert (exists id, (match int with BIGINT => BIGSERIAL | _ => SERIAL end) = id /\
            (id = SERIAL /\ int = INTEGER \/ id = BIGSERIAL /\ int = BIGINT)) as (id & -> & Hid)
    by (destruct Hint as [->| ->]; eauto 10).
  rewrite !Forall_cons, Forall_nil. cbn [fst snd].
  pose proof (users_valid id int T Hid) as Hu. pose proof (transfers_valid id int T Hid) as Ht.
  pose proof (notifications_valid id int T Hid) as Hn.
  assert (keys_ok T <-> (NoDup (user_ids T) /\ NoDup (map u_phone (users T)) /\
            NoDup (map u_account_number (users T))) /\
          (NoDup (map t_id (transfers T)) /\ Forall (fun t => t_from_user t ∈ user_ids T) (transfers T) /\
           Forall (fun t => t_to_user t ∈ user_ids T) (transfers T)) /\
          (NoDup (map n_id (notifications T)) /\
           Forall (fun n => n_user_id n ∈ user_ids T) (notifications T))) as Hk
    by (split; [intros [? ? ?]; auto|intros (? & ? & ?); by constructor]).
  rewrite Hk. unfold rows_fit. rewrite <- checks_of_data.
  destruct checks; rewrite ?table_valid_more, ?andb_true_iff, Hu, Ht, Hn; intuition done.
Qed.

(** The rows of 000003 are those that the services are verified against. *)
Lemma user_fits_ok u : user_fits BIGINT u && (0 <=? u_balance u) = user_row_ok u.
Proof.
  unfold user_fits, user_row_ok, fits, int64_min, int64_max.
  apply eq_true_iff_eq. rewrite !andb_true_iff, !Z.leb_le. lia.
Qed.

Lemma in_range_fits z : fits BIGINT (VInt z) = true <-> in_int64 z.
Proof. unfold in_int64. simpl. rewrite andb_true_iff, !Z.leb_le. done. Qed.

Lemma user_ids_range T i :
  Forall (fun u => user_row_ok u = true) (users T) -> i ∈ user_ids T -> in_int64 i.
Proof.
  intros Hu (u & -> & Hin)%list_elem_of_fmap. rewrite Forall_forall in Hu. specialize (Hu u Hin).
  unfold user_row_ok, in_int64 in *. bool_hyps. lia.
Qed.

Lemma schema_rows T :
  rows_fit BIGINT T /\ keys_ok T /\ banking_rows T = true <-> schema_ok T /\ ids_in_range T.
Proof.
  unfold rows_fit, banking_rows, ids_in_range. rewrite andb_true_iff, !forallb_forall.
  setoid_rewrite <- list_elem_of_In. rewrite <- !Forall_forall.
  unfold transfer_fits, notification_fits. rewrite !Forall_andb.
  setoid_rewrite in_range_fits. split.
  - intros ((Hu & ((((Hid & _) & _) & Ham) & _) & ((((Hnid & _) & Hmsg) & _) & _)) &
      [(? & ? & ?) (? & ? & ?) (? & ?)] & Hb & Ha).
    split_and!; [|done..]. constructor; try done.
    + rewrite Forall_forall in *. intros u Hin. rewrite <- user_fits_ok, (Hu u Hin), (Hb u Hin). done.
    + rewrite Forall_forall in *. intros t Hin. unfold transfer_row_ok. rewrite (Ha t Hin).
      apply Z.leb_le. by apply Ham.
  - intros ([] & Ht & Hn).
    assert (Forall (fun u => user_fits BIGINT u = true /\ (0 <=? u_balance u) = true) (users T)) as Hu.
    { eapply Forall_impl; [exact ok_user_rows|]. intros u. cbv beta. rewrite <- user_fits_ok.
      apply andb_true_iff. }
    apply Forall_and in Hu as [Hu Hb].
    assert (Forall (fun t => in_int64 (t_amount t) /\ (0 <? t_amount t) = true) (transfers T)) as Ha.
    { eapply Forall_impl; [exact ok_transfer_rows|]. intros t. unfold transfer_row_ok, in_int64, int64_min.
      rewrite andb_true_iff. lia. }
    apply Forall_and in Ha as [Ha Hp].
    assert (forall {A} (f : A -> Z) l, Forall (fun a => f a ∈ user_ids T) l -> Forall (fun a => in_int64 (f a)) l)
      as Hids by (intros A f l Hl; eapply Forall_impl; [exact Hl|]; intros a; by apply user_ids_range).
    split_and!; auto; try (by apply Forall_true). by constructor.
Qed.

Lemma forallb_andb {A} (f g : A -> bool) l :
  forallb (fun a => f a && g a) l = forallb f l && forallb g l.
Proof.
  induction l as [|a l IH]; simpl; [done|]. rewrite IH. by destruct (f a), (g a), (forallb f l).
Qed.

Lemma all_fit_data {A} (row : A -> Row) t col (f : A -> value) l :
  (forall a, cell col (row a) = Some (f a)) -> all_fit t col (map row l) = forallb (fun a => fits t (f a)) l.
Proof.
  intros Hc. apply eq_true_iff_eq. rewrite (all_fit_map row t col f l Hc), forallb_forall, Forall_forall.
  by setoid_rewrite list_elem_of_In.
Qed.

Lemma numbers_fit_data T : numbers_fit INTEGER (data T) = int32_rows T.
Proof.
  unfold numbers_fit.
  change (rows_of (data T) "users") with (map user_row (users T)).
  change (rows_of (data T) "transfers") with (map transfer_row (transfers T)).
  change (rows_of (data T) "notifications") with (map notification_row (notifications T)).
  rewrite (all_fit_data user_row _ "id" (fun u => VInt (u_id u))),
    (all_fit_data user_row _ "balance" (fun u => VInt (u_balance u))),
    (all_fit_data transfer_row _ "id" (fun t => VInt (t_id t))),
    (all_fit_data transfer_row _ "from_user" (fun t => VInt (t_from_user t))),
    (all_fit_data transfer_row _ "to_user" (fun t => VInt (t_to_user t))),
    (all_fit_data transfer_row _ "amount" (fun t => VInt (t_amount t))),
    (all_fit_data notification_row _ "id" (fun n => VInt (n_id n))),
    (all_fit_data notification_row _ "user_id" (fun n => VInt (n_user_id n))) by done.
  unfold int32_rows. by rewrite !forallb_andb.
Qed.

(** Rows that fit INTEGER columns fit BIGINT columns. *)
Lemma fits_bigint z : fits INTEGER (VInt z) = true -> fits BIGINT (VInt z) = true.
Proof.
  unfold fits, int32_min, int32_max, int64_min, int64_max. rewrite !andb_true_iff, !Z.leb_le. lia.
Qed.

Lemma rows_fit_bigint T : rows_fit INTEGER T -> rows_fit BIGINT T.
Proof.
  unfold rows_fit, user_fits, transfer_fits, notification_fits. intros (Hu & Ht & Hn).
  split_and!; (eapply Forall_impl; [eassumption|]); cbv beta; intros a; rewrite !andb_true_iff;
    intros; destruct_and?; split_and?; auto using fits_bigint.
Qed.

Lemma rows_fit_numbers T : rows_fit BIGINT T -> numbers_fit BIGINT (data T) = true.
Proof.
  intros (Hu & Ht & Hn). unfold user_fits, transfer_fits, notification_fits in *.
  rewrite !Forall_andb in Hu. rewrite !Forall_andb in Ht. rewrite !Forall_andb in Hn. unfold numbers_fit. rewrite !andb_true_iff.
  change (rows_of (data T) "users") with (map user_row (users T)).
  change (rows_of (data T) "transfers") with (map transfer_row (transfers T)).
  change (rows_of (data T) "notifications") with (map notification_row (notifications T)).
  destruct_and! Hu. destruct_and! Ht. destruct_and! Hn.
  split_and!; (eapply all_fit_map; [reflexivity|assumption]).
Qed.

Lemma Forall_forallb {A} (f g h : A -> bool) l :
  (forall a, f a = true -> g a = true -> h a = true) ->
  Forall (fun a => f a = true) l -> forallb g l = true -> Forall (fun a => h a = true) l.
Proof.
  rewrite !Forall_forall, forallb_forall. intros Hfg Hf Hg a Ha.
  apply Hfg; [by apply Hf|by apply Hg, list_elem_of_In].
Qed.

Lemma int32_rows_fit T : rows_fit BIGINT T -> int32_rows T = true -> rows_fit INTEGER T.
Proof.
  intros (Hu & Ht & Hn). unfold int32_rows. rewrite !andb_true_iff. intros [[Hu' Ht'] Hn'].
  split_and!; (eapply Forall_forallb; [|eassumption..]); intros a;
    unfold user_fits, transfer_fits, notification_fits, int32, fits; rewrite !andb_true_iff; tauto.
Qed.

(** ** The theorems *)

Lemma catalog_tables :
  cat_tables catalog1 = tables_at INTEGER false /\ cat_tables catalog2_down = tables_at INTEGER true /\
  cat_tables catalog3 = tables_at BIGINT true.
Proof. done. Qed.

Definition column_default (cat : Catalog) (table col : string) : option default_value :=
  td ← get table (cat_tables cat);
  c ← List.find (fun c => String.eqb (col_name c) col) (td_columns td);
  col_default c.

(** C31. The migrations leave the schema that everything else is verified
    against: 000001 to 000003 and the scripts of the Helm chart lead from an
    empty database to the same tables, sequences and indexes, and rows are
    valid in it exactly when they satisfy [schema_ok] and their identifiers
    are BIGINTs; the defaults are those that registration relies on. They
    cannot follow the scripts: on a database of the chart, whatever it holds,
    000001 changes nothing and 000002 fails, since its constraints exist. *)
Theorem migrations_schema :
  run (init_up ++ constraints_up ++ bigint_up) empty_database = Ok (filled catalog3 no_rows) /\
  run chart_scripts empty_database = Ok (filled catalog3 no_rows) /\
  (forall T, valid (filled catalog3 T) <-> schema_ok T /\ ids_in_range T) /\
  column_default catalog3 "users" "balance" = Some (DInt default_balance) /\
  column_default catalog3 "users" "is_admin" = Some (DBool false) /\
  column_default catalog3 "notifications" "is_read" = Some (DBool false) /\
  (forall T, run init_up (filled catalog3 T) = Ok (filled catalog3 T) /\
             run constraints_up (filled catalog3 T) = Err duplicate_object).
Proof.
  split_and!; try reflexivity; intros T; [|by split].
  rewrite (valid_tables catalog3 BIGINT true T) by auto. rewrite <- schema_rows. intuition.
Qed.

(** C32. Upgrades keep every row or refuse: 000002 succeeds on a database of
    000001 exactly when no balance is negative and every amount is positive,
    and fails with a check violation otherwise; 000003 then always succeeds.
    Neither changes a row, and the rows satisfy the constraints afterwards. *)
Theorem upgrade_keeps_rows T :
  run constraints_up (filled catalog1 T) =
    (if banking_rows T then Ok (filled catalog2 T) else Err check_violation) /\
  (valid (filled catalog1 T) -> banking_rows T = true ->
     run bigint_up (filled catalog2 T) = Ok (filled catalog3 T) /\ schema_ok T).
Proof.
  split.
  - unfold filled at 1. by rewrite constraints_up_run, checks_of_data.
  - intros Hv Hb. apply (valid_tables catalog1 INTEGER false T eq_refl) in Hv as (Hr & Hk & _); [|by left].
    apply rows_fit_bigint in Hr. split; [|by apply schema_rows].
    unfold filled. rewrite bigint_up_run by by left. by rewrite rows_fit_numbers.
Qed.

(** C33. Downgrades keep every row or refuse: 000003 can be taken back exactly
    when every number, and not only every identifier as its comment says,
    fits an INTEGER, and fails with an out-of-range error otherwise; the
    sequences stay BIGINT. The rows are then valid, and upgrading again leads
    back. 000002 and 000001 can always be taken back. *)
Theorem downgrade_keeps_rows T :
  valid (filled catalog3 T) ->
  run bigint_down (filled catalog3 T) =
    (if int32_rows T then Ok (filled catalog2_down T) else Err out_of_range) /\
  (int32_rows T = true ->
     valid (filled catalog2_down T) /\ run bigint_up (filled catalog2_down T) = Ok (filled catalog3 T)) /\
  run constraints_down (filled catalog2 T) = Ok (filled catalog1 T) /\
  run init_down (filled catalog1 T) = Ok empty_database.
Proof.
  intros (Hr & Hk & Hb)%(valid_tables catalog3 BIGINT true T eq_refl); [|by right].
  split_and!; [| |reflexivity..].
  - unfold filled. by rewrite bigint_down_run, numbers_fit_data.
  - intros Hi. split.
    + apply (valid_tables catalog2_down INTEGER true T eq_refl); [by left|].
      split_and!; [by apply int32_rows_fit|done..].
    + unfold filled. rewrite bigint_up_run by by right. by rewrite rows_fit_numbers.
Qed.

(** ** Witnesses *)

(** A bank with one rich user. *)
Definition rich : Tables :=
  MkTables [MkUser 1 "0123456789" "111111111111" "rich" "" 3000000000 false] [] [].

Definition poor : Tables :=
  MkTables [MkUser 1 "0123456789" "111111111111" "poor" "" 300 false] [] [].

Lemma upgrade_keeps_rows_witness :
  run constraints_up (filled catalog1 poor) = Ok (filled catalog2 poor) /\
  run bigint_up (filled catalog2 poor) = Ok (filled catalog3 poor) /\ schema_ok poor.
Proof.
  destruct (upgrade_keeps_rows poor) as [Hc Hb]. split; [exact Hc|]. apply Hb; [|reflexivity].
  apply (bool_decide_unpack _). vm_compute. exact I.
Defined.

Lemma downgrade_keeps_rows_witness :
  Forall (fun u => int32 (u_id u) = true) (users rich) /\
  run bigint_down (filled catalog3 rich) = Err out_of_range.
Proof.
  split; [by repeat constructor|].
  destruct (downgrade_keeps_rows rich) as (Hd & _); [|exact Hd].
  apply (bool_decide_unpack _). vm_compute. exact I.
Defined.
