(* ===== verification/Startup.v ===== *)
(** * Start-up and shut-down: who opens what, and when it is released

    The [run] functions of the services' main.go, service.InitDeps,
    tracing.Init, redis.NewClient, nats.Connect, consumer.Run and the
    producer's main, as functions that leave a trace of the resources they
    open and release. A Go function with [defer] is a [func]: its deferred
    calls run when its body returns, the last one first. What the libraries
    answer is a [Platform], an argument of all definitions. *)

From S2P Require Import Prelude GoStrings GoFloat Json Tables Sql Servers Db RedisClient Consumer.
From S2P Require Import Events Producer Services Lifecycle.

(** ** Traces and deferred calls *)

Inductive resource : Type :=
| RsCollector   (* the Instana collector; released by a flush *)
| RsExporter    (* the OTLP exporter *)
| RsProvider    (* the tracer provider, which owns the exporter *)
| RsPool | RsRedis
| RsNats        (* a NATS connection; released by Drain *)
| RsMicro       (* the micro service with its endpoints; released by Stop *)
| RsProjection. (* the consume context of the balance projection *)

#[global] Instance resource_eq_dec : EqDecision resource.
Proof. solve_decision. Defined.

(** Times in nanoseconds; 0 is no timeout. *)
Record HttpServer := MkHttpServer {
  hs_addr : string;
  hs_routes : list string;
  hs_ReadHeaderTimeout : Z;
  hs_WriteTimeout : Z;
}.

Inductive act : Type :=
| Open (r : resource)
| Close (r : resource)
| Endpoint (action subject : string) (pendingMsgs pendingBytes : Z)
| Await                     (* blocks until the context is done *)
| Serve (s : HttpServer).   (* the goroutines of the process, until all return *)

Record Frame := MkFrame { fr_trace : list act; fr_defers : list (list act) }.

Definition act1 (a : act) : M (list act) unit := fun tr => (tt, tr ++ [a]).
Definition acts (l : list act) : M (list act) unit := fun tr => (tt, tr ++ l).

Definition doing {A} (m : M (list act) A) : M Frame A :=
  fun fr => let '(a, tr) := m (fr_trace fr) in (a, MkFrame tr (fr_defers fr)).

Definition defer (l : list act) : M Frame unit :=
  fun fr => (tt, MkFrame (fr_trace fr) (l :: fr_defers fr)).

Definition func {A} (body : M Frame A) : M (list act) A :=
  fun tr => let '(a, fr) := body (MkFrame tr []) in (a, fr_trace fr ++ concat (fr_defers fr)).

(** ** What the libraries answer *)

(** The options of go-redis that [NewClient] reads and sets. *)
Record RedisOptions := MkRedisOptions {
  ro_Addr : string;
  ro_ClientName : string;
  ro_ConnMaxLifetime : Z;
  ro_ConnMaxLifetimeJitter : Z;
  ro_DialerRetryBackoff : option (Z * Z);
}.

(** The options of nats.Connect; [co_ReconnectBufSize]: the default of the
    library when absent. *)
Record ConnectOptions := MkConnectOptions {
  co_url : string;
  co_name : string;
  co_MaxReconnects : Z;
  co_ReconnectWait : Z;
  co_ReconnectJitter : Z * Z;
  co_RetryOnFailedConnect : bool;
  co_PingInterval : Z;
  co_MaxPingsOutstanding : Z;
  co_ReconnectBufSize : option Z;
}.

(** Each field is one library call; [None] is success. *)
Record Platform := {
  pf_otlp : string -> option goerr;                   (* otlptracegrpc.New *)
  pf_resource : string -> option goerr;               (* resource.New *)
  pf_parse_pg : string -> result PoolConfig goerr;    (* pgxpool.ParseConfig *)
  pf_open_pg : PoolConfig -> option goerr;            (* pgxpool.NewWithConfig *)
  pf_parse_redis : string -> result RedisOptions goerr; (* goredis.ParseURL *)
  pf_connect : ConnectOptions -> option goerr;        (* nats.Connect *)
  pf_jetstream : option goerr;                        (* jetstream.New *)
  pf_create_stream : StreamConfig -> option goerr;    (* CreateOrUpdateStream *)
  pf_consumer : ConsumerConfig -> option goerr;       (* CreateOrUpdateConsumer *)
  pf_consume : option goerr;                          (* Consume *)
  pf_add_service : string -> option goerr;            (* micro.AddService *)
  pf_add_endpoint : string -> option goerr;           (* svc.AddEndpoint, by subject *)
}.

Section Startup.
Context (pf : Platform) (env : gmap string string).

(** ** internal/tracing *)

Definition autoProfileEnabled : bool :=
  bool_decide (default "" (env !! "INSTANA_AUTO_PROFILE") = "true").

(** [strings.TrimPrefix]. *)
Definition TrimPrefix (prefix s : string) : string :=
  if String.prefix prefix s
  then String.substring (String.length prefix) (String.length s - String.length prefix) s else s.

Definition otlp_endpoint (otlpEndpoint : string) : string :=
  TrimPrefix "http://" (TrimPrefix "https://" otlpEndpoint).

(** The shutdown function that [Init] returns, as its acts. *)
Definition Init (serviceName otlpEndpoint : string) : M (list act) (list act) :=
  let* _ := act1 (Open RsCollector) in
  let instanaFlush := [Close RsCollector] in
  if bool_decide (otlpEndpoint = "") then ret instanaFlush
  else
    match pf_otlp pf (otlp_endpoint otlpEndpoint) with
    | Some _ => ret instanaFlush
    | None =>
        let* _ := act1 (Open RsExporter) in
        match pf_resource pf serviceName with
        | Some _ => ret instanaFlush
        | None =>
            let* _ := act1 (Open RsProvider) in
            (* the provider shuts its exporter down *)
            ret ([Close RsProvider; Close RsExporter] ++ instanaFlush)
        end
    end.

(** ** internal/redis: NewClient *)

(** [host, _, _ := strings.Cut(addr, ":")]. *)
Fixpoint cut_host (addr : string) : string :=
  match addr with
  | EmptyString => EmptyString
  | String c rest => if byte_val c =? 58 then EmptyString else String c (cut_host rest)
  end.

Definition NewClient (url : string) : result RedisOptions goerr :=
  match pf_parse_redis pf url with
  | Err err => Err (EWrap "parse redis url" err)
  | Ok opts =>
      let clientName :=
        if bool_decide (ro_ClientName opts = "") then cut_host (ro_Addr opts)
        else ro_ClientName opts in
      Ok (MkRedisOptions (ro_Addr opts) clientName (30 * Minute) (30 * Second)
            (Some (100 * 1000000, 5 * Second)))
  end.

(** ** internal/service: InitDeps *)

(** [db.NewPool] with the connection. *)
Definition open_pool (dsn : string) : result PoolConfig goerr :=
  match NewPool (pf_parse_pg pf) env dsn with
  | Err err => Err err
  | Ok cfg =>
      match pf_open_pg pf cfg with
      | Some err => Err (EWrap "create pool" err)
      | None => Ok cfg
      end
  end.

(** The cleanup function, as its acts, or the error. *)
Definition InitDeps (databaseURL redisURL : string) : M (list act) (result (list act) goerr) :=
  match open_pool databaseURL with
  | Err err => ret (Err err)
  | Ok _ =>
      let* _ := act1 (Open RsPool) in
      match NewClient redisURL with
      | Err err => let* _ := act1 (Close RsPool) in ret (Err err)
      | Ok _ => let* _ := act1 (Open RsRedis) in ret (Ok [Close RsRedis; Close RsPool])
      end
  end.

(** ** internal/nats: Connect, InitStream and Consumer.Run *)

Definition Connect (url name : string) : M (list act) (option goerr) :=
  let opts := MkConnectOptions url name (-1) (2 * Second) (500 * 1000000, 2 * Second) true
                (20 * Second) 5 None in
  match pf_connect pf opts with
  | Some err => ret (Some err)
  | None => let* _ := act1 (Open RsNats) in ret None
  end.

Definition init_stream : option goerr :=
  match pf_jetstream pf with
  | Some err => Some (EWrap "jetstream.New" err)
  | None =>
      match pf_create_stream pf InitStream with
      | Some err => Some (EWrap ("create stream " +:+ StreamName) err)
      | None => None
      end
  end.

(** Whether transfer-service publishes events ([transfer_publisher] of
    Services) and account-service runs the projection. *)
Definition jetstream_up : bool := match init_stream with Some _ => false | None => true end.

(** The endpoints in the order in which the map of handlers is iterated,
    which Go leaves open. [false]: one could not be added. *)
Fixpoint add_endpoints (prefix : string) (pendingMsgs : Z) (actions : list string)
    : M (list act) bool :=
  match actions with
  | [] => ret true
  | action :: rest =>
      let subject := prefix +:+ "." +:+ action in
      match pf_add_endpoint pf subject with
      | Some _ => ret false
      | None =>
          let* _ := act1 (Endpoint action subject pendingMsgs (pendingMsgs * 4096)) in
          add_endpoints prefix pendingMsgs rest
      end
  end.

(** [Consumer.Run]; [shared]: a connection was injected with [WithConn]. *)
Definition consumer_run {W} (c : Consumer W) (url : string) (shared : bool)
    (actions : list string) : M (list act) unit :=
  func (
    let* connected :=
      (if shared then ret true
       else
         let* err := doing (Connect url (c_name c)) in
         match err with
         | Some _ => ret false
         | None => let* _ := defer [Close RsNats] in ret true
         end) in
    if negb connected then ret tt
    else
      match pf_add_service pf (c_name c) with
      | Some _ => ret tt
      | None =>
          let* _ := doing (act1 (Open RsMicro)) in
          let* _ := defer [Close RsMicro] in
          let* all := doing (add_endpoints (c_subjectPrefix c) (c_pendingMsgs c) actions) in
          if all then doing (act1 Await) else ret tt
      end).

(** ** account-service: runBalanceProjection *)

(** The goroutine up to the point where it waits for its context. *)
Definition runBalanceProjection : M (list act) unit :=
  match pf_consumer pf NewBalanceConsumer with
  | Some _ => ret tt
  | None =>
      match pf_consume pf with
      | Some _ => ret tt
      | None => act1 (Open RsProjection)
      end
  end.

(** ** main.go of the services

    The consumers that the [run] functions build are in Services. *)

(** The fields that [env.Parse] fills; AdminSecret in account-service only. *)
Record config := MkConfig {
  cfg_Port : string;
  cfg_NATSURL : string;
  cfg_DatabaseURL : string;
  cfg_RedisURL : string;
  cfg_AdminSecret : string;
  cfg_OTLPEndpoint : string;
}.

Definition http_server (cfg : config) (routes : list string) (writeTimeout : Z) : HttpServer :=
  MkHttpServer (":" +:+ cfg_Port cfg) routes (10 * Second) writeTimeout.

(** What [Wait] of the errgroup returns in the end; Lifecycle says which
    values it can have. *)
Context (wait : option goerr).

(** [service.NewRunner(...).Run(ctx)]. *)
Definition Run (s : HttpServer) : M (list act) (option goerr) :=
  let* _ := act1 (Serve s) in ret (run_result wait).

Definition run_auth (cfg : config) : M (list act) (option goerr) :=
  func (
    let* shutdownTracing := doing (Init "auth-service" (cfg_OTLPEndpoint cfg)) in
    let* _ := defer shutdownTracing in
    let* d := doing (InitDeps (cfg_DatabaseURL cfg) (cfg_RedisURL cfg)) in
    match d with
    | Err err => ret (Some err)
    | Ok cleanup =>
        let* _ := defer cleanup in
        doing (Run (http_server cfg ["/health"; "/metrics"] (30 * Second)))
    end).

Definition run_account (cfg : config) : M (list act) (option goerr) :=
  func (
    let* shutdownTracing := doing (Init "account-service" (cfg_OTLPEndpoint cfg)) in
    let* _ := defer shutdownTracing in
    let* d := doing (InitDeps (cfg_DatabaseURL cfg) (cfg_RedisURL cfg)) in
    match d with
    | Err err => ret (Some err)
    | Ok cleanup =>
        let* _ := defer cleanup in
        let* nc := doing (Connect (cfg_NATSURL cfg) "account-service") in
        match nc with
        | Some err => ret (Some err)
        | None =>
            let* _ := defer [Close RsNats] in
            let* _ := if jetstream_up then doing runBalanceProjection else ret tt in
            doing (Run (http_server cfg ["/health"; "/metrics"] (30 * Second)))
        end
    end).

Definition run_transfer (cfg : config) : M (list act) (option goerr) :=
  func (
    let* shutdownTracing := doing (Init "transfer-service" (cfg_OTLPEndpoint cfg)) in
    let* _ := defer shutdownTracing in
    let* d := doing (InitDeps (cfg_DatabaseURL cfg) (cfg_RedisURL cfg)) in
    match d with
    | Err err => ret (Some err)
    | Ok cleanup =>
        let* _ := defer cleanup in
        let* nc := doing (Connect (cfg_NATSURL cfg) "transfer-service") in
        match nc with
        | Some err => ret (Some err)
        | None =>
            let* _ := defer [Close RsNats] in
            (* [jetstream_up] is the argument of [transfer_consumer] *)
            doing (Run (http_server cfg ["/health"; "/metrics"] (30 * Second)))
        end
    end).

Definition run_notification (cfg : config) : M (list act) (option goerr) :=
  func (
    let* shutdownTracing := doing (Init "notification-service" (cfg_OTLPEndpoint cfg)) in
    let* _ := defer shutdownTracing in
    let* d := doing (InitDeps (cfg_DatabaseURL cfg) (cfg_RedisURL cfg)) in
    match d with
    | Err err => ret (Some err)
    | Ok cleanup =>
        let* _ := defer cleanup in
        (* WebSocket connections are long-lived: no write deadline *)
        doing (Run (http_server cfg ["/health"; "/metrics"; "/ws"] 0))
    end).

Definition run_service (s : Service) : config -> M (list act) (option goerr) :=
  match s with
  | SAuth => run_auth
  | SAccount => run_account
  | STransfer => run_transfer
  | SNotification => run_notification
  end.

(** The four [main] functions; [parse] is [env.Parse]. The exit code. *)
Definition service_main (s : Service) (parse : gmap string string -> result config goerr)
    : M (list act) Z :=
  match parse env with
  | Err _ => ret 1
  | Ok cfg =>
      let* err := run_service s cfg in
      match err with Some _ => ret 1 | None => ret 0 end
  end.

(** ** The producer's main *)

Record producer_config := MkProducerConfig {
  pc_Port : string;
  pc_NATSURL : string;
  pc_ResponseTimeout : Z;
  pc_CORSOrigins : list string;
  pc_OTLPEndpoint : string;
}.

Definition loadConfig (parse : gmap string string -> result producer_config goerr)
    : result producer_config goerr :=
  match parse env with
  | Err err => Err (EWrap "parse config" err)
  | Ok cfg => Ok cfg
  end.

(** The share of the requests that NATS traces; what the variable holds
    counts when it is a number between 0 and 1. *)
Definition in_unit (f : float64) : bool :=
  match f with
  | FFin neg m e =>
      (m =? 0) || (negb neg && (if 0 <=? e then m * 2 ^ e <=? 1 else m <=? 2 ^ (- e)))
  | _ => false
  end.

Definition default_rate : float64 :=
  match ParseFloat "0.01" with Ok v => v | Err _ => FNaN end.

Definition natsTraceSampleRate : float64 :=
  let s := default "" (env !! "NATS_TRACE_SAMPLE_RATE") in
  if negb (bool_decide (s = "")) then
    match ParseFloat s with
    | Ok v => if in_unit v then v else default_rate
    | Err _ => default_rate
    end
  else default_rate.

(** [None]: the process has exited, with [os.Exit(1)]. *)
Definition newRPCClient (cfg : producer_config) : M (list act) (option unit) :=
  let opts := MkConnectOptions (pc_NATSURL cfg) "api-producer" (-1) (2 * Second)
                (500 * 1000000, 2 * Second) true (20 * Second) 5 (Some (8 * 1024 * 1024)) in
  match pf_connect pf opts with
  | Some _ => ret None
  | None => let* _ := act1 (Open RsNats) in ret (Some tt)
  end.

(** [os.Exit] does not run the deferred calls of [main], so [main] is no
    [func]: its one deferred call, [shutdownTracing], runs on the last path
    only. The signal goroutine drains the connection. *)
Definition producer_main (parse : gmap string string -> result producer_config goerr)
    : M (list act) Z :=
  match loadConfig parse with
  | Err _ => ret 1
  | Ok cfg =>
      let* shutdownTracing := Init "api-producer" (pc_OTLPEndpoint cfg) in
      let* client := newRPCClient cfg in
      match client with
      | None => ret 1
      | Some _ =>
          let* _ := act1 (Serve (MkHttpServer (serverAddr (pc_Port cfg))
                      (["/metrics"; "/health"] ++ map rt_pattern routes)
                      (10 * Second) (wrap64 (pc_ResponseTimeout cfg + 15 * Second)))) in
          let* _ := act1 (Close RsNats) in
          match wait with
          | Some _ => ret 1
          | None => let* _ := acts shutdownTracing in ret 0
          end
      end
  end.
End Startup.
