(* ===== verification/StartupCorrect.v ===== *)
(** * Theorems on start-up and shut-down

    What every service opens it releases, in the reverse order and around
    its run ([run_service_trace]); how a process can end ([service_main_exit]);
    what the consumer registers ([consumer_run_trace]); and the deferred
    flush of the producer, which no run reaches ([producer_never_flushes]). *)

From S2P Require Import Prelude GoStrings GoFloat Json Tables Sql Servers Db RedisClient Consumer.
From S2P Require Import Events Producer Services Lifecycle LifecycleCorrect Startup.

(** ** Reading a trace *)

Definition opens (tr : list act) : list resource :=
  omap (fun a => match a with Open r => Some r | _ => None end) tr.

Definition closes (tr : list act) : list resource :=
  omap (fun a => match a with Close r => Some r | _ => None end) tr.

Section Services.
Context (pf : Platform) (env : gmap string string).

(** ** What is expected of a service *)

(** The first step of the start-up that fails, with the error that it is
    reported with. *)
Definition boot_error (s : Service) (cfg : config) : option goerr :=
  match open_pool pf env (cfg_DatabaseURL cfg), NewClient pf (cfg_RedisURL cfg) with
  | Err err, _ => Some err
  | Ok _, Err err => Some err
  | Ok _, Ok _ =>
      match s with
      | SAuth | SNotification => None
      | SAccount => (Connect pf (cfg_NATSURL cfg) "account-service" []).1
      | STransfer => (Connect pf (cfg_NATSURL cfg) "transfer-service" []).1
      end
  end.

Definition service_name (s : Service) : string :=
  match s with
  | SAuth => "auth-service" | SAccount => "account-service"
  | STransfer => "transfer-service" | SNotification => "notification-service"
  end.

(** The server that a service runs. *)
Definition server_of (s : Service) (cfg : config) : HttpServer :=
  match s with
  | SNotification => http_server cfg ["/health"; "/metrics"; "/ws"] 0
  | _ => http_server cfg ["/health"; "/metrics"] (30 * Second)
  end.

(** What nobody releases: the exporter when the resource description fails
    after it was made, and the projection, whose context is the background
    context and is never cancelled. *)
Definition never_released (s : Service) (r : resource) : bool :=
  match r with
  | RsExporter => match pf_resource pf (service_name s) with Some _ => true | None => false end
  | RsProjection => true
  | _ => false
  end.

Definition released (s : Service) (rs : list resource) : list resource :=
  reverse (List.filter (fun r => negb (never_released s r)) rs).

Definition needs (s : Service) : list resource :=
  match s with
  | SAuth | SNotification => [RsPool; RsRedis]
  | SAccount | STransfer => [RsPool; RsRedis; RsNats]
  end.

Lemma released_app s l1 l2 : released s (l1 ++ l2) = released s l2 ++ released s l1.
Proof. unfold released. by rewrite List.filter_app, reverse_app. Qed.

(** A trace that opens [os], runs [servers] and releases [os]. *)
Definition bracket (s : Service) (os : list resource) (servers : list HttpServer) : list act :=
  map Open os ++ map Serve servers ++ map Close (released s os).

Lemma read_open l : opens (map Open l) = l /\ closes (map Open l) = [].
Proof. induction l as [|r l [E1 E2]]; [done|]. split; [exact (f_equal (cons r) E1)|exact E2]. Qed.
Lemma read_close l : opens (map Close l) = [] /\ closes (map Close l) = l.
Proof. induction l as [|r l [E1 E2]]; [done|]. split; [exact E1|exact (f_equal (cons r) E2)]. Qed.
Lemma read_serve l : opens (map Serve l) = [] /\ closes (map Serve l) = [].
Proof. by induction l. Qed.

Lemma bracket_spec s os servers :
  opens (bracket s os servers) = os /\ closes (bracket s os servers) = released s os.
Proof.
  destruct (read_open os) as [Eo Ec], (read_serve servers) as [Eo1 Ec1],
    (read_close (released s os)) as [Eo2 Ec2].
  unfold bracket, opens, closes in *. rewrite !omap_app, Eo, Eo1, Eo2, Ec, Ec1, Ec2.
  by rewrite app_nil_r.
Qed.

(** What [tracing.Init] opens. *)
Definition tracing_opened (s : Service) (otlpEndpoint : string) : list resource :=
  RsCollector ::
  (if bool_decide (otlpEndpoint = "") then []
   else match pf_otlp pf (otlp_endpoint otlpEndpoint) with
        | Some _ => []
        | None => RsExporter :: match pf_resource pf (service_name s) with
                                | Some _ => [] | None => [RsProvider] end
        end).

Lemma Init_trace s ep tr :
  Init pf (service_name s) ep tr =
    (map Close (released s (tracing_opened s ep)), tr ++ map Open (tracing_opened s ep)).
Proof.
  unfold Init, tracing_opened, released, act1, bind, ret.
  destruct (bool_decide (ep = "")); [done|]. destruct (pf_otlp _ _); [done|].
  cbn [never_released List.filter]. destruct (pf_resource _ _) eqn:E; cbn; rewrite ?E; cbn;
    by rewrite <- !app_assoc.
Qed.

(** A run that opens [l] after the tracing and defers its release. *)
Lemma bracket_scope s ep l servers :
  (map Open (tracing_opened s ep) ++ map Open l ++ map Serve servers) ++
    map Close (released s l) ++ map Close (released s (tracing_opened s ep)) =
  bracket s (tracing_opened s ep ++ l) servers.
Proof. unfold bracket. by rewrite released_app, !map_app, <- !app_assoc. Qed.

(** The result of a service whose trace is a bracket around [os]. *)
Definition run_outcome (wait : option goerr) (s : Service) (cfg : config) (res : option goerr)
    (servers : list HttpServer) (os : list resource) : Prop :=
  match boot_error s cfg with
  | Some err => res = Some err /\ servers = []
  | None => res = run_result wait /\ servers = [server_of s cfg] /\ needs s ⊆ os
  end.

Ltac bracket_leaf Hb l servers :=
  eexists _, l, servers; split;
  [rewrite <- Hb; f_equal; cbn -[http_server]; rewrite ?app_nil_r, <- ?app_assoc; reflexivity
  |split_and!; try reflexivity; try set_solver].

Lemma run_service_bracket wait s cfg :
  exists res l servers,
    run_service pf env wait s cfg [] =
      (res, bracket s (tracing_opened s (cfg_OTLPEndpoint cfg) ++ l) servers) /\
    run_outcome wait s cfg res servers l.
Proof.
  pose proof (bracket_scope s (cfg_OTLPEndpoint cfg)) as Hb.
  pose proof (Init_trace s (cfg_OTLPEndpoint cfg) []) as Hi. unfold run_outcome, boot_error.
  set (t := tracing_opened s (cfg_OTLPEndpoint cfg)) in *. set (rt := released s t) in *.
  clearbody rt t.
  destruct s; cbn [run_service service_name] in *;
    unfold run_auth, run_account, run_transfer, run_notification, func, InitDeps, Connect,
      runBalanceProjection, Run, doing, defer, act1, bind, ret;
    cbn [fr_trace fr_defers]; rewrite Hi; clear Hi;
    (destruct (open_pool pf env _); [|bracket_leaf Hb (@nil resource) (@nil HttpServer)]);
    (destruct (NewClient pf _); [|bracket_leaf Hb [RsPool] (@nil HttpServer)]).
  - bracket_leaf Hb [RsPool; RsRedis] [server_of SAuth cfg].
  - destruct (pf_connect pf _); [bracket_leaf Hb [RsPool; RsRedis] (@nil HttpServer)|].
    destruct (jetstream_up pf); [|bracket_leaf Hb [RsPool; RsRedis; RsNats] [server_of SAccount cfg]].
    destruct (pf_consumer pf _); [bracket_leaf Hb [RsPool; RsRedis; RsNats] [server_of SAccount cfg]|].
    destruct (pf_consume pf);
      [bracket_leaf Hb [RsPool; RsRedis; RsNats] [server_of SAccount cfg]
      |bracket_leaf Hb [RsPool; RsRedis; RsNats; RsProjection] [server_of SAccount cfg]].
  - destruct (pf_connect pf _); [bracket_leaf Hb [RsPool; RsRedis] (@nil HttpServer)|].
    bracket_leaf Hb [RsPool; RsRedis; RsNats] [server_of STransfer cfg].
  - bracket_leaf Hb [RsPool; RsRedis] [server_of SNotification cfg].
Qed.

(** C37. A service opens its resources, then runs, then releases them, on every
    path: what was opened is released exactly once and in the reverse order,
    except an exporter whose resource description failed and the balance
    projection. It runs exactly when every step of the start-up succeeded,
    with all the resources its handlers use, and then returns what
    Runner.Run returns; otherwise it returns the error of the first step
    that failed. *)
Theorem run_service_trace (wait : option goerr) s cfg :
  let '(res, tr) := run_service pf env wait s cfg [] in
  exists servers,
    tr = map Open (opens tr) ++ map Serve servers ++ map Close (closes tr) /\
    closes tr = released s (opens tr) /\
    match boot_error s cfg with
    | Some err => res = Some err /\ servers = []
    | None => res = run_result wait /\ servers = [server_of s cfg] /\ needs s ⊆ opens tr
    end.
Proof.
  destruct (run_service_bracket wait s cfg) as (res & l & servers & -> & Hr). exists servers.
  destruct (bracket_spec s (tracing_opened s (cfg_OTLPEndpoint cfg) ++ l) servers) as [-> ->].
  split_and!; [done..|]. unfold run_outcome in Hr. destruct (boot_error s cfg); [done|].
  destruct Hr as (-> & -> & Hl). split_and!; [done..|]. set_solver.
Qed.

(** C39. How a service process ends: with exit code 0 only after a signal, when
    the configuration parsed and every step of the start-up succeeded; with
    1 when the configuration does not parse, and then nothing was opened,
    when a step of the start-up failed, or when the HTTP server did. When a
    run has both a signal and a failure of the server, which of the two
    decides is left open. *)
Theorem service_main_exit `{ErrgroupLaws} s parse l p :
  service_reach l p -> finished p ->
  let '(code, tr) := service_main pf env (eg_wait (pr_group p)) s parse [] in
  match parse env with
  | Err _ => code = 1 /\ tr = []
  | Ok cfg =>
      match boot_error s cfg with
      | Some _ => code = 1
      | None => (code = 0 /\ EvSignal ∈ l) \/ (code = 1 /\ exists e, EvFailed e ∈ l)
      end
  end.
Proof.
  intros Hr Hf. pose proof (service_outcome l p Hr Hf) as Ho. unfold service_main.
  destruct (parse env) as [cfg|e]; [|done]. unfold bind.
  destruct (run_service_bracket (eg_wait (pr_group p)) s cfg) as (res & os & servers & -> & Hres).
  unfold run_outcome in Hres. destruct (boot_error s cfg) as [e|].
  - by destruct Hres as [-> _].
  - destruct Hres as [-> _]. destruct (run_result _); [right|left]; naive_solver.
Qed.

(** ** The consumer *)

(** The endpoint of an action can be added. *)
Definition adds {W} (c : Consumer W) (action : string) : bool :=
  match pf_add_endpoint pf (endpoint_subject c action) with Some _ => false | None => true end.

Definition consumer_up {W} (c : Consumer W) (url : string) (shared : bool) : bool :=
  (shared || match (Connect pf url (c_name c) []).1 with Some _ => false | None => true end) &&
  match pf_add_service pf (c_name c) with Some _ => false | None => true end &&
  forallb (adds c) (map_to_list (c_handlers c)).*1.

Definition endpoint_act {W} (c : Consumer W) (action : string) : act :=
  Endpoint action (endpoint_subject c action) (c_pendingMsgs c) (c_pendingMsgs c * 4096).

Lemma add_endpoints_trace {W} (c : Consumer W) actions tr :
  exists added,
    add_endpoints pf (c_subjectPrefix c) (c_pendingMsgs c) actions tr =
      (forallb (adds c) actions, tr ++ map (endpoint_act c) added) /\
    added `prefix_of` actions /\ (forallb (adds c) actions = true -> added = actions).
Proof.
  revert tr. induction actions as [|a actions IH]; intros tr; cbn [add_endpoints forallb].
  { exists []. split_and!; [by rewrite app_nil_r|done|done]. }
  change (c_subjectPrefix c +:+ "." +:+ a) with (endpoint_subject c a).
  destruct (pf_add_endpoint pf (endpoint_subject c a)) as [e|] eqn:E.
  - assert (adds c a = false) as -> by (unfold adds; by rewrite E).
    exists []. split_and!; [by rewrite app_nil_r|apply prefix_nil|done].
  - assert (adds c a = true) as -> by (unfold adds; by rewrite E).
    unfold bind, act1. fold (endpoint_act c a).
    destruct (IH (tr ++ [endpoint_act c a])) as (added & -> & Hp & Hall).
    exists (a :: added). rewrite <- app_assoc. split_and!; [done|by apply prefix_cons|].
    intros Hd. by rewrite Hall.
Qed.

(** C40. What Consumer.Run does, whatever order the map of handlers is iterated
    in: it waits for its context exactly when the connection, the micro
    service and every endpoint could be set up, and then every handler of
    the service has its endpoint, on its own subject; otherwise it returns
    at once, after some endpoints. In every case it stops the micro service
    it registered, and drains the connection exactly when it opened it. *)
Theorem consumer_run_trace {W} (c : Consumer W) url shared actions :
  actions ≡ₚ (map_to_list (c_handlers c)).*1 ->
  let '(_, tr) := consumer_run pf c url shared actions [] in
  exists os added,
    tr = map Open os ++ map (endpoint_act c) added ++
         (if consumer_up c url shared then [Await] else []) ++ map Close (reverse os) /\
    added `prefix_of` actions /\
    (consumer_up c url shared = true ->
       added = actions /\ os = if shared then [RsMicro] else [RsNats; RsMicro]) /\
    (RsNats ∈ os -> shared = false).
Proof.
  intros Hacts. unfold consumer_up.
  assert (forallb (adds c) (map_to_list (c_handlers c)).*1 = forallb (adds c) actions) as ->.
  { apply eq_true_iff_eq. rewrite !forallb_forall. split; intros H x Hx; apply H;
      rewrite <- !list_elem_of_In in *; by rewrite Hacts in *. }
  unfold consumer_run, func, Connect, doing, defer, act1, bind, ret. destruct shared.
  - cbn. destruct (pf_add_service pf (c_name c)) as [e|].
    { exists [], []. by split_and!; [|apply prefix_nil| |intros ?%not_elem_of_nil]. }
    cbn [fr_trace fr_defers app].
    destruct (add_endpoints_trace c actions [Open RsMicro]) as (added & -> & Hp & Hall).
    destruct (forallb (adds c) actions); cbn; exists [RsMicro], added;
      (split_and!; [by rewrite <- ?app_assoc|done|by auto|set_solver]).
  - cbn. destruct (pf_connect pf _) as [e|]; cbn.
    { exists [], []. by split_and!; [|apply prefix_nil| |intros ?%not_elem_of_nil]. }
    destruct (pf_add_service pf (c_name c)) as [e|].
    { exists [RsNats], []. by split_and!; [|apply prefix_nil| |]. }
    cbn [fr_trace fr_defers app].
    destruct (add_endpoints_trace c actions [Open RsNats; Open RsMicro]) as (added & -> & Hp & Hall).
    destruct (forallb (adds c) actions); cbn; exists [RsNats; RsMicro], added;
      (split_and!; [by rewrite <- ?app_assoc|done|by auto|done]).
Qed.

(** ** The producer *)

(** Whatever the variable holds, the rate is a number between 0 and 1. *)
Lemma sample_rate_bounds : in_unit (natsTraceSampleRate env) = true.
Proof.
  unfold natsTraceSampleRate. assert (in_unit default_rate = true) by (vm_compute; reflexivity).
  repeat case_match; done.
Qed.

(** The deferred shutdown of the tracing in the producer's main never
    runs: [os.Exit] skips it on every failure, and Wait, which comes back
    only after an error, is followed by [os.Exit] too. So every producer
    process that ends does so with code 1 and without a flush; only its
    connection is drained. *)
Theorem producer_never_flushes `{ErrgroupLaws} parse l p :
  producer_reach l p -> finished p ->
  let '(code, tr) := producer_main pf env (eg_wait (pr_group p)) parse [] in
  code = 1 /\ closes tr = if decide (RsNats ∈ opens tr) then [RsNats] else [].
Proof.
  intros Hr (Hrpc & _). destruct (producer_wait l p Hr (or_intror Hrpc)) as [e He].
  unfold producer_main, loadConfig. rewrite He. destruct (parse env) as [cfg|e1]; [|done].
  unfold Init, newRPCClient, act1, bind, ret.
  destruct (bool_decide _); [|destruct (pf_otlp _ _); [|destruct (pf_resource _ _)]];
    cbn [app]; destruct (pf_connect pf _); done.
Qed.
End Services.

(** ** Witnesses *)

(** Everything works, except what is named. *)
Definition demo_platform (resource stream : option goerr) : Platform := {|
  pf_otlp _ := None;
  pf_resource _ := resource;
  pf_parse_pg _ := Ok {| MaxConns := 4; MinConns := 0; MaxConnLifetime := 0; MaxConnIdleTime := 0;
                         HealthCheckPeriod := 0; RuntimeParams := ∅ |};
  pf_open_pg _ := None;
  pf_parse_redis _ := Ok (MkRedisOptions "redis:6379" "" 0 0 None);
  pf_connect _ := None;
  pf_jetstream := None;
  pf_create_stream _ := stream;
  pf_consumer _ := None;
  pf_consume := None;
  pf_add_service _ := None;
  pf_add_endpoint _ := None;
|}.

Definition demo_config : config :=
  MkConfig "8002" "nats://nats:4222" "postgresql://postgres/banking" "redis://redis:6379/0" "secret"
    "http://agent:4317".

(** Tests: the client name of Redis, and the life of account-service. *)
Example redis_client_name :
  NewClient (demo_platform None None) "redis://redis:6379/0" =
    Ok (MkRedisOptions "redis:6379" "redis" (30 * Minute) (30 * Second)
          (Some (100 * 1000000, 5 * Second))).
Proof. reflexivity. Qed.

Example account_trace :
  (run_account (demo_platform None None) ∅ (Some errShutdown) demo_config []).2 =
    map Open [RsCollector; RsExporter; RsProvider; RsPool; RsRedis; RsNats; RsProjection] ++
    [Serve (http_server demo_config ["/health"; "/metrics"] (30 * Second))] ++
    map Close [RsNats; RsRedis; RsPool; RsProvider; RsExporter; RsCollector].
Proof. reflexivity. Qed.

Example sample_rates :
  map (fun s => natsTraceSampleRate {["NATS_TRACE_SAMPLE_RATE" := s]})
    ["1"; "0"; "-0"; "0.25"; "1.0000000000000002"; "-0.5"; "NaN"; "+Inf"; "5%"; "1e400"] =
  [FFin false 1 0; FFin false 0 0; FFin true 0 0; FFin false (2 ^ 52) (-54);
   default_rate; default_rate; default_rate; default_rate; default_rate; default_rate].
Proof. vm_compute. reflexivity. Qed.

Lemma service_main_exit_witness :
  let '(code, tr) := service_main (demo_platform None None) ∅ (Some errShutdown) SAccount
                       (fun _ => Ok demo_config) [] in
  (code = 0 /\ EvSignal ∈ shutdown_events) \/ (code = 1 /\ exists e, EvFailed e ∈ shutdown_events).
Proof.
  apply (service_main_exit (demo_platform None None) ∅ SAccount (fun _ => Ok demo_config)
           shutdown_events (ref_proc true true SReturned true (Some errShutdown))).
  - apply clean_shutdown.
  - by split_and!.
Defined.

Definition demo_consumer : Consumer unit :=
  NewConsumer "demo" "banking.demo"
    [WithHandler "a" (fun _ _ _ _ => ret (Ok (AVal JNull)));
     WithHandler "b" (fun _ _ _ _ => ret (Ok (AVal JNull)))].

Lemma consumer_run_trace_witness :
  let '(_, tr) := consumer_run (demo_platform None None) demo_consumer "nats://nats:4222" false
                    (map_to_list (c_handlers demo_consumer)).*1 [] in
  exists os added,
    tr = map Open os ++ map (endpoint_act demo_consumer) added ++
         (if consumer_up (demo_platform None None) demo_consumer "nats://nats:4222" false
          then [Await] else []) ++ map Close (reverse os) /\
    added `prefix_of` (map_to_list (c_handlers demo_consumer)).*1 /\
    (consumer_up (demo_platform None None) demo_consumer "nats://nats:4222" false = true ->
       added = (map_to_list (c_handlers demo_consumer)).*1 /\ os = [RsNats; RsMicro]) /\
    (RsNats ∈ os -> false = false).
Proof.
  apply (consumer_run_trace (demo_platform None None) demo_consumer "nats://nats:4222" false).
  reflexivity.
Defined.

(** The HTTP server of the producer fails to listen. *)
Definition listen_error : goerr := EOther "listen tcp :8080: bind: address already in use".
Definition failure_events : list event := [EvFailed listen_error; EvCancelled; EvDrained; EvStopped].

Lemma failed_producer :
  producer_reach failure_events (ref_proc true true SReturned true (Some listen_error)).
Proof.
  apply (reach_step _ _ [EvFailed listen_error; EvCancelled; EvDrained]
           (ref_proc false true SReturned true (Some listen_error)) EvStopped).
  - apply (reach_step _ _ [EvFailed listen_error; EvCancelled]
             (ref_proc false true SDraining true (Some listen_error)) EvDrained).
    + apply (reach_step _ _ [EvFailed listen_error]
               (ref_proc false true SWaiting false (Some listen_error)) EvCancelled).
      * apply (reach_step _ _ [] started (EvFailed listen_error)); [apply reach_started|].
        exact (@step_failed ref_errgroup None false false SWaiting None listen_error eq_refl).
      * exact (@step_cancelled ref_errgroup None false false true false (Some listen_error) eq_refl).
    + exact (@step_drained ref_errgroup None false false true true (Some listen_error)).
  - exact (@step_stopped ref_errgroup None false true SReturned true (Some listen_error) eq_refl).
Qed.

Lemma producer_never_flushes_witness :
  let '(code, tr) := producer_main (demo_platform None None) ∅ (Some listen_error)
    (fun _ => Ok (MkProducerConfig "8080" "nats://nats:4222" (60 * Second) [] "http://agent:4317")) [] in
  code = 1 /\ closes tr = if decide (RsNats ∈ opens tr) then [RsNats] else [].
Proof.
  apply (producer_never_flushes (demo_platform None None) ∅
    (fun _ => Ok (MkProducerConfig "8080" "nats://nats:4222" (60 * Second) [] "http://agent:4317"))
    failure_events (ref_proc true true SReturned true (Some listen_error))).
  - apply failed_producer.
  - by split_and!.
Defined.
